(* ===== verification/_CoqProject ===== *)
-Q . S2P
Prelude.v
Memory.v
Errors.v
GoStrings.v
Hex.v
Json.v
Utf8.v
GoNet.v
Effects.v
Trie.v
Util.v
Retry.v
Caches.v
Kubernetes.v
Conditions.v
Provisioning.v
ProvisioningLog.v
References.v
Manager.v
Concurrency.v
Combinators.v
CD.v
RemoteCluster.v
RefreshCache.v
RefreshSystem.v
Invalidation.v
ServerErrors.v
Saga.v
ServerUtil.v
Conversion.v
ArgoCD.v
ArgoCDFacts.v
Application.v
Stack.v
ResourceProvisioner.v
ApiTypes.v
HTTPClient.v
Messaging.v
Middleware.v
OpenTelemetry.v
Bootstrap.v
ProvisionerUtil.v
TestClient.v
ValidateOpenAPI.v
CheckLicense.v
DeepCopy.v
DeepCopyArgo.v
Labels.v
ApiSchema.v
DocsGenerate.v
OpenAPISchema.v
Ownership.v
Convergence.v
World.v
Lifecycle.v
Flags.v
Contexts.v
TestSupport.v
