(* ===== verification/Prelude.v ===== *)
(** * A verification library for the Unikorn core platform library

    The repository (github.com/unikorn-cloud/core, Go, under src/) is the
    library the Unikorn services are built on: a reconciler that drives
    resources through provisioners, a continuous-deployment driver the
    provisioners deploy with, and the request handling, conversion and caching
    code of the API servers.  This development models its own logic, and proves
    what makes it correct.

    ** How the program fits together

    A controller runs the reconciler of pkg/manager for one type of resource.
    A reconcile reads the resource, takes or releases its finalizer, runs the
    resource's root provisioner and writes the outcome to its Available
    condition.  The root provisioner is a tree: serial, concurrent and
    conditional groups, remote clusters that redirect their children elsewhere,
    and, at the leaves, applications and single objects.  Applications are
    generated from a chart's version and handed to the driver of pkg/cd/argocd.
    On the other side, an API server makes the resource from a request, projects
    its conditions onto the API (pkg/server/conversion), answers errors
    (pkg/server/errors), runs sagas, and caches what it lists in
    pkg/util/cache/refresh_ahead.go.

    ** How code is modelled

    - Effects.v: a function that calls what the code does not control (the
      Kubernetes API, a driver, hooks) is a [prog] over a signature of calls, a
      call a Go pointer is passed to answering the content it leaves there.
      [exec p t r]: [p] may make exactly the calls of [t], with these answers, and
      return [r]; answers are not constrained, so theorems hold for any
      environment.  [run] and [outcome] execute a program against a handler.
    - Concurrency.v: [par] adds errgroup groups, whose members' calls are
      interleaved in every way; programs without a group are lifted into it.
    - Errors.v: error values with errors.Is and errors.As over their chains.
    - GoStrings.v, Hex.v, Utf8.v, GoNet.v, Json.v: the standard library functions
      the code uses (strings and strconv, hexadecimal, UTF-8, IP addresses, JSON).
    - Kubernetes.v: apimachinery and controller-runtime are type classes with the
      laws they document, with reference instances that satisfy them.
    - Memory.v: where sharing is the point (deep copies), pointers, slices and
      maps are locations of a heap, and a struct is a record over the type of its
      references; a [Copier] is a copy that is deep.

    Go maps are gmaps, and a range over one visits it in an order that is a
    parameter ([MapOrder], below).  A nil pointer is [None].  Unsigned 64-bit
    counters are [Z] with their wrap-around.  A dereference that panics is a
    distinguished answer ([Panicked]) or a call that is never answered ([Panic]).
    Programs are finite trees, so each of them returns on every environment that
    answers.  Fuel stands for loops the environment ends: the attempts of
    Util.GenerateResourceID and of the derived identifiers, and the selects of a
    retry (Retry.loop).  Running out of it is a value of its own, and a theorem
    says how much is enough and that more changes nothing.  The serial
    deprovision loop counts down from the length of its group, and GoNet.v reads
    at most the eight groups an IPv6 address has.

    ** Components

    - Conditions.v: pkg/apis/unikorn/v1alpha1 (conditions, tags, the interface
      managed resources implement, and the fake one, which satisfies it) and the
      labels of pkg/constants.  Provisioning.v: pkg/provisioners/errors.go.
      ProvisioningLog.v: pkg/provisioninglog.
    - References.v: pkg/manager/reference.go and readiness.go.  References are
      finalizers; adding and removing them one by one and in bulk is exact on
      every trace.
    - Manager.v: pkg/manager/reconcile.go.  The finalizer is persisted before
      anything is provisioned and released only after a deprovision succeeded;
      a referenced resource is not deprovisioned; what is requeued and what
      parks; what a condition may show of an error; when a transition is logged.
    - Combinators.v: pkg/provisioners/{serial,concurrent,conditional}.  A tree
      succeeds only if its leaves did, whatever the interleaving; its error is a
      leaf's; serial groups are mirrored.
    - CD.v: pkg/cd/types.go, the values of provisioning contexts, kubeconfigs
      and endpoints.  RemoteCluster.v: pkg/provisioners/remotecluster.  The
      registration comes before the first child and goes after the last one,
      under every interleaving of the users of one remote cluster.
    - ArgoCD.v, ArgoCDFacts.v: pkg/cd/argocd/driver.go.  Applications and
      clusters on every trace, and on an API server: convergence and idempotence,
      readiness, deletion, registration as a round trip.
    - Stack.v: all of the above put together, as a controller runs them.  The
      finalizer goes only once every application of the tree was found deleted;
      Provisioned is recorded only once every application was found in place.
    - Ownership.v, Convergence.v, World.v, Lifecycle.v: that the controller of
      Stack.v gets there.  Ownership.v is a logic of programs that interleave in a
      shared world, each with calls of its own (triples, their rules, a rule for
      groups); Convergence.v shows with it that a tree whose leaves do what they
      are told makes progress, whatever the interleaving; World.v is an
      environment that works (an API that answers, getters and generators that
      answer, and an Argo CD that, between two reconciles, brings up what it was
      told to run and removes what it was told to delete); Lifecycle.v runs
      reconciles in it.  A live resource is provisioned, and a deleted one gone,
      after at most one reconcile more than its tree has applications.
    - Application.v: pkg/provisioners/application.  What is generated, when it
      reaches the driver, and that a deprovision deletes what a provision made.
      ResourceProvisioner.v: pkg/provisioners/resource.
    - RefreshCache.v, RefreshSystem.v, Invalidation.v: the refresh-ahead cache.
      RefreshCache.v has its operations; RefreshSystem.v interleaves them with a
      backend as a step relation, with the invariants by rule induction
      (read-your-writes, epochs that identify snapshots); Invalidation.v is the
      machine of Invalidate, its channel, and the refresher (freshness, progress).
    - ServerErrors.v: pkg/server/errors.  Saga.v: pkg/server/saga.  ServerUtil.v:
      pkg/server/util.  Conversion.v: pkg/server/conversion.  What a client is
      told of an error, all-or-nothing sagas, ownership checks, the status a
      user reads for each outcome of the manager, and metadata read back as it
      was written, through its JSON document.
    - ApiTypes.v: the JSON codecs of pkg/apis/unikorn/v1alpha1/types.go (versions,
      addresses, networks): what is decoded, and that it is what was encoded.
      ApiSchema.v: the other documents of pkg/openapi/types.go; a reason the
      manager surfaces is one the schema documents.  Labels.v: the keys and values
      of pkg/constants, which the Kubernetes API accepts.
    - Contexts.v: the values in a context.Context as Go keeps them, keys and all,
      of which the record in CD.v is the abstraction.
    - DeepCopy.v, DeepCopyArgo.v: the deep copies of the API types, generated and
      written out by hand.  A copy is equal to its original and shares nothing
      with it that either could write through.
    - OpenAPISchema.v: pkg/openapi/schema.go and pkg/openapi/helpers: how a
      service's schema is completed with the one embedded here.
    - Messaging.v: pkg/messaging.  The queue reconciles resources into messages;
      the cascading consumer deletes what a deleted resource owned.  Their
      composition on an API server is complete and idempotent.
    - Middleware.v: pkg/server/middleware and pkg/openapi/helpers: routing, CORS,
      deadlines, logging and response capture as handlers over the writer's calls.
      What reaches a handler, what a preflight is answered, what a log may show.
      OpenTelemetry.v: the tracing middleware and its attributes.
    - HTTPClient.v: pkg/client/http.go.  TLS configuration from secrets, the
      certificate source over any session of handshakes, signed payloads.
    - Bootstrap.v: pkg/client/client.go, the register.go files, pkg/options and
      pkg/manager/manager.go: in which order a controller starts, and how its
      process ends.  Flags.v: the flags of controllers, servers and clients, over
      an interface to the flag library; none is defined twice.
    - Caches.v: the cache of one value with a deadline, refining its
      specification, and the expiring LRU cache over a heap, where copying keeps
      callers apart (timeout_cache.go, lruexpirecache.go of pkg/util/cache).
      Trie.v: pkg/util/trie, refining a set of words.  Retry.v: pkg/util/retry.
      Util.v: pkg/util/resource.go and Keys.  ProvisionerUtil.v:
      pkg/provisioners/util and the network helpers of pkg/util/util.go.
    - TestClient.v: the API client of pkg/testing, whose token goes nowhere but
      into one header, and the configuration of tests.  TestSupport.v: how that is
      loaded, contract providers, names of test resources.
    - ValidateOpenAPI.v, CheckLicense.v: the programs hack/validate_openapi and
      hack/check_license, against declarative statements of what they check.
      DocsGenerate.v: hack/docs-generate, whose exit status is exact.

    ** What is not modelled

    Log messages, except where they are the component (the provisioning log, the
    request log) or could leak to a client.  Generated mocks and client bindings,
    and the text of the embedded schema.  Third-party code (Kubernetes clients, TLS
    and signing, the OpenAPI router, tracing, flag parsing) is a class with the
    laws its documentation states, or calls that anything may answer.  Data races:
    operations guarded by a lock are steps.  The environment of World.v is an
    assumption of the theorems of Lifecycle.v alone; the safety theorems hold for
    any answers. *)

From stdpp Require Export prelude strings gmap fin_maps list option sorting.

(** ** Results: Go's [(T, error)] return convention. *)

Inductive fallible (E A : Type) : Type :=
| Ok (a : A)
| Err (e : E).

Arguments Ok {E A} a.
Arguments Err {E A} e.

#[export] Instance fallible_eq_dec E A `{EqDecision E, EqDecision A} : EqDecision (fallible E A).
Proof. solve_decision. Defined.

Definition is_ok {E A : Type} (r : fallible E A) : bool :=
  match r with Ok _ => true | Err _ => false end.

(** ** Strings *)

(** strings.Join. *)
Fixpoint strings_Join (sep : string) (l : list string) : string :=
  match l with
  | [] => ""
  | [s] => s
  | s :: l' => s +:+ sep +:+ strings_Join sep l'
  end.

(** ** Lists *)

(** slices.DeleteFunc: drop the elements that satisfy the predicate. *)
Definition delete_func {A : Type} (p : A -> bool) (l : list A) : list A :=
  base.filter (fun x => negb (p x) = true) l.

(** slices.Contains. *)
Definition contains {A : Type} `{EqDecision A} (l : list A) (x : A) : bool :=
  bool_decide (x ∈ l).

(** slices.ContainsFunc. *)
Definition contains_func {A : Type} (l : list A) (p : A -> bool) : bool := existsb p l.

(** ** Maps *)

(** The order in which a range over a map happens to visit its keys. *)
Class MapOrder := {
  map_keys {V : Type} : gmap string V -> list string;
  map_keys_perm {V : Type} (m : gmap string V) : map_keys m ≡ₚ (map_to_list m).*1;
}.

(** A range over a map: its entries, in that order. *)
Definition map_range `{MapOrder} {V : Type} (m : gmap string V) : list (string * V) :=
  omap (fun k => pair k <$> m !! k) (map_keys m).

(** ** Lemmas on lists and options the components share *)

Create HintDb go.
Create Rewrite HintDb go.

Lemma contains_true {A} `{EqDecision A} (l : list A) x : contains l x = true <-> x ∈ l.
Proof. apply bool_decide_eq_true. Qed.

Lemma contains_false {A} `{EqDecision A} (l : list A) x : contains l x = false <-> x ∉ l.
Proof. apply bool_decide_eq_false. Qed.

Lemma elem_of_delete_func {A} (p : A -> bool) (l : list A) x :
  x ∈ delete_func p l <-> x ∈ l /\ p x = false.
Proof. unfold delete_func. rewrite list_elem_of_filter, negb_true_iff. tauto. Qed.

Lemma delete_func_nil_iff {A} (p : A -> bool) (l : list A) :
  delete_func p l = [] <-> forall x, x ∈ l -> p x = true.
Proof.
  split.
  - intros H x Hx. destruct (p x) eqn:Hp; [done|].
    assert (x ∈ delete_func p l) as Hd by (by apply elem_of_delete_func).
    rewrite H in Hd. by apply elem_of_nil in Hd.
  - intros H. apply elem_of_nil_inv. intros x [Hx Hp]%elem_of_delete_func.
    rewrite H in Hp by done. done.
Qed.

Lemma contains_func_true {A} (l : list A) (p : A -> bool) :
  contains_func l p = true <-> exists x, x ∈ l /\ p x = true.
Proof.
  unfold contains_func. rewrite existsb_exists.
  split; intros [x [Hx Hp]]; exists x; (split; [by apply list_elem_of_In|done]).
Qed.

Lemma forallb_elem_of {A} (l : list A) (p : A -> bool) :
  forallb p l = true <-> forall x, x ∈ l -> p x = true.
Proof.
  rewrite forallb_forall. split; intros H x Hx; apply H; by apply list_elem_of_In.
Qed.

(** Where an element that is not in the first half of a list was found. *)
Lemma app_split_after {A} (l1 l2 la lb : list A) x :
  l1 ++ l2 = la ++ x :: lb -> x ∉ l1 -> exists k, la = l1 ++ k /\ l2 = k ++ x :: lb.
Proof.
  intros Heq Hx. apply app_eq_inv in Heq as [(k & Hl & Hr)|(k & Hl & Hr)]; [|by exists k].
  destruct k as [|y k]; simplify_eq/=.
  - exists []. by rewrite !app_nil_r in *.
  - exfalso. apply Hx. set_solver.
Qed.

(** Of two entries of a list, one is before the other. *)
Lemma elem_before {A} (l1 l2 k1 k2 : list A) x y :
  l1 ++ x :: l2 = k1 ++ y :: k2 -> y ∉ l1 -> x <> y -> x ∈ k1.
Proof.
  revert k1. induction l1 as [|z l1 IH]; intros [|w k1] Heq Hn Hne; simplify_eq/=; [left|set_solver|].
  right. apply (IH k1); [done|set_solver|done].
Qed.

Lemma omap_nil_elem {A B} (f : A -> option B) (l : list A) x :
  omap f l = [] -> x ∈ l -> f x = None.
Proof.
  intros Hl Hx. destruct (f x) as [y|] eqn:Hf; [|done].
  assert (y ∈ omap f l) as Hy by (apply list_elem_of_omap; eauto). rewrite Hl in Hy. by apply elem_of_nil in Hy.
Qed.

(** The one element of a list that satisfies a predicate. *)
Lemma filter_singleton_split {A} (P : A -> Prop) `{forall x, Decision (P x)} (l : list A) x :
  base.filter P l = [x] ->
  P x /\ exists l1 l2, l = l1 ++ x :: l2 /\ base.filter P l1 = [] /\ base.filter P l2 = [].
Proof.
  induction l as [|y l IH]; [done|]. destruct (decide (P y)) as [Hy|Hy].
  - rewrite filter_cons_True by done. intros Heq. simplify_eq. split; [done|]. by exists [], l.
  - rewrite filter_cons_False by done. intros (Hx & l1 & l2 & -> & H1 & H2)%IH. split; [done|].
    exists (y :: l1), l2. by rewrite filter_cons_False.
Qed.

Lemma filter_singleton_intro {A} (P : A -> Prop) `{forall x, Decision (P x)} (l1 l2 : list A) x :
  P x -> (forall y, y ∈ l1 ++ l2 -> ~ P y) -> base.filter P (l1 ++ x :: l2) = [x].
Proof.
  intros Hx Hno. assert (forall l, l ⊆ l1 ++ l2 -> base.filter P l = []) as Hnil.
  { intros l Hl. apply elem_of_nil_inv. intros y [Hy Hin]%list_elem_of_filter. apply (Hno y); [|done]. by apply Hl. }
  rewrite filter_app, filter_cons_True, !Hnil by (done || set_solver). done.
Qed.

Lemma fold_left_ext {A B} (f g : A -> B -> A) (l : list B) (a : A) :
  (forall a x, x ∈ l -> f a x = g a x) -> fold_left f l a = fold_left g l a.
Proof.
  revert a. induction l as [|x l IH]; intros a Hfg; [done|]. simpl. rewrite Hfg by set_solver.
  apply IH. intros a' y Hy. apply Hfg. set_solver.
Qed.

Lemma Forall3_map_l {A A' B C} (f : A -> A') (P : A' -> B -> C -> Prop) l k m :
  Forall3 P (map f l) k m <-> Forall3 (fun a => P (f a)) l k m.
Proof.
  split; revert k m; induction l as [|a l IH]; intros k m H; inversion H; subst; constructor; auto.
Qed.

Lemma elem_of_map_keys `{MapOrder} {V} (m : gmap string V) k : k ∈ map_keys m <-> is_Some (m !! k).
Proof.
  rewrite map_keys_perm, list_elem_of_fmap. split.
  - intros ([k' v] & -> & Hin%elem_of_map_to_list). by exists v.
  - intros [v Hv]. exists (k, v). split; [done|]. by apply elem_of_map_to_list.
Qed.

Lemma NoDup_map_keys `{MapOrder} {V} (m : gmap string V) : NoDup (map_keys m).
Proof. rewrite map_keys_perm. apply NoDup_fst_map_to_list. Qed.

Lemma elem_of_map_range `{MapOrder} {V} (m : gmap string V) k v : (k, v) ∈ map_range m <-> m !! k = Some v.
Proof.
  unfold map_range. rewrite list_elem_of_omap. split.
  - intros (k' & _ & Hf). destruct (m !! k') as [v'|] eqn:Hm; by simplify_eq/=.
  - intros Hm. exists k. rewrite elem_of_map_keys, Hm. split; [by eexists|done].
Qed.

Lemma map_range_keys `{MapOrder} {V} (m : gmap string V) : (map_range m).*1 = map_keys m.
Proof.
  unfold map_range. assert (Forall (fun k => is_Some (m !! k)) (map_keys m)) as Hk
    by (apply Forall_forall; intros k; apply elem_of_map_keys).
  induction Hk as [|k l [v Hv] _ IH]; [done|]. csimpl. rewrite Hv. csimpl. by f_equal.
Qed.

(** A range visits every entry, once. *)
Lemma map_range_perm `{MapOrder} {V} (m : gmap string V) : map_range m ≡ₚ map_to_list m.
Proof.
  apply NoDup_Permutation; [|apply NoDup_map_to_list|].
  - apply (NoDup_fmap_1 fst). rewrite map_range_keys. apply NoDup_map_keys.
  - intros [k v]. by rewrite elem_of_map_range, elem_of_map_to_list.
Qed.

#[export] Hint Rewrite @contains_true @contains_false @elem_of_delete_func
  @contains_func_true @forallb_elem_of : go.

(** The order map_to_list has, as one of the orders a range may take. *)
Definition some_map_order : MapOrder.
Proof. by refine {| map_keys V m := (map_to_list m).*1 |}. Defined.
