(* ===== verification/Memory.v ===== *)
(** * Memory: Go's heap, as far as deep copies need it

    The deep-copy methods of the API types are about sharing, so here a pointer,
    a slice or a map is a location, and what it refers to is in a heap.  A type
    with such fields is a record over the type of references: over [Ref] it is
    the struct as it lies in memory, over [option] it is the value the struct
    stands for.  [snapshot h m] reads the value of [m] off the heap [h].

    A heap cell holds a whole allocation: a variable, a backing array or a map.
    [C] is the type of cells, and [Storable C A] says a cell can hold an [A]. *)

From S2P Require Import Prelude.

Abbreviation loc := positive.

(** A pointer to an [A], a slice whose array is the list [A], or a map [A]. *)
Definition Ref (A : Type) : Type := option loc.

Definition nil {A : Type} : Ref A := None.

Class Storable (C A : Type) := {
  to_cell : A -> C;
  of_cell : C -> option A;
  of_to_cell a : of_cell (to_cell a) = Some a;
}.

Abbreviation heap C := (gmap loc C).

(** Programs over the heap; [None] is a panic. *)
Definition mem (C A : Type) : Type := heap C -> option (A * heap C).

#[export] Instance mem_ret C : MRet (mem C) := fun A a h => Some (a, h).

#[export] Instance mem_bind C : MBind (mem C) := fun A B k m h =>
  match m h with Some (a, h') => k a h' | None => None end.

(** A location no cell of the heap has. *)
Definition next {C : Type} (h : heap C) : loc := Pos.succ (map_fold (fun l _ m => Pos.max l m) 1%positive h).

Section operations.
Context {C : Type}.

Definition load {A : Type} `{Storable C A} (l : loc) : mem C A := fun h =>
  match h !! l ≫= of_cell with Some a => Some (a, h) | None => None end.

Definition alloc {A : Type} `{Storable C A} (a : A) : mem C loc := fun h =>
  let l := next h in Some (l, <[ l := to_cell a ]> h).

Definition store {A : Type} `{Storable C A} (l : loc) (a : A) : mem C unit := fun h =>
  match h !! l with Some _ => Some (tt, <[ l := to_cell a ]> h) | None => None end.

Fixpoint for_each {A B : Type} (f : A -> mem C B) (l : list A) : mem C (list B) :=
  match l with
  | [] => mret []
  | a :: l' => b ← f a; bs ← for_each f l'; mret (b :: bs)
  end.

End operations.

(** Reading a value off the heap. *)
Class Snapshot (C M V : Type) := {
  snapshot : heap C -> M -> option V;
  snapshot_mono h h' m v : h ⊆ h' -> snapshot h m = Some v -> snapshot h' m = Some v;
}.

(** ** Facts *)

Lemma next_fresh {C} (h : heap C) : h !! next h = None.
Proof.
  unfold next. destruct (h !! _) as [c|] eqn:Hl; [exfalso|done].
  assert (forall l c, h !! l = Some c -> (l <= map_fold (fun l _ m => Pos.max l m) 1 h)%positive) as Hmax.
  { clear Hl c. apply (map_fold_weak_ind (fun (m : loc) (h : heap C) => forall l c, h !! l = Some c -> (l <= m)%positive)).
    - intros l c Hl. by rewrite lookup_empty in Hl.
    - intros i x m r _ IH l c [[-> _]|[_ Hl]]%lookup_insert_Some; [lia|]. specialize (IH _ _ Hl). lia. }
  specialize (Hmax _ _ Hl). lia.
Qed.

Section facts.
Context {C : Type}.
Implicit Types h : heap C.

(** What [h'] has beyond [h]. *)
Abbreviation beyond h' h := (h' ∖ h).

Lemma beyond_mono h h1 h2 h0 : h0 ⊆ h -> h1 ⊆ h2 -> beyond h1 h ⊆ beyond h2 h0.
Proof.
  intros H0 H1. apply map_subseteq_spec. intros l c [Hl Hn]%lookup_difference_Some.
  apply lookup_difference_Some. split; [by eapply lookup_weaken|by eapply lookup_weaken_None].
Qed.

Lemma beyond_subseteq h' h : beyond h' h ⊆ h'.
Proof. apply map_subseteq_spec. by intros l c [? _]%lookup_difference_Some. Qed.

(** [m] runs without a panic, only adds to the heap, and [Q] holds of its result
    and of what it added since [h0]. *)
Definition adds {A : Type} (h0 h : heap C) (m : mem C A) (Q : A -> heap C -> Prop) : Prop :=
  exists a h', m h = Some (a, h') /\ h ⊆ h' /\ Q a (beyond h' h0).

Lemma adds_ret {A} h0 h (a : A) (Q : A -> heap C -> Prop) : Q a (beyond h h0) -> adds h0 h (mret a) Q.
Proof. intros HQ. by exists a, h. Qed.

Lemma adds_bind {A B} h0 h (m : mem C A) (k : A -> mem C B) P (Q : B -> heap C -> Prop) :
  adds h0 h m P ->
  (forall a h1, h ⊆ h1 -> P a (beyond h1 h0) -> adds h0 h1 (k a) Q) -> adds h0 h (mbind k m) Q.
Proof.
  intros (a & h1 & Hm & Hs & HP) Hk. destruct (Hk a h1 Hs HP) as (b & h2 & Hb & Hs2 & HQ).
  exists b, h2. unfold mbind, mem_bind. rewrite Hm. split_and!; [done|by etrans|done].
Qed.

Lemma adds_weaken {A} h0 h0' h (m : mem C A) (P Q : A -> heap C -> Prop) :
  adds h0' h m P -> h0 ⊆ h0' -> (forall a hn hn', hn ⊆ hn' -> P a hn -> Q a hn') -> adds h0 h m Q.
Proof.
  intros (a & h' & Hm & Hs & HP) H0 HQ. exists a, h'. split_and!; [done..|].
  eapply HQ; [|done]. by apply beyond_mono.
Qed.

End facts.

(** ** Deep copies *)

Section copies.
Context {C : Type}.

(** [into m out] copies [m]: what it leaves reads as [m] does, whatever [out]
    was before, using only cells allocated meanwhile. *)
Definition copies {M V : Type} `{Snapshot C M V} (into : M -> M -> mem C M) : Prop :=
  forall h m out v, snapshot h m = Some v ->
  adds h h (into m out) (fun m' hn => snapshot hn m' = Some v).

(** The same, in the middle of a longer copy. *)
Lemma copies_adds {M V} `{Snapshot C M V} (into : M -> M -> mem C M) h0 h m out v :
  copies into -> h0 ⊆ h -> snapshot h0 m = Some v -> adds h0 h (into m out) (fun m' hn => snapshot hn m' = Some v).
Proof.
  intros Hc Hs Hm. eapply adds_weaken; [apply (Hc h); by eapply snapshot_mono|done|].
  intros. by eapply snapshot_mono.
Qed.

Lemma copies_blank {M V} `{Snapshot C M V} (into : M -> M -> mem C M) (blank : M -> M) :
  copies into -> copies (fun m _ => into m (blank m)).
Proof. intros Hc h m out v. apply Hc. Qed.

(** Values without references. *)
Definition snapshot_plain (A : Type) : Snapshot C A A.
Proof. refine {| snapshot _ a := Some a |}. done. Defined.

(** [*out = *in]. *)
Definition assign {A : Type} (a _ : A) : mem C A := mret a.

Lemma copies_assign {A} : copies (H := snapshot_plain A) assign.
Proof. intros h m out v Hv. by apply adds_ret. Qed.

(** A reference: what it refers to, or nil. *)
#[export] Instance snapshot_ref {M V} `{Storable C M} `{Snapshot C M V} : Snapshot C (Ref M) (option V).
Proof.
  refine {| snapshot h (r : Ref M) :=
    match r with None => Some None | Some l => Some <$> ((h !! l ≫= of_cell) ≫= snapshot h) end |}.
  intros h h' [l|] v Hs; [|done]. destruct (h !! l) as [c|] eqn:Hl; [|done].
  rewrite (lookup_weaken _ _ _ _ Hl Hs). simpl. destruct (of_cell c) as [m|]; [|done]. simpl.
  intros (w & Hw & ->)%fmap_Some. by rewrite (snapshot_mono _ _ _ _ Hs Hw).
Defined.

(** A backing array. *)
#[export] Instance snapshot_list {M V} `{Snapshot C M V} : Snapshot C (list M) (list V).
Proof.
  refine {| snapshot h l := mapM (snapshot h) l |}.
  intros h h' l v Hs. rewrite !mapM_Some. intros Hf. eapply Forall2_impl; [done|]. intros. by eapply snapshot_mono.
Defined.

(** [out := new(T); into(out)], or the same with [make]: a new cell, at first
    [blank], filled from what [l] refers to. *)
Definition copy_cell {M : Type} `{Storable C M} (blank : M -> M) (into : M -> M -> mem C M) (l : loc) : mem C (Ref M) :=
  m ← load l;
  out ← alloc (blank m);
  m' ← into m (blank m);
  _ ← store out m';
  mret (Some out).

(** The same, unless the reference is nil. *)
Definition copy_ref {M : Type} `{Storable C M} (blank : M -> M) (into : M -> M -> mem C M) (r : Ref M) : mem C (Ref M) :=
  match r with
  | None => mret None
  | Some l => copy_cell blank into l
  end.

(** [*out = new(T); **out = **in], for a [T] without references. *)
Definition copy_new {M : Type} `{Storable C M} (zero : M) : Ref M -> mem C (Ref M) := copy_ref (fun _ => zero) assign.

(** The method DeepCopy that goes with a DeepCopyInto. *)
Definition deep_copy {M : Type} `{Storable C M} (zero : M) (into : M -> M -> mem C M) : Ref M -> mem C (Ref M) :=
  copy_ref (fun _ => zero) into.

Lemma adds_load {M V} `{Storable C M} `{Snapshot C M V} h0 h l (w : V) :
  h0 ⊆ h -> snapshot h0 (Some l : Ref M) = Some (Some w) ->
  adds h0 h (load l) (fun m _ => snapshot h0 m = Some w).
Proof.
  intros Hs Hv. simpl in Hv. destruct (h0 !! l) as [c|] eqn:Hl; [|done]. simpl in Hv.
  destruct (of_cell c) as [m|] eqn:Hc; [|done]. simpl in Hv. apply fmap_Some in Hv as (? & Hw & ?). simplify_eq.
  exists m, h. split_and!; [|done|done]. unfold load. rewrite (lookup_weaken _ _ _ _ Hl Hs). simpl. by rewrite Hc.
Qed.

Lemma alloc_grows {M} `{Storable C M} h (m : M) : h ⊆ <[ next h := to_cell m ]> h.
Proof. apply insert_subseteq, next_fresh. Qed.

(** A reference to a cell that was not there before. *)
Lemma snapshot_new {M V} `{Storable C M} `{Snapshot C M V} h h' l (m : M) (w : V) :
  h !! l = None -> snapshot (h' ∖ h) m = Some w -> h' !! l = None ->
  snapshot (<[ l := to_cell m ]> h' ∖ h) (Some l : Ref M) = Some (Some w).
Proof.
  intros Hl Hm Hl'. simpl.
  assert ((<[ l := to_cell m ]> h' ∖ h) !! l = Some (to_cell m)) as ->
    by (by rewrite lookup_difference, Hl, lookup_insert_eq).
  simpl. rewrite of_to_cell. simpl. rewrite (snapshot_mono (h' ∖ h) _ m w); [done| |done].
  apply beyond_mono; [done|]. by apply insert_subseteq.
Qed.

(** Filling a cell no one else refers to. *)
Lemma adds_fill {M V} `{Storable C M} `{Snapshot C M V} h (m : M) (into : M -> M -> mem C M) blank (w : V) :
  (forall h, snapshot h m = Some w -> adds h h (into m blank) (fun m' hn => snapshot hn m' = Some w)) ->
  snapshot h m = Some w ->
  adds h h (out ← alloc blank; m' ← into m blank; _ ← store out m'; mret (Some out))
    (fun r hn => snapshot hn (r : Ref M) = Some (Some w)).
Proof.
  intros Hc Hm. set (h1 := <[ next h := to_cell blank ]> h).
  assert (h ⊆ h1) as Hs1 by apply alloc_grows.
  destruct (Hc h1 (snapshot_mono _ _ _ _ Hs1 Hm)) as (m' & h2 & Hinto & Hs2 & Hm').
  assert (h1 !! next h = Some (to_cell blank)) as Hl1 by apply lookup_insert_eq.
  exists (Some (next h)), (<[ next h := to_cell m' ]> h2). split_and!.
  - unfold mbind, mem_bind, alloc. fold h1. rewrite Hinto. unfold store.
    by rewrite (lookup_weaken _ _ _ _ Hl1 Hs2).
  - apply map_subseteq_spec. intros l c Hl. destruct (decide (l = next h)) as [->|Hne].
    + by rewrite next_fresh in Hl.
    + rewrite lookup_insert_ne by done. eapply lookup_weaken; [done|]. by etrans.
  - rewrite <-(insert_delete_eq h2). apply snapshot_new; [apply next_fresh| |apply lookup_delete_eq].
    eapply snapshot_mono; [|exact Hm'].
    apply map_subseteq_spec. intros l c [Hl Hn]%lookup_difference_Some.
    destruct (decide (l = next h)) as [->|Hne]; [by rewrite Hl1 in Hn|].
    apply lookup_difference_Some. rewrite lookup_delete_ne by done. split; [done|].
    by eapply lookup_weaken_None.
Qed.

Lemma copies_ref {M V} `{Storable C M} `{Snapshot C M V} blank (into : M -> M -> mem C M) h0 h (r : Ref M) (v : option V) :
  copies (fun m _ => into m (blank m)) -> h0 ⊆ h -> snapshot h0 r = Some v ->
  adds h0 h (copy_ref blank into r) (fun r' hn => snapshot hn r' = Some v).
Proof.
  intros Hc Hs Hr. destruct r as [l|]; [|simpl in Hr; simplify_eq; by apply adds_ret].
  destruct v as [w|]; [|simpl in Hr; by apply fmap_Some in Hr as (? & _ & ?)].
  unfold copy_ref, copy_cell. eapply adds_bind; [by apply (adds_load h0 h l w)|]. intros m h1 Hs1 Hm.
  cbn beta in Hm. eapply adds_weaken; [apply (adds_fill _ m); [|]|by etrans|].
  - intros h2 Hm2. by apply (Hc h2 m m).
  - eapply (snapshot_mono h0); [by etrans|done].
  - intros. by eapply snapshot_mono.
Qed.

(** The loop that copies a slice into a new array, element by element. *)
Definition copy_elements {M : Type} (into : M -> M -> mem C M) (l out : list M) : mem C (list M) :=
  for_each (fun '(m, o) => into m o) (zip l out).

Lemma adds_elements {M V} `{Snapshot C M V} (into : M -> M -> mem C M) h0 h (l out : list M) (vs : list V) :
  copies into -> h0 ⊆ h -> length out = length l -> snapshot h0 l = Some vs ->
  adds h0 h (copy_elements into l out) (fun l' hn => snapshot hn l' = Some vs).
Proof.
  intros Hc. revert h out vs. induction l as [|m l IH]; intros h [|o out] vs Hs Hlen Hl; simplify_eq/=; [by apply adds_ret|].
  destruct (snapshot h0 m) as [v|] eqn:Hm; simplify_eq/=. destruct (mapM (snapshot h0) l) as [vs'|] eqn:Hl'; simplify_eq/=.
  unfold copy_elements. simpl.
  eapply adds_bind; [by apply (copies_adds _ _ _ _ _ _ Hc Hs Hm)|]. intros m' h1 Hs1 Hm'.
  eapply adds_bind; [apply (IH h1 out vs'); [by etrans|done|done]|]. intros l' h2 Hs2 Hl''.
  apply adds_ret. simpl in *.
  assert (snapshot (h2 ∖ h0) m' = Some v) as -> by (eapply snapshot_mono; [|done]; by apply beyond_mono).
  simpl. by rewrite Hl''.
Qed.

(** A slice of structs: [make], then the loop. *)
Definition copy_slice {M : Type} `{Storable C (list M)} (zero : M) (into : M -> M -> mem C M) : Ref (list M) -> mem C (Ref (list M)) :=
  copy_ref (fun l => replicate (length l) zero) (copy_elements into).

Lemma copies_slice {M V} `{Storable C (list M)} `{Snapshot C M V} zero (into : M -> M -> mem C M) h0 h (r : Ref (list M)) (v : option (list V)) :
  copies into -> h0 ⊆ h -> snapshot h0 r = Some v ->
  adds h0 h (copy_slice zero into r) (fun r' hn => snapshot hn r' = Some v).
Proof.
  intros Hc. apply copies_ref. intros h' l out vs Hl. apply adds_elements; [done|done|by rewrite length_replicate|done].
Qed.

(** The builtin copy: as many elements as both have. *)
Definition copy_prefix {A : Type} (src dst : list A) : list A :=
  take (length dst) src ++ drop (length src) dst.

(** A slice of plain values: [make], then [copy]. *)
Definition copy_values {A : Type} `{Storable C (list A)} (zero : A) : Ref (list A) -> mem C (Ref (list A)) :=
  copy_ref (fun l => replicate (length l) zero) (fun l out => mret (copy_prefix l out)).

Lemma copy_prefix_all {A} (l : list A) (zero : A) : copy_prefix l (replicate (length l) zero) = l.
Proof.
  unfold copy_prefix. rewrite length_replicate, take_ge, drop_ge, app_nil_r by (by rewrite ?length_replicate). done.
Qed.

Lemma copies_values {A V} `{Storable C (list A)} `{Snapshot C (list A) V} (zero : A) h0 h (r : Ref (list A)) (v : option V) :
  (forall h h' (l : list A), snapshot h l = snapshot h' l) -> h0 ⊆ h -> snapshot h0 r = Some v ->
  adds h0 h (copy_values zero r) (fun r' hn => snapshot hn r' = Some v).
Proof.
  intros Hp. apply copies_ref. intros h' l out w Hw. rewrite copy_prefix_all. apply adds_ret. by rewrite (Hp _ h').
Qed.

(** A map with plain values, filled key by key. *)
Definition fill_map `{MapOrder} {A : Type} (m out : gmap string A) : mem C (gmap string A) :=
  mret (foldl (fun out '(key, val) => <[ key := val ]> out) out (map_range m)).

Lemma fill_map_all `{MapOrder} {A} (m : gmap string A) :
  foldl (fun out '(key, val) => <[ key := val ]> out) (∅ : gmap string A) (map_range m) = m.
Proof.
  assert (forall l (out : gmap string A), NoDup l.*1 ->
    foldl (fun out '(key, val) => <[ key := val ]> out) out l = list_to_map l ∪ out) as Hf.
  { induction l as [|[k v] l IH]; intros out Hn; simpl; [by rewrite (left_id_L ∅ (∪))|].
    apply NoDup_cons in Hn as [Hk Hn]. rewrite IH by done.
    rewrite <-insert_union_r by (by apply not_elem_of_list_to_map). by rewrite insert_union_l. }
  rewrite Hf by (rewrite map_range_keys; apply NoDup_map_keys). rewrite (right_id_L ∅ (∪)).
  rewrite (list_to_map_proper (map_range m) (map_to_list m)).
  - apply list_to_map_to_list.
  - rewrite map_range_keys. apply NoDup_map_keys.
  - apply map_range_perm.
Qed.

Definition copy_map `{MapOrder} {A : Type} `{Storable C (gmap string A)} : Ref (gmap string A) -> mem C (Ref (gmap string A)) :=
  copy_ref (fun _ => ∅) fill_map.

Lemma copies_map `{MapOrder} {A V} `{Storable C (gmap string A)} `{Snapshot C (gmap string A) V} h0 h (r : Ref (gmap string A)) (v : option V) :
  (forall h h' (l : gmap string A), snapshot h l = snapshot h' l) -> h0 ⊆ h -> snapshot h0 r = Some v ->
  adds h0 h (copy_map r) (fun r' hn => snapshot hn r' = Some v).
Proof.
  intros Hp. apply copies_ref. intros h' m out w Hw. unfold fill_map. rewrite fill_map_all. apply adds_ret. by rewrite (Hp _ h').
Qed.

Lemma copies_new {M V} `{Storable C M} `{Snapshot C M V} (zero : M) h0 h (r : Ref M) (v : option V) :
  (forall h h' (m : M), snapshot h m = snapshot h' m) -> h0 ⊆ h -> snapshot h0 r = Some v ->
  adds h0 h (copy_new zero r) (fun r' hn => snapshot hn r' = Some v).
Proof. intros Hp. apply copies_ref. intros h' m out w Hw. apply adds_ret. by rewrite (Hp _ h'). Qed.

(** [x := in.DeepCopy(); *out = &x] *)
Definition copy_boxed {M : Type} `{Storable C M} (copy : M -> mem C M) (r : Ref M) : mem C (Ref M) :=
  match r with
  | None => mret None
  | Some l => m ← load l; x ← copy m; out ← alloc x; mret (Some out)
  end.

Lemma copies_boxed {M V} `{Storable C M} `{Snapshot C M V} (copy : M -> mem C M) h0 h (r : Ref M) (v : option V) :
  copies (fun m _ => copy m) -> h0 ⊆ h -> snapshot h0 r = Some v ->
  adds h0 h (copy_boxed copy r) (fun r' hn => snapshot hn r' = Some v).
Proof.
  intros Hc Hs Hr. destruct r as [l|]; [|simpl in Hr; simplify_eq; by apply adds_ret].
  destruct v as [w|]; [|simpl in Hr; by apply fmap_Some in Hr as (? & _ & ?)].
  unfold copy_boxed. eapply adds_bind; [by apply (adds_load h0 h l w)|]. intros m h1 Hs1 Hm.
  cbn beta in Hm. eapply adds_bind; [apply (copies_adds _ h0 h1 m m w Hc); [by etrans|done]|]. intros x h2 Hs2 Hx.
  exists (Some (next h2)), (<[ next h2 := to_cell x ]> h2). split_and!; [done|apply alloc_grows|].
  apply snapshot_new; [|done|apply next_fresh]. eapply lookup_weaken_None; [apply next_fresh|].
  by etrans; [|etrans].
Qed.

(** [q], made after [h], reads as [p] did; so it does whatever is done to the
    memory [p] could refer to, and [p] whatever is done to the rest. *)
Definition independent {M V : Type} `{Storable C M} `{Snapshot C M V} h h' (p q : Ref M) (v : option V) : Prop :=
  h ⊆ h' /\ snapshot h' q = Some v /\
  (forall h2 : heap C, (forall l, h !! l = None -> h2 !! l = h' !! l) -> snapshot h2 q = Some v) /\
  (forall h2 : heap C, (forall l, is_Some (h !! l) -> h2 !! l = h' !! l) -> snapshot h2 p = Some v).

Lemma deep_copy_independent {M V} `{Storable C M} `{Snapshot C M V} zero (into : M -> M -> mem C M) h (p : Ref M) v :
  copies into -> snapshot h p = Some v ->
  exists q h', deep_copy zero into p h = Some (q, h') /\ independent h h' p q v.
Proof.
  intros Hc Hp. destruct (copies_ref (fun _ => zero) into h h p v (copies_blank _ _ Hc) (reflexivity h) Hp)
    as (q & h' & Hq & Hs & Hv).
  exists q, h'. split; [done|]. split_and!.
  - done.
  - eapply snapshot_mono; [|exact Hv]. apply beyond_subseteq.
  - intros h2 Heq. eapply snapshot_mono; [|exact Hv]. apply map_subseteq_spec.
    intros l c [Hl Hn]%lookup_difference_Some. by rewrite Heq.
  - intros h2 Heq. eapply snapshot_mono; [|exact Hp]. apply map_subseteq_spec.
    intros l c Hl. rewrite Heq by done. by eapply lookup_weaken.
Qed.

End copies.

(** A type with a deep copy. *)
Class Copier (C M V : Type) := {
  copier_snapshot :: Snapshot C M V;
  DeepCopyInto : M -> M -> mem C M;
  deep_copies : copies DeepCopyInto;
}.

#[export] Hint Mode Snapshot ! ! - : typeclass_instances.
#[export] Hint Mode Copier ! ! - : typeclass_instances.

Lemma copier_adds {C M V} `{Copier C M V} (h0 h : heap C) (m out : M) (v : V) :
  h0 ⊆ h -> snapshot h0 m = Some v -> adds h0 h (DeepCopyInto m out) (fun m' hn => snapshot hn m' = Some v).
Proof. apply copies_adds, deep_copies. Qed.

(** The snapshot of a struct whose fields are read one after the other. *)
Ltac mono_fields :=
  intros h h' m v Hs;
  repeat match goal with
  | |- context [snapshot h ?x] =>
    let E := fresh "E" in
    destruct (snapshot h x) eqn:E; [rewrite (snapshot_mono h h' x _ Hs E); cbn [mbind option_bind]|intros; discriminate]
  end; done.

(** Heaps only grow along a copy. *)
Ltac subheap := repeat first [reflexivity|assumption|etrans; [eassumption|]].

(** Take the snapshot of a struct apart into those of its fields. *)
Ltac split_fields H :=
  cbn [snapshot] in H;
  repeat match type of H with
  | context [snapshot ?h ?x] =>
    let E := fresh "E" in
    destruct (snapshot h x) eqn:E; [cbn [mbind option_bind] in H|discriminate H]
  end;
  injection H as <-.

Create HintDb copies.

#[export] Hint Resolve deep_copies copies_blank : copies.

(** Copy the next field of a struct. *)
Ltac copy_by :=
  lazymatch goal with
  | |- adds _ _ (copy_new _ _) _ => eapply copies_new; [done|subheap|eassumption]
  | |- adds _ _ (copy_values _ _) _ => eapply copies_values; [done|subheap|eassumption]
  | |- adds _ _ (copy_map _) _ => eapply copies_map; [done|subheap|eassumption]
  | |- adds _ _ (copy_slice _ _ _) _ => eapply copies_slice; [eauto with copies|subheap|eassumption]
  | |- adds _ _ (copy_ref _ _ _) _ => eapply copies_ref; [eauto with copies|subheap|eassumption]
  | |- adds _ _ (copy_boxed _ _) _ => eapply copies_boxed; [eauto with copies|subheap|eassumption]
  | |- adds _ _ _ _ => eapply copies_adds; [eauto with copies|subheap|eassumption]
  end.

Ltac copy_field :=
  eapply adds_bind; [copy_by|let m := fresh "m" in let h := fresh "h" in intros m h ? ?; cbn beta in *].

(** The struct that was put together reads as the one that was copied. *)
Ltac copied_fields :=
  apply adds_ret; cbn [snapshot];
  repeat match goal with
  | H : snapshot (?h ∖ ?h0) ?m = Some _ |- context [snapshot (?h' ∖ ?h0) ?m] =>
    rewrite (snapshot_mono (h ∖ h0) (h' ∖ h0) m _) with (2 := H); [cbn [mbind option_bind]|apply beyond_mono; subheap]
  end.

(** A struct whose snapshot is [inst], copied field by field by [into]. *)
Tactic Notation "copy_struct" reference(inst) reference(into) :=
  intros h m out v Hv; cbv delta [inst] in Hv |- *; split_fields Hv;
  unfold into; repeat copy_field; copied_fields; done.
