(* ===== verification/Errors.v ===== *)
(** * Errors: Go error values, errors.Is and errors.As

    Go code signals failure with values of the interface type [error] and
    branches on them with errors.Is (is this sentinel anywhere in the chain?)
    and errors.As (the first value of this concrete type in the chain).  The
    sentinels are the package-level [errors.New] variables of src/pkg; two of
    them with the same text (cd.ErrNotFound, provisioners.ErrNotFound) are
    different values, as they are in Go. *)

From S2P Require Import Prelude.

Inductive sentinel : Type :=
(* context *)
| context_Canceled
(* pkg/provisioners *)
| provisioners_ErrYield
| provisioners_ErrNotFound
| provisioners_ErrTerminal
| provisioners_ErrUserActionRequired
(* pkg/cd *)
| cd_ErrNotFound
(* pkg/cd/argocd *)
| argocd_ErrItemLengthMismatch
(* pkg/util *)
| util_ErrK8SConnectionError
(* pkg/errors *)
| ErrParseFlag
| ErrCDDriver
| ErrInvalidContext
| ErrKubeconfig
| ErrSecretFormatError
| ErrAPIStatus
| ErrConsistency
| ErrUnsupportedKeyType
| ErrKey
| ErrTypeConversion
| ErrResourceNotFound
| ErrConflict
(* pkg/apis/unikorn/v1alpha1 *)
| v1alpha1_ErrJSONUnmarshal
| v1alpha1_ErrStatusConditionLookup
| v1alpha1_ErrMissingLabel
| v1alpha1_ErrApplicationLookup
| v1alpha1_ErrVersionNotFound
(* pkg/util/cache *)
| cache_ErrConflict
| cache_ErrInvalid
| cache_ErrNotFound
| cache_ErrWorkerPanic
(* pkg/provisioners/util *)
| util_ErrNamespaceLookup
(* pkg/testing/client *)
| client_ErrUnexpectedStatusCode
| client_ErrResourceNotFound
| client_ErrAccessDenied
| client_ErrServerError
| client_ErrUnexpectedStatus.

#[export] Instance sentinel_eq_dec : EqDecision sentinel.
Proof. solve_decision. Defined.

(** The concrete error types of src/pkg, and the ways they wrap each other:
    - [Sentinel]: a package-level errors.New variable;
    - [Foreign]: an error made by code outside src/, known by its text only;
    - [Wrapped]: fmt.Errorf("%w: context", inner);
    - [Provisioning]: a *provisioners.Error, which unwraps to its disposition;
    - [HTTP]: a *server/errors.Error, with its headers and the values it logs;
    - [Retry]: a *retry.Error, which unwraps to both of its errors. *)
Inductive error : Type :=
| Sentinel (s : sentinel)
| Foreign (text : string)
| Wrapped (inner : error) (context : string)
| Provisioning (disposition : error) (reason : string) (message : string)
| HTTP (status : Z) (code : string) (description : string) (header : gmap string (list string))
    (err : option error) (values : list string)
| Retry (context : error) (callback : error).

Abbreviation result := (fallible error).

(** errors.Is for a sentinel target: depth-first over what each error unwraps to. *)
Fixpoint errors_is (e : error) (target : sentinel) : bool :=
  match e with
  | Sentinel s => bool_decide (s = target)
  | Foreign _ => false
  | Wrapped inner _ => errors_is inner target
  | Provisioning disposition _ _ => errors_is disposition target
  | HTTP _ _ _ _ err _ => match err with Some i => errors_is i target | None => false end
  | Retry c cb => errors_is c target || errors_is cb target
  end.

(** The fields of a *provisioners.Error. *)
Record Error := {
  disposition : error;
  reason : string;
  message : string;
}.

(** errors.As with a *provisioners.Error target: the first one, depth-first. *)
Fixpoint errors_as_provisioning (e : error) : option Error :=
  match e with
  | Sentinel _ | Foreign _ => None
  | Wrapped inner _ => errors_as_provisioning inner
  | Provisioning d r m => Some {| disposition := d; reason := r; message := m |}
  | HTTP _ _ _ _ err _ => match err with Some i => errors_as_provisioning i | None => None end
  | Retry c cb =>
    match errors_as_provisioning c with Some p => Some p | None => errors_as_provisioning cb end
  end.

(** The fields of a *server/errors.Error; values are known by their text. *)
Record HTTPError := {
  http_status : Z;
  http_code : string;
  http_description : string;
  http_header : gmap string (list string);
  http_err : option error;
  http_values : list string;
}.

(** errors.As with a *server/errors.Error target. *)
Fixpoint errors_as_http (e : error) : option HTTPError :=
  match e with
  | Sentinel _ | Foreign _ => None
  | Wrapped inner _ => errors_as_http inner
  | Provisioning d _ _ => errors_as_http d
  | HTTP s c d h err v =>
    Some {| http_status := s; http_code := c; http_description := d; http_header := h;
            http_err := err; http_values := v |}
  | Retry c cb => match errors_as_http c with Some p => Some p | None => errors_as_http cb end
  end.

(** ** Facts about error chains *)

(** fmt.Errorf wrapping is transparent to both ways of inspecting an error. *)
Lemma errors_is_wrapped e ctx s : errors_is (Wrapped e ctx) s = errors_is e s.
Proof. done. Qed.

Lemma errors_as_provisioning_wrapped e ctx :
  errors_as_provisioning (Wrapped e ctx) = errors_as_provisioning e.
Proof. done. Qed.

Lemma errors_as_http_wrapped e ctx : errors_as_http (Wrapped e ctx) = errors_as_http e.
Proof. done. Qed.

Lemma errors_is_sentinel s s' : errors_is (Sentinel s) s' = bool_decide (s = s').
Proof. done. Qed.

#[export] Hint Rewrite errors_is_wrapped errors_as_provisioning_wrapped
  errors_as_http_wrapped errors_is_sentinel : go.
