(* ===== verification/GoStrings.v ===== *)
(** * GoStrings: the string functions of Go's standard library the code uses

    Go strings are byte strings, modelled as lists of [ascii] (8-bit
    characters) in [string]. *)

From S2P Require Import Prelude.
From stdpp Require Import pretty.
From Stdlib Require Import Ascii.

(** fmt's %d. *)
Definition itoa (z : Z) : string := pretty z.

(** strings.Split for a one-character separator: never empty. *)
Fixpoint strings_Split (sep : ascii) (s : string) : list string :=
  match s with
  | EmptyString => [EmptyString]
  | String c s' =>
    if Ascii.eqb c sep then EmptyString :: strings_Split sep s'
    else match strings_Split sep s' with
         | [] => [String c EmptyString]
         | w :: ws => String c w :: ws
         end
  end.

(** The operands of fmt's print functions: strings, and other values, known
    by the text their default format gives. *)
Inductive operand : Type :=
| OString (s : string)
| OOther (text : string).

Definition operand_text (a : operand) : string :=
  match a with OString s => s | OOther text => text end.

Definition newline : string := String (ascii_of_N 10) EmptyString.

(** fmt.Sprintln: "Spaces are always added between operands and a newline is
    appended." *)
Definition fmt_Sprintln (a : list operand) : string :=
  strings_Join " " (map operand_text a) +:+ newline.

(** fmt.Sprint: "Spaces are added between operands when neither is a string." *)
Fixpoint fmt_Sprint (a : list operand) : string :=
  match a with
  | [] => ""
  | x :: a' =>
    let sep := match x, a' with OOther _, OOther _ :: _ => " " | _, _ => "" end in
    operand_text x +:+ sep +:+ fmt_Sprint a'
  end.

(** strings.TrimSuffix. *)
Fixpoint strings_TrimSuffix (s suffix : string) : string :=
  if bool_decide (s = suffix) then ""
  else match s with
       | EmptyString => EmptyString
       | String c s' => String c (strings_TrimSuffix s' suffix)
       end.

Definition ascii_between (lo hi : N) (c : ascii) : bool :=
  ((lo <=? N_of_ascii c) && (N_of_ascii c <=? hi))%N.

Definition ascii_upper (c : ascii) : ascii :=
  if ascii_between 97 122 c then ascii_of_N (N_of_ascii c - 32) else c.

Definition ascii_lower (c : ascii) : ascii :=
  if ascii_between 65 90 c then ascii_of_N (N_of_ascii c + 32) else c.

(** strings.ToLower, on ASCII strings. *)
Fixpoint strings_ToLower (s : string) : string :=
  match s with
  | EmptyString => EmptyString
  | String c s' => String (ascii_lower c) (strings_ToLower s')
  end.

(** The bytes of a token (RFC 7230), which header keys are made of. *)
Definition token_byte (c : ascii) : bool :=
  ascii_between 48 57 c || ascii_between 65 90 c || ascii_between 97 122 c ||
  existsb (fun n => (N_of_ascii c =? n)%N) [33; 35; 36; 37; 38; 39; 42; 43; 45; 46; 94; 95; 96; 124; 126]%N.

Fixpoint canonical_bytes (upper : bool) (s : string) : string :=
  match s with
  | EmptyString => EmptyString
  | String c s' =>
    String (if upper then ascii_upper c else ascii_lower c) (canonical_bytes (Ascii.eqb c "-"%char) s')
  end.

Fixpoint string_forallb (p : ascii -> bool) (s : string) : bool :=
  match s with
  | EmptyString => true
  | String c s' => p c && string_forallb p s'
  end.

(** textproto.CanonicalMIMEHeaderKey: the first letter and any letter that
    follows a hyphen in upper case, the rest in lower case; a key with a byte
    that is not of a token is left alone. *)
Definition CanonicalMIMEHeaderKey (key : string) : string :=
  if string_forallb token_byte key then canonical_bytes true key else key.

Definition is_digit (c : ascii) : bool := ascii_between 48 57 c.

(** The value of a string of decimal digits, [None] if it has another byte. *)
Fixpoint digits_value (s : string) (acc : Z) : option Z :=
  match s with
  | EmptyString => Some acc
  | String c s' =>
    if is_digit c then digits_value s' (acc * 10 + (Z.of_N (N_of_ascii c) - 48))%Z else None
  end.

Definition max_int : Z := 9223372036854775807.
Definition min_int : Z := -9223372036854775808.

(** strconv.Atoi, on a 64-bit platform; [None] is its error. *)
Definition Atoi (s : string) : option Z :=
  let unsigned t := match t with EmptyString => None | _ => digits_value t 0 end in
  let signed := match s with
    | String "+" t => unsigned t
    | String "-" t => Z.opp <$> unsigned t
    | _ => unsigned s
    end in
  z ← signed; if decide (min_int <= z <= max_int)%Z then Some z else None.

(** strings.HasPrefix, strings.HasSuffix and strings.Contains. *)
Definition HasPrefix (s prefix : string) : bool := String.prefix prefix s.

Fixpoint HasSuffix (s suffix : string) : bool :=
  bool_decide (s = suffix) || match s with EmptyString => false | String _ s' => HasSuffix s' suffix end.

Fixpoint strings_Contains (s substr : string) : bool :=
  String.prefix substr s || match s with EmptyString => false | String _ s' => strings_Contains s' substr end.

Definition hex_digit (n : N) : ascii :=
  ascii_of_N (if (n <? 10)%N then 48 + n else 87 + n)%N.

(** strconv.Quote's escapes, byte by byte: exact for ASCII strings.  A byte
    from 128 up is copied, which is what Quote does with the printable runes it
    may be part of. *)
Definition quote_byte (c : ascii) : string :=
  let n := N_of_ascii c in
  let bs := ascii_of_N 92 in
  let esc x := String bs (String x EmptyString) in
  match n with
  | 7 => esc "a"%char
  | 8 => esc "b"%char
  | 9 => esc "t"%char
  | 10 => esc "n"%char
  | 11 => esc "v"%char
  | 12 => esc "f"%char
  | 13 => esc "r"%char
  | 34 => esc c
  | 92 => esc c
  | _ =>
    if ((n <? 32) || (n =? 127))%N
    then String bs (String "x"%char (String (hex_digit (n / 16)) (String (hex_digit (n mod 16)) EmptyString)))
    else String c EmptyString
  end%N.

Fixpoint quote_bytes (s : string) : string :=
  match s with
  | EmptyString => EmptyString
  | String c s' => quote_byte c +:+ quote_bytes s'
  end.

Definition dquote : string := String (ascii_of_N 34) EmptyString.

(** fmt's %q. *)
Definition quote (s : string) : string := dquote +:+ quote_bytes s +:+ dquote.

(** ** Lemmas *)

Lemma strings_Split_nonempty sep s : strings_Split sep s <> [].
Proof.
  destruct s as [|c s]; simpl; [done|].
  destruct (Ascii.eqb c sep); [done|]. by destruct (strings_Split sep s).
Qed.

(** Splitting and joining on the same separator are inverse. *)
(** A separator occurs in a string. *)
Definition has_byte (c : ascii) (s : string) : Prop := exists a b, s = a +:+ String c b.

Lemma has_byte_cons c c' s : has_byte c (String c' s) <-> c' = c \/ has_byte c s.
Proof.
  split.
  - intros ([|a0 a] & b & Heq); [injection Heq as -> _; by left|].
    change (String a0 a +:+ String c b) with (String a0 (a +:+ String c b)) in Heq.
    injection Heq as -> ->. right. by exists a, b.
  - intros [->|(a & b & ->)]; [by exists "", s|]. by exists (String c' a), b.
Qed.

(** Splitting finds a second part exactly where the separator occurs, and the
    first part is what precedes it. *)
Lemma Split_second c s : is_Some (strings_Split c s !! 1%nat) <-> has_byte c s.
Proof.
  induction s as [|c' s IH]; simpl.
  - split; [by intros []|]. intros ([|? ?] & b & Heq); discriminate Heq.
  - rewrite has_byte_cons. destruct (Ascii.eqb_spec c' c) as [->|Hne].
    + split; [by left|]. intros _. pose proof (strings_Split_nonempty c s).
      destruct (strings_Split c s); [done|]. by eexists.
    + pose proof (strings_Split_nonempty c s). destruct (strings_Split c s) as [|w ws]; [done|].
      simpl in *. rewrite IH. naive_solver.
Qed.

Lemma Split_first c a b : ~ has_byte c a -> strings_Split c (a +:+ String c b) = a :: strings_Split c b.
Proof.
  induction a as [|c' a IH]; intros Ha.
  - change ("" +:+ String c b) with (String c b). simpl. by rewrite Ascii.eqb_refl.
  - rewrite has_byte_cons in Ha. change (String c' a +:+ String c b) with (String c' (a +:+ String c b)).
    simpl. destruct (Ascii.eqb_spec c' c) as [->|Hne]; [naive_solver|]. by rewrite IH by naive_solver.
Qed.

Lemma strings_Join_Split sep s : strings_Join (String sep EmptyString) (strings_Split sep s) = s.
Proof.
  induction s as [|c s IH]; simpl; [done|].
  destruct (Ascii.eqb_spec c sep) as [->|Hne].
  - pose proof (strings_Split_nonempty sep s). destruct (strings_Split sep s); [done|].
    by rewrite <-IH.
  - destruct (strings_Split sep s) as [|w [|w' ws]]; simpl in *; by rewrite <-IH.
Qed.

Lemma string_append_nil_r (s : string) : s +:+ "" = s.
Proof. induction s as [|c s IH]; [done|]. change (String c s +:+ "") with (String c (s +:+ "")). by rewrite IH. Qed.

Lemma string_append_assoc (s1 s2 s3 : string) : s1 +:+ (s2 +:+ s3) = (s1 +:+ s2) +:+ s3.
Proof.
  induction s1 as [|c s1 IH]; [done|].
  change (String c (s1 +:+ (s2 +:+ s3)) = String c ((s1 +:+ s2) +:+ s3)). by rewrite IH.
Qed.

Lemma string_app_inj (p s t : string) : p +:+ s = p +:+ t -> s = t.
Proof. induction p as [|c p IH]; simpl; [done|]. intros Heq. injection Heq. auto. Qed.

Lemma string_append_inj_r (s1 s2 s : string) : s1 +:+ s = s2 +:+ s -> s1 = s2.
Proof.
  assert (forall a b : string, String.length (a +:+ b) = String.length a + String.length b) as Hlen.
  { intros a b. induction a as [|c a IH]; [done|]. change (String c a +:+ b) with (String c (a +:+ b)). simpl. by rewrite IH. }
  revert s2. induction s1 as [|c s1 IH]; intros [|c2 s2] Heq; [done| | |].
  - apply (f_equal String.length) in Heq. rewrite !Hlen in Heq. simpl in Heq. lia.
  - apply (f_equal String.length) in Heq. rewrite !Hlen in Heq. simpl in Heq. lia.
  - change (String c (s1 +:+ s) = String c2 (s2 +:+ s)) in Heq. injection Heq as -> Heq. by rewrite (IH s2).
Qed.

Lemma HasSuffix_true s suffix : HasSuffix s suffix = true <-> exists h, s = h +:+ suffix.
Proof.
  split.
  - induction s as [|c s IH]; simpl; rewrite orb_true_iff; intros [Heq|Hs].
    + apply bool_decide_eq_true in Heq as <-. by exists "".
    + done.
    + apply bool_decide_eq_true in Heq as <-. by exists "".
    + apply IH in Hs as [h ->]. by exists (String c h).
  - intros [h ->]. induction h as [|c h IH].
    + change ("" +:+ suffix) with suffix. destruct suffix; [done|]. cbn [HasSuffix]. by rewrite bool_decide_eq_true_2.
    + change (String c h +:+ suffix) with (String c (h +:+ suffix)). simpl. by rewrite IH, orb_true_r.
Qed.

(** Of two endings of a string, one ends the other. *)
Lemma common_suffix (a b x y : string) : a +:+ x = b +:+ y -> HasSuffix x y \/ HasSuffix y x.
Proof.
  rewrite !Is_true_true, !HasSuffix_true. revert b. induction a as [|c a IH]; intros [|c2 b] Heq.
  - left. by exists "".
  - left. by exists (String c2 b).
  - right. by exists (String c a).
  - apply (IH b). change (String c (a +:+ x) = String c2 (b +:+ y)) in Heq. by injection Heq.
Qed.

Lemma string_length_app (s1 s2 : string) :
  String.length (s1 +:+ s2) = (String.length s1 + String.length s2)%nat.
Proof. induction s1 as [|c s1 IH]; simpl; [done|]. by rewrite IH. Qed.

Lemma strings_TrimSuffix_app (s suffix : string) :
  strings_TrimSuffix (s +:+ suffix) suffix = s.
Proof.
  induction s as [|c s IH]; simpl.
  - destruct suffix as [|c suffix]; simpl; [done|]. by rewrite bool_decide_true.
  - rewrite bool_decide_false; [by rewrite IH|].
    intros Heq. apply (f_equal String.length) in Heq. simpl in Heq.
    rewrite string_length_app in Heq. lia.
Qed.

(** Go's order on strings, for slices.Sort. *)
Definition string_le (s1 s2 : string) : Prop := String.leb s1 s2 = true.

#[export] Instance string_le_dec s1 s2 : Decision (string_le s1 s2).
Proof. unfold string_le. apply _. Defined.

#[export] Instance string_le_antisymm : AntiSymm (=) string_le.
Proof. intros s1 s2. apply String.leb_antisym. Qed.

#[export] Instance string_le_total : Total string_le.
Proof. intros s1 s2. apply String.leb_total. Qed.

#[export] Instance string_le_trans : Transitive string_le.
Proof.
  unfold string_le, String.leb.
  intros s1. induction s1 as [|c1 s1 IH]; intros [|c2 s2] [|c3 s3]; try done; simpl.
  specialize (IH s2 s3). unfold Ascii.compare.
  destruct (N.compare_spec (N_of_ascii c1) (N_of_ascii c2)),
    (N.compare_spec (N_of_ascii c2) (N_of_ascii c3)), (N.compare_spec (N_of_ascii c1) (N_of_ascii c3));
    try done; try lia.
Qed.

(** slices.Sort on strings. *)
Definition sort_strings (l : list string) : list string := merge_sort string_le l.

(** Sorting forgets the order the strings came in. *)
Lemma sort_strings_perm (l1 l2 : list string) : l1 ≡ₚ l2 -> sort_strings l1 = sort_strings l2.
Proof.
  intros Hp. apply (StronglySorted_unique string_le).
  - apply StronglySorted_merge_sort; apply _.
  - apply StronglySorted_merge_sort; apply _.
  - unfold sort_strings. by rewrite !merge_sort_Permutation.
Qed.
