(* ===== verification/Hex.v ===== *)
(** * Hex: bytes in hexadecimal

    encoding/hex.EncodeToString and fmt's %x of bytes: two lower-case digits a
    byte, and nothing lost. *)

From S2P Require Import Prelude GoStrings.
From Stdlib Require Import Ascii.

Definition hex_byte (c : ascii) : string :=
  String (hex_digit (N_of_ascii c / 16)) (String (hex_digit (N_of_ascii c mod 16)) EmptyString).

Fixpoint hex_bytes (s : string) : string :=
  match s with
  | EmptyString => EmptyString
  | String c s' => hex_byte c +:+ hex_bytes s'
  end.

Definition lower_hex (c : ascii) : bool := ascii_between 48 57 c || ascii_between 97 102 c.

Lemma hex_digit_lower n : (n < 16)%N -> lower_hex (hex_digit n) = true.
Proof.
  intros Hn. assert (forallb (fun n => lower_hex (hex_digit (N.of_nat n))) (seq 0 16) = true) as Hall by reflexivity.
  rewrite forallb_forall in Hall. specialize (Hall (N.to_nat n)). rewrite N2Nat.id in Hall.
  apply Hall, in_seq. lia.
Qed.

Lemma hex_digit_inj n m : (n < 16)%N -> (m < 16)%N -> hex_digit n = hex_digit m -> n = m.
Proof.
  intros Hn Hm He.
  assert (forallb (fun a => forallb (fun b => negb (Ascii.eqb (hex_digit (N.of_nat a)) (hex_digit (N.of_nat b))) || Nat.eqb a b)
    (seq 0 16)) (seq 0 16) = true) as Hall by reflexivity.
  rewrite forallb_forall in Hall. specialize (Hall (N.to_nat n)). rewrite in_seq in Hall.
  specialize (Hall ltac:(lia)). rewrite forallb_forall in Hall. specialize (Hall (N.to_nat m)).
  rewrite in_seq, !N2Nat.id, He, Ascii.eqb_refl in Hall. apply N2Nat.inj, Nat.eqb_eq, Hall. lia.
Qed.

Lemma hex_byte_shape c : exists x y, hex_byte c = String x (String y EmptyString).
Proof. unfold hex_byte. eauto. Qed.

Lemma hex_byte_inj c d : hex_byte c = hex_byte d -> c = d.
Proof.
  pose proof (N_ascii_bounded c). pose proof (N_ascii_bounded d).
  unfold hex_byte. intros [= Hhi%hex_digit_inj Hlo%hex_digit_inj];
    [|by (apply N.mod_lt || (apply N.Div0.div_lt_upper_bound; lia))..].
  assert (N_of_ascii c = N_of_ascii d) as He.
  { rewrite (N.div_mod (N_of_ascii c) 16), (N.div_mod (N_of_ascii d) 16) by done. by rewrite Hhi, Hlo. }
  by rewrite <- (ascii_N_embedding c), <- (ascii_N_embedding d), He.
Qed.

Lemma hex_bytes_inj s1 s2 : hex_bytes s1 = hex_bytes s2 -> s1 = s2.
Proof.
  revert s2. induction s1 as [|c s1 IH]; intros [|d s2]; simpl; [done|by destruct (hex_byte_shape d) as (?&?&->)|
    by destruct (hex_byte_shape c) as (?&?&->)|].
  intros Heq. assert (hex_byte c = hex_byte d) as ->%hex_byte_inj.
  { revert Heq. unfold hex_byte. by intros [= -> -> _]. }
  f_equal. apply IH. revert Heq. unfold hex_byte. by intros [= ?].
Qed.

Lemma hex_bytes_form s : forall c, c ∈ String.list_ascii_of_string (hex_bytes s) -> lower_hex c = true.
Proof.
  induction s as [|c s IH]; intros d; simpl; [by intros ?%elem_of_nil|].
  pose proof (N_ascii_bounded c). unfold hex_byte.
  intros [->|[->|Hd]%elem_of_cons]%elem_of_cons; [apply hex_digit_lower..|by apply IH].
  - apply N.Div0.div_lt_upper_bound. lia.
  - by apply N.mod_lt.
Qed.

Lemma hex_bytes_length s : String.length (hex_bytes s) = 2 * String.length s.
Proof. induction s as [|c s IH]; [done|]. cbn [hex_bytes]. unfold hex_byte.
  simpl. change (EmptyString +:+ hex_bytes s) with (hex_bytes s). lia. Qed.
