(* ===== verification/Json.v ===== *)
(** * Json: what the code uses of encoding/json

    Documents are values of [json].  [marshal] writes one as text, escaping as
    encoding/json does (ASCII exactly; a byte from 128 up is copied, which is
    what it does with the valid UTF-8 the bytes are part of).  [decode_fields]
    is how a struct is filled from an object: key by key in document order,
    unknown keys skipped, stopping at the first field whose own decoder fails. *)

From S2P Require Import Prelude GoStrings.
From Stdlib Require Import Ascii.

Inductive json : Type :=
| JNull
| JBool (b : bool)
| JNumber (n : Z)
| JString (s : string)
| JArray (l : list json)
| JObject (fields : list (string * json)).

Definition bslash : ascii := ascii_of_N 92.

Definition json_byte (c : ascii) : string :=
  let esc x := String bslash (String x EmptyString) in
  match N_of_ascii c with
  | 8 => esc "b"%char
  | 9 => esc "t"%char
  | 10 => esc "n"%char
  | 12 => esc "f"%char
  | 13 => esc "r"%char
  | 34 => esc c
  | 92 => esc c
  | n =>
    if (n <? 32) || (n =? 38) || (n =? 60) || (n =? 62)
    then String bslash ("u00" +:+ String (hex_digit (n / 16)) (String (hex_digit (n mod 16)) EmptyString))
    else String c EmptyString
  end%N.

Fixpoint json_bytes (s : string) : string :=
  match s with
  | EmptyString => EmptyString
  | String c s' => json_byte c +:+ json_bytes s'
  end.

Definition json_quote (s : string) : string := dquote +:+ json_bytes s +:+ dquote.

(** json.Marshal of a document. *)
Fixpoint marshal (j : json) : string :=
  match j with
  | JNull => "null"
  | JBool b => if b then "true" else "false"
  | JNumber n => itoa n
  | JString s => json_quote s
  | JArray l => "[" +:+ strings_Join "," (map marshal l) +:+ "]"
  | JObject fields =>
    "{" +:+ strings_Join "," (map (fun '(k, v) => json_quote k +:+ ":" +:+ marshal v) fields) +:+ "}"
  end.

(** A pointer field with the omitempty option. *)
Definition omitempty {A : Type} (key : string) (enc : A -> json) (p : option A) : list (string * json) :=
  match p with Some a => [(key, enc a)] | None => [] end.

(** How one field of a struct [T] is set; [None] stops the decoding. *)
Abbreviation setter T := (json -> T -> option T).

Fixpoint field_of {T : Type} (fields : list (string * setter T)) (key : string) : option (setter T) :=
  match fields with
  | [] => None
  | (k, set) :: fields' => if bool_decide (k = key) then Some set else field_of fields' key
  end.

Fixpoint decode_fields {T : Type} (fields : list (string * setter T)) (obj : list (string * json)) (out : T) : T :=
  match obj with
  | [] => out
  | (key, v) :: obj' =>
    match field_of fields key with
    | None => decode_fields fields obj' out
    | Some set =>
      match set v out with
      | None => out
      | Some out' => decode_fields fields obj' out'
      end
    end
  end.

(** A string is stored in a string field; null and other types are skipped. *)
Definition set_string {T : Type} (store : string -> T -> T) : setter T := fun v out =>
  match v with JString s => Some (store s out) | _ => Some out end.
