(* ===== verification/Utf8.v ===== *)
(** * Utf8: how Go reads a string as runes

    unicode/utf8, and the range of a for loop over a string: each step decodes
    one rune, or yields U+FFFD and skips one byte where the bytes are not valid
    UTF-8.  Runes are integers. *)

From S2P Require Import Prelude.
From Stdlib Require Import Ascii.

Definition RuneError : Z := 65533.

Definition byte (c : ascii) : Z := Z.of_N (N_of_ascii c).
Definition of_byte (z : Z) : ascii := ascii_of_N (Z.to_N z).

Definition between (lo hi z : Z) : bool := (lo <=? z)%Z && (z <=? hi)%Z.

(** A continuation byte. *)
Definition cont (c : ascii) : bool := between 128 191 (byte c).

(** The second bytes that may follow the first byte of a longer sequence. *)
Definition second_ok (b0 : Z) (c : ascii) : bool :=
  if (b0 =? 224)%Z then between 160 191 (byte c)
  else if (b0 =? 237)%Z then between 128 159 (byte c)
  else if (b0 =? 240)%Z then between 144 191 (byte c)
  else if (b0 =? 244)%Z then between 128 143 (byte c)
  else cont c.

(** The payload of a continuation byte. *)
Definition low6 (c : ascii) : Z := (byte c - 128)%Z.

(** The runes of a string, and whether each was encoded validly. *)
Fixpoint decode (s : string) : list (Z * bool) :=
  match s with
  | EmptyString => []
  | String a s1 =>
    let b0 := byte a in
    let bad := (RuneError, false) :: decode s1 in
    if (b0 <? 128)%Z then (b0, true) :: decode s1
    else if between 194 223 b0 then
      match s1 with
      | String b s2 => if cont b then (((b0 - 192) * 64 + low6 b)%Z, true) :: decode s2 else bad
      | _ => bad
      end
    else if between 224 239 b0 then
      match s1 with
      | String b (String c s3) =>
        if second_ok b0 b && cont c
        then (((b0 - 224) * 4096 + low6 b * 64 + low6 c)%Z, true) :: decode s3 else bad
      | _ => bad
      end
    else if between 240 244 b0 then
      match s1 with
      | String b (String c (String d s4)) =>
        if second_ok b0 b && cont c && cont d
        then (((b0 - 240) * 262144 + low6 b * 4096 + low6 c * 64 + low6 d)%Z, true) :: decode s4 else bad
      | _ => bad
      end
    else bad
  end.

(** for _, c := range s. *)
Definition runes (s : string) : list Z := (decode s).*1.

(** utf8.ValidString. *)
Definition ValidString (s : string) : bool := forallb snd (decode s).

(** utf8.ValidRune. *)
Definition ValidRune (r : Z) : bool := between 0 55295 r || between 57344 1114111 r.

(** utf8.AppendRune, for valid runes. *)
Definition encode_rune (r : Z) (s : string) : string :=
  if (r <? 128)%Z then String (of_byte r) s
  else if (r <? 2048)%Z then String (of_byte (192 + r / 64)) (String (of_byte (128 + r mod 64)) s)
  else if (r <? 65536)%Z then
    String (of_byte (224 + r / 4096)) (String (of_byte (128 + r / 64 mod 64)) (String (of_byte (128 + r mod 64)) s))
  else
    String (of_byte (240 + r / 262144)) (String (of_byte (128 + r / 4096 mod 64))
      (String (of_byte (128 + r / 64 mod 64)) (String (of_byte (128 + r mod 64)) s))).

(** string(rs). *)
Definition encode (rs : list Z) : string := foldr encode_rune EmptyString rs.

(** ** Encoding and decoding are inverse *)

Lemma byte_of_byte z : (0 <= z < 256)%Z -> byte (of_byte z) = z.
Proof. intros Hz. unfold byte, of_byte. rewrite N_ascii_embedding; lia. Qed.

Lemma of_byte_byte c : of_byte (byte c) = c.
Proof. unfold byte, of_byte. by rewrite N2Z.id, ascii_N_embedding. Qed.

Lemma byte_range c : (0 <= byte c < 256)%Z.
Proof. unfold byte. pose proof (N_ascii_bounded c). lia. Qed.

Lemma between_true lo hi z : between lo hi z = true <-> (lo <= z <= hi)%Z.
Proof. unfold between. lia. Qed.

Lemma between_false lo hi z : between lo hi z = false <-> ~ (lo <= z <= hi)%Z.
Proof. unfold between. lia. Qed.

Lemma cont_of_byte z : (0 <= z < 64)%Z -> cont (of_byte (128 + z)) = true.
Proof. intros Hz. unfold cont. rewrite byte_of_byte, between_true; lia. Qed.

Lemma low6_of_byte z : (0 <= z < 64)%Z -> low6 (of_byte (128 + z)) = z.
Proof. intros Hz. unfold low6. rewrite byte_of_byte; lia. Qed.

Lemma mod64_range z : (0 <= z mod 64 < 64)%Z.
Proof. apply Z.mod_pos_bound. lia. Qed.

Lemma div64_64 z : (z / 4096 = z / 64 / 64)%Z.
Proof. by rewrite Z.div_div. Qed.

(** The digits of a rune in base 64. *)
Lemma split64 z : (z = z / 64 * 64 + z mod 64)%Z.
Proof. pose proof (Z.div_mod z 64). lia. Qed.

(** What decides the second byte, in terms of the rune. *)
Lemma second_ok_3 r :
  (2048 <= r < 65536)%Z -> ValidRune r = true ->
  second_ok (224 + r / 4096) (of_byte (128 + r / 64 mod 64)) = true.
Proof.
  intros Hr Hv. unfold ValidRune in Hv. rewrite orb_true_iff, !between_true in Hv.
  pose proof (mod64_range (r / 64)). unfold second_ok, cont. rewrite byte_of_byte by lia.
  pose proof (split64 r). pose proof (split64 (r / 64)). rewrite <-div64_64 in *. pose proof (mod64_range r).
  repeat case_match; rewrite ?between_true; lia.
Qed.

Lemma second_ok_4 r :
  (65536 <= r <= 1114111)%Z -> second_ok (240 + r / 262144) (of_byte (128 + r / 4096 mod 64)) = true.
Proof.
  intros Hr. pose proof (mod64_range (r / 4096)). unfold second_ok, cont. rewrite byte_of_byte by lia.
  pose proof (split64 (r / 4096)). pose proof (Z.div_mod r 4096). pose proof (Z.mod_pos_bound r 4096).
  assert (r / 4096 / 64 = r / 262144)%Z by (by rewrite Z.div_div).
  repeat case_match; rewrite ?between_true; lia.
Qed.

Lemma decode_encode_rune r s : ValidRune r = true -> decode (encode_rune r s) = (r, true) :: decode s.
Proof.
  intros Hv. pose proof Hv as Hv'. unfold ValidRune in Hv'. rewrite orb_true_iff, !between_true in Hv'.
  pose proof (mod64_range r). pose proof (mod64_range (r / 64)). pose proof (mod64_range (r / 4096)).
  pose proof (split64 r). pose proof (split64 (r / 64)). pose proof (split64 (r / 4096)).
  assert (r / 64 / 64 = r / 4096)%Z by (by rewrite Z.div_div).
  assert (r / 4096 / 64 = r / 262144)%Z by (by rewrite Z.div_div).
  unfold encode_rune. destruct (Z.ltb_spec r 128); [|destruct (Z.ltb_spec r 2048); [|destruct (Z.ltb_spec r 65536)]];
    cbn [decode]; rewrite ?cont_of_byte, ?low6_of_byte by lia; rewrite !byte_of_byte by lia.
  - by rewrite (proj2 (Z.ltb_lt _ _)) by lia.
  - rewrite (proj2 (Z.ltb_ge _ _)) by lia. rewrite (proj2 (between_true _ _ _)) by lia. repeat f_equal. lia.
  - rewrite (proj2 (Z.ltb_ge _ _)) by lia. rewrite (proj2 (between_false _ _ _)) by lia.
    rewrite (proj2 (between_true _ _ _)) by lia. rewrite second_ok_3 by (done || lia). simpl. repeat f_equal. lia.
  - rewrite (proj2 (Z.ltb_ge _ _)) by lia. rewrite (proj2 (between_false _ _ _)) by lia.
    rewrite (proj2 (between_false _ _ _)) by lia. rewrite (proj2 (between_true _ _ _)) by lia.
    rewrite second_ok_4 by lia. simpl. repeat f_equal. lia.
Qed.

Lemma runes_encode rs : Forall (fun r => ValidRune r = true) rs -> runes (encode rs) = rs /\ ValidString (encode rs) = true.
Proof.
  unfold runes, ValidString. induction 1 as [|r rs Hr _ [IH1 IH2]]; [done|].
  change (encode (r :: rs)) with (encode_rune r (encode rs)). rewrite decode_encode_rune by done.
  csimpl. by rewrite IH1, IH2.
Qed.

Lemma low6_range c : cont c = true -> (0 <= low6 c < 64)%Z.
Proof. unfold cont, low6. rewrite between_true. lia. Qed.

Lemma of_low6 c : of_byte (128 + low6 c) = c.
Proof. rewrite <-(of_byte_byte c) at 2. unfold low6. f_equal. lia. Qed.

Lemma of_lead c b : of_byte (b + (byte c - b)) = c.
Proof. rewrite <-(of_byte_byte c) at 2. f_equal. lia. Qed.

(** A number from its digits in base 64. *)
Lemma digits64 a b : (0 <= b < 64)%Z -> ((a * 64 + b) / 64 = a /\ (a * 64 + b) mod 64 = b)%Z.
Proof. intros Hb. rewrite Z.div_add_l, Z.div_small, (Z.add_comm _ b), Z.mod_add, Z.mod_small by lia. lia. Qed.

Lemma encode_rune_2 a b s :
  between 194 223 (byte a) = true -> cont b = true ->
  encode_rune ((byte a - 192) * 64 + low6 b) s = String a (String b s).
Proof.
  rewrite between_true. intros Ha Hb%low6_range. unfold encode_rune.
  rewrite (proj2 (Z.ltb_ge _ _)) by lia. rewrite (proj2 (Z.ltb_lt _ _)) by lia.
  destruct (digits64 (byte a - 192) (low6 b) Hb) as [-> ->]. by rewrite of_low6, of_lead.
Qed.

Lemma encode_rune_3 a b c s :
  between 224 239 (byte a) = true -> second_ok (byte a) b = true -> cont c = true ->
  encode_rune ((byte a - 224) * 4096 + low6 b * 64 + low6 c) s = String a (String b (String c s)).
Proof.
  rewrite between_true. intros Ha Hs Hc%low6_range.
  assert (0 <= low6 b < 64 /\ (byte a = 224 -> 32 <= low6 b))%Z as [Hb Hb'].
  { unfold second_ok, cont, low6 in *. revert Hs. repeat case_match; rewrite between_true; lia. }
  set (r := (_ + low6 c)%Z). assert (r = ((byte a - 224) * 64 + low6 b) * 64 + low6 c)%Z as Hr by lia.
  unfold encode_rune. do 2 rewrite (proj2 (Z.ltb_ge _ _)) by lia. rewrite (proj2 (Z.ltb_lt _ _)) by lia.
  rewrite div64_64, Hr. destruct (digits64 ((byte a - 224) * 64 + low6 b) (low6 c) Hc) as [-> ->].
  destruct (digits64 (byte a - 224) (low6 b) Hb) as [-> ->]. by rewrite !of_low6, of_lead.
Qed.

Lemma encode_rune_4 a b c d s :
  between 240 244 (byte a) = true -> second_ok (byte a) b = true -> cont c = true -> cont d = true ->
  encode_rune ((byte a - 240) * 262144 + low6 b * 4096 + low6 c * 64 + low6 d) s =
  String a (String b (String c (String d s))).
Proof.
  rewrite between_true. intros Ha Hs Hc%low6_range Hd%low6_range.
  assert (0 <= low6 b < 64 /\ (byte a = 240 -> 16 <= low6 b))%Z as [Hb Hb'].
  { unfold second_ok, cont, low6 in *. revert Hs. repeat case_match; rewrite between_true; lia. }
  set (r := (_ + low6 d)%Z).
  assert (r = (((byte a - 240) * 64 + low6 b) * 64 + low6 c) * 64 + low6 d)%Z as Hr by lia.
  unfold encode_rune. do 3 rewrite (proj2 (Z.ltb_ge _ _)) by lia.
  replace (r / 262144)%Z with (r / 64 / 64 / 64)%Z by (by rewrite !Z.div_div). rewrite div64_64, Hr.
  destruct (digits64 (((byte a - 240) * 64 + low6 b) * 64 + low6 c) (low6 d) Hd) as [-> ->].
  destruct (digits64 ((byte a - 240) * 64 + low6 b) (low6 c) Hc) as [-> ->].
  destruct (digits64 (byte a - 240) (low6 b) Hb) as [-> ->]. by rewrite !of_low6, of_lead.
Qed.

Lemma encode_runes s : ValidString s = true -> encode (runes s) = s.
Proof.
  remember (String.length s) as n eqn:Hn. revert s Hn. induction n as [n IH] using lt_wf_ind. intros s ->.
  assert (forall s', (String.length s' < String.length s)%nat -> forallb snd (decode s') = true ->
    foldr encode_rune EmptyString (decode s').*1 = s') as IH' by (intros s' Hl; by apply (IH _ Hl)).
  unfold ValidString, runes, encode. destruct s as [|a s]; [done|]. cbn [decode].
  destruct (Z.ltb_spec (byte a) 128).
  { simpl. intros Hv. rewrite IH' by (done || simpl; lia). unfold encode_rune.
    rewrite (proj2 (Z.ltb_lt _ _)) by done. by rewrite of_byte_byte. }
  destruct (between 194 223 (byte a)) eqn:H2.
  { destruct s as [|b s]; [done|]. destruct (cont b) eqn:Hb; [|done]. simpl. intros Hv.
    rewrite IH' by (done || simpl; lia). by apply encode_rune_2. }
  destruct (between 224 239 (byte a)) eqn:H3.
  { destruct s as [|b [|c s]]; [done..|]. destruct (second_ok (byte a) b && cont c) eqn:Hb; [|done].
    apply andb_prop in Hb as [Hb Hc]. simpl. intros Hv.
    rewrite IH' by (done || simpl; lia). by apply encode_rune_3. }
  destruct (between 240 244 (byte a)) eqn:H4; [|done].
  destruct s as [|b [|c [|d s]]]; [done..|]. destruct (second_ok (byte a) b && cont c && cont d) eqn:Hb; [|done].
  apply andb_prop in Hb as [[Hb Hc]%andb_prop Hd]. simpl. intros Hv.
  rewrite IH' by (done || simpl; lia). by apply encode_rune_4.
Qed.

(** Valid strings are told apart by their runes. *)
Lemma runes_inj s1 s2 : ValidString s1 = true -> ValidString s2 = true -> runes s1 = runes s2 -> s1 = s2.
Proof. intros H1 H2 Heq. by rewrite <-(encode_runes s1), <-(encode_runes s2), Heq. Qed.
