(* ===== verification/GoNet.v ===== *)
(** * GoNet: the address types of Go's net package

    net.IP is a slice of bytes (four or sixteen of them, or none), net.IPNet an
    address with a mask.  ParseIP and ParseCIDR go through netip.ParseAddr. *)

From S2P Require Import Prelude GoStrings.
From Stdlib Require Import Ascii.

Module net.

(** Bytes, as integers from 0 to 255; nil is []. *)
Abbreviation IP := (list Z).

Record IPNet := { IPNet_IP : IP; Mask : list Z }.

(** The prefix of the IPv6 addresses that stand for IPv4 ones. *)
Definition v4InV6Prefix : list Z := [0; 0; 0; 0; 0; 0; 0; 0; 0; 0; 255; 255]%Z.

Definition To4 (ip : IP) : option IP :=
  if decide (length ip = 4) then Some ip
  else if decide (length ip = 16 /\ take 12 ip = v4InV6Prefix) then Some (drop 12 ip)
  else None.

(** ** Printing *)

Definition print4 (ip : IP) : string := strings_Join "." (map itoa ip).

Definition hex_digits (z : Z) : string :=
  let d n := String (hex_digit (Z.to_N n)) EmptyString in
  if (z <? 16)%Z then d z
  else if (z <? 256)%Z then d (z / 16)%Z +:+ d (z mod 16)%Z
  else if (z <? 4096)%Z then d (z / 256)%Z +:+ d (z / 16 mod 16)%Z +:+ d (z mod 16)%Z
  else d (z / 4096)%Z +:+ d (z / 256 mod 16)%Z +:+ d (z / 16 mod 16)%Z +:+ d (z mod 16)%Z.

Fixpoint groups (ip : IP) : list Z :=
  match ip with h :: l :: ip' => (h * 256 + l)%Z :: groups ip' | _ => [] end.

(** How many groups are zero at the start. *)
Fixpoint zero_run (gs : list Z) : nat :=
  match gs with 0%Z :: gs' => S (zero_run gs') | _ => 0 end.

(** The first longest run of at least two zero groups: where it starts, and its
    length; [best] is the longest so far. *)
Fixpoint longest_run (gs : list Z) (i : nat) (best : nat * nat) : nat * nat :=
  match gs with
  | [] => best
  | _ :: gs' =>
    let l := zero_run gs in
    longest_run gs' (S i) (if decide (2 <= l /\ best.2 < l) then (i, l) else best)
  end.

Definition print6 (ip : IP) : string :=
  let gs := groups ip in
  let '(start, len) := longest_run gs 0 (255, 0) in
  let hex := strings_Join ":" ∘ map hex_digits in
  if decide (len = 0) then hex gs
  else hex (take start gs) +:+ "::" +:+ hex (drop (start + len) gs).

(** IP.String; addresses of another length, which print their bytes after a
    question mark, are not produced by the functions below. *)
Definition IP_String (ip : IP) : string :=
  if decide (ip = []) then "<nil>"
  else match To4 ip with
       | Some p4 => print4 p4
       | None => if decide (length ip = 16) then print6 ip else "?"
       end.

(** ** Parsing *)

(** A decimal octet: digits, without a leading zero, up to 255. *)
Definition parse_octet (s : string) : option Z :=
  match s with
  | EmptyString => None
  | String "0" (String _ _) => None
  | _ => z ← digits_value s 0; if decide (z <= 255)%Z then Some z else None
  end.

Definition parseIPv4 (s : string) : option (list Z) :=
  match strings_Split "." s with
  | [a; b; c; d] =>
    a ← parse_octet a; b ← parse_octet b; c ← parse_octet c; d ← parse_octet d; Some [a; b; c; d]
  | _ => None
  end.

Definition hex_value (c : ascii) : option Z :=
  let z := Z.of_N (N_of_ascii c) in
  if is_digit c then Some (z - 48)%Z
  else if ascii_between 97 102 c then Some (z - 87)%Z
  else if ascii_between 65 70 c then Some (z - 55)%Z
  else None.

(** The hexadecimal number at the start of a string, the number of its digits
    and what follows it. *)
Fixpoint parse_hex (s : string) (acc : Z) (off : nat) : Z * nat * string :=
  match s with
  | EmptyString => (acc, off, s)
  | String c s' =>
    match hex_value c with
    | Some d => parse_hex s' (acc * 16 + d)%Z (S off)
    | None => (acc, off, s)
    end
  end.

(** The loop of parseIPv6: [ip] are the bytes so far, [ellipsis] where it was. *)
Fixpoint parse_groups (fuel : nat) (s : string) (ip : list Z) (ellipsis : option nat) : option (list Z * option nat) :=
  match fuel with
  | O => if decide (s = "") then Some (ip, ellipsis) else None
  | S fuel' =>
    let '(acc, off, rest) := parse_hex s 0 0 in
    if decide (off = 0 \/ 4 < off) then None
    else
      match rest with
      | String "." _ =>
        if decide ((ellipsis = None /\ length ip <> 12) \/ 12 < length ip) then None
        else v4 ← parseIPv4 s; Some (ip ++ v4, ellipsis)
      | EmptyString => Some (ip ++ [acc / 256; acc mod 256]%Z, ellipsis)
      | String ":" EmptyString => None
      | String ":" (String ":" rest') =>
        let ip' := ip ++ [acc / 256; acc mod 256]%Z in
        if decide (is_Some ellipsis) then None
        else if decide (rest' = "") then Some (ip', Some (length ip'))
        else parse_groups fuel' rest' ip' (Some (length ip'))
      | String ":" rest' => parse_groups fuel' rest' (ip ++ [acc / 256; acc mod 256]%Z) ellipsis
      | _ => None
      end
  end.

(** Expand the ellipsis to the zeros that are missing: at least one group. *)
Definition expand (ip : list Z) (ellipsis : option nat) : option (list Z) :=
  match ellipsis with
  | None => if decide (length ip = 16) then Some ip else None
  | Some e => if decide (length ip < 16) then Some (take e ip ++ replicate (16 - length ip) 0%Z ++ drop e ip) else None
  end.

(** parseIPv6, of an address without a zone. *)
Definition parseIPv6 (s : string) : option (list Z) :=
  match s with
  | String ":" (String ":" EmptyString) => Some (replicate 16 0%Z)
  | String ":" (String ":" s') => '(ip, e) ← parse_groups 8 s' [] (Some 0); expand ip e
  | _ => '(ip, e) ← parse_groups 8 s [] None; expand ip e
  end.

(** Which parser the first dot or colon selects. *)
Fixpoint first_special (s : string) : option ascii :=
  match s with
  | EmptyString => None
  | String c s' => if existsb (Ascii.eqb c) ["."%char; ":"%char; "%"%char] then Some c else first_special s'
  end.

(** netip.ParseAddr, refusing the addresses with a zone as both callers do. *)
Definition ParseAddr (s : string) : option (list Z) :=
  match first_special s with
  | Some "."%char => parseIPv4 s
  | Some ":"%char => if strings_Contains s "%" then None else parseIPv6 s
  | _ => None
  end.

Definition As16 (ip : list Z) : IP := if decide (length ip = 4) then v4InV6Prefix ++ ip else ip.

Definition ParseIP (s : string) : option IP := As16 <$> ParseAddr s.

(** CIDRMask: the byte at a position of a mask of [ones]. *)
Definition mask_byte (ones : Z) (i : nat) : Z :=
  let n := Z.max 0 (Z.min 8 (ones - 8 * Z.of_nat i)) in (256 - 2 ^ (8 - n))%Z.

Definition CIDRMask (ones : Z) (bytes : nat) : list Z := map (mask_byte ones) (seq 0 bytes).

(** IP.Mask, of a sixteen-byte address. *)
Definition IP_Mask (ip mask : list Z) : IP :=
  let ip := if decide (length mask = 4) then default ip (To4 ip) else ip in
  zip_with Z.land ip mask.

(** The digits of a prefix length, dtoi: "/" and what follows. *)
Definition parse_length (s : string) (bits : Z) : option Z :=
  match s with
  | EmptyString => None
  | _ => n ← digits_value s 0; if decide (n <= bits)%Z then Some n else None
  end.

(** strings.Cut. *)
Fixpoint Cut (sep : ascii) (s : string) : option (string * string) :=
  match s with
  | EmptyString => None
  | String c s' =>
    if Ascii.eqb c sep then Some (EmptyString, s')
    else '(a, b) ← Cut sep s'; Some (String c a, b)
  end.

(** ParseCIDR's network. *)
Definition ParseCIDR (s : string) : option IPNet :=
  '(addr, mask) ← Cut "/" s;
  ip ← ParseAddr addr;
  n ← parse_length mask (8 * Z.of_nat (length ip));
  let m := CIDRMask n (length ip) in
  Some {| IPNet_IP := IP_Mask (As16 ip) m; Mask := m |}.

(** simpleMaskLength: the number of ones of a mask that is ones, then zeros. *)
Fixpoint mask_length (m : list Z) : option Z :=
  match m with
  | [] => Some 0%Z
  | 255%Z :: m' => Z.add 8 <$> mask_length m'
  | b :: m' =>
    if decide (Forall (fun z => z = 0%Z) m')
    then list_find (fun k => mask_byte (Z.of_nat k) 0 = b) (seq 0 8) ≫= fun '(_, k) => Some (Z.of_nat k)
    else None
  end.

(** IPNet.String; a mask that is not simple, which prints in hexadecimal, is not
    produced by ParseCIDR. *)
Definition IPNet_String (n : IPNet) : string :=
  let nn := match To4 (IPNet_IP n) with
    | Some ip => Some ip
    | None => if decide (length (IPNet_IP n) = 16) then Some (IPNet_IP n) else None
    end in
  match nn with
  | None => "<nil>"
  | Some ip =>
    let m := if decide (length (Mask n) = 16 /\ length ip = 4) then drop 12 (Mask n) else Mask n in
    if decide (length m = length ip) then
      match mask_length m with
      | Some l => IP_String ip +:+ "/" +:+ itoa l
      | None => IP_String ip +:+ "/?"
      end
    else "<nil>"
  end.

End net.

(** ** Octets *)

Import net.

Definition octet (z : Z) : Prop := (0 <= z < 256)%Z.

Definition octets (l : list Z) : Prop := Forall octet l.

(** The digits an octet prints as are read back, and are digits only. *)
Lemma octet_text_all :
  forallb (fun n => let z := Z.of_nat n in
    bool_decide (parse_octet (itoa z) = Some z) && string_forallb is_digit (itoa z)) (seq 0 256) = true.
Proof. vm_compute. reflexivity. Qed.

Lemma octet_text z : octet z -> parse_octet (itoa z) = Some z /\ string_forallb is_digit (itoa z) = true.
Proof.
  intros Hz. pose proof octet_text_all as Hall. rewrite forallb_forall in Hall.
  specialize (Hall (Z.to_nat z)). rewrite Z2Nat.id in Hall by (unfold octet in *; lia).
  apply andb_prop in Hall as [Hp Hd]; [by apply bool_decide_eq_true in Hp|].
  apply in_seq. unfold octet in *. lia.
Qed.

Lemma digits_no_byte c s : is_digit c = false -> string_forallb is_digit s = true -> ~ has_byte c s.
Proof.
  intros Hc. induction s as [|c' s IH]; [intros _ ([|? ?] & b & Heq); discriminate Heq|].
  simpl. intros [Hc' Hs]%andb_prop. rewrite has_byte_cons. intros [->|Hb]; [congruence|]. by apply IH.
Qed.

Lemma Split_digits c s : is_digit c = false -> string_forallb is_digit s = true -> strings_Split c s = [s].
Proof.
  intros Hc Hs. pose proof (digits_no_byte _ _ Hc Hs) as Hn. rewrite <-Split_second in Hn.
  pose proof (strings_Join_Split c s) as Hj. pose proof (strings_Split_nonempty c s).
  destruct (strings_Split c s) as [|w [|w' ws]]; [done|by simpl in Hj; subst|]. destruct Hn. by eexists.
Qed.

Lemma first_special_digits s s' : string_forallb is_digit s = true -> first_special (s +:+ s') = first_special s'.
Proof.
  induction s as [|c s IH]; [done|]. simpl. intros [Hc Hs]%andb_prop.
  change (String c s +:+ s') with (String c (s +:+ s')). simpl.
  rewrite IH by done. revert Hc. clear. by destruct c as [[] [] [] [] [] [] [] []].
Qed.

(** ** Round trips of IPv4 *)

Lemma print4_join a b c d :
  print4 [a; b; c; d] = itoa a +:+ String "." (itoa b +:+ String "." (itoa c +:+ String "." (itoa d))).
Proof. reflexivity. Qed.

Lemma parseIPv4_print4 ip : length ip = 4 -> octets ip -> parseIPv4 (print4 ip) = Some ip.
Proof.
  destruct ip as [|a [|b [|c [|d [|]]]]]; try done. intros _ Ho. unfold octets in Ho. rewrite !Forall_cons in Ho.
  destruct Ho as ([Ha Ha']%octet_text & [Hb Hb']%octet_text & [Hc Hc']%octet_text & [Hd Hd']%octet_text & _).
  rewrite print4_join. unfold parseIPv4.
  rewrite !Split_first by (by apply digits_no_byte). rewrite Split_digits by done.
  rewrite Ha. simpl. rewrite Hb. simpl. rewrite Hc. simpl. by rewrite Hd.
Qed.

Lemma ParseAddr_print4 ip : length ip = 4 -> octets ip -> ParseAddr (print4 ip) = Some ip.
Proof.
  intros Hl Ho. unfold ParseAddr.
  assert (first_special (print4 ip) = Some "."%char) as ->; [|by apply parseIPv4_print4].
  destruct ip as [|a [|b [|c [|d [|]]]]]; try done. unfold octets in Ho. rewrite !Forall_cons in Ho.
  destruct Ho as ([_ Ha]%octet_text & _). by rewrite print4_join, first_special_digits.
Qed.

(** ** What is parsed is an address *)

Lemma ascii_between_true lo hi c :
  ascii_between lo hi c = true -> (Z.of_N lo <= Z.of_N (N_of_ascii c) <= Z.of_N hi)%Z.
Proof. unfold ascii_between. intros [H1%N.leb_le H2%N.leb_le]%andb_prop. lia. Qed.

Lemma digits_value_nonneg s acc z : (0 <= acc)%Z -> digits_value s acc = Some z -> (0 <= z)%Z.
Proof.
  revert acc. induction s as [|c s IH]; intros acc Hacc; simpl; [by intros [= <-]|].
  destruct (is_digit c) eqn:Hc; [|done]. apply IH. apply ascii_between_true in Hc. simpl in Hc. lia.
Qed.

Lemma parse_octet_octet s z : parse_octet s = Some z -> octet z.
Proof.
  unfold parse_octet. assert (forall s', (z' ← digits_value s' 0; if decide (z' <= 255)%Z then Some z' else None) = Some z ->
    octet z) as Hgen.
  { intros s'. destruct (digits_value s' 0) as [z'|] eqn:Hd; [|done]. apply digits_value_nonneg in Hd; [|lia].
    simpl. case_decide; [|done]. intros [= ->]. unfold octet. lia. }
  repeat case_match; try done; apply Hgen.
Qed.

Lemma parseIPv4_octets s ip : parseIPv4 s = Some ip -> length ip = 4 /\ octets ip.
Proof.
  unfold parseIPv4. destruct (strings_Split "." s) as [|a [|b [|c [|d [|]]]]]; try done.
  destruct (parse_octet a) eqn:Ha; [|done]. simpl. destruct (parse_octet b) eqn:Hb; [|done]. simpl.
  destruct (parse_octet c) eqn:Hc; [|done]. simpl. destruct (parse_octet d) eqn:Hd; [|done]. simpl.
  intros [= <-]. split; [done|]. repeat constructor; by eapply parse_octet_octet.
Qed.

Lemma hex_value_range c d : hex_value c = Some d -> (0 <= d < 16)%Z.
Proof.
  unfold hex_value, is_digit. repeat case_match; intros; simplify_eq;
    match goal with Hb : ascii_between _ _ _ = true |- _ => apply ascii_between_true in Hb; simpl in Hb; lia end.
Qed.

Lemma parse_hex_bound s acc off z n rest :
  (0 <= acc < 16 ^ Z.of_nat off)%Z -> parse_hex s acc off = (z, n, rest) -> (0 <= z < 16 ^ Z.of_nat n)%Z.
Proof.
  revert acc off. induction s as [|c s IH]; intros acc off Hacc; simpl; [by intros [= <- <- <-]|].
  destruct (hex_value c) as [d|] eqn:Hd; [|by intros [= <- <- <-]].
  apply hex_value_range in Hd. apply IH. rewrite Nat2Z.inj_succ, Z.pow_succ_r by lia. lia.
Qed.

Lemma parse_hex_octets s acc off rest :
  parse_hex s 0 0 = (acc, off, rest) -> (off <= 4)%nat -> octets [acc / 256; acc mod 256]%Z.
Proof.
  intros Hp%parse_hex_bound Hoff; [|simpl; lia].
  assert (16 ^ Z.of_nat off <= 16 ^ 4)%Z by (apply Z.pow_le_mono_r; lia).
  pose proof (Z.mod_pos_bound acc 256). assert (acc / 256 < 256)%Z by (apply Z.div_lt_upper_bound; lia).
  assert (0 <= acc / 256)%Z by (apply Z.div_pos; lia).
  apply Forall_cons; split; [unfold octet; lia|]. apply Forall_singleton. unfold octet. lia.
Qed.

Lemma parse_groups_octets fuel s ip e ip' e' :
  octets ip -> parse_groups fuel s ip e = Some (ip', e') -> octets ip'.
Proof.
  revert s ip e. induction fuel as [|fuel IH]; intros s ip e Hip; simpl.
  { case_decide; [|done]. by intros [= <- <-]. }
  destruct (parse_hex s 0 0) as [[acc off] rest] eqn:Hh. case_decide; [done|].
  assert (octets (ip ++ [acc / 256; acc mod 256]%Z)) as Hnew.
  { apply Forall_app. split; [done|]. eapply parse_hex_octets; [done|lia]. }
  assert (forall v4, parseIPv4 s = Some v4 -> octets (ip ++ v4)) as Hv4.
  { intros v4 [_ Hv]%parseIPv4_octets. by apply Forall_app. }
  repeat case_match; try done; try (by intros [= <- <-]); try (by apply IH).
  all: destruct (parseIPv4 s) as [v4|]; simpl; [intros [= <- <-]; by apply Hv4|done].
Qed.

Lemma expand_octets ip e ip' : octets ip -> expand ip e = Some ip' -> length ip' = 16 /\ octets ip'.
Proof.
  intros Hip. unfold expand. destruct e as [e|]; case_decide; try done; intros [= <-]; split; try done.
  - rewrite !length_app, length_take, length_replicate, length_drop. lia.
  - apply Forall_app. split; [by apply Forall_take|]. apply Forall_app. split; [by apply Forall_replicate|].
    by apply Forall_drop.
Qed.

Lemma parseIPv6_octets s ip : parseIPv6 s = Some ip -> length ip = 16 /\ octets ip.
Proof.
  assert (forall s' e, ('(ip', e') ← parse_groups 8 s' [] e; expand ip' e') = Some ip -> length ip = 16 /\ octets ip) as Hgen.
  { intros s' e. destruct (parse_groups 8 s' [] e) as [[ip' e']|] eqn:Hp; [|done]. simpl.
    apply expand_octets. eapply parse_groups_octets; [|done]. constructor. }
  unfold parseIPv6. repeat case_match; try apply Hgen. intros [= <-]. split; [done|].
  change (octets (replicate 16 0%Z)). by apply Forall_replicate.
Qed.

Lemma ParseAddr_octets s ip : ParseAddr s = Some ip -> (length ip = 4 \/ length ip = 16) /\ octets ip.
Proof.
  unfold ParseAddr. repeat case_match; try done.
  - intros [? ?]%parseIPv4_octets. auto.
  - intros [? ?]%parseIPv6_octets. auto.
Qed.

Lemma As16_octets ip : (length ip = 4 \/ length ip = 16) -> octets ip -> length (As16 ip) = 16 /\ octets (As16 ip).
Proof.
  intros Hl Ho. unfold As16. case_decide as H4; [|split; [lia|done]]. split; [rewrite length_app; simpl; lia|].
  apply Forall_app. split; [|done]. repeat constructor; done.
Qed.

(** Parsing yields sixteen bytes, whatever the text. *)
Lemma ParseIP_octets s ip : ParseIP s = Some ip -> length ip = 16 /\ octets ip.
Proof.
  unfold ParseIP. intros (ip' & [Hl Ho]%ParseAddr_octets & ->)%fmap_Some. by apply As16_octets.
Qed.

(** The four-byte form of an address stands for it. *)
Lemma To4_As16 ip p4 : length ip = 16 -> To4 ip = Some p4 -> As16 p4 = ip /\ length p4 = 4.
Proof.
  unfold To4. intros Hl. rewrite decide_False by lia. case_decide as Hp; [|done]. intros [= <-].
  assert (length (drop 12 ip) = 4) as H4 by (rewrite length_drop; lia). split; [|done].
  unfold As16. rewrite decide_True by done. destruct Hp as [_ <-]. apply take_drop.
Qed.

(** An address with a four-byte form prints as one that is read back as it. *)
Lemma ParseIP_String ip p4 : length ip = 16 -> octets ip -> To4 ip = Some p4 -> ParseIP (IP_String ip) = Some ip.
Proof.
  intros Hl Ho H4. destruct (To4_As16 ip p4 Hl H4) as [Ha Hl4]. unfold IP_String.
  rewrite decide_False by (by intros ->). rewrite H4. unfold ParseIP. rewrite ParseAddr_print4; [by rewrite <-Ha|done|].
  rewrite <-Ha in Ho. unfold As16 in Ho. rewrite decide_True in Ho by done. by apply Forall_app in Ho as [_ ?].
Qed.

(** ** Round trips of IPv4 prefixes *)

Lemma has_byte_app c s1 s2 : has_byte c (s1 +:+ s2) <-> has_byte c s1 \/ has_byte c s2.
Proof.
  induction s1 as [|c' s1 IH].
  - split; [by right|]. intros [([|? ?] & b & Heq)|?]; [discriminate Heq..|done].
  - change (String c' s1 +:+ s2) with (String c' (s1 +:+ s2)). rewrite !has_byte_cons, IH. tauto.
Qed.

Lemma Cut_app c a b : ~ has_byte c a -> Cut c (a +:+ String c b) = Some (a, b).
Proof.
  induction a as [|c' a IH]; intros Ha.
  - change ("" +:+ String c b) with (String c b). simpl. by rewrite Ascii.eqb_refl.
  - rewrite has_byte_cons in Ha. change (String c' a +:+ String c b) with (String c' (a +:+ String c b)). simpl.
    destruct (Ascii.eqb_spec c' c) as [->|Hne]; [naive_solver|]. by rewrite IH by naive_solver.
Qed.

(** The masks of IPv4: their length is read back, and they are idempotent. *)
Lemma mask_all :
  forallb (fun k => let n := Z.of_nat k in
    bool_decide (mask_length (CIDRMask n 4) = Some n) && bool_decide (parse_length (itoa n) 32 = Some n) &&
    forallb (fun m => bool_decide (octet m)) (CIDRMask n 4)) (seq 0 33) = true.
Proof. vm_compute. reflexivity. Qed.

Lemma mask_facts n : (0 <= n <= 32)%Z ->
  mask_length (CIDRMask n 4) = Some n /\ parse_length (itoa n) 32 = Some n /\ octets (CIDRMask n 4).
Proof.
  intros Hn. pose proof mask_all as Hall. rewrite forallb_forall in Hall. specialize (Hall (Z.to_nat n)).
  rewrite Z2Nat.id in Hall by lia. apply andb_prop in Hall as [[Hm Hp]%andb_prop Ho]; [|apply in_seq; lia].
  apply bool_decide_eq_true in Hm, Hp. split_and!; [done|done|]. apply Forall_forall. intros m Hin.
  rewrite forallb_elem_of in Ho. by apply Ho, bool_decide_eq_true in Hin.
Qed.

Lemma land_idemp l m : zip_with Z.land (zip_with Z.land l m) m = zip_with Z.land l m.
Proof.
  revert m. induction l as [|a l IH]; intros [|b m]; try done. simpl. rewrite IH. f_equal.
  by rewrite <-Z.land_assoc, Z.land_diag.
Qed.

Lemma land_octet a b : octet a -> octet b -> octet (Z.land a b).
Proof.
  unfold octet. intros Ha Hb. pose proof (Z.land_nonneg a b). split; [lia|].
  destruct (decide (Z.land a b = 0)%Z) as [->|Hne]; [lia|].
  apply (Z.log2_lt_pow2 _ 8); [lia|]. pose proof (Z.log2_land a b).
  assert (Z.log2 a < 8)%Z by (destruct (decide (a = 0)%Z) as [->|]; [done|apply Z.log2_lt_pow2; lia]). lia.
Qed.

Lemma land_octets l m : octets l -> octets m -> octets (zip_with Z.land l m).
Proof.
  intros Hl. revert m. induction Hl as [|a l Ha Hl IH]; intros m Hm; [constructor|].
  destruct Hm as [|b m Hb Hm]; [constructor|]. simpl. constructor; [by apply land_octet|by apply IH].
Qed.

(** The IPv4 network of an address and a prefix length. *)
Definition network (ip : list Z) (n : Z) : IPNet :=
  {| IPNet_IP := zip_with Z.land ip (CIDRMask n 4); Mask := CIDRMask n 4 |}.

Lemma length_CIDRMask n k : length (CIDRMask n k) = k.
Proof. unfold CIDRMask. by rewrite length_map, length_seq. Qed.

Lemma To4_4 ip : length ip = 4 -> To4 ip = Some ip.
Proof. intros Hl. unfold To4. by rewrite decide_True. Qed.

Lemma To4_As16_4 ip : length ip = 4 -> To4 (As16 ip) = Some ip.
Proof.
  intros Hl. unfold As16. rewrite decide_True by done. unfold To4.
  rewrite decide_False by (rewrite length_app; simpl; lia).
  rewrite decide_True by (split; [rewrite length_app; simpl; lia|done]). done.
Qed.

Lemma ParseCIDR_inv s p :
  ParseCIDR s = Some p -> length (Mask p) = 4 ->
  exists ip n, length ip = 4 /\ octets ip /\ (0 <= n <= 32)%Z /\ p = network ip n.
Proof.
  unfold ParseCIDR. destruct (Cut "/" s) as [[addr mask]|]; [|done]. simpl.
  destruct (ParseAddr addr) as [ip|] eqn:Ha; [|done]. apply ParseAddr_octets in Ha as [Hl Ho]. simpl.
  destruct (parse_length mask _) as [n|] eqn:Hn; [|done]. simpl. intros [= <-]. cbn [Mask].
  rewrite length_CIDRMask. intros H4. exists ip, n. unfold network. rewrite H4 in *. split_and!; [done|done| | |].
  - unfold parse_length in Hn. destruct mask; [done|].
    destruct (digits_value _ 0) as [z|] eqn:Hd; [|done]. apply digits_value_nonneg in Hd; [|lia].
    simpl in Hn. case_decide; [|done]. by simplify_eq.
  - unfold parse_length in Hn. destruct mask; [done|]. destruct (digits_value _ 0) as [z|]; [|done].
    simpl in Hn. case_decide; [|done]. simplify_eq. lia.
  - unfold IP_Mask. rewrite length_CIDRMask, decide_True by done. by rewrite To4_As16_4.
Qed.

Lemma network_String ip n :
  length ip = 4 -> (0 <= n <= 32)%Z ->
  IPNet_String (network ip n) = print4 (zip_with Z.land ip (CIDRMask n 4)) +:+ String "/" (itoa n).
Proof.
  intros Hl (Hm & _ & _)%mask_facts. unfold IPNet_String, network. cbn [IPNet_IP Mask].
  assert (length (zip_with Z.land ip (CIDRMask n 4)) = 4) as Hz by (rewrite length_zip_with, length_CIDRMask; lia).
  rewrite To4_4 by done. cbv beta iota zeta. rewrite !(decide_False (P := length _ = 16 /\ _)) by (rewrite length_CIDRMask; lia).
  rewrite decide_True by (by rewrite length_CIDRMask, Hz). rewrite Hm. unfold IP_String.
  rewrite decide_False by (intros Heq; by rewrite Heq in Hz). by rewrite To4_4.
Qed.

(** A network prints as one that is read back as it. *)
Lemma ParseCIDR_String ip n :
  length ip = 4 -> octets ip -> (0 <= n <= 32)%Z -> ParseCIDR (IPNet_String (network ip n)) = Some (network ip n).
Proof.
  intros Hl Ho Hn. rewrite network_String by done. destruct (mask_facts n Hn) as (_ & Hp & Hmo).
  set (nn := zip_with Z.land ip (CIDRMask n 4)).
  assert (length nn = 4) as Hz by (unfold nn; rewrite length_zip_with, length_CIDRMask; lia).
  assert (octets nn) as Hno by (by apply land_octets).
  unfold ParseCIDR. rewrite Cut_app.
  - simpl. rewrite ParseAddr_print4 by done. simpl. rewrite Hz. change (8 * Z.of_nat 4)%Z with 32%Z. rewrite Hp. simpl.
    unfold IP_Mask. rewrite length_CIDRMask, decide_True by done. rewrite To4_As16_4 by done. simpl.
    unfold nn. by rewrite land_idemp.
  - revert Hz Hno. clear. destruct nn as [|a [|b [|c [|d [|]]]]]; try done. intros _. unfold octets. rewrite !Forall_cons.
    intros ([_ Ha]%octet_text & [_ Hb]%octet_text & [_ Hc]%octet_text & [_ Hd]%octet_text & _).
    rewrite print4_join. repeat rewrite ?has_byte_app, ?has_byte_cons.
    pose proof (digits_no_byte "/" _ eq_refl Ha). pose proof (digits_no_byte "/" _ eq_refl Hb).
    pose proof (digits_no_byte "/" _ eq_refl Hc). pose proof (digits_no_byte "/" _ eq_refl Hd). naive_solver.
Qed.
