(* ===== verification/Effects.v ===== *)
(** * Effects: programs over external calls, and their traces

    Most of the code under src/pkg is glue around calls whose answers the code
    does not control: the Kubernetes API, the CD driver, child provisioners,
    generator hooks.  A Go function that makes such calls is modelled as a
    [prog E A]: a finite tree of calls drawn from the signature [E], each
    continued by what the code does with every possible answer.

    [exec p t r] says that [p] can perform exactly the calls of the trace [t],
    in that order and with the answers recorded there, and then return [r].
    The answers are not constrained, so a theorem about [exec] holds whatever
    the environment does, including other processes that change the objects
    between two calls.  [run] executes a program against a handler. *)

From S2P Require Import Prelude Errors.

Inductive prog (E : Type -> Type) (A : Type) : Type :=
| Ret (a : A)
| Call (X : Type) (e : E X) (k : X -> prog E A).

Arguments Ret {E A} a.
Arguments Call {E A X} e k.

(** An event is a call together with the answer it was given. *)
Inductive event (E : Type -> Type) : Type :=
| Ev (X : Type) (e : E X) (x : X).

Arguments Ev {E X} e x.

Abbreviation trace E := (list (event E)).

Definition call {E : Type -> Type} {X : Type} (e : E X) : prog E X := Call e Ret.

Fixpoint prog_bind {E : Type -> Type} {A B : Type} (k : A -> prog E B) (p : prog E A) : prog E B :=
  match p with
  | Ret a => k a
  | Call e k' => Call e (fun x => prog_bind k (k' x))
  end.

#[export] Instance prog_mret E : MRet (prog E) := fun A a => Ret a.

#[export] Instance prog_mbind E : MBind (prog E) := fun A B k p => prog_bind k p.

(** Go's [if err := p; err != nil { return err }; k]. *)
Definition check {E : Type -> Type} (p : prog E (option error)) (k : prog E (option error)) : prog E (option error) :=
  r ← p; match r with Some err => Ret (Some err) | None => k end.

(** Go's [x, err := p; if err != nil { return ..., err }; k x]. *)
Definition attempt {E : Type -> Type} {A B : Type} (p : prog E (result A)) (k : A -> prog E (result B)) : prog E (result B) :=
  r ← p; match r with Err err => Ret (Err err) | Ok a => k a end.

(** The same, in a function whose only result is the error. *)
Definition attempt_ {E : Type -> Type} {A : Type} (p : prog E (result A)) (k : A -> prog E (option error)) : prog E (option error) :=
  r ← p; match r with Err err => Ret (Some err) | Ok a => k a end.

Fixpoint exec {E : Type -> Type} {A : Type} (p : prog E A) (t : trace E) (r : A) : Prop :=
  match p with
  | Ret a => t = [] /\ r = a
  | Call e k => exists x t', t = Ev e x :: t' /\ exec (k x) t' r
  end.

(** Execution against a handler that keeps a state of its own. *)
Fixpoint run {E : Type -> Type} {S A : Type} (h : forall X, E X -> S -> S * X) (p : prog E A) (s : S) : S * trace E * A :=
  match p with
  | Ret a => (s, [], a)
  | Call e k =>
    let (s1, x) := h _ e s in
    let '(s2, t, a) := run h (k x) s1 in
    (s2, Ev e x :: t, a)
  end.

(** The calls of a trace that satisfy a predicate, in order. *)
Definition calls {E : Type -> Type} (P : event E -> bool) (t : trace E) : trace E :=
  base.filter (fun ev => P ev = true) t.

(** [E] includes the calls of [F]: how a component that makes the calls [F]
    is used in a program that makes others too. *)
Class Subeffect (F E : Type -> Type) := {
  inject {X : Type} : F X -> E X;
  project {X : Type} : E X -> option (F X);
  project_inject {X : Type} (f : F X) : project (inject f) = Some f;
}.

#[export] Instance subeffect_refl E : Subeffect E E.
Proof. by refine {| inject X e := e; project X e := Some e |}. Defined.

(** The calls of [F] among the calls of [E]. *)
Definition project_event {F E : Type -> Type} `{Subeffect F E} (ev : event E) : option (event F) :=
  match ev with Ev e x => (fun f => Ev f x) <$> project e end.

Lemma project_event_inject {F E : Type -> Type} `{Subeffect F E} {X} (f : F X) (x : X) :
  project_event (Ev (inject f) x) = Some (Ev f x).
Proof. simpl. by rewrite project_inject. Qed.

(** Run a program whose calls are themselves programs over other calls. *)
Fixpoint interp {E F : Type -> Type} {A : Type} (h : forall X, E X -> prog F X) (p : prog E A) : prog F A :=
  match p with
  | Ret a => Ret a
  | Call e k => x ← h _ e; interp h (k x)
  end.

(** A program over some of the calls of [E]. *)
Definition translate {F E : Type -> Type} `{Subeffect F E} {A : Type} (p : prog F A) : prog E A :=
  interp (fun X f => call (inject f)) p.

Definition inject_event {F E : Type -> Type} `{Subeffect F E} (ev : event F) : event E :=
  match ev with Ev f x => Ev (inject f) x end.

(** ** Structural lemmas *)

Lemma exec_ret {E A} (a : A) (t : trace E) r : exec (Ret a) t r <-> t = [] /\ r = a.
Proof. done. Qed.

Lemma exec_mret {E A} (a : A) (t : trace E) r : exec (mret a) t r <-> t = [] /\ r = a.
Proof. done. Qed.

Lemma exec_call {E X} (e : E X) (t : trace E) r : exec (call e) t r <-> t = [Ev e r].
Proof.
  simpl. split.
  - intros (x & t' & -> & -> & ->). done.
  - intros ->. eauto.
Qed.

Lemma exec_Call {E X A} (e : E X) (k : X -> prog E A) (t : trace E) r :
  exec (Call e k) t r <-> exists x t', t = Ev e x :: t' /\ exec (k x) t' r.
Proof. done. Qed.

Lemma exec_bind {E A B} (k : A -> prog E B) (p : prog E A) (t : trace E) r :
  exec (mbind k p) t r <-> exists t1 t2 a, t = t1 ++ t2 /\ exec p t1 a /\ exec (k a) t2 r.
Proof.
  unfold mbind, prog_mbind. revert t. induction p as [a|X e k' IH]; intros t; simpl.
  - split.
    + intros H. exists [], t, a. done.
    + intros (t1 & t2 & a' & -> & [-> ->] & H). done.
  - split.
    + intros (x & t' & -> & H). apply IH in H as (t1 & t2 & a & -> & H1 & H2).
      exists (Ev e x :: t1), t2, a. split_and!; try done. exists x, t1. done.
    + intros (t1 & t2 & a & -> & (x & t1' & -> & H1) & H2).
      exists x, (t1' ++ t2). split; [done|]. apply IH. eauto 10.
Qed.

Lemma exec_check {E} (p k : prog E (option error)) (t : trace E) r :
  exec (check p k) t r <->
  (exists err, r = Some err /\ exec p t (Some err)) \/
  (exists t1 t2, t = t1 ++ t2 /\ exec p t1 None /\ exec k t2 r).
Proof.
  unfold check. rewrite exec_bind. split.
  - intros (t1 & t2 & [err|] & -> & H1 & H2).
    + destruct H2 as [-> ->]. left. rewrite app_nil_r. eauto.
    + right. eauto 10.
  - intros [(err & -> & H)|(t1 & t2 & -> & H1 & H2)].
    + exists t, [], (Some err). rewrite app_nil_r. done.
    + exists t1, t2, None. done.
Qed.

Lemma exec_attempt {E A B} (p : prog E (result A)) (k : A -> prog E (result B)) (t : trace E) r :
  exec (attempt p k) t r <->
  (exists err, r = Err err /\ exec p t (Err err)) \/
  (exists t1 t2 a, t = t1 ++ t2 /\ exec p t1 (Ok a) /\ exec (k a) t2 r).
Proof.
  unfold attempt. rewrite exec_bind. split.
  - intros (t1 & t2 & [a|err] & -> & H1 & H2).
    + right. eauto 10.
    + destruct H2 as [-> ->]. left. rewrite app_nil_r. eauto.
  - intros [(err & -> & H)|(t1 & t2 & a & -> & H1 & H2)].
    + exists t, [], (Err err). rewrite app_nil_r. done.
    + exists t1, t2, (Ok a). done.
Qed.

Lemma exec_attempt_ {E A} (p : prog E (result A)) (k : A -> prog E (option error)) (t : trace E) r :
  exec (attempt_ p k) t r <->
  (exists err, r = Some err /\ exec p t (Err err)) \/
  (exists t1 t2 a, t = t1 ++ t2 /\ exec p t1 (Ok a) /\ exec (k a) t2 r).
Proof.
  unfold attempt_. rewrite exec_bind. split.
  - intros (t1 & t2 & [a|err] & -> & H1 & H2).
    + right. eauto 10.
    + destruct H2 as [-> ->]. left. rewrite app_nil_r. eauto.
  - intros [(err & -> & H)|(t1 & t2 & a & -> & H1 & H2)].
    + exists t, [], (Err err). rewrite app_nil_r. done.
    + exists t1, t2, (Ok a). done.
Qed.

Lemma exec_translate {F E : Type -> Type} `{Subeffect F E} {A} (p : prog F A) (t : trace E) r :
  exec (translate p) t r <-> exists t', t = map inject_event t' /\ exec p t' r.
Proof.
  revert t. induction p as [a|X f k IH]; intros t; unfold translate in *; simpl.
  - split; [intros [-> ->]; by exists []|]. by intros ([|] & -> & ? & ->).
  - split.
    + intros (x & t' & -> & (t'' & -> & Hx)%IH). exists (Ev f x :: t''). split; [done|]. eauto.
    + intros (t' & -> & x & t'' & -> & Hx). exists x, (map inject_event t''). split; [done|]. apply IH. eauto.
Qed.

(** A program whose calls are programs performs, for each call it makes, the
    calls of the program that answers it. *)
Lemma exec_interp {E F : Type -> Type} {A} (h : forall X, E X -> prog F X) (p : prog E A) (t : trace F) r :
  exec (interp h p) t r <->
  exists t' ts, exec p t' r /\ t = concat ts /\
    Forall2 (fun ev ti => match ev with Ev e x => exec (h _ e) ti x end) t' ts.
Proof.
  revert t. induction p as [a|X e k IH]; intros t; cbn [interp].
  - split; [intros [-> ->]; by exists [], []|].
    intros (t' & ts & [-> ->] & -> & Hf). inversion Hf. done.
  - rewrite exec_bind. setoid_rewrite IH. split.
    + intros (t1 & t2 & x & -> & Hx & t' & ts & Hk & -> & Hf). exists (Ev e x :: t'), (t1 :: ts).
      split_and!; [simpl; eauto|done|by constructor].
    + intros (t' & ts & (x & t'' & -> & Hk) & -> & Hf). apply Forall2_cons_inv_l in Hf as (t1 & ts' & Hx & Hf & ->).
      exists t1, (concat ts'), x. eauto 10.
Qed.

(** Every run of the executable semantics is one of the traces. *)
Lemma run_exec {E S A} (h : forall X, E X -> S -> S * X) (p : prog E A) s :
  let '(_, t, a) := run h p s in exec p t a.
Proof.
  revert s. induction p as [a|X e k IH]; intros s; simpl; [done|].
  destruct (h X e s) as [s1 x]. specialize (IH x s1).
  destruct (run h (k x) s1) as [[s2 t] a]. eauto.
Qed.

Lemma run_bind {E S A B} (h : forall X, E X -> S -> S * X) (k : A -> prog E B) (p : prog E A) s :
  run h (mbind k p) s =
  let '(s1, t1, a) := run h p s in let '(s2, t2, b) := run h (k a) s1 in (s2, t1 ++ t2, b).
Proof.
  unfold mbind, prog_mbind. revert s. induction p as [a|X e k' IH]; intros s; simpl.
  - by destruct (run h (k a) s) as [[s2 t2] b].
  - destruct (h X e s) as [s1 x]. rewrite IH. destruct (run h (k' x) s1) as [[s2 t2] a].
    by destruct (run h (k a) s2) as [[s3 t3] b].
Qed.

(** The state a program leaves and what it returns. *)
Definition outcome {E S A} (h : forall X, E X -> S -> S * X) (p : prog E A) (s : S) : S * A :=
  let '(s', _, a) := run h p s in (s', a).

Lemma outcome_ret {E S A} (h : forall X, E X -> S -> S * X) (a : A) s :
  outcome h (mret a : prog E A) s = (s, a).
Proof. done. Qed.

Lemma outcome_bind {E S A B} (h : forall X, E X -> S -> S * X) (k : A -> prog E B) (p : prog E A) s :
  outcome h (mbind k p) s = let '(s1, a) := outcome h p s in outcome h (k a) s1.
Proof.
  unfold outcome. rewrite run_bind. destruct (run h p s) as [[s1 t1] a].
  by destruct (run h (k a) s1) as [[s2 t2] b].
Qed.

Lemma outcome_translate {F E S A} `{Subeffect F E} (h : forall X, E X -> S -> S * X) (p : prog F A) s :
  outcome h (translate p) s = outcome (fun X f => h X (inject f)) p s.
Proof.
  unfold outcome, translate. revert s. induction p as [a|X f k IH]; intros s; simpl; [done|].
  destruct (h X (inject f) s) as [s1 x]. specialize (IH x s1).
  destruct (run h _ s1) as [[s2 t] a], (run _ (k x) s1) as [[s3 t'] a']. done.
Qed.

#[export] Hint Rewrite @outcome_ret @outcome_bind : go.

(** Whatever the environment answers, a program returns. *)
Lemma exec_total {E A} (p : prog E A) (h : forall X, E X -> X) : exists t r, exec p t r.
Proof.
  pose proof (run_exec (S := unit) (fun X e _ => (tt, h X e)) p tt) as H.
  destruct (run _ p tt) as [[? t] r]. eauto.
Qed.

Lemma calls_app {E} (P : event E -> bool) (t1 t2 : trace E) :
  calls P (t1 ++ t2) = calls P t1 ++ calls P t2.
Proof. apply filter_app. Qed.

Lemma calls_cons {E} (P : event E -> bool) ev (t : trace E) :
  calls P (ev :: t) = (if P ev then [ev] else []) ++ calls P t.
Proof.
  unfold calls. rewrite filter_cons.
  destruct (decide (P ev = true)) as [->|H]; [done|].
  apply not_true_is_false in H. by rewrite H.
Qed.

Lemma calls_nil {E} (P : event E -> bool) : calls P [] = [].
Proof. done. Qed.

#[export] Hint Rewrite @calls_app @calls_cons @calls_nil : go.

(** A trace whose only call of a kind is its last one. *)
Lemma calls_only_last {E} (P : event E -> bool) (t1 t2 t : trace E) x y :
  t1 ++ x :: t2 = t ++ [y] -> P x = true -> calls P t = [] -> t1 = t /\ x = y /\ t2 = [].
Proof.
  intros Heq Hx Ht. induction t2 as [|z t2' _] using rev_ind.
  - by apply app_inj_tail in Heq as [-> ->].
  - exfalso. rewrite app_comm_cons, app_assoc in Heq. apply app_inj_tail in Heq as [<- ->].
    rewrite calls_app, calls_cons, Hx in Ht. by destruct (calls P t1).
Qed.

(** Take an execution apart, call by call, splitting on what the code branches
    on.  The trace ends up as an explicit list of events. *)
Ltac exec_step :=
  match goal with
  | H : ?t = [] /\ _ = _ |- _ => is_var t; destruct H; subst
  | H : exists x t', ?t = Ev _ x :: t' /\ _ |- _ =>
    let x := fresh "x" in let t := fresh "t" in destruct H as (x & t & -> & H)
  | H : exec (Ret _) _ _ |- _ => apply exec_ret in H as [? ?]; subst
  | H : exec (mret _) _ _ |- _ => apply exec_mret in H as [? ?]; subst
  | H : exec (call _) _ _ |- _ => apply exec_call in H; subst
  | H : exec (Call _ _) _ _ |- _ =>
    let x := fresh "x" in let t := fresh "t" in
    apply exec_Call in H as (x & t & -> & H)
  | H : exec (check _ _) _ _ |- _ =>
    let H1 := fresh H in
    apply exec_check in H as [(? & ? & H)|(? & ? & ? & H1 & H)]; subst
  | H : exec (attempt _ _) _ _ |- _ =>
    let H1 := fresh H in
    apply exec_attempt in H as [(? & ? & H)|(? & ? & ? & ? & H1 & H)]; subst
  | H : exec (attempt_ _ _) _ _ |- _ =>
    let H1 := fresh H in
    apply exec_attempt_ in H as [(? & ? & H)|(? & ? & ? & ? & H1 & H)]; subst
  | H : exec (mbind _ _) _ _ |- _ =>
    let H1 := fresh H in
    apply exec_bind in H as (? & ? & ? & ? & H1 & H); subst
  end.

Ltac exec_split :=
  match goal with
  | H : exec (match ?x with _ => _ end) _ _ |- _ => destruct x eqn:?
  end.

Ltac exec_inv := repeat (exec_step || exec_split; simplify_eq/=).

(** Check a concrete program against a concrete trace by computation. *)
Ltac solve_exec :=
  repeat (hnf; do 2 eexists; split; [reflexivity|]); hnf; split; reflexivity.
