(* ===== verification/Trie.v ===== *)
(** * Trie: the dictionary of pkg/util/trie

    A node's children are reached through one pointer each, so a trie is a
    finite tree and AddWord's walk, which mutates the nodes in place, is a
    function that rebuilds the path.  Words are read rune by rune. *)

From S2P Require Import Prelude Errors Utf8.

Module trie.

Inductive trieNode : Type := TrieNode (word : bool) (children : gmap Z trieNode).

Definition word (n : trieNode) : bool := let 'TrieNode w _ := n in w.
Definition children (n : trieNode) : gmap Z trieNode := let 'TrieNode _ cs := n in cs.

Record Trie := { root : trieNode }.

Definition new_node : trieNode := TrieNode false ∅.

Definition New : Trie := {| root := new_node |}.

(** The walk of AddWord, from a node. *)
Fixpoint add_runes (w : list Z) (n : trieNode) : trieNode :=
  match w with
  | [] => TrieNode true (children n)
  | c :: w' =>
    let child := match children n !! c with Some child => child | None => new_node end in
    TrieNode (word n) (<[ c := add_runes w' child ]> (children n))
  end.

Definition AddWord (w : string) (t : Trie) : Trie := {| root := add_runes (runes w) (root t) |}.

(** [words], [err]: the words the scanner yields and the error it ends with. *)
Definition AddDictionary (words : list string) (err : option error) (t : Trie) : Trie * option error :=
  (fold_left (fun t w => AddWord w t) words t, err).

(** The walk of CheckWord, from a node. *)
Fixpoint check_runes (w : list Z) (n : trieNode) : bool :=
  match w with
  | [] => word n
  | c :: w' => match children n !! c with Some child => check_runes w' child | None => false end
  end.

Definition CheckWord (w : string) (t : Trie) : bool := check_runes (runes w) (root t).

End trie.

(** ** A trie is the set of its words *)

Import trie.

(** The interface of a set of words, and what it promises. *)
Class Dictionary (D : Type) := {
  dict_empty : D;
  dict_add : string -> D -> D;
  dict_check : string -> D -> bool;
}.

#[export] Instance trie_dictionary : Dictionary Trie :=
  {| dict_empty := New; dict_add := AddWord; dict_check := CheckWord |}.

(** The specification: a finite set of words. *)
#[export] Instance set_dictionary : Dictionary (gset string) :=
  {| dict_empty := ∅; dict_add w d := {[ w ]} ∪ d; dict_check w d := bool_decide (w ∈ d) |}.

Lemma check_new w : check_runes w new_node = false.
Proof. by destruct w. Qed.

Lemma check_add w w' n : check_runes w (add_runes w' n) = bool_decide (w = w') || check_runes w n.
Proof.
  revert w n. induction w' as [|c' w' IH]; intros [|c w] [b cs]; try done.
  simpl. destruct (decide (c = c')) as [->|Hc].
  - rewrite lookup_insert_eq, IH. f_equal; [|by destruct (cs !! c'); rewrite ?check_new].
    apply bool_decide_ext. naive_solver.
  - rewrite lookup_insert_ne by done. rewrite bool_decide_eq_false_2 by congruence. done.
Qed.

Lemma check_words (words : list string) w t :
  CheckWord w (fold_left (fun t w => AddWord w t) words t) =
  bool_decide (runes w ∈ runes <$> words) || CheckWord w t.
Proof.
  revert t. induction words as [|w' words IH]; intros t; [by rewrite bool_decide_eq_false_2 by set_solver|].
  simpl. rewrite IH. unfold CheckWord, AddWord. simpl. rewrite check_add, orb_assoc. f_equal.
  rewrite orb_comm, <-bool_decide_or. apply bool_decide_ext. set_solver.
Qed.

(** C20 The trie implements a set of words: on valid UTF-8 it answers every
    sequence of additions and queries as the finite set does, and loading a
    dictionary adds exactly its words, whatever error the scanner ends with. *)
Theorem trie_refines_set (words : list string) err w :
  Forall (fun w => ValidString w = true) words -> ValidString w = true ->
  dict_check w (fold_left (fun t w => dict_add w t) words (dict_empty (D := Trie))) =
    dict_check w (fold_left (fun t w => dict_add w t) words (dict_empty (D := gset string))) /\
  forall t, CheckWord w (AddDictionary words err t).1 = bool_decide (w ∈ words) || CheckWord w t.
Proof.
  intros Hwords Hw.
  assert (bool_decide (runes w ∈ runes <$> words) = bool_decide (w ∈ words)) as Hin.
  { apply bool_decide_ext. rewrite list_elem_of_fmap. split; [|eauto].
    intros (w' & Heq & Hw'). rewrite Forall_forall in Hwords.
    by rewrite (runes_inj w w' Hw (Hwords _ Hw') Heq). }
  split; [|intros t; simpl; by rewrite check_words, Hin].
  simpl. rewrite check_words, Hin. change (CheckWord w New) with (check_runes (runes w) new_node).
  rewrite check_new, orb_false_r. apply bool_decide_ext.
  assert (forall d : gset string, w ∈ fold_left (fun t w => {[ w ]} ∪ t) words d <-> w ∈ words \/ w ∈ d) as ->.
  { clear. induction words as [|w' words IH]; intros d; simpl; [set_solver|]. rewrite IH. set_solver. }
  set_solver.
Qed.

(** Words that are not valid UTF-8 are not told apart. *)
Lemma invalid_words_collide :
  CheckWord (String (of_byte 255) "") (AddWord (String (of_byte 254) "") New) = true.
Proof. reflexivity. Qed.

Module witnesses.

Lemma trie_refines_set_witness :
  dict_check "clé" (fold_left (fun t w => dict_add w t) ["clef"; "clé"] (dict_empty (D := Trie))) =
  dict_check "clé" (fold_left (fun t w => dict_add w t) ["clef"; "clé"] (dict_empty (D := gset string))).
Proof. apply (trie_refines_set ["clef"; "clé"] None "clé"); [repeat constructor|reflexivity]. Defined.

End witnesses.
