(* ===== verification/Util.v ===== *)
(** * Util: keys of maps and resource identifiers

    pkg/util: Keys (util.go), and the names resources are given (resource.go). *)

From S2P Require Import Prelude Errors GoStrings Hex Utf8 Effects.
From Stdlib Require Import Ascii.

(** github.com/google/uuid: NewSHA1 hashes a namespace and data; an identifier
    is sixteen bytes, which String writes in hexadecimal, in the form
    xxxxxxxx-xxxx-xxxx-xxxx-xxxxxxxxxxxx. *)
Fixpoint hex_form (pos : nat) (s : string) : string :=
  match s with
  | EmptyString => EmptyString
  | String c s' =>
    (if existsb (Nat.eqb pos) [4; 6; 8; 10] then "-" else "") +:+ hex_byte c +:+ hex_form (S pos) s'
  end.

Class UUID := {
  uuid : Type;
  NewSHA1 : uuid -> string -> uuid;
  uuid_bytes : uuid -> string;
  uuid_String : uuid -> string;
  uuid_length u : String.length (uuid_bytes u) = 16;
  uuid_String_form u : uuid_String u = hex_form 0 (uuid_bytes u);
}.

(** k8s.io/apimachinery/pkg/util/uuid.NewUUID. *)
Inductive uuidE : Type -> Type :=
| NewUUID : uuidE string.

Module util.

(** unicode.IsLetter, of a rune that is a byte (Latin-1). *)
Definition IsLetter (c : ascii) : bool :=
  let b := byte c in
  between 65 90 b || between 97 122 b || (b =? 170)%Z || (b =? 181)%Z || (b =? 186)%Z ||
  between 192 214 b || between 216 246 b || between 248 255 b.

(** Whether the first byte of a name is a letter; indexing "" panics, which no
    identifier is. *)
Definition starts_with_letter (s : string) : bool :=
  match s with String c _ => IsLetter c | EmptyString => false end.

(** Keys, in the order the range visits them. *)
Definition Keys `{MapOrder} {T : Type} (m : gmap string T) : list string :=
  fold_left (fun r '(k, _) => r ++ [k]) (map_range m) [].

(** GenerateResourceID, within [fuel] attempts: [None] when they all failed. *)
Fixpoint GenerateResourceID (fuel : nat) : prog uuidE (option string) :=
  match fuel with
  | O => mret None
  | S fuel' =>
    id ← call NewUUID;
    if starts_with_letter id then mret (Some id) else GenerateResourceID fuel'
  end.

Section deterministic.
Context `{UUID}.

(** The loop of GenerateDeterministicResourceID. *)
Fixpoint rehash (fuel : nat) (idNamespace id : uuid) : option string :=
  if starts_with_letter (uuid_String id) then Some (uuid_String id)
  else match fuel with
       | O => None
       | S fuel' => rehash fuel' idNamespace (NewSHA1 idNamespace (uuid_bytes id))
       end.

Definition GenerateDeterministicResourceID (fuel : nat) (idNamespace : uuid) (invariant : string) : option string :=
  rehash fuel idNamespace (NewSHA1 idNamespace invariant).

End deterministic.

End util.

Import util.

Lemma Keys_map_keys `{MapOrder} {T} (m : gmap string T) : Keys m = map_keys m.
Proof.
  unfold Keys. rewrite <-map_range_keys. generalize (map_range m). intros l.
  assert (forall acc, fold_left (fun r '(k, _) => r ++ [k]) l acc = acc ++ l.*1) as ->; [|done].
  induction l as [|[k v] l IH]; intros acc; simpl; [by rewrite app_nil_r|]. rewrite IH. by list_simplifier.
Qed.

(** ** Names *)

(** A DNS label that starts with a letter (RFC 1035), which Kubernetes accepts
    as any kind of name. *)
Definition lower_or_digit (c : ascii) : bool := ascii_between 97 122 c || ascii_between 48 57 c.

Fixpoint label_rest (s : string) : bool :=
  match s with
  | EmptyString => true
  | String c EmptyString => lower_or_digit c
  | String c s' => (lower_or_digit c || Ascii.eqb c "-"%char) && label_rest s'
  end.

Definition dns_label (s : string) : bool :=
  match s with
  | EmptyString => false
  | String c s' => ascii_between 97 122 c && label_rest s' && (String.length s <=? 63)
  end.

Section names.
Context `{UUID}.

(** The [n]th identifier the loop goes through, from the first. *)
Fixpoint chain (n : nat) (ns id : uuid) : uuid :=
  match n with O => id | S n' => chain n' ns (NewSHA1 ns (uuid_bytes id)) end.

(** It is the first whose name starts with a letter. *)
Definition first_letter (n : nat) (ns id : uuid) : Prop :=
  starts_with_letter (uuid_String (chain n ns id)) = true /\
  forall m, (m < n)%nat -> starts_with_letter (uuid_String (chain m ns id)) = false.

Lemma first_letter_S n ns id :
  starts_with_letter (uuid_String id) = false ->
  first_letter (S n) ns id <-> first_letter n ns (NewSHA1 ns (uuid_bytes id)).
Proof.
  intros Hl. unfold first_letter. simpl. split; intros [H1 H2]; (split; [done|]).
  - intros m Hm. apply (H2 (S m)). lia.
  - intros [|m] Hm; [done|]. apply H2. lia.
Qed.

(** Where the loop stops. *)
Lemma rehash_iff fuel ns id s :
  rehash fuel ns id = Some s <->
  exists n, (n <= fuel)%nat /\ first_letter n ns id /\ s = uuid_String (chain n ns id).
Proof.
  assert (forall n, starts_with_letter (uuid_String id) = true -> first_letter n ns id -> n = 0) as H0.
  { intros [|n] Hl [_ Hm]; [done|]. specialize (Hm 0 ltac:(lia)). simpl in Hm. congruence. }
  revert id H0. induction fuel as [|fuel IH]; intros id H0; cbn [rehash];
    destruct (starts_with_letter (uuid_String id)) eqn:Hl.
  1, 3: split; [intros [= <-]; exists 0; split_and!; [lia|split; [done|lia]|done]|];
    by intros (n & _ & ->%H0 & ->).
  - split; [done|]. intros (n & Hn & [Hl' _] & _). replace n with 0 in * by lia. simpl in *. congruence.
  - rewrite IH.
    + split.
      * intros (n & Hn & Hf & ->). exists (S n). split_and!; [lia|by apply first_letter_S|done].
      * intros ([|n] & Hn & Hf & ->); [destruct Hf; simpl in *; congruence|].
        exists n. split_and!; [lia|by apply first_letter_S|done].
    + intros [|n] Hl' [_ Hm]; [done|]. specialize (Hm 0 ltac:(lia)). simpl in Hm. congruence.
Qed.

Lemma rehash_mono fuel fuel' ns id s :
  rehash fuel ns id = Some s -> (fuel <= fuel')%nat -> rehash fuel' ns id = Some s.
Proof. rewrite !rehash_iff. intros (n & Hn & Hf & ->) Hle. exists n. split_and!; [lia|done..]. Qed.

Lemma rehash_hits n ns id :
  starts_with_letter (uuid_String (chain n ns id)) = true -> exists s, rehash n ns id = Some s.
Proof.
  revert id. induction n as [|n IH]; intros id Hl; cbn [rehash]; simpl in Hl.
  - rewrite Hl. eauto.
  - destruct (starts_with_letter (uuid_String id)); eauto.
Qed.

(** What the hexadecimal digits are. *)
Lemma hex_byte_digits c :
  lower_or_digit (hex_digit (N_of_ascii c / 16)) = true /\ lower_or_digit (hex_digit (N_of_ascii c mod 16)) = true /\
  (IsLetter (hex_digit (N_of_ascii c / 16)) = true -> ascii_between 97 122 (hex_digit (N_of_ascii c / 16)) = true).
Proof. by destruct c as [[] [] [] [] [] [] [] []]. Qed.

(** An identifier whose name starts with a letter is a label. *)
Lemma uuid_dns_label u : starts_with_letter (uuid_String u) = true -> dns_label (uuid_String u) = true.
Proof.
  rewrite uuid_String_form. pose proof (uuid_length u) as Hlen.
  destruct (uuid_bytes u) as [|c0 [|c1 [|c2 [|c3 [|c4 [|c5 [|c6 [|c7 [|c8 [|c9 [|ca [|cb [|cc [|cd [|ce [|cf [|cg s]]]]]]]]]]]]]]]]];
    try discriminate Hlen.
  pose proof (fun c => proj1 (hex_byte_digits c)) as Hd1. pose proof (fun c => proj1 (proj2 (hex_byte_digits c))) as Hd2.
  pose proof (proj2 (proj2 (hex_byte_digits c0))) as Hl. 
  lazy -[hex_digit lower_or_digit ascii_between IsLetter N_of_ascii N.div N.modulo]. intros Hs.
  rewrite (Hl Hs), ?Hd1, ?Hd2. reflexivity.
Qed.

(** C39 The deterministic name of an invariant exists as soon as one of the
    identifiers derived from it starts with a letter: enough attempts find it,
    more attempts give the same name, and it is a valid Kubernetes name. *)
Theorem deterministic_id_terminates ns invariant n :
  starts_with_letter (uuid_String (chain n ns (NewSHA1 ns invariant))) = true ->
  exists s, dns_label s = true /\
  (forall fuel, (n <= fuel)%nat -> GenerateDeterministicResourceID fuel ns invariant = Some s) /\
  (forall fuel s', GenerateDeterministicResourceID fuel ns invariant = Some s' -> s' = s).
Proof.
  intros (s & Hs)%rehash_hits. exists s. unfold GenerateDeterministicResourceID. split_and!.
  - apply rehash_iff in Hs as (m & _ & [Hm _] & ->). by apply uuid_dns_label.
  - intros fuel Hle. by apply (rehash_mono n).
  - intros fuel s' Hs'. apply (rehash_mono _ (max n fuel)) in Hs, Hs'; [congruence|lia..].
Qed.

(** Names are not unique to an invariant: when the first identifier of an
    invariant does not start with a letter, the invariant made of that
    identifier's bytes has the same name. *)
Theorem deterministic_id_collides fuel ns invariant :
  starts_with_letter (uuid_String (NewSHA1 ns invariant)) = false ->
  GenerateDeterministicResourceID (S fuel) ns invariant =
  GenerateDeterministicResourceID fuel ns (uuid_bytes (NewSHA1 ns invariant)).
Proof. intros Hl. unfold GenerateDeterministicResourceID. cbn [rehash]. by rewrite Hl. Qed.

End names.

(** What a random name is: the first identifier that starts with a letter. *)
Lemma resource_id_exec fuel t r :
  exec (GenerateResourceID fuel) t r ->
  exists misses, Forall (fun id => starts_with_letter id = false) misses /\
  match r with
  | None => length misses = fuel /\ t = map (fun id => Ev NewUUID id) misses
  | Some id => (length misses < fuel)%nat /\ starts_with_letter id = true /\
      t = map (fun id => Ev NewUUID id) misses ++ [Ev NewUUID id]
  end.
Proof.
  revert t. induction fuel as [|fuel IH]; intros t Hx; cbn [GenerateResourceID] in Hx.
  { exec_inv. by exists []. }
  apply exec_bind in Hx as (t1 & t2 & id & -> & ->%exec_call & Hx).
  destruct (starts_with_letter id) eqn:Hl.
  - exec_inv. exists []. split_and!; (done || simpl; lia).
  - apply IH in Hx as (misses & Hm & Hr). exists (id :: misses). split; [by constructor|].
    destruct r; simpl; [destruct Hr as (? & ? & ->)|destruct Hr as (<- & ->)]; split_and!; (done || lia).
Qed.

(** ** Witnesses *)

Module witnesses.

(** A hash that keeps the first byte of its data and pads it; the bytes it
    makes are those of a version 5 identifier and valid UTF-8. *)
Definition toy_bytes (data : string) : string :=
  let first := match data with String c _ => byte c | EmptyString => 0%Z end in
  let c := if (first =? 120)%Z then "6"%char else if (first =? 54)%Z then of_byte 199 else "A"%char in
  String c ("23456W" +:+ String (of_byte 194) (String (of_byte 128) "0123456")).

Lemma toy_length data : String.length (toy_bytes data) = 16.
Proof. done. Qed.

#[export] Instance toy_uuid : UUID.
Proof.
  refine {| uuid := { s : string | String.length s = 16 };
            NewSHA1 _ data := exist _ (toy_bytes data) (toy_length data);
            uuid_bytes u := `u; uuid_String u := hex_form 0 (`u) |}.
  - by intros [s Hs].
  - done.
Defined.

Definition nil_uuid : uuid := exist _ "0000000000000000" eq_refl.

Lemma deterministic_id_terminates_witness :
  exists s, dns_label s = true /\ GenerateDeterministicResourceID 1 nil_uuid "x" = Some s.
Proof.
  destruct (deterministic_id_terminates nil_uuid "x" 1) as (s & Hs & Hf & _); [reflexivity|].
  exists s. split; [exact Hs|]. apply Hf. lia.
Defined.

(** Both invariants are valid UTF-8. *)
Lemma deterministic_id_collides_witness :
  let inv' := uuid_bytes (NewSHA1 nil_uuid "x") in
  ValidString "x" = true /\ ValidString inv' = true /\ "x" <> inv' /\
  GenerateDeterministicResourceID 1 nil_uuid "x" = GenerateDeterministicResourceID 0 nil_uuid inv'.
Proof.
  split_and!; [reflexivity|reflexivity|discriminate|]. apply (deterministic_id_collides 0 nil_uuid "x"). reflexivity.
Defined.

End witnesses.
