(* ===== verification/Retry.v ===== *)
(** * Retry: the loop of pkg/util/retry

    DoWithContext calls a callback until it succeeds or a context ends.  The
    callback and the select statement are calls; a context that cannot end
    (context.TODO, whose Done channel is nil) leaves the select with the ticker
    only.  The loop itself has no bound: [fuel] is the number of selects it may
    wait for, and running out of it, [Waiting], is not a result of the code. *)

From S2P Require Import Prelude Errors Effects.

(** Which case of the select was taken, with the context's error. *)
Inductive selected : Type :=
| Done (err : error)
| Ticked.

Inductive retryE : Type -> Type :=
| Callback : retryE (option error)
| Select : retryE selected
| Wait : retryE unit.

(** What a number of iterations leads to: the function returned, or not yet. *)
Inductive progress (A : Type) : Type :=
| Returned (a : A)
| Waiting.

Arguments Returned {A} a.
Arguments Waiting {A}.

Module retry.

(** The fields of an Error. *)
Definition Error_Context (e : error) : option error := match e with Retry c _ => Some c | _ => None end.
Definition Error_Callback (e : error) : option error := match e with Retry _ cb => Some cb | _ => None end.
Definition Error_Unwrap (e : error) : list error := match e with Retry c cb => [c; cb] | _ => [] end.

Record Retrier := { period : Z }.

Definition Forever : Retrier := {| period := 1000000000 |}.

(** The select, of a context that can end or not. *)
Definition select (can_end : bool) : prog retryE selected :=
  if can_end then call Select else _ ← call Wait; mret Ticked.

Fixpoint loop (fuel : nat) (can_end : bool) (rerr : error) : prog retryE (progress (option error)) :=
  match fuel with
  | O => mret Waiting
  | S fuel' =>
    s ← select can_end;
    match s with
    | Done err => mret (Returned (Some (Retry err rerr)))
    | Ticked =>
      r ← call Callback;
      match r with
      | Some rerr => loop fuel' can_end rerr
      | None => mret (Returned None)
      end
    end
  end.

Definition DoWithContext (fuel : nat) (can_end : bool) : prog retryE (progress (option error)) :=
  rerr ← call Callback;
  match rerr with
  | None => mret (Returned None)
  | Some rerr => loop fuel can_end rerr
  end.

Definition Do (fuel : nat) : prog retryE (progress (option error)) := DoWithContext fuel false.

End retry.

Import retry.

(** ** Environments: what the callback returns and what the selects take *)

Record environment := {
  callbacks : nat -> option error;
  selects : nat -> selected;
}.

(** The state counts the callbacks made and the selects taken. *)
Definition serve (env : environment) (X : Type) (e : retryE X) (s : nat * nat) : nat * nat * X :=
  match e in retryE X return nat * nat * X with
  | Callback => ((S s.1, s.2), callbacks env s.1)
  | Select => ((s.1, S s.2), selects env s.2)
  | Wait => ((s.1, S s.2), tt)
  end.

(** The [n]th select ends the loop. *)
Definition ends (env : environment) (can_end : bool) (n : nat) : bool :=
  can_end && match selects env n with Done _ => true | Ticked => false end.

(** The loop goes on through its first [n] selects. *)
Definition goes_on (env : environment) (can_end : bool) (n : nat) : Prop :=
  forall m, (m < n)%nat -> ends env can_end m = false /\ is_Some (callbacks env (S m)).

Lemma outcome_loop env can_end fuel rerr k :
  callbacks env k = Some rerr ->
  outcome (serve env) (loop (S fuel) can_end rerr) (S k, k) =
  if can_end && match selects env k with Done _ => true | Ticked => false end then
    ((S k, S k), Returned (Some (Retry (match selects env k with Done err => err | Ticked => rerr end) rerr)))
  else match callbacks env (S k) with
       | None => ((S (S k), S k), Returned None)
       | Some rerr' => outcome (serve env) (loop fuel can_end rerr') (S (S k), S k)
       end.
Proof.
  intros Hk. unfold outcome. destruct can_end; simpl.
  - destruct (selects env k); simpl; [done|]. destruct (callbacks env (S k)); simpl; [|done].
    by destruct (run _ (loop _ _ _) _) as [[? ?] ?].
  - destruct (callbacks env (S k)); simpl; [|done]. by destruct (run _ (loop _ _ _) _) as [[? ?] ?].
Qed.

(** From its [k]th iteration, the loop returns exactly at the first select that
    ends it or the first callback that succeeds. *)
Lemma loop_result env can_end fuel rerr k :
  callbacks env k = Some rerr ->
  match (outcome (serve env) (loop fuel can_end rerr) (S k, k)).2 with
  | Waiting => forall m, (k <= m < k + fuel)%nat -> ends env can_end m = false /\ is_Some (callbacks env (S m))
  | Returned r => exists n, (k <= n < k + fuel)%nat /\
      (forall m, (k <= m < n)%nat -> ends env can_end m = false /\ is_Some (callbacks env (S m))) /\
      if ends env can_end n then
        exists err last, selects env n = Done err /\ callbacks env n = Some last /\ r = Some (Retry err last)
      else callbacks env (S n) = None /\ r = None
  end.
Proof.
  revert rerr k. induction fuel as [|fuel IH]; intros rerr k Hk; [simpl; lia|].
  rewrite outcome_loop by done. fold (ends env can_end k).
  destruct (ends env can_end k) eqn:He.
  - simpl. exists k. split_and!; [lia|lia|lia|]. rewrite He. unfold ends in He.
    destruct can_end; [|done]. destruct (selects env k) as [err|] eqn:Hs; [|done]. eauto 10.
  - destruct (callbacks env (S k)) as [rerr'|] eqn:Hc.
    + specialize (IH rerr' (S k) Hc). destruct (outcome _ _ _).2 as [r|].
      * destruct IH as (n & Hn & Hm & Hr). exists n. split_and!; [lia|lia| |done].
        intros m Hm'. destruct (decide (m = k)) as [->|]; [by rewrite Hc|]. apply Hm. lia.
      * intros m Hm. destruct (decide (m = k)) as [->|]; [by rewrite Hc|]. apply IH. lia.
    + simpl. exists k. split_and!; [lia|lia|lia|]. by rewrite He.
Qed.

(** What DoWithContext returns within a number of selects. *)
Definition result_within (env : environment) (can_end : bool) (fuel : nat) : progress (option error) :=
  (outcome (serve env) (DoWithContext fuel can_end) (0, 0)).2.

Lemma result_within_first env can_end fuel :
  result_within env can_end fuel =
  match callbacks env 0 with
  | None => Returned None
  | Some rerr => (outcome (serve env) (loop fuel can_end rerr) (1, 0)).2
  end.
Proof.
  unfold result_within, DoWithContext. rewrite outcome_bind. unfold outcome at 1. simpl.
  by destruct (callbacks env 0).
Qed.

(** C23 The retry loop returns if and only if the callback succeeds once or the
    context ends, and it needs no more selects than that takes. *)
Theorem retry_terminates env can_end :
  (forall n, callbacks env n = None \/ ends env can_end n = true ->
    forall fuel, (n < fuel)%nat -> exists r, result_within env can_end fuel = Returned r) /\
  (forall fuel r, result_within env can_end fuel = Returned r ->
    exists n, callbacks env n = None \/ ends env can_end n = true).
Proof.
  setoid_rewrite result_within_first. destruct (callbacks env 0) as [rerr|] eqn:H0.
  2: { split; [by eauto|]. intros fuel r _. exists 0. by left. }
  split.
  - intros n Hn fuel Hlt. pose proof (loop_result env can_end fuel rerr 0 H0) as Hl.
    destruct (outcome _ _ _).2 as [r|]; [by eauto|]. exfalso. destruct Hn as [Hn|Hn].
    + destruct n as [|n]; [congruence|]. destruct (Hl n) as [_ [? ?]]; [lia|congruence].
    + destruct (Hl n) as [? _]; [lia|congruence].
  - intros fuel r Hr. pose proof (loop_result env can_end fuel rerr 0 H0) as Hl. rewrite Hr in Hl.
    destruct Hl as (n & _ & _ & Hl). destruct (ends env can_end n) eqn:He; [by eauto|].
    exists (S n). left. apply Hl.
Qed.

(** What the retry loop returns: nothing when the callback succeeded, and
    then every call before had failed and the context had not ended; otherwise
    the context ended first, and the error is both its error and the one the
    callback failed with last.  A loop whose context cannot end returns no
    error. *)
Theorem retry_result env can_end fuel r :
  result_within env can_end fuel = Returned r ->
  exists n, (forall m, (m < n)%nat -> is_Some (callbacks env m) /\ ends env can_end m = false) /\
  match r with
  | None => callbacks env n = None
  | Some e => exists err last, ends env can_end n = true /\ selects env n = Done err /\
      callbacks env n = Some last /\ Error_Context e = Some err /\ Error_Callback e = Some last /\
      (forall s, errors_is e s = errors_is err s || errors_is last s) /\ can_end = true
  end.
Proof.
  rewrite result_within_first. destruct (callbacks env 0) as [rerr|] eqn:H0.
  2: { intros [= <-]. exists 0. split; [lia|done]. }
  intros Hr. pose proof (loop_result env can_end fuel rerr 0 H0) as Hl. rewrite Hr in Hl.
  destruct Hl as (n & _ & Hm & Hl).
  assert (forall m, (m <= n)%nat -> is_Some (callbacks env m)) as Hc.
  { intros [|m] Hle; [by rewrite H0|]. apply Hm. lia. }
  destruct (ends env can_end n) eqn:He.
  - destruct Hl as (err & last & Hs & Hcb & ->). exists n. split.
    + intros m Hlt. split; [apply Hc; lia|apply Hm; lia].
    + exists err, last. split_and!; try done. unfold ends in He. by destruct can_end.
  - destruct Hl as [Hcb ->]. exists (S n). split; [|done]. intros m Hlt. split; [apply Hc; lia|].
    destruct (decide (m = n)) as [->|]; [done|]. apply Hm. lia.
Qed.

(** ** Witnesses *)

Module witnesses.

(** The callback fails three times, and the second select ends the context. *)
Definition env : environment :=
  {| callbacks n := if (n <? 3)%nat then Some (Foreign "unavailable") else None;
     selects n := if (n =? 1)%nat then Done (Sentinel context_Canceled) else Ticked |}.

Lemma retry_terminates_witness : exists r, result_within env true 5 = Returned r.
Proof. apply (proj1 (retry_terminates env true) 1); [right; reflexivity|lia]. Defined.

Lemma retry_result_witness :
  exists n, callbacks env n = Some (Foreign "unavailable") /\ ends env true n = true.
Proof.
  destruct (retry_result env true 5 (Some (Retry (Sentinel context_Canceled) (Foreign "unavailable"))))
    as (n & _ & err & last & He & _ & Hc & _ & Hl & _); [reflexivity|].
  exists n. injection Hl as <-. split; [exact Hc|exact He].
Defined.

Lemma retry_forever_succeeds : result_within env false 5 = Returned None /\ result_within env false 2 = Waiting.
Proof. split; reflexivity. Qed.

End witnesses.
