(* ===== verification/Caches.v ===== *)
(** * Caches: the timeout cache and the copying LRU cache of pkg/util/cache

    TimeoutCache holds one value for a period; each operation is one step, at the
    time its clock reads.  Get and Set hold its lock; Invalidate writes the deadline
    without it, so that it is a step is an idealisation: callers are sequential.  LRUExpireCache wraps
    apimachinery's, a parameter here, and copies what goes in and comes out, so
    that callers cannot change what is cached through the pointers they hold:
    values live in a heap the callers and the cache share. *)

From S2P Require Import Prelude Errors.

(** ** The timeout cache *)

(** Times are integers; the zero time.Time is 0. *)
Module timeout_cache.

Record TimeoutCache (V : Type) := {
  value : V;
  refresh : Z;
  invalid : Z;
}.

Arguments value {V} _.
Arguments refresh {V} _.
Arguments invalid {V} _.

Section operations.
Context {V : Type} `{Inhabited V}.

(** New and NewWithClock, which differ in the clock only. *)
Definition New (refresh : Z) : TimeoutCache V := {| value := inhabitant; refresh := refresh; invalid := 0 |}.

(** Get, at the time the clock reads; [None] is (zero, false). *)
Definition Get (now : Z) (m : TimeoutCache V) : option V :=
  if decide (invalid m < now)%Z then None else Some (value m).

Definition Set_ (now : Z) (v : V) (m : TimeoutCache V) : TimeoutCache V :=
  {| value := v; refresh := refresh m; invalid := now + refresh m |}.

Definition Invalidate (m : TimeoutCache V) : TimeoutCache V :=
  {| value := value m; refresh := refresh m; invalid := 0 |}.

(** What is asked of a cache, with the times the clock reads. *)
Inductive op : Type :=
| OpGet (now : Z)
| OpSet (now : Z) (v : V)
| OpInvalidate.

Definition apply_op (m : TimeoutCache V) (o : op) : TimeoutCache V * option (option V) :=
  match o with
  | OpGet now => (m, Some (Get now m))
  | OpSet now v => (Set_ now v m, None)
  | OpInvalidate => (Invalidate m, None)
  end.

(** The answers to a sequence of operations. *)
Fixpoint answers (m : TimeoutCache V) (ops : list op) : list (option V) :=
  match ops with
  | [] => []
  | o :: ops' => let (m', a) := apply_op m o in option_list a ++ answers m' ops'
  end.

(** The specification: the value that was set, and when, until it is
    invalidated; it is answered for the refresh period. *)
Definition spec_step (refresh : Z) (s : option (V * Z)) (o : op) : option (V * Z) * option (option V) :=
  match o with
  | OpGet now => (s, Some ('(v, t) ← s; if decide (now <= t + refresh)%Z then Some v else None))
  | OpSet now v => (Some (v, now), None)
  | OpInvalidate => (None, None)
  end.

Fixpoint spec_answers (refresh : Z) (s : option (V * Z)) (ops : list op) : list (option V) :=
  match ops with
  | [] => []
  | o :: ops' => let (s', a) := spec_step refresh s o in option_list a ++ spec_answers refresh s' ops'
  end.

(** The cache's fields, for a state of the specification. *)
Definition refines (m : TimeoutCache V) (s : option (V * Z)) : Prop :=
  match s with
  | Some (v, t) => value m = v /\ invalid m = (t + refresh m)%Z
  | None => invalid m = 0%Z
  end.

(** Every time a clock reads is after the zero time. *)
Definition after_zero (o : op) : Prop :=
  match o with OpGet now | OpSet now _ => (0 < now)%Z | OpInvalidate => True end.

Lemma refines_step m s o :
  refines m s -> after_zero o ->
  refines (apply_op m o).1 (spec_step (refresh m) s o).1 /\ refresh (apply_op m o).1 = refresh m /\
  (apply_op m o).2 = (spec_step (refresh m) s o).2.
Proof.
  destruct o as [now|now v|]; simpl; intros Hr Ho; [|done|done].
  split_and!; [done|done|]. f_equal. unfold Get. destruct s as [[v t]|]; simpl in *.
  - destruct Hr as [<- ->]. repeat case_decide; (done || lia).
  - rewrite Hr. by rewrite decide_True.
Qed.

(** C21 A timeout cache answers every sequence of operations as its specification
    does: what was set last, for the refresh period, boundary included, unless
    it was invalidated since. *)
Theorem timeout_cache_refines refresh ops :
  Forall after_zero ops ->
  answers (New refresh) ops = spec_answers refresh None ops.
Proof.
  intros Hops.
  assert (forall m s, refines m s -> timeout_cache.refresh m = refresh ->
    answers m ops = spec_answers refresh s ops) as Hsim; [|by apply Hsim].
  induction Hops as [|o ops Ho _ IH]; intros m s Hr Hm; [done|].
  destruct (refines_step m s o Hr Ho) as (Hr' & Hm' & Ha). rewrite Hm in Hr', Hm', Ha.
  simpl. destruct (apply_op m o) as [m' a], (spec_step refresh s o) as [s' a']. simpl in *. subst a'.
  by rewrite (IH m' s').
Qed.

End operations.

Arguments op V : clear implicits.

End timeout_cache.

(** ** The LRU cache *)

(** k8s.io/apimachinery/pkg/util/cache.LRUExpireCache: it may forget any entry
    (when it is full, or when its time is over), it holds at most maxSize of
    them, and what it answers for a key is what was added for it last.  Nothing
    else is assumed of what is forgotten and when. *)
Class LRU (K L : Type) `{Countable K} := {
  lru : Type;
  NewLRUExpireCache : nat -> lru;
  lru_Add : Z -> K -> L -> Z -> lru -> lru;
  lru_Get : Z -> K -> lru -> lru * option L;
  entries : lru -> gmap K L;
  lru_max : lru -> nat;
  entries_New n : entries (NewLRUExpireCache n) = ∅;
  lru_max_New n : lru_max (NewLRUExpireCache n) = n;
  entries_Add now k l ttl c : entries (lru_Add now k l ttl c) ⊆ <[ k := l ]> (entries c);
  lru_max_Add now k l ttl c : lru_max (lru_Add now k l ttl c) = lru_max c;
  entries_Add_size now k l ttl c :
    size (entries c) <= lru_max c -> size (entries (lru_Add now k l ttl c)) <= lru_max c;
  entries_Get now k c : entries (lru_Get now k c).1 ⊆ entries c;
  lru_max_Get now k c : lru_max (lru_Get now k c).1 = lru_max c;
  lru_Get_found now k c l : (lru_Get now k c).2 = Some l -> entries c !! k = Some l;
}.

Module lruexpirecache.
Section cache.

(** [T]: what a value points at.  A pointer is a [positive]. *)
Context {K T : Type} `{LRU K positive}.

Record LRUExpireCache := {
  cache : lru;
  zeroCopy : bool;
}.

Abbreviation heap := (gmap positive T).

Definition NewCache (maxSize : nat) : LRUExpireCache :=
  {| cache := NewLRUExpireCache maxSize; zeroCopy := false |}.

Definition ZeroCopy (c : LRUExpireCache) : LRUExpireCache := {| cache := cache c; zeroCopy := true |}.

(** github.com/brunoga/deep.Copy: a fresh pointer to a copy, or an error. *)
Definition deep_Copy (ok : bool) (h : heap) (l : positive) : heap * option positive :=
  match h !! l with
  | Some v => if ok then let l' := fresh (dom h) in (<[ l' := v ]> h, Some l') else (h, None)
  | None => (h, None)
  end.

(** [ok]: whether the value is of a kind deep.Copy can copy. *)
Definition Add (ok : bool) (now : Z) (key : K) (value : positive) (ttl : Z) (h : heap) (c : LRUExpireCache) :
    heap * LRUExpireCache :=
  match deep_Copy ok h value with
  | (h', None) => (h', c)
  | (h', Some t) => (h', {| cache := lru_Add now key t ttl (cache c); zeroCopy := zeroCopy c |})
  end.

(** [None] is (zero, false); every value is of type T, so the assertion holds. *)
Definition Get (ok : bool) (now : Z) (key : K) (h : heap) (c : LRUExpireCache) :
    heap * LRUExpireCache * option positive :=
  let (inner, value) := lru_Get now key (cache c) in
  let c' := {| cache := inner; zeroCopy := zeroCopy c |} in
  match value with
  | None => (h, c', None)
  | Some typedValue =>
    if zeroCopy c then (h, c', Some typedValue)
    else let (h', t) := deep_Copy ok h typedValue in (h', c', t)
  end.

(** ** Callers and the cache *)

(** A caller allocates values, writes through the pointers it holds, and uses
    the cache; [held] are the pointers callers hold, [added] what each key's
    value was when it was added. *)
Record world := {
  the_heap : heap;
  the_cache : LRUExpireCache;
  held : gset positive;
  added : gmap K T;
}.

Definition start (maxSize : nat) (zero : bool) : world :=
  {| the_heap := ∅; the_cache := if zero then ZeroCopy (NewCache maxSize) else NewCache maxSize;
     held := ∅; added := ∅ |}.

Inductive step (w : world) : world -> Prop :=
| step_alloc v :
  let l := fresh (dom (the_heap w)) in
  step w {| the_heap := <[ l := v ]> (the_heap w); the_cache := the_cache w;
            held := {[ l ]} ∪ held w; added := added w |}
| step_write l v :
  l ∈ held w ->
  step w {| the_heap := <[ l := v ]> (the_heap w); the_cache := the_cache w; held := held w; added := added w |}
| step_add ok now key l v ttl h c :
  l ∈ held w -> the_heap w !! l = Some v -> Add ok now key l ttl (the_heap w) (the_cache w) = (h, c) ->
  step w {| the_heap := h; the_cache := c; held := held w;
            added := if ok then <[ key := v ]> (added w) else added w |}
| step_get ok now key h c r :
  Get ok now key (the_heap w) (the_cache w) = (h, c, r) ->
  step w {| the_heap := h; the_cache := c; held := list_to_set (option_list r) ∪ held w; added := added w |}.

End cache.

Arguments LRUExpireCache K {EqDecision0 H H0} : rename.
Arguments world K T {EqDecision0 H H0} : rename.
End lruexpirecache.

Import lruexpirecache.

Section immutability.
Context {K T : Type} `{LRU K positive}.
Implicit Types (w : world K T).

Definition steps : world K T -> world K T -> Prop := rtc step.

(** Cached pointers are the cache's alone, and point at what was added. *)
Record invariant (maxSize : nat) w : Prop := {
  copies : zeroCopy (the_cache w) = false;
  cached k l : entries (cache (the_cache w)) !! k = Some l ->
    l ∉ held w /\ exists v, the_heap w !! l = Some v /\ added w !! k = Some v;
  held_allocated : held w ⊆ dom (the_heap w);
  max_size : lru_max (cache (the_cache w)) = maxSize;
  bounded : size (entries (cache (the_cache w))) <= maxSize;
}.

Lemma invariant_start maxSize : invariant maxSize (start maxSize false).
Proof.
  split; simpl; rewrite ?entries_New, ?lru_max_New, ?map_size_empty; try (done || lia).
Qed.

Lemma fresh_not_in (h : gmap positive T) : fresh (dom h) ∉ dom h.
Proof. apply is_fresh. Qed.

Lemma cached_allocated maxSize w k l :
  invariant maxSize w -> entries (cache (the_cache w)) !! k = Some l -> l ∈ dom (the_heap w).
Proof. intros Hi (_ & v & Hv & _)%(cached _ _ Hi). apply elem_of_dom. eauto. Qed.

Lemma invariant_add maxSize w ok now key l v ttl h c :
  invariant maxSize w -> the_heap w !! l = Some v ->
  Add ok now key l ttl (the_heap w) (the_cache w) = (h, c) ->
  invariant maxSize {| the_heap := h; the_cache := c; held := held w;
                       added := if ok then <[ key := v ]> (added w) else added w |}.
Proof.
  intros Hi Hl. unfold Add, deep_Copy. rewrite Hl. pose proof (fresh_not_in (the_heap w)) as Hf.
  destruct ok; intros [= <- <-]; last by destruct Hi.
  split; simpl.
  - apply Hi.
  - intros k l' Hk. pose proof (lookup_weaken _ _ _ _ Hk (entries_Add _ _ _ _ _)) as Hk'.
    apply lookup_insert_Some in Hk' as [[<- <-]|[Hne Hk']].
    + split; [|exists v; by rewrite !lookup_insert_eq]. pose proof (held_allocated _ _ Hi). set_solver.
    + pose proof (cached_allocated _ _ _ _ Hi Hk'). apply (cached _ _ Hi) in Hk' as (Hn & v' & Hv' & Ha).
      split; [done|]. exists v'. rewrite !lookup_insert_ne by set_solver. done.
  - pose proof (held_allocated _ _ Hi). rewrite dom_insert. set_solver.
  - rewrite lru_max_Add. apply Hi.
  - rewrite <-(max_size _ _ Hi). apply entries_Add_size. rewrite (max_size _ _ Hi). apply Hi.
Qed.

Lemma Get_inv maxSize w ok now key h c r :
  invariant maxSize w -> Get ok now key (the_heap w) (the_cache w) = (h, c, r) ->
  cache c = (lru_Get now key (cache (the_cache w))).1 /\ zeroCopy c = false /\
  (r = None /\ h = the_heap w \/
   exists l v, entries (cache (the_cache w)) !! key = Some l /\ the_heap w !! l = Some v /\ added w !! key = Some v /\
     r = Some (fresh (dom (the_heap w))) /\ h = <[ fresh (dom (the_heap w)) := v ]> (the_heap w)).
Proof.
  intros Hi. unfold Get. pose proof (lru_Get_found now key (cache (the_cache w))) as Hfound.
  destruct (lru_Get now key (cache (the_cache w))) as [inner [l|]]; simpl in *; rewrite ?(copies _ _ Hi).
  - specialize (Hfound l eq_refl). destruct (cached _ _ Hi _ _ Hfound) as (_ & v & Hv & Ha).
    unfold deep_Copy. rewrite Hv. destruct ok; intros [= <- <- <-]; (split_and!; [done|done|]); [right; eauto 10|by left].
  - intros [= <- <- <-]. split_and!; [done|done|by left].
Qed.

Lemma entries_shrink maxSize w inner :
  invariant maxSize w -> entries inner ⊆ entries (cache (the_cache w)) -> size (entries inner) <= maxSize.
Proof. intros Hi Hs. apply map_subseteq_size in Hs. pose proof (bounded _ _ Hi). lia. Qed.

Lemma invariant_step maxSize w w' : invariant maxSize w -> step w w' -> invariant maxSize w'.
Proof.
  intros Hi Hs. pose proof (fresh_not_in (the_heap w)) as Hf. pose proof (held_allocated _ _ Hi) as Hheld.
  destruct Hs as [v|l v Hl|ok now key l v ttl h c Hl Hv Ha|ok now key h c r Hg].
  - split; simpl; try apply Hi; [|rewrite dom_insert; set_solver].
    intros k l' Hk. pose proof (cached_allocated _ _ _ _ Hi Hk). apply (cached _ _ Hi) in Hk as (Hn & v' & Hv' & Ha).
    split; [set_solver|]. exists v'. by rewrite lookup_insert_ne by set_solver.
  - split; simpl; try apply Hi; [|rewrite dom_insert; set_solver].
    intros k l' Hk. apply (cached _ _ Hi) in Hk as (Hn & v' & Hv' & Ha).
    split; [done|]. exists v'. by rewrite lookup_insert_ne by set_solver.
  - by eapply invariant_add.
  - pose proof (entries_Get now key (cache (the_cache w))) as Hsub.
    destruct (Get_inv _ _ _ _ _ _ _ _ Hi Hg) as (Hc & Hz & Hr). split; simpl; rewrite ?Hc; [done| | | |].
    + intros k l Hk. pose proof (lookup_weaken _ _ _ _ Hk Hsub) as Hk'.
      pose proof (cached_allocated _ _ _ _ Hi Hk'). apply (cached _ _ Hi) in Hk' as (Hn & v & Hv & Ha).
      destruct Hr as [[-> ->]|(l' & v' & _ & _ & _ & -> & ->)]; simpl; (split; [set_solver|]); exists v; [done|].
      by rewrite lookup_insert_ne by set_solver.
    + destruct Hr as [[-> ->]|(l' & v' & _ & _ & _ & -> & ->)]; simpl; rewrite ?dom_insert; set_solver.
    + rewrite lru_max_Get. apply Hi.
    + by eapply entries_shrink.
Qed.

Lemma invariant_steps maxSize (w : world K T) : steps (start maxSize false) w -> invariant maxSize w.
Proof.
  intros Hs. pose proof (invariant_start maxSize) as Hi. induction Hs as [|w1 w2 w3 Hstep _ IH]; [done|].
  apply IH. by eapply invariant_step.
Qed.

(** C22 Whatever callers do with the values they put in or got out, short of
    ZeroCopy, a value read back from the LRU cache is the one that was added for
    its key, and the pointer to it is the caller's own; and the cache never
    holds more than its size. *)
Theorem cached_values_immutable maxSize w ok now key h c l :
  steps (start maxSize false) w ->
  Get ok now key (the_heap w) (the_cache w) = (h, c, Some l) ->
  (exists v, added w !! key = Some v /\ h !! l = Some v) /\ l ∉ held w /\
  size (entries (cache (the_cache w))) <= maxSize.
Proof.
  intros Hi%invariant_steps Hg. destruct (Get_inv _ _ _ _ _ _ _ _ Hi Hg) as (_ & _ & Hr).
  destruct Hr as [[? _]|(l' & v & Hl' & Hv & Ha & Heq & ->)]; simplify_eq. split_and!.
  - exists v. by rewrite lookup_insert_eq.
  - pose proof (held_allocated _ _ Hi). pose proof (fresh_not_in (the_heap w)). set_solver.
  - apply Hi.
Qed.

End immutability.

(** ** A reference LRU cache, and witnesses *)

Module reference.
Section reference.
Context {K L : Type} `{Countable K}.

(** Entries with the times they expire at; a full cache forgets everything. *)
Record Lru := { items : gmap K (L * Z); max : nat }.

Definition lru_entries (c : Lru) : gmap K L := fst <$> items c.

Definition add (now : Z) (k : K) (l : L) (ttl : Z) (c : Lru) : Lru :=
  let all := <[ k := (l, (now + ttl)%Z) ]> (items c) in
  {| items := if decide (size all <= max c) then all else ∅; max := max c |}.

Definition get (now : Z) (k : K) (c : Lru) : Lru * option L :=
  match items c !! k with
  | Some (l, expiry) =>
    if decide (expiry < now)%Z then ({| items := delete k (items c); max := max c |}, None) else (c, Some l)
  | None => (c, None)
  end.

#[export] Instance reference_lru : LRU K L.
Proof.
  refine {| lru := Lru; NewLRUExpireCache n := {| items := ∅; max := n |}; lru_Add := add; lru_Get := get;
            entries := lru_entries; lru_max := max |}; unfold lru_entries, add, get; simpl.
  - intros n. apply fmap_empty.
  - done.
  - intros now k l ttl c. case_decide; [by rewrite fmap_insert|]. rewrite fmap_empty. apply map_empty_subseteq.
  - done.
  - intros now k l ttl c _. rewrite map_size_fmap. case_decide; [done|]. rewrite map_size_empty. lia.
  - intros now k c. destruct (items c !! k) as [[l e]|]; [case_decide|]; simpl; try done.
    rewrite fmap_delete. apply delete_subseteq.
  - intros now k c. destruct (items c !! k) as [[l e]|]; [case_decide|]; done.
  - intros now k c l. rewrite lookup_fmap. destruct (items c !! k) as [[l' e]|]; [|done].
    case_decide; simpl; intros; by simplify_eq.
Defined.

End reference.
End reference.

Module witnesses.

#[local] Existing Instance reference.reference_lru.

(** One caller adds a value, then writes through its own pointer. *)
Definition allocated (zero : bool) : world string string :=
  {| the_heap := {[ 1%positive := "before" ]}; the_cache := the_cache (start (K := string) (T := string) 2 zero);
     held := {[ 1%positive ]} ∪ ∅; added := ∅ |}.

Definition cached_world (zero : bool) : world string string :=
  let r := Add true 0 "k" 1%positive 10 (the_heap (allocated zero)) (the_cache (allocated zero)) in
  {| the_heap := r.1; the_cache := r.2; held := held (allocated zero);
     added := <[ "k" := "before" ]> (added (allocated zero)) |}.

Definition overwritten (zero : bool) (l : positive) (w : world string string) : world string string :=
  {| the_heap := <[ l := "after" ]> (the_heap w); the_cache := the_cache w; held := held w; added := added w |}.

Lemma steps_cached zero : steps (start 2 zero) (cached_world zero).
Proof.
  eapply rtc_l; [apply (step_alloc _ "before")|]. simpl.
  eapply rtc_l; [|apply rtc_refl].
  apply (step_add (allocated zero) true 0 "k" 1%positive "before" 10); [|done|by destruct zero].
  set_solver.
Qed.

Lemma steps_overwritten : steps (start 2 false) (overwritten false 1%positive (cached_world false)).
Proof.
  eapply rtc_r; [apply steps_cached|]. apply step_write. set_solver.
Qed.

Definition read (w : world string string) := Get true 5 "k" (the_heap w) (the_cache w).

Lemma cached_values_immutable_witness :
  exists v, added (overwritten false 1%positive (cached_world false)) !! "k" = Some v /\
    (read (overwritten false 1%positive (cached_world false))).1.1 !! 3%positive = Some v.
Proof.
  exact (proj1 (cached_values_immutable 2 (overwritten false 1%positive (cached_world false)) true 5 "k"
    (read (overwritten false 1%positive (cached_world false))).1.1
    (read (overwritten false 1%positive (cached_world false))).1.2 3%positive steps_overwritten eq_refl)).
Defined.

(** With ZeroCopy a caller writes into the cache. *)
Lemma zero_copy_aliases :
  let w := cached_world true in
  (read w).2 = Some 2%positive /\
  (the_heap (overwritten true 2%positive w)) !! 2%positive = Some "after" /\
  (read (overwritten true 2%positive w)).2 = Some 2%positive /\ added w !! "k" = Some "before".
Proof. split_and!; reflexivity. Qed.

Lemma timeout_cache_refines_witness :
  timeout_cache.answers (timeout_cache.New 10)
    [timeout_cache.OpGet 1; timeout_cache.OpSet 2 "v"; timeout_cache.OpGet 12; timeout_cache.OpGet 13] =
  timeout_cache.spec_answers 10 None
    [timeout_cache.OpGet 1; timeout_cache.OpSet 2 "v"; timeout_cache.OpGet 12; timeout_cache.OpGet 13].
Proof. apply (timeout_cache.timeout_cache_refines 10). repeat constructor. Defined.

End witnesses.
