(* ===== verification/Kubernetes.v ===== *)
(** * Kubernetes: the interface of the libraries src/ builds on

    apimachinery and controller-runtime are not part of this repository.  Their
    plain data types are records with the fields the code reads; their
    functions are operations of type classes, whose laws are the behaviour
    those libraries document.  Everything else is proved against the classes;
    the [reference] values at the end show that the laws can be met, and are
    what the witnesses of the theorems run on. *)

From S2P Require Import Prelude Errors Effects.

(** k8s.io/apimachinery/pkg/apis/meta/v1.  Timestamps are integers. *)
Module metav1.

Record ObjectMeta := {
  Name : string;
  Namespace : string;
  Generation : Z;
  CreationTimestamp : Z;
  DeletionTimestamp : option Z;
  Labels : gmap string string;
  Annotations : gmap string string;
  Finalizers : list string;
}.

Definition with_finalizers (fs : list string) (m : ObjectMeta) : ObjectMeta :=
  {| Name := Name m; Namespace := Namespace m; Generation := Generation m;
     CreationTimestamp := CreationTimestamp m; DeletionTimestamp := DeletionTimestamp m;
     Labels := Labels m; Annotations := Annotations m; Finalizers := fs |}.

Definition with_annotations (a : gmap string string) (m : ObjectMeta) : ObjectMeta :=
  {| Name := Name m; Namespace := Namespace m; Generation := Generation m;
     CreationTimestamp := CreationTimestamp m; DeletionTimestamp := DeletionTimestamp m;
     Labels := Labels m; Annotations := a; Finalizers := Finalizers m |}.

Record Condition := {
  Type_ : string;
  Status : string;
  LastTransitionTime : Z;
  Reason : string;
  Message : string;
}.

(** metav1.FinalizerDeleteDependents. *)
Definition FinalizerDeleteDependents : string := "foregroundDeletion".

(** schema.GroupVersionKind. *)
Record GroupVersionKind := { Group : string; Version : string; Kind : string }.

End metav1.

(** corev1.ConditionStatus. *)
Definition ConditionTrue : string := "True".
Definition ConditionFalse : string := "False".

(** sigs.k8s.io/controller-runtime/pkg/controller/controllerutil: finalizers.
    "AddFinalizer accepts an Object and adds the provided finalizer if not
    present. It returns an indication of whether it updated the object's list
    of finalizers", and dually for RemoveFinalizer. *)
Class ControllerUtil := {
  ContainsFinalizer : list string -> string -> bool;
  AddFinalizer : list string -> string -> list string * bool;
  RemoveFinalizer : list string -> string -> list string * bool;
  ContainsFinalizer_spec l f : ContainsFinalizer l f = true <-> f ∈ l;
  AddFinalizer_updated l f : (AddFinalizer l f).2 = true <-> f ∉ l;
  AddFinalizer_same l f : (AddFinalizer l f).2 = false -> (AddFinalizer l f).1 = l;
  AddFinalizer_elem l f g : g ∈ (AddFinalizer l f).1 <-> g = f \/ g ∈ l;
  RemoveFinalizer_updated l f : (RemoveFinalizer l f).2 = true <-> f ∈ l;
  RemoveFinalizer_same l f : (RemoveFinalizer l f).2 = false -> (RemoveFinalizer l f).1 = l;
  RemoveFinalizer_elem l f g : g ∈ (RemoveFinalizer l f).1 <-> g <> f /\ g ∈ l;
}.

(** k8s.io/apimachinery/pkg/api/errors: classification of API errors. *)
Class ApiErrors := {
  IsNotFound : error -> bool;
  IsConflict : error -> bool;
}.

(** k8s.io/apimachinery/pkg/api/meta: status conditions.  SetStatusCondition
    "sets the corresponding condition in conditions to newCondition"; the
    transition time is kept while the status does not change and is [now]
    (time.Now) otherwise, when the new condition carries none. *)
Class MetaConditions := {
  FindStatusCondition : list metav1.Condition -> string -> option metav1.Condition;
  SetStatusCondition : Z -> list metav1.Condition -> metav1.Condition -> list metav1.Condition;
  FindStatusCondition_type l t c :
    FindStatusCondition l t = Some c -> metav1.Type_ c = t /\ c ∈ l;
  FindStatusCondition_empty t : FindStatusCondition [] t = None;
  SetStatusCondition_find now l c :
    metav1.LastTransitionTime c = 0%Z ->
    FindStatusCondition (SetStatusCondition now l c) (metav1.Type_ c) =
    Some {| metav1.Type_ := metav1.Type_ c;
            metav1.Status := metav1.Status c;
            metav1.LastTransitionTime :=
              match FindStatusCondition l (metav1.Type_ c) with
              | Some old =>
                if decide (metav1.Status old = metav1.Status c)
                then metav1.LastTransitionTime old else now
              | None => now
              end;
            metav1.Reason := metav1.Reason c;
            metav1.Message := metav1.Message c |};
  SetStatusCondition_other now l c t :
    t <> metav1.Type_ c -> FindStatusCondition (SetStatusCondition now l c) t = FindStatusCondition l t;
}.

(** meta.EachListItem: "EachListItem invokes fn on each runtime.Object in the
    list. Any error immediately terminates the loop."  [S] is the state of the
    variables the callback captures. *)
Class MetaList := {
  EachListItem {E : Type -> Type} {S A : Type} :
    (S -> A -> prog E (S * option error)) -> S -> list A -> prog E (S * option error);
  EachListItem_nil {E : Type -> Type} {S A : Type} (f : S -> A -> prog E (S * option error)) s :
    EachListItem f s [] = mret (s, None);
  EachListItem_cons {E : Type -> Type} {S A : Type} (f : S -> A -> prog E (S * option error)) s x l :
    EachListItem f s (x :: l) =
    (r ← f s x; match r.2 with Some err => mret (r.1, Some err) | None => EachListItem f r.1 l end);
}.

(** schema.GroupVersionResource and meta.RESTMapper.RESTMapping, which maps a
    group, kind and version to the resource that serves it. *)
Record GroupVersionResource := {
  gvr_Group : string;
  gvr_Version : string;
  gvr_Resource : string;
}.

Class RESTMapper := {
  RESTMapping : string -> string -> string -> result GroupVersionResource;
}.

(** runtime.Scheme.ObjectKinds, for objects of type [O]. *)
Class Scheme (O : Type) := {
  ObjectKinds : O -> result (list metav1.GroupVersionKind);
}.

(** client.Object: a resource with metadata that can be read and replaced. *)
Class Object (O : Type) := {
  object_meta : O -> metav1.ObjectMeta;
  set_object_meta : metav1.ObjectMeta -> O -> O;
  object_meta_set m o : object_meta (set_object_meta m o) = m;
  set_object_meta_get o : set_object_meta (object_meta o) o = o;
}.

Section object_accessors.
Context {O : Type} `{Object O}.

Definition GetName (o : O) : string := metav1.Name (object_meta o).
Definition GetLabels (o : O) : gmap string string := metav1.Labels (object_meta o).
Definition GetAnnotations (o : O) : gmap string string := metav1.Annotations (object_meta o).
Definition GetFinalizers (o : O) : list string := metav1.Finalizers (object_meta o).
Definition GetDeletionTimestamp (o : O) : option Z := metav1.DeletionTimestamp (object_meta o).
Definition SetFinalizers (fs : list string) (o : O) : O :=
  set_object_meta (metav1.with_finalizers fs (object_meta o)) o.

(** A map lookup with Go's zero value for a missing key. *)
Definition label (k : string) (o : O) : string := default "" (GetLabels o !! k).

Lemma GetFinalizers_set fs o : GetFinalizers (SetFinalizers fs o) = fs.
Proof. unfold GetFinalizers, SetFinalizers. by rewrite object_meta_set. Qed.

Lemma SetFinalizers_get o : SetFinalizers (GetFinalizers o) o = o.
Proof.
  unfold GetFinalizers, SetFinalizers.
  replace (metav1.with_finalizers _ _) with (object_meta o); [apply set_object_meta_get|].
  by destruct (object_meta o).
Qed.

Lemma GetName_set fs o : GetName (SetFinalizers fs o) = GetName o.
Proof. unfold GetName, SetFinalizers. by rewrite object_meta_set. Qed.

Lemma GetLabels_set fs o : GetLabels (SetFinalizers fs o) = GetLabels o.
Proof. unfold GetLabels, SetFinalizers. by rewrite object_meta_set. Qed.

Lemma GetDeletionTimestamp_set fs o : GetDeletionTimestamp (SetFinalizers fs o) = GetDeletionTimestamp o.
Proof. unfold GetDeletionTimestamp, SetFinalizers. by rewrite object_meta_set. Qed.

End object_accessors.

#[export] Hint Rewrite @GetFinalizers_set @SetFinalizers_get @GetName_set @GetLabels_set
  @GetDeletionTimestamp_set : go.

(** ** Reference implementations of the laws *)

Module reference.

Definition add_finalizer (l : list string) (f : string) : list string * bool :=
  if decide (f ∈ l) then (l, false) else (l ++ [f], true).

Definition remove_finalizer (l : list string) (f : string) : list string * bool :=
  (base.filter (fun g => g <> f) l, bool_decide (f ∈ l)).

Lemma remove_finalizer_same (l : list string) (f : string) :
  f ∉ l -> base.filter (fun g => g <> f) l = l.
Proof.
  induction l as [|g l IH]; intros H; [done|].
  rewrite filter_cons_True by set_solver. f_equal. apply IH. set_solver.
Qed.

Definition controller_util : ControllerUtil.
Proof.
  refine {| ContainsFinalizer l f := bool_decide (f ∈ l);
            AddFinalizer := add_finalizer; RemoveFinalizer := remove_finalizer |};
    unfold add_finalizer, remove_finalizer; intros l f.
  - apply bool_decide_eq_true.
  - by destruct (decide (f ∈ l)).
  - by destruct (decide (f ∈ l)).
  - intros g. destruct (decide (f ∈ l)); simpl; [|set_solver]. split; [auto|]. by intros [->|].
  - apply bool_decide_eq_true.
  - simpl. rewrite bool_decide_eq_false. apply remove_finalizer_same.
  - intros g. simpl. by rewrite list_elem_of_filter.
Defined.

Definition api_errors : ApiErrors := {|
  IsNotFound e := match e with Foreign "NotFound" => true | _ => false end;
  IsConflict e := match e with Foreign "Conflict" => true | _ => false end;
|}.

Fixpoint each_list_item {E : Type -> Type} {S A : Type}
    (f : S -> A -> prog E (S * option error)) (s : S) (l : list A) : prog E (S * option error) :=
  match l with
  | [] => mret (s, None)
  | x :: l' =>
    r ← f s x;
    match r.2 with Some err => mret (r.1, Some err) | None => each_list_item f r.1 l' end
  end.

Definition meta_list : MetaList.
Proof. refine {| EachListItem := @each_list_item |}; done. Defined.

Fixpoint find_condition (l : list metav1.Condition) (t : string) : option metav1.Condition :=
  match l with
  | [] => None
  | c :: l' => if decide (metav1.Type_ c = t) then Some c else find_condition l' t
  end.

Definition stamp (time : Z) (c : metav1.Condition) : metav1.Condition :=
  {| metav1.Type_ := metav1.Type_ c; metav1.Status := metav1.Status c;
     metav1.LastTransitionTime := time;
     metav1.Reason := metav1.Reason c; metav1.Message := metav1.Message c |}.

Fixpoint set_condition (now : Z) (l : list metav1.Condition) (c : metav1.Condition) : list metav1.Condition :=
  match l with
  | [] => [stamp now c]
  | old :: l' =>
    if decide (metav1.Type_ old = metav1.Type_ c)
    then stamp (if decide (metav1.Status old = metav1.Status c)
                then metav1.LastTransitionTime old else now) c :: l'
    else old :: set_condition now l' c
  end.

Definition meta_conditions : MetaConditions.
Proof.
  refine {| FindStatusCondition := find_condition; SetStatusCondition := set_condition |}.
  - intros l t c. induction l as [|c' l IH]; simpl; [done|].
    destruct (decide _); intros; simplify_eq; [set_solver|].
    destruct IH; [done|]. set_solver.
  - done.
  - intros now l c _. induction l as [|c' l IH]; simpl.
    + by rewrite decide_True by done.
    + destruct (decide (metav1.Type_ c' = metav1.Type_ c)) as [E|E]; simpl.
      * by rewrite decide_True by done.
      * by rewrite decide_False by done.
  - intros now l c t Ht. induction l as [|c' l IH]; simpl.
    + by rewrite decide_False by congruence.
    + destruct (decide (metav1.Type_ c' = metav1.Type_ c)) as [E|E]; simpl.
      * rewrite !decide_False by congruence. done.
      * by destruct (decide (metav1.Type_ c' = t)).
Defined.

End reference.
