(* ===== verification/Conditions.v ===== *)
(** * Conditions: status conditions, tags and managed resources

    Models pkg/apis/unikorn/v1alpha1: the condition vocabulary (types.go), the
    lookup and update helpers (helpers.go), the interface every managed resource
    implements (interfaces.go), as a class with the contract the manager relies
    on, and the repository's own implementation of it (fake/helpers.go), as an
    instance that discharges the contract. *)

From S2P Require Import Prelude Errors Kubernetes.

(** ConditionType; the set of condition types is open, so it is a string. *)
Abbreviation ConditionType := string.
Abbreviation ProvisioningConditionReason := string.
Abbreviation HealthConditionReason := string.

Definition ConditionAvailable : ConditionType := "Available".
Definition ConditionHealthy : ConditionType := "Healthy".
Definition ConditionActive : ConditionType := "Active".

Definition ConditionReasonProvisioning : ProvisioningConditionReason := "Provisioning".
Definition ConditionReasonProvisioned : ProvisioningConditionReason := "Provisioned".
Definition ConditionReasonErrored : ProvisioningConditionReason := "Errored".
Definition ConditionReasonDeprovisioning : ProvisioningConditionReason := "Deprovisioning".
Definition ConditionReasonDeprovisioned : ProvisioningConditionReason := "Deprovisioned".
Definition ConditionReasonDependencyNotReady : ProvisioningConditionReason := "DependencyNotReady".
Definition ConditionReasonDependencyFailed : ProvisioningConditionReason := "DependencyFailed".
Definition ConditionReasonDependencyNotFound : ProvisioningConditionReason := "DependencyNotFound".

Definition ConditionReasonUnknown : HealthConditionReason := "Unknown".
Definition ConditionReasonHealthy : HealthConditionReason := "Healthy".
Definition ConditionReasonDegraded : HealthConditionReason := "Degraded".

(** The label keys of pkg/constants the models read. *)
Module constants.

Definition NameLabel : string := "unikorn-cloud.org/name".
Definition DescriptionAnnotation : string := "unikorn-cloud.org/description".
Definition CreatorAnnotation : string := "unikorn-cloud.org/creator".
Definition ModifierAnnotation : string := "unikorn-cloud.org/modifier".
Definition ModifiedTimestampAnnotation : string := "unikorn-cloud.org/modifiedTimestamp".
Definition OrganizationLabel : string := "unikorn-cloud.org/organization".
Definition ProjectLabel : string := "unikorn-cloud.org/project".
Definition ApplicationLabel : string := "unikorn-cloud.org/application".
Definition ApplicationIDLabel : string := "unikorn-cloud.org/application-id".
Definition Finalizer : string := "unikorn".

(** Ten seconds, in nanoseconds as a time.Duration is. *)
Definition DefaultYieldTimeout : Z := 10 * 1000000000.

End constants.

(** ** Condition lookup and update *)

Section conditions.
Context `{MetaConditions}.

Definition GetCondition (conditions : list metav1.Condition) (t : ConditionType) : result metav1.Condition :=
  match FindStatusCondition conditions t with
  | None => Err (Sentinel v1alpha1_ErrStatusConditionLookup)
  | Some condition => Ok condition
  end.

(** [now] is the clock SetStatusCondition reads. *)
Definition UpdateCondition (now : Z) (conditions : list metav1.Condition) (t : ConditionType)
    (status : string) (reason : string) (message : string) : list metav1.Condition :=
  SetStatusCondition now conditions
    {| metav1.Type_ := t; metav1.Status := status; metav1.LastTransitionTime := 0;
       metav1.Reason := reason; metav1.Message := message |}.

End conditions.

(** TypedCondition[R], every reason type having string as its underlying type. *)
Record TypedCondition := {
  Type_ : ConditionType;
  Status : string;
  LastTransitionTime : Z;
  Reason : string;
  Message : string;
}.

(** StatusConditionReader. *)
Class StatusConditionReader (O : Type) := {
  StatusConditionRead : O -> ConditionType -> result metav1.Condition;
}.

(** ManagableResourceInterface: client.Object, ResourceLabeller, ReconcilePauser,
    StatusConditionReader and ProvisioningConditionWriter, with the contract the
    generic layers rely on: the Available condition that was written is the one
    that is read, and writing it leaves the rest of the object alone. *)
Class ManagableResource (O : Type) `{Object O} `{StatusConditionReader O} := {
  ResourceLabels : O -> result (gmap string string);
  Paused : O -> bool;
  SetProvisioningCondition : Z -> string -> ProvisioningConditionReason -> string -> O -> O;
  SetProvisioningCondition_read now status reason message o :
    exists c, StatusConditionRead (SetProvisioningCondition now status reason message o) ConditionAvailable = Ok c /\
      metav1.Status c = status /\ metav1.Reason c = reason /\ metav1.Message c = message;
  SetProvisioningCondition_other now status reason message o t :
    t <> ConditionAvailable ->
    StatusConditionRead (SetProvisioningCondition now status reason message o) t = StatusConditionRead o t;
  SetProvisioningCondition_meta now status reason message o :
    object_meta (SetProvisioningCondition now status reason message o) = object_meta o;
  set_object_meta_conditions m o t :
    StatusConditionRead (set_object_meta m o) t = StatusConditionRead o t;
}.

Section typed_conditions.
Context {O : Type} `{StatusConditionReader O}.

Definition GetTypedCondition (r : O) (t : ConditionType) : result TypedCondition :=
  match StatusConditionRead r t with
  | Err err => Err err
  | Ok condition =>
    Ok {| Type_ := metav1.Type_ condition;
          Status := metav1.Status condition;
          LastTransitionTime := metav1.LastTransitionTime condition;
          Reason := metav1.Reason condition;
          Message := metav1.Message condition |}
  end.

Definition GetAvailableCondition (r : O) : result TypedCondition :=
  GetTypedCondition r ConditionAvailable.

Definition GetHealthyCondition (r : O) : result TypedCondition :=
  GetTypedCondition r ConditionHealthy.

End typed_conditions.

(** ** Tags *)

Record Tag := { tag_Name : string; tag_Value : string }.

#[export] Instance Tag_eq_dec : EqDecision Tag.
Proof. solve_decision. Defined.

Abbreviation TagList := (list Tag).

Definition TagList_Contains (t : TagList) (tag : Tag) : bool :=
  contains_func t (fun temp =>
    bool_decide (tag_Name temp = tag_Name tag) && bool_decide (tag_Value temp = tag_Value tag)).

Fixpoint TagList_ContainsAll (t : TagList) (o : TagList) : bool :=
  match o with
  | [] => true
  | tag :: o' => if negb (TagList_Contains t tag) then false else TagList_ContainsAll t o'
  end.

(** The first tag of that name; Go's [("", false)] is [None]. *)
Fixpoint TagList_Find (t : TagList) (name : string) : option string :=
  match t with
  | [] => None
  | tag :: t' => if bool_decide (tag_Name tag = name) then Some (tag_Value tag) else TagList_Find t' name
  end.

(** ** fake.ManagedResource *)

Module fake.

Record ManagedResource := {
  ObjectMeta : metav1.ObjectMeta;
  Conditions : list metav1.Condition;
}.

Section fake.
Context `{MetaConditions}.

#[global] Instance ManagedResource_object : Object ManagedResource.
Proof.
  refine {| object_meta := ObjectMeta;
            set_object_meta m o := {| ObjectMeta := m; Conditions := Conditions o |} |}; [done|by intros []].
Defined.

Definition ResourceLabels (r : ManagedResource) : result (gmap string string) := Ok (GetLabels r).

Definition Paused (r : ManagedResource) : bool := false.

Definition StatusConditionRead (r : ManagedResource) (t : ConditionType) : result metav1.Condition :=
  GetCondition (Conditions r) t.

Definition SetProvisioningCondition (now : Z) (status : string) (reason : ProvisioningConditionReason)
    (message : string) (r : ManagedResource) : ManagedResource :=
  {| ObjectMeta := ObjectMeta r;
     Conditions := UpdateCondition now (Conditions r) ConditionAvailable status reason message |}.

#[global] Instance ManagedResource_reader : StatusConditionReader ManagedResource :=
  {| Conditions.StatusConditionRead := StatusConditionRead |}.

#[global] Instance ManagedResource_managable : ManagableResource ManagedResource.
Proof.
  refine {| Conditions.ResourceLabels := ResourceLabels; Conditions.Paused := Paused;
            Conditions.SetProvisioningCondition := SetProvisioningCondition |}; simpl; try done.
  - intros now status reason message o. unfold StatusConditionRead, GetCondition. simpl.
    unfold UpdateCondition.
    match goal with |- context [SetStatusCondition now ?l ?c] =>
      pose proof (SetStatusCondition_find now l c eq_refl) as Hf; simpl in Hf; rewrite Hf end.
    eauto.
  - intros now status reason message o t Ht.
    unfold StatusConditionRead, GetCondition. simpl. unfold UpdateCondition.
    by rewrite SetStatusCondition_other.
Defined.

End fake.
End fake.

(** ** Lemmas *)

Lemma GetAvailableCondition_set {O} `{ManagableResource O} now status reason message (o : O) :
  exists c, GetAvailableCondition (SetProvisioningCondition now status reason message o) = Ok c /\
    Status c = status /\ Reason c = reason /\ Message c = message.
Proof.
  unfold GetAvailableCondition, GetTypedCondition.
  destruct (SetProvisioningCondition_read now status reason message o) as (c & -> & <- & <- & <-).
  eexists. done.
Qed.

Lemma GetHealthyCondition_set {O} `{ManagableResource O} now status reason message (o : O) :
  GetHealthyCondition (SetProvisioningCondition now status reason message o) = GetHealthyCondition o.
Proof.
  unfold GetHealthyCondition, GetTypedCondition. by rewrite SetProvisioningCondition_other.
Qed.

Lemma TagList_Contains_elem_of (t : TagList) tag : TagList_Contains t tag = true <-> tag ∈ t.
Proof.
  unfold TagList_Contains. rewrite contains_func_true. split.
  - intros ([n v] & Hin & Hp). apply andb_true_iff in Hp as [Hn Hv].
    apply bool_decide_eq_true in Hn, Hv. destruct tag; simpl in *; by subst.
  - intros H. exists tag. split; [done|]. by rewrite !bool_decide_true.
Qed.

(** ** A concrete resource, for the witnesses of the theorems *)

Module sample.

#[export] Existing Instances reference.controller_util reference.api_errors reference.meta_list
  reference.meta_conditions.

#[export] Instance scheme : Scheme fake.ManagedResource := {|
  ObjectKinds _ := Ok [{| metav1.Group := "region.unikorn-cloud.org"; metav1.Version := "v1alpha1";
                          metav1.Kind := "Network" |}];
|}.

Definition meta (name : string) (finalizers : list string) (deletion : option Z) : metav1.ObjectMeta :=
  {| metav1.Name := name; metav1.Namespace := "unikorn"; metav1.Generation := 1;
     metav1.CreationTimestamp := 1; metav1.DeletionTimestamp := deletion;
     metav1.Labels := {[ constants.NameLabel := "prod-net"; constants.OrganizationLabel := "acme" ]};
     metav1.Annotations := ∅; metav1.Finalizers := finalizers |}.

(** A fresh resource, and the same one as a given reconcile leaves it. *)
Definition network (finalizers : list string) (deletion : option Z) : fake.ManagedResource :=
  {| fake.ObjectMeta := meta "net-1" finalizers deletion; fake.Conditions := [] |}.

Definition network_with (finalizers : list string) (deletion : option Z)
    (status reason message : string) : fake.ManagedResource :=
  fake.SetProvisioningCondition 7 status reason message (network finalizers deletion).

End sample.
