(* ===== verification/Provisioning.v ===== *)
(** * Provisioning: error dispositions

    Models pkg/provisioners/errors.go: the errors a provisioner answers with,
    their constructors, and the test that stops the manager from requeuing. *)

From S2P Require Import Prelude Errors GoStrings Kubernetes Conditions.

Module provisioners.

Definition ErrYield : error := Sentinel provisioners_ErrYield.
Definition ErrNotFound : error := Sentinel provisioners_ErrNotFound.
Definition ErrTerminal : error := Sentinel provisioners_ErrTerminal.
Definition ErrUserActionRequired : error := Sentinel provisioners_ErrUserActionRequired.

Definition newError (disposition : error) (reason : ProvisioningConditionReason) (message : string) : Error :=
  {| disposition := disposition; reason := reason; message := message |}.

(** A *Error used as an error value. *)
Definition as_error (e : Error) : error := Provisioning (disposition e) (reason e) (message e).

(** Error.Error, given how the disposition prints. *)
Definition Error_Error (disposition_text : string) (e : Error) : string :=
  if bool_decide (message e = "")
  then disposition_text +:+ ": " +:+ reason e
  else disposition_text +:+ ": " +:+ reason e +:+ ": " +:+ message e.

Definition Unwrap (e : Error) : error := disposition e.

Definition Reason (e : Error) : ProvisioningConditionReason := reason e.

Definition Message (e : Error) : string := message e.

Definition Terminal (reason : ProvisioningConditionReason) (message : string) : Error :=
  newError ErrTerminal reason message.

Definition UserActionRequired (reason : ProvisioningConditionReason) (message : string) : Error :=
  newError ErrUserActionRequired reason message.

Definition Yield (reason : ProvisioningConditionReason) (message : string) : Error :=
  newError ErrYield reason message.

Section resources.
Context {O : Type} `{Object O} `{Scheme O}.

Definition describeResource (o : O) : string :=
  let kind :=
    match ObjectKinds o with
    | Ok (gvk :: _) => metav1.Kind gvk
    | _ => "resource"
    end in
  let id := GetName o in
  let name := label constants.NameLabel o in
  if bool_decide (name = "")
  then kind +:+ " " +:+ id
  else kind +:+ " " +:+ quote name +:+ " (" +:+ id +:+ ")".

Definition DependencyNotReady (o : O) : Error :=
  Yield ConditionReasonDependencyNotReady (describeResource o +:+ " is not ready").

Definition DependencyFailed (o : O) : Error :=
  Yield ConditionReasonDependencyFailed (describeResource o +:+ " has failed").

Definition DependencyNotFound (o : O) : Error :=
  Terminal ConditionReasonDependencyNotFound (describeResource o +:+ " does not exist").

End resources.

Definition IsTerminal (err : error) : bool :=
  errors_is err provisioners_ErrTerminal || errors_is err provisioners_ErrUserActionRequired.

End provisioners.

(** ** Lemmas *)

Lemma as_error_as (e : Error) : errors_as_provisioning (provisioners.as_error e) = Some e.
Proof. by destruct e. Qed.

Lemma IsTerminal_wrapped e ctx : provisioners.IsTerminal (Wrapped e ctx) = provisioners.IsTerminal e.
Proof. done. Qed.

#[export] Hint Rewrite as_error_as IsTerminal_wrapped : go.
