(* ===== verification/ProvisioningLog.v ===== *)
(** * ProvisioningLog: the condition-transition log stream

    Models pkg/provisioninglog: the entry written when a resource's condition
    changes.  Writing it to the logger is a call of the caller's signature. *)

From S2P Require Import Prelude Errors Kubernetes Conditions.

Module provisioninglog.

Definition StreamProvisioning : string := "provisioning".
Definition StreamLifecycle : string := "lifecycle".

(** Scope key and the label it is sourced from. *)
Definition scopeLabels : gmap string string :=
  {[ "organization" := constants.OrganizationLabel; "project" := constants.ProjectLabel ]}.

Record Component := { component_Name : string; component_Version : string }.
Record Resource := { resource_Type : string; resource_ID : string }.
Record Transition := { Status : string; Reason : string; Message : string }.

Record Entry := {
  stream : string;
  component : Component;
  resource : Resource;
  scope : gmap string string;
  transition : Transition;
  observedGeneration : Z;
}.

Section emit.
Context {O : Type} `{Object O} `{Scheme O}.

(** The entry Emit logs. *)
Definition Emit (object : O) (stream status reason message : string) : Entry :=
  let gvk :=
    match ObjectKinds object with
    | Ok (gvk :: _) => (metav1.Kind gvk, metav1.Group gvk)
    | _ => ("", "")
    end in
  let labels := GetLabels object in
  {| stream := stream;
     component := {| component_Name := gvk.2; component_Version := "" |};
     resource := {| resource_Type := gvk.1; resource_ID := GetName object |};
     scope := omap (fun l =>
       match labels !! l with
       | Some v => if bool_decide (v <> "") then Some v else None
       | None => None
       end) scopeLabels;
     transition := {| Status := status; Reason := reason; Message := message |};
     observedGeneration := metav1.Generation (object_meta object) |}.

(** The scope is the present-only projection of the tenancy labels. *)
Lemma Emit_scope object st status reason message key v :
  scope (Emit object st status reason message) !! key = Some v <->
  exists l, scopeLabels !! key = Some l /\ GetLabels object !! l = Some v /\ v <> "".
Proof.
  unfold Emit. cbn [scope]. rewrite lookup_omap_Some. split.
  - intros (l & Hv & Hl). exists l. destruct (GetLabels object !! l) as [w|]; [|done].
    case_bool_decide; by simplify_eq.
  - intros (l & Hl & Hv & Hne). exists l. rewrite Hv. by rewrite bool_decide_true.
Qed.

End emit.
End provisioninglog.
