(* ===== verification/References.v ===== *)
(** * References: deletion ordering through finalizers

    Models pkg/manager/reference.go and pkg/manager/readiness.go.  A resource
    that uses another attaches a reference to it, encoded as an extra finalizer
    on the used resource; while one is attached the manager does not deprovision
    that resource (see Manager). *)

From S2P Require Import Prelude Errors Effects GoStrings Kubernetes Conditions Provisioning.
From Stdlib Require Import Ascii.

(** The calls: the API client's Get of one object, List and Update.  A list
    item is [None] when its type assertion to client.Object fails. *)
Inductive referenceE (O : Type) : Type -> Type :=
| ClientGet : referenceE O (O * option error)
| ClientList : referenceE O (list (option O) * option error)
| ClientUpdate (o : O) : referenceE O (O * option error).

Arguments ClientGet {O}.
Arguments ClientList {O}.
Arguments ClientUpdate {O} o.

(** The finalizers that are not references. *)
Definition ignoredFinalizers : list string :=
  [constants.Finalizer; metav1.FinalizerDeleteDependents].

Section references.
Context {O : Type} `{Object O}.

Definition GetResourceReferences (object : O) : list string :=
  delete_func (fun s => contains ignoredFinalizers s) (GetFinalizers object).

Definition GenerateResourceReference `{Scheme O} `{RESTMapper} (resource : O) : result string :=
  match ObjectKinds resource with
  | Err err => Err err
  | Ok [gvk] =>
    match RESTMapping (metav1.Group gvk) (metav1.Kind gvk) (metav1.Version gvk) with
    | Err err => Err err
    | Ok gvr =>
      let group :=
        if bool_decide (gvr_Group gvr = "unikorn-cloud.org")
        then "kubernetes.unikorn-cloud.org" else gvr_Group gvr in
      Ok (gvr_Resource gvr +:+ "." +:+ group +:+ "/" +:+ GetName resource)
    end
  | Ok _ => Err (Wrapped (Sentinel ErrConsistency) "expected single GVK for resource")
  end.

Context `{ControllerUtil} `{ApiErrors} `{MetaList}.

Abbreviation M := (prog (referenceE O)).

Definition notClientObject : error :=
  Wrapped (Sentinel ErrTypeConversion) "resource not a client object".

Definition resourceIDMap (resources : list (option O)) : M (gmap string O * option error) :=
  EachListItem (fun out resource =>
    match resource with
    | None => mret (out, Some notClientObject)
    | Some object => mret (<[GetName object := object]> out, None)
    end) ∅ resources.

(** What every update does with a failure: a conflict is retried. *)
Definition conflictYields (err : error) : option error :=
  if IsConflict err then Some provisioners.ErrYield else Some err.

Definition AddResourceReference (reference : string) : M (option error) :=
  a ← call ClientGet;
  let '(resource, gerr) := a in
  match gerr with
  | Some err => mret (Some err)
  | None =>
    let '(fs, updated) := AddFinalizer (GetFinalizers resource) reference in
    if negb updated then mret None
    else
      b ← call (ClientUpdate (SetFinalizers fs resource));
      match b.2 with
      | Some err => mret (conflictYields err)
      | None => mret None
      end
  end.

(** The loop of AddResourceReferences.  The map holds pointers: an updated
    resource is what a repeated ID finds. *)
Fixpoint addReferences (reference : string) (m : gmap string O) (ids : list string) : M (option error) :=
  match ids with
  | [] => mret None
  | id :: ids' =>
    match m !! id with
    | None =>
      mret (Some (Wrapped (Sentinel ErrConsistency) ("attempt to reference unknown resource ID " +:+ id)))
    | Some resource =>
      let '(fs, updated) := AddFinalizer (GetFinalizers resource) reference in
      if negb updated then addReferences reference m ids'
      else
        b ← call (ClientUpdate (SetFinalizers fs resource));
        match b.2 with
        | Some err => mret (conflictYields err)
        | None => addReferences reference (<[id := b.1]> m) ids'
        end
    end
  end.

Definition AddResourceReferences (reference : string) (ids : list string) : M (option error) :=
  a ← call ClientList;
  let '(resources, lerr) := a in
  match lerr with
  | Some err => mret (Some err)
  | None =>
    r ← resourceIDMap resources;
    match r.2 with
    | Some err => mret (Some err)
    | None => addReferences reference r.1 ids
    end
  end.

Definition RemoveResourceReference (reference : string) : M (option error) :=
  a ← call ClientGet;
  let '(resource, gerr) := a in
  match gerr with
  | Some err => if IsNotFound err then mret None else mret (Some err)
  | None =>
    let '(fs, updated) := RemoveFinalizer (GetFinalizers resource) reference in
    if negb updated then mret None
    else
      b ← call (ClientUpdate (SetFinalizers fs resource));
      match b.2 with
      | Some err => if IsNotFound err then mret None else mret (conflictYields err)
      | None => mret None
      end
  end.

(** The callback of RemoveResourceReferences. *)
Definition removeReference (reference : string) (ids : list string) (resource : option O) : M (option error) :=
  match resource with
  | None => mret (Some notClientObject)
  | Some object =>
    if contains ids (GetName object) then mret None
    else
      let '(fs, updated) := RemoveFinalizer (GetFinalizers object) reference in
      if negb updated then mret None
      else
        b ← call (ClientUpdate (SetFinalizers fs object));
        match b.2 with
        | Some err => mret (conflictYields err)
        | None => mret None
        end
  end.

Definition RemoveResourceReferences (reference : string) (ids : list string) : M (option error) :=
  a ← call ClientList;
  let '(resources, lerr) := a in
  match lerr with
  | Some err => mret (Some err)
  | None =>
    r ← EachListItem (fun (_ : unit) resource =>
          e ← removeReference reference ids resource; mret (tt, e)) tt resources;
    mret r.2
  end.

Definition ClearResourceReferences (reference : string) : M (option error) :=
  RemoveResourceReferences reference [].

End references.

(** ResourceReady. *)
Definition ResourceReady {O : Type} `{StatusConditionReader O} (resource : O) : option error :=
  match GetAvailableCondition resource with
  | Err _ => Some provisioners.ErrYield
  | Ok condition =>
    if bool_decide (Reason condition <> ConditionReasonProvisioned)
    then Some provisioners.ErrYield else None
  end.

(** ** Reading traces *)

(** What an update wrote and was answered. *)
Definition client_update {O : Type} (ev : event (referenceE O)) : option (O * (O * option error)) :=
  match ev with
  | Ev e x =>
    match e in referenceE _ X return X -> option (O * (O * option error)) with
    | ClientUpdate o => fun a => Some (o, a)
    | _ => fun _ => None
    end x
  end.

(** The updates of a trace, in order. *)
Definition updates {O : Type} (t : trace (referenceE O)) : list (O * (O * option error)) :=
  omap client_update t.

Fixpoint has_slash (s : string) : bool :=
  match s with
  | EmptyString => false
  | String c s' => bool_decide (c = "/"%char) || has_slash s'
  end.

Lemma has_slash_app s1 s2 : has_slash (s1 +:+ s2) = has_slash s1 || has_slash s2.
Proof. induction s1 as [|c s1 IH]; simpl; [done|]. by rewrite IH, orb_assoc. Qed.

(** The last object of that name in a list: what resourceIDMap keeps. *)
Fixpoint named {O : Type} `{Object O} (id : string) (resources : list (option O)) : option O :=
  match resources with
  | [] => None
  | None :: _ => None
  | Some o :: l =>
    match named id l with
    | Some o' => Some o'
    | None => if bool_decide (GetName o = id) then Some o else None
    end
  end.

Section facts.
Context {O : Type} `{Object O}.

Lemma elem_of_references (o : O) r :
  r ∈ GetResourceReferences o <-> r ∈ GetFinalizers o /\ r ∉ ignoredFinalizers.
Proof. unfold GetResourceReferences. by rewrite elem_of_delete_func, contains_false. Qed.

Context `{ControllerUtil} `{ApiErrors} `{MetaList}.

Lemma resourceIDMap_exec resources t (r : gmap string O * option error) :
  exec (resourceIDMap resources) t r ->
  t = [] /\
  (r.2 = None /\ (forall id, r.1 !! id = named id resources) /\ None ∉ resources \/
   r.2 = Some notClientObject /\ None ∈ resources).
Proof.
  unfold resourceIDMap.
  assert (forall m, exec (EachListItem (fun out resource =>
    match resource with
    | None => mret (out, Some notClientObject)
    | Some object => mret (<[GetName object := object]> out, None)
    end) m resources) t r ->
    t = [] /\
    (r.2 = None /\ (forall id, r.1 !! id = match named id resources with Some o => Some o | None => m !! id end)
       /\ None ∉ resources \/
     r.2 = Some notClientObject /\ None ∈ resources)) as Hgen.
  { induction resources as [|[o|] l IH]; intros m Hx.
    - rewrite EachListItem_nil in Hx. exec_inv. split; [done|]. left. split_and!; [done|done|set_solver].
    - rewrite EachListItem_cons in Hx. exec_step. exec_step. simpl in Hx.
      apply IH in Hx as [-> Hx]. split; [done|].
      destruct Hx as [(He & Hm & Hn)|(He & Hn)]; [left|right; split; [done|set_solver]].
      split_and!; [done| |set_solver]. intros id. rewrite Hm. simpl.
      destruct (named id l); [done|].
      destruct (decide (GetName o = id)) as [<-|Hne].
      + by rewrite bool_decide_true, lookup_insert_eq.
      + by rewrite bool_decide_false, lookup_insert_ne.
    - rewrite EachListItem_cons in Hx. exec_step. exec_step. simpl in Hx. exec_inv.
      split; [done|]. right. split; [done|set_solver]. }
  intros Hx. apply Hgen in Hx as [-> Hx]. split; [done|].
  destruct Hx as [(He & Hm & Hn)|Hx]; [left|by right].
  split_and!; [done| |done]. intros id. rewrite Hm. by destruct (named id resources).
Qed.

Lemma addReferences_exec ref ids : forall m t r,
  exec (addReferences ref m ids) t r ->
  (forall o a, (o, a) ∈ updates t -> ref ∈ GetFinalizers o) /\
  (r = None -> forall id, id ∈ ids -> exists o, m !! id = Some o /\
    (ref ∈ GetFinalizers o \/
     exists fs o', (SetFinalizers fs o, (o', None)) ∈ updates t /\ ref ∈ fs /\
       forall g, g ∈ GetFinalizers o -> g ∈ fs)).
Proof.
  induction ids as [|id ids IH]; intros m t r Hx; simpl in Hx.
  { exec_inv. split; [set_solver|]. intros _ id Hid. set_solver. }
  destruct (m !! id) as [o|] eqn:Hm; [|exec_inv; split; [set_solver|done]].
  pose proof (AddFinalizer_updated (GetFinalizers o) ref) as Hu.
  pose proof (AddFinalizer_elem (GetFinalizers o) ref) as He.
  destruct (AddFinalizer (GetFinalizers o) ref) as [fs updated]; simpl in *.
  destruct updated; simpl in Hx.
  - destruct Hx as ([o' [err|]] & t' & -> & Hx); simpl in Hx.
    + unfold conflictYields in Hx. destruct (IsConflict err); exec_inv; (split; [|done]); intros o1 a1 Hin;
        unfold updates in Hin; simpl in Hin; apply list_elem_of_singleton in Hin; simplify_eq;
        rewrite GetFinalizers_set; naive_solver.
    + apply IH in Hx as [Hups Hids]. split.
      * intros o1 a1. unfold updates in *. simpl.
        intros [Heq|Hin]%elem_of_cons; [simplify_eq; rewrite GetFinalizers_set; naive_solver|eauto].
      * intros Hr id' Hid'. destruct (decide (id' = id)) as [->|Hne].
        { exists o. split; [done|]. right. exists fs, o'. split_and!; [left|naive_solver|naive_solver]. }
        destruct (Hids Hr id') as (o1 & Hm1 & Hor); [set_solver|].
        rewrite lookup_insert_ne in Hm1 by done. exists o1. split; [done|].
        destruct Hor as [?|(fs1 & o2 & Hin & ?)]; [by left|right].
        exists fs1, o2. split; [by right|done].
  - apply IH in Hx as [Hups Hids]. split; [done|].
    intros Hr id' [->|Hid']%elem_of_cons; [|eauto].
    exists o. split; [done|]. left. destruct (decide (ref ∈ GetFinalizers o)); naive_solver.
Qed.

(** A generated reference is never mistaken for one of the manager's own
    finalizers: it always shows up among the references. *)
Theorem generated_reference_counts {U} `{Object U} `{Scheme U} `{RESTMapper} (user : U) (o : O) r :
  GenerateResourceReference user = Ok r -> r ∈ GetFinalizers o -> r ∈ GetResourceReferences o.
Proof.
  intros Hg Hin. apply elem_of_references. split; [done|].
  assert (has_slash r = true) as Hs.
  { unfold GenerateResourceReference in Hg. repeat case_match; simplify_eq/=;
      rewrite !has_slash_app; simpl; by rewrite !orb_true_r. }
  intros Hi. unfold ignoredFinalizers in Hi.
  repeat apply elem_of_cons in Hi as [->|Hi]; [by vm_compute in Hs|by vm_compute in Hs|].
  by apply elem_of_nil in Hi.
Qed.

(** Every behaviour of adding one reference. *)
Theorem add_reference_outcome ref t r :
  exec (AddResourceReference ref) t r ->
  exists (o : O) gerr t', t = Ev ClientGet (o, gerr) :: t' /\
  match gerr with
  | Some err => t' = [] /\ r = Some err
  | None =>
    (ref ∈ GetFinalizers o /\ t' = [] /\ r = None) \/
    (ref ∉ GetFinalizers o /\ exists fs a, t' = [Ev (ClientUpdate (SetFinalizers fs o)) a] /\
      (forall g, g ∈ fs <-> g = ref \/ g ∈ GetFinalizers o) /\
      r = match a.2 with
          | None => None
          | Some err => if IsConflict err then Some provisioners.ErrYield else Some err
          end)
  end.
Proof.
  unfold AddResourceReference. intros Hx.
  apply exec_bind in Hx as (t1 & t2 & [o gerr] & -> & Hc & Hx). apply exec_call in Hc as ->.
  exists o, gerr, t2. split; [done|]. destruct gerr as [err|]; [by exec_inv|].
  pose proof (AddFinalizer_updated (GetFinalizers o) ref) as Hu.
  pose proof (AddFinalizer_elem (GetFinalizers o) ref) as He.
  destruct (AddFinalizer (GetFinalizers o) ref) as [fs updated]; simpl in *.
  destruct updated; simpl in Hx; [right|left].
  - split; [naive_solver|]. destruct Hx as (a & t' & -> & Hx). exists fs, a.
    unfold conflictYields in Hx. destruct (a.2) as [err|]; [destruct (IsConflict err)|];
      exec_inv; split_and!; done || naive_solver.
  - exec_inv. destruct (decide (ref ∈ GetFinalizers o)); naive_solver.
Qed.

(** Adding references to a set of resources is all or error. *)
Theorem add_references_complete ref ids t :
  exec (AddResourceReferences ref ids) t None ->
  exists resources t', t = Ev ClientList (resources, None) :: t' /\
    (forall (o : O) a, (o, a) ∈ updates t' -> ref ∈ GetFinalizers o) /\
    forall id, id ∈ ids -> exists o : O, named id resources = Some o /\
      (ref ∈ GetFinalizers o \/
       exists fs o', (SetFinalizers fs o, (o', None)) ∈ updates t' /\ ref ∈ fs /\
         forall g, g ∈ GetFinalizers o -> g ∈ fs).
Proof.
  unfold AddResourceReferences. intros Hx.
  apply exec_bind in Hx as (t1 & t2 & [resources lerr] & -> & Hc & Hx). apply exec_call in Hc as ->.
  destruct lerr as [err|]; [by exec_inv|].
  apply exec_bind in Hx as (t1 & t3 & [m merr] & -> & Hm & Hx).
  apply resourceIDMap_exec in Hm as [-> Hm]. simpl in *.
  destruct Hm as [(-> & Hm & _)|[-> _]]; [|by exec_inv].
  exists resources, t3. split; [done|]. apply addReferences_exec in Hx as [Hups Hids].
  split; [done|]. intros id Hid. destruct (Hids eq_refl id Hid) as (o & Hl & Hor).
  rewrite Hm in Hl. eauto.
Qed.

Lemma removeReference_exec ref ids resource t r :
  exec (removeReference (O := O) ref ids resource) t r ->
  match resource with
  | None => t = [] /\ r <> None
  | Some o =>
    (t = [] /\ r = None /\ (GetName o ∈ ids \/ ref ∉ GetFinalizers o)) \/
    (GetName o ∉ ids /\ ref ∈ GetFinalizers o /\ exists fs a,
      t = [Ev (ClientUpdate (SetFinalizers fs o)) a] /\
      (forall g, g ∈ fs <-> g <> ref /\ g ∈ GetFinalizers o) /\ (r = None <-> a.2 = None))
  end.
Proof.
  unfold removeReference. destruct resource as [o|]; intros Hx; [|by exec_inv].
  destruct (contains ids (GetName o)) eqn:Hi.
  { apply contains_true in Hi. exec_inv. left. auto. }
  apply contains_false in Hi.
  pose proof (RemoveFinalizer_updated (GetFinalizers o) ref) as Hu.
  pose proof (RemoveFinalizer_elem (GetFinalizers o) ref) as He.
  destruct (RemoveFinalizer (GetFinalizers o) ref) as [fs updated]; simpl in *.
  destruct updated; simpl in Hx.
  - right. split_and!; [done|naive_solver|]. destruct Hx as (a & t' & -> & Hx). exists fs, a.
    unfold conflictYields in Hx. destruct (a.2) as [err|]; [destruct (IsConflict err)|];
      exec_inv; split_and!; done || naive_solver.
  - left. exec_inv. split_and!; [done|done|]. right. naive_solver.
Qed.

(** The items a removal has to deal with, and what it wrote about them. *)
Definition removed (ref : string) (ids : list string) (t : trace (referenceE O)) (o : O) : Prop :=
  GetName o ∈ ids \/ ref ∉ GetFinalizers o \/
  exists fs o', (SetFinalizers fs o, (o', None)) ∈ updates t /\
    forall g, g ∈ fs <-> g <> ref /\ g ∈ GetFinalizers o.

Lemma removeReferences_exec ref ids (resources : list (option O)) : forall t u r,
  exec (EachListItem (fun (_ : unit) resource =>
    e ← removeReference ref ids resource; mret (tt, e)) tt resources) t (u, r) ->
  (forall o a, (o, a) ∈ updates t -> exists o0, Some o0 ∈ resources /\ GetName o0 ∉ ids /\
    ref ∈ GetFinalizers o0 /\ exists fs, o = SetFinalizers fs o0 /\
    forall g, g ∈ fs <-> g <> ref /\ g ∈ GetFinalizers o0) /\
  (r = None -> forall o, Some o ∈ resources -> removed ref ids t o).
Proof.
  induction resources as [|x l IH]; intros t u r Hx.
  { rewrite EachListItem_nil in Hx. exec_inv. split; set_solver. }
  rewrite EachListItem_cons in Hx.
  apply exec_bind in Hx as (t1 & t2 & [[] e] & -> & Hr & Hx).
  apply exec_bind in Hr as (t1' & t3 & e' & -> & Hr & [-> Heq]). simplify_eq/=.
  rewrite app_nil_r. apply removeReference_exec in Hr.
  assert ((e' = None /\ exec (EachListItem (fun (_ : unit) resource =>
      e ← removeReference ref ids resource; mret (tt, e)) tt l) t2 (u, r)) \/
    (e' <> None /\ t2 = [] /\ r = e')) as Hcase by (destruct e'; [right; by exec_inv|by left]).
  clear Hx. unfold updates. rewrite omap_app. fold (updates t1'). fold (updates t2).
  assert ((forall o a, (o, a) ∈ updates t1' -> exists o0, x = Some o0 /\ GetName o0 ∉ ids /\
    ref ∈ GetFinalizers o0 /\ exists fs, o = SetFinalizers fs o0 /\
    forall g, g ∈ fs <-> g <> ref /\ g ∈ GetFinalizers o0) /\
    (e' = None -> forall o, x = Some o -> removed ref ids t1' o)) as [Hhead Hnone].
  { destruct x as [o|]; [|destruct Hr as [-> ?]; split; [set_solver|done]].
    destruct Hr as [(-> & -> & Hor)|(Hn & Hrf & fs & [o' ae] & -> & Hg & He)].
    - split; [set_solver|]. intros _ o1 [= <-]. unfold removed. naive_solver.
    - split.
      + intros o1 a1 Hin. apply list_elem_of_singleton in Hin as [= -> ->]. exists o. eauto 10.
      + intros Hr0 o1 [= <-]. right; right. exists fs, o'. split; [|done].
        apply He in Hr0. simpl in Hr0. subst ae. left. }
  assert (forall o, removed ref ids t1' o \/ removed ref ids t2 o -> removed ref ids (t1' ++ t2) o) as Hmono.
  { unfold removed, updates. intros o. setoid_rewrite omap_app. setoid_rewrite elem_of_app. naive_solver. }
  destruct Hcase as [[-> Hx]|(Hn & -> & ->)].
  - apply IH in Hx as [Hups Hall]. split.
    + intros o a [Hin|Hin]%elem_of_app; [|set_solver].
      destruct (Hhead o a Hin) as (o0 & -> & ?). exists o0. split; [left|done].
    + intros Hrn o [Heq|Hin]%elem_of_cons; apply Hmono; [left; by apply Hnone|right; by apply Hall].
  - split; [|done]. rewrite app_nil_r. intros o a Hin.
    destruct (Hhead o a Hin) as (o0 & -> & ?). exists o0. split; [left|done].
Qed.

(** Removing references spares the retained resources and misses no other. *)
Theorem remove_references_exact ref ids t r :
  exec (RemoveResourceReferences (O := O) ref ids) t r ->
  exists resources lerr t', t = Ev ClientList (resources, lerr) :: t' /\
  match lerr with
  | Some err => t' = [] /\ r = Some err
  | None =>
    (forall o a, (o, a) ∈ updates t' -> GetName o ∉ ids /\ ref ∉ GetFinalizers o) /\
    (forall o a, (o, a) ∈ updates t' -> exists o0, Some o0 ∈ resources /\ ref ∈ GetFinalizers o0 /\
      exists fs, o = SetFinalizers fs o0 /\ forall g, g ∈ fs <-> g <> ref /\ g ∈ GetFinalizers o0) /\
    (r = None -> forall o, Some o ∈ resources -> removed ref ids t' o)
  end.
Proof.
  unfold RemoveResourceReferences. intros Hx.
  apply exec_bind in Hx as (t1 & t2 & [resources lerr] & -> & Hc & Hx). apply exec_call in Hc as ->.
  exists resources, lerr, t2. split; [done|]. destruct lerr as [err|]; [by exec_inv|].
  apply exec_bind in Hx as (t1 & t3 & [u e] & -> & Hx & Hr). exec_step. simpl in *.
  rewrite app_nil_r. apply removeReferences_exec in Hx as [Hups Hall]. split_and!.
  - intros o a Hin. destruct (Hups o a Hin) as (o0 & _ & Hn & Hf & fs & -> & Hg).
    rewrite GetName_set, GetFinalizers_set. naive_solver.
  - intros o a Hin. destruct (Hups o a Hin) as (o0 & ? & ? & ? & ?). eauto.
  - done.
Qed.

End facts.

(** A resource is ready exactly when its Available condition reads
    Provisioned; any other state, or none, is a yield and never a failure. *)
Theorem resource_ready_iff {O : Type} `{StatusConditionReader O} (o : O) :
  (ResourceReady o = None <-> exists c, GetAvailableCondition o = Ok c /\ Reason c = ConditionReasonProvisioned) /\
  (forall err, ResourceReady o = Some err -> errors_is err provisioners_ErrYield = true /\ provisioners.IsTerminal err = false).
Proof.
  unfold ResourceReady. destruct (GetAvailableCondition o) as [c|e].
  - case_bool_decide; split; try naive_solver.
  - split; [|naive_solver]. split; [done|]. by intros (c & ? & _).
Qed.

(** ** Witnesses *)

Module witnesses.
Import sample.

#[local] Instance rest_mapper : RESTMapper := {|
  RESTMapping _ _ _ := Ok {| gvr_Group := "unikorn-cloud.org"; gvr_Version := "v1alpha1";
                             gvr_Resource := "networks" |};
|}.

Definition ref : string := "networks.kubernetes.unikorn-cloud.org/net-1".
Definition held : list string := [constants.Finalizer; ref].

Lemma generated_reference_counts_witness :
  GenerateResourceReference (network [] None) = Ok ref /\ ref ∈ GetFinalizers (network held None) /\
  ref ∈ GetResourceReferences (network held None).
Proof.
  assert (GenerateResourceReference (network [] None) = Ok ref) as Hg by reflexivity.
  assert (ref ∈ GetFinalizers (network held None)) as Hin by (right; left).
  split; [exact Hg|]. split; [exact Hin|].
  exact (generated_reference_counts (network [] None) (network held None) ref Hg Hin).
Defined.

(** The update of a server that has just lost a race. *)
Definition conflict_trace : trace (referenceE fake.ManagedResource) :=
  [Ev ClientGet (network [constants.Finalizer] None, None);
   Ev (ClientUpdate (network held None)) (network held None, Some (Foreign "Conflict"))].

Lemma add_reference_outcome_witness :
  exec (AddResourceReference ref) conflict_trace (Some provisioners.ErrYield) /\
  exists (o : fake.ManagedResource) gerr t', conflict_trace = Ev ClientGet (o, gerr) :: t'.
Proof.
  assert (exec (AddResourceReference ref) conflict_trace (Some provisioners.ErrYield)) as Hx by solve_exec.
  split; [exact Hx|].
  destruct (add_reference_outcome ref _ _ Hx) as (o & gerr & t' & Ht & _). eauto.
Defined.

Definition listing : list (option fake.ManagedResource) := [Some (network [constants.Finalizer] None)].

Definition add_trace : trace (referenceE fake.ManagedResource) :=
  [Ev ClientList (listing, None);
   Ev (ClientUpdate (network held None)) (network held None, None)].

(** The identifier is repeated: the second time nothing is written. *)
Lemma add_references_complete_witness :
  exec (AddResourceReferences ref ["net-1"; "net-1"]) add_trace None /\
  exists resources t', add_trace = Ev ClientList (resources, None) :: t'.
Proof.
  assert (exec (AddResourceReferences ref ["net-1"; "net-1"]) add_trace None) as Hx by solve_exec.
  split; [exact Hx|].
  destruct (add_references_complete ref _ _ Hx) as (resources & t' & Ht & _). eauto.
Defined.

Definition remove_trace : trace (referenceE fake.ManagedResource) :=
  [Ev ClientList ([Some (network held None)], None);
   Ev (ClientUpdate (network [constants.Finalizer] None)) (network [constants.Finalizer] None, None)].

Lemma remove_references_exact_witness :
  exec (RemoveResourceReferences ref ["net-2"]) remove_trace None /\
  exists resources lerr t', remove_trace = Ev ClientList (resources, lerr) :: t'.
Proof.
  assert (exec (RemoveResourceReferences ref ["net-2"]) remove_trace None) as Hx by solve_exec.
  split; [exact Hx|].
  destruct (remove_references_exact ref _ _ _ Hx) as (resources & lerr & t' & Ht & _). eauto.
Defined.

Lemma resource_ready_iff_witness :
  ResourceReady (network [] None) = Some provisioners.ErrYield /\
  provisioners.IsTerminal provisioners.ErrYield = false.
Proof.
  assert (ResourceReady (network [] None) = Some provisioners.ErrYield) as Hr by reflexivity.
  split; [exact Hr|]. exact (proj2 (proj2 (resource_ready_iff _) _ Hr)).
Defined.

End witnesses.
