(* ===== verification/Manager.v ===== *)
(** * Manager: the generic reconciler

    Models pkg/manager/reconcile.go.  The object under reconciliation is a Go
    pointer that the API client, the provisioner and the reconciler all write
    to; each call that may write to it therefore takes the object's content
    and answers with the content it leaves behind, next to the error. *)

From S2P Require Import Prelude Errors Effects Kubernetes Conditions Provisioning ProvisioningLog References.

(** The calls a reconcile makes, for a resource of type [O]:
    - [GetObject]: GetClient().Get of the requested object;
    - [UpdateObject], [UpdateStatus]: GetClient().Update, .Status().Update;
    - [Provision], [Deprovision]: the root provisioner, run on the object;
    - [EmitLog]: the provisioning log. *)
Inductive managerE (O : Type) : Type -> Type :=
| GetObject : managerE O (O * option error)
| UpdateObject (o : O) : managerE O (O * option error)
| UpdateStatus (o : O) : managerE O (O * option error)
| Provision (o : O) : managerE O (O * option error)
| Deprovision (o : O) : managerE O (O * option error)
| EmitLog (entry : provisioninglog.Entry) : managerE O unit.

Arguments GetObject {O}.
Arguments UpdateObject {O} o.
Arguments UpdateStatus {O} o.
Arguments Provision {O} o.
Arguments Deprovision {O} o.
Arguments EmitLog {O} entry.

(** reconcile.Result; a zero RequeueAfter asks for no requeue. *)
Record Result := { RequeueAfter : Z }.

Definition done_result : Result := {| RequeueAfter := 0 |}.
Definition yield_result : Result := {| RequeueAfter := constants.DefaultYieldTimeout |}.

Definition DriverKindArgoCD : string := "argocd".

(** The condition tuple a reconcile surfaces. *)
Record Surface := {
  surface_status : string;
  surface_reason : ProvisioningConditionReason;
  surface_message : string;
}.

(** Phase 1 of handleReconcileCondition; [None] is "leave it as it is". *)
Definition lifecycleCondition (err : option error) (deprovision : bool) : option Surface :=
  match err with
  | None =>
    Some (if deprovision
          then {| surface_status := ConditionTrue; surface_reason := ConditionReasonDeprovisioned;
                  surface_message := "deprovisioned" |}
          else {| surface_status := ConditionTrue; surface_reason := ConditionReasonProvisioned;
                  surface_message := "provisioned" |})
  | Some e =>
    if errors_is e provisioners_ErrYield then
      Some (if deprovision
            then {| surface_status := ConditionFalse; surface_reason := ConditionReasonDeprovisioning;
                    surface_message := "deprovisioning" |}
            else {| surface_status := ConditionFalse; surface_reason := ConditionReasonProvisioning;
                    surface_message := "provisioning" |})
    else if errors_is e context_Canceled then None
    else Some {| surface_status := ConditionFalse; surface_reason := ConditionReasonErrored;
                 surface_message := "an unexpected error occurred" |}
  end.

(** Phase 2: a typed error's reason and message replace the defaults. *)
Definition enrichCondition (err : option error) (s : Surface) : Surface :=
  match err ≫= errors_as_provisioning with
  | Some perr =>
    {| surface_status := surface_status s;
       surface_reason := provisioners.Reason perr;
       surface_message := provisioners.Message perr |}
  | None => s
  end.

Section reconciler.
Context {O : Type} `{ManagableResource O} `{Scheme O} `{ControllerUtil} `{ApiErrors}.

Abbreviation M := (prog (managerE O)).

(** Did the surfaced provisioning state change? *)
Definition conditionChanged (prior : result TypedCondition) (s : Surface) : bool :=
  match prior with
  | Err _ => true
  | Ok p =>
    negb (bool_decide (Status p = surface_status s)) ||
    negb (bool_decide (Reason p = surface_reason s)) ||
    negb (bool_decide (Message p = surface_message s))
  end.

(** handleReconcileCondition; answers the object's content and the error. *)
Definition handleReconcileCondition (now : Z) (object : O) (err : option error) (deprovision : bool) : M (O * option error) :=
  let prior := GetAvailableCondition object in
  match lifecycleCondition err deprovision with
  | None => mret (object, None)
  | Some s0 =>
    let s := enrichCondition err s0 in
    let changed := conditionChanged prior s in
    let object := SetProvisioningCondition now (surface_status s) (surface_reason s) (surface_message s) object in
    a ← call (UpdateStatus object);
    let '(object, uerr) := a in
    match uerr with
    | Some e => mret (object, Some e)
    | None =>
      if changed then
        _ ← call (EmitLog (provisioninglog.Emit object provisioninglog.StreamProvisioning
                             (surface_status s) (surface_reason s) (surface_message s)));
        mret (object, None)
      else mret (object, None)
    end
  end.

(** The end of reconcileDelete, once deprovisioning answered [perr]. *)
Definition finishDelete (object : O) (perr : option error) : M (Result * option error) :=
  match perr with
  | Some e =>
    if negb (errors_is e provisioners_ErrYield)
    then mret (done_result, Some e)
    else mret (yield_result, None)
  | None =>
    let '(fs, ok) := RemoveFinalizer (GetFinalizers object) constants.Finalizer in
    let object := SetFinalizers fs object in
    if ok then
      a ← call (UpdateObject object);
      match a.2 with
      | Some _ => mret (yield_result, None)
      | None => mret (done_result, None)
      end
    else mret (done_result, None)
  end.

Definition reconcileDelete (now : Z) (object : O) : M (Result * option error) :=
  let references := GetResourceReferences object in
  a ← (if bool_decide (0 < length references) then mret (object, Some provisioners.ErrYield)
       else if ContainsFinalizer (GetFinalizers object) metav1.FinalizerDeleteDependents
       then mret (object, Some provisioners.ErrYield)
       else call (Deprovision object));
  let '(object, perr) := a in
  b ← handleReconcileCondition now object perr true;
  let '(object, herr) := b in
  match herr with
  | Some _ => mret (yield_result, None)
  | None => finishDelete object perr
  end.

(** The end of reconcileNormal, once provisioning answered [perr]. *)
Definition finishNormal (perr : option error) : Result * option error :=
  match perr with
  | Some e => if provisioners.IsTerminal e then (done_result, None) else (yield_result, None)
  | None => (done_result, None)
  end.

Definition reconcileNormal (now : Z) (object : O) : M (Result * option error) :=
  let '(fs, ok) := AddFinalizer (GetFinalizers object) constants.Finalizer in
  let object := SetFinalizers fs object in
  a ← (if ok then call (UpdateObject object) else mret (object, None));
  let '(object, uerr) := a in
  match uerr with
  | Some e => mret (done_result, Some e)
  | None =>
    b ← call (Provision object);
    let '(object, perr) := b in
    c ← handleReconcileCondition now object perr false;
    match c.2 with
    | Some _ => mret (yield_result, None)
    | None => mret (finishNormal perr)
    end
  end.

Definition getDriver (kind : string) : option error :=
  if bool_decide (kind <> DriverKindArgoCD) then Some (Sentinel ErrCDDriver) else None.

(** Reconcile, for the driver kind of the options. *)
Definition Reconcile (kind : string) (now : Z) : M (Result * option error) :=
  match getDriver kind with
  | Some err => mret (done_result, Some err)
  | None =>
    a ← call GetObject;
    let '(object, gerr) := a in
    match gerr with
    | Some err => if IsNotFound err then mret (done_result, None) else mret (done_result, Some err)
    | None =>
      match GetDeletionTimestamp object with
      | Some _ =>
        if bool_decide (length (GetFinalizers object) = 0) then mret (done_result, None)
        else reconcileDelete now object
      | None =>
        if Paused object then mret (done_result, None)
        else reconcileNormal now object
      end
    end
  end.

End reconciler.

(** ** Reading traces *)

Section events.
Context {O : Type}.

Definition is_provision (ev : event (managerE O)) : bool :=
  match ev with Ev e _ => match e with Provision _ => true | _ => false end end.

Definition is_deprovision (ev : event (managerE O)) : bool :=
  match ev with Ev e _ => match e with Deprovision _ => true | _ => false end end.

Definition is_update (ev : event (managerE O)) : bool :=
  match ev with Ev e _ => match e with UpdateObject _ => true | _ => false end end.

Definition is_log (ev : event (managerE O)) : bool :=
  match ev with Ev e _ => match e with EmitLog _ => true | _ => false end end.

(** The object an update, or a status update, writes. *)
Definition written_object (ev : event (managerE O)) : option O :=
  match ev with Ev e _ => match e with UpdateObject o => Some o | _ => None end end.

Definition written_status (ev : event (managerE O)) : option O :=
  match ev with Ev e _ => match e with UpdateStatus o => Some o | _ => None end end.

(** A status update that was refused. *)
Definition is_refused_status (ev : event (managerE O)) : bool :=
  match ev with
  | Ev e x =>
    match e in managerE _ X return X -> bool with
    | UpdateStatus _ => fun a => bool_decide (a.2 <> None)
    | _ => fun _ => false
    end x
  end.

(** What a run of the deprovisioner answered. *)
Definition deprovision_answer (ev : event (managerE O)) : option (O * option error) :=
  match ev with
  | Ev e x =>
    match e in managerE _ X return X -> option (O * option error) with
    | Deprovision _ => Some
    | _ => fun _ => None
    end x
  end.

Definition status_failed (t : trace (managerE O)) : bool := existsb is_refused_status t.

End events.

Section facts.
Context {O : Type} `{ManagableResource O} `{Scheme O} `{ControllerUtil} `{ApiErrors}.
Implicit Types (o : O) (t : trace (managerE O)).

(** The object whose Available condition is the tuple [s]. *)
Abbreviation surfaced now s o :=
  (SetProvisioningCondition now (surface_status s) (surface_reason s) (surface_message s) o).

(** The log event of a transition to [s]. *)
Abbreviation logged s o :=
  (Ev (EmitLog (provisioninglog.Emit o provisioninglog.StreamProvisioning
                 (surface_status s) (surface_reason s) (surface_message s))) tt).

(** Everything handleReconcileCondition can do. *)
Lemma handle_exec now o err d t r :
  exec (handleReconcileCondition now o err d) t r ->
  (lifecycleCondition err d = None /\ t = [] /\ r = (o, None)) \/
  exists s0 o' uerr, lifecycleCondition err d = Some s0 /\
    let s := enrichCondition err s0 in
    r = (o', uerr) /\
    t = Ev (UpdateStatus (surfaced now s o)) (o', uerr) ::
        match uerr with
        | Some _ => []
        | None => if conditionChanged (GetAvailableCondition o) s then [logged s o'] else []
        end.
Proof.
  unfold handleReconcileCondition. intros Hx.
  destruct (lifecycleCondition err d) as [s0|] eqn:Hl; [right|left; by exec_inv].
  exists s0. exec_step. exec_step. destruct x1 as [o' uerr]. exists o', uerr.
  split_and!; try done; exec_inv; try done. by destruct x1.
Qed.

Lemma handle_no_provision now o err d t r :
  exec (handleReconcileCondition now o err d) t r ->
  calls is_provision t = [] /\ calls is_deprovision t = [] /\ calls is_update t = [].
Proof.
  intros [(_ & -> & _)|(s0 & o' & uerr & _ & _ & ->)]%handle_exec; [done|].
  destruct uerr; [done|]. by destruct (conditionChanged _ _).
Qed.

(** The error answered is the status update's, and only its. *)
Lemma handle_error now o err d t o' r :
  exec (handleReconcileCondition now o err d) t (o', r) ->
  status_failed t = bool_decide (r <> None).
Proof.
  intros [(_ & -> & ?)|(s0 & o1 & uerr & _ & Hr & ->)]%handle_exec; simplify_eq/=; [done|].
  destruct uerr as [e|]; simpl; [done|]. by destruct (conditionChanged _ _).
Qed.

Lemma status_failed_app t1 t2 : status_failed (t1 ++ t2) = status_failed t1 || status_failed t2.
Proof. apply existsb_app. Qed.

(** What a reconcile that provisions does: at most one finalizer update, one
    run of the provisioner, then the condition. *)
Lemma normal_exec now o t res :
  exec (reconcileNormal now o) t res ->
  (exists o1 o2 err, constants.Finalizer ∈ GetFinalizers o1 /\
    t = [Ev (UpdateObject o1) (o2, Some err)] /\ res = (done_result, Some err)) \/
  (exists t1 o1 o2 perr t2 o3 herr,
    t = t1 ++ Ev (Provision o1) (o2, perr) :: t2 /\
    (t1 = [] /\ o1 = o /\ constants.Finalizer ∈ GetFinalizers o \/
     exists o0, t1 = [Ev (UpdateObject o0) (o1, None)] /\ constants.Finalizer ∈ GetFinalizers o0) /\
    exec (handleReconcileCondition now o2 perr false) t2 (o3, herr) /\
    res = match herr with Some _ => (yield_result, None) | None => finishNormal perr end).
Proof.
  unfold reconcileNormal. intros Hx.
  pose proof (AddFinalizer_updated (GetFinalizers o) constants.Finalizer) as Hu.
  pose proof (AddFinalizer_same (GetFinalizers o) constants.Finalizer) as Hs.
  pose proof (AddFinalizer_elem (GetFinalizers o) constants.Finalizer constants.Finalizer) as He.
  destruct (AddFinalizer (GetFinalizers o) constants.Finalizer) as [fs ok]; simpl in *.
  destruct ok; exec_inv;
    [left; eexists _, _, _; split_and!; [|done|done]; rewrite GetFinalizers_set; naive_solver|..];
    right; rewrite ?app_nil_r;
    match goal with Hx : exec _ _ ?r |- _ => destruct r as [o' herr] end; simplify_eq/=.
  1,2: eexists [_], _, _, _, _, _, _; split_and!; [done| |done|done]; right; eexists;
    split; [done|]; rewrite GetFinalizers_set; naive_solver.
  all: rewrite (Hs eq_refl), SetFinalizers_get; eexists [], _, _, _, _, _, _; split_and!; [done| |done|done];
    left; split_and!; [done|done|]; destruct (decide (constants.Finalizer ∈ GetFinalizers o)); naive_solver.
Qed.

(** What a deletion does: the provisioner runs only on an unreferenced object
    whose dependents are gone; otherwise the outcome is a yield. *)
Lemma delete_exec now o t res :
  exec (reconcileDelete now o) t res ->
  exists t1 o1 perr t2 o2 herr t3,
    t = t1 ++ t2 ++ t3 /\
    ((GetResourceReferences o <> [] \/ metav1.FinalizerDeleteDependents ∈ GetFinalizers o) /\
      t1 = [] /\ o1 = o /\ perr = Some provisioners.ErrYield \/
     GetResourceReferences o = [] /\ metav1.FinalizerDeleteDependents ∉ GetFinalizers o /\
      t1 = [Ev (Deprovision o) (o1, perr)]) /\
    exec (handleReconcileCondition now o1 perr true) t2 (o2, herr) /\
    match herr with
    | Some _ => t3 = [] /\ res = (yield_result, None)
    | None => exec (finishDelete o2 perr) t3 res
    end.
Proof.
  unfold reconcileDelete. intros Hx.
  apply exec_bind in Hx as (t1 & t' & [o1 perr] & -> & Hd & Hx).
  apply exec_bind in Hx as (t2 & t3 & [o2 herr] & -> & Hh & Hx).
  exists t1, o1, perr, t2, o2, herr, t3. split_and!; [done| |done|by destruct herr]. clear Hh Hx.
  pose proof (ContainsFinalizer_spec (GetFinalizers o) metav1.FinalizerDeleteDependents) as Hc.
  case_bool_decide as Hr.
  - left. exec_inv. split_and!; try done. left. by intros Hn; rewrite Hn in Hr; inversion Hr.
  - apply not_gt, Nat.le_0_r, length_zero_iff_nil in Hr.
    destruct (ContainsFinalizer _ _); [left|right]; exec_inv; naive_solver.
Qed.

Lemma finishDelete_exec o perr t res :
  exec (finishDelete o perr) t res ->
  match perr with
  | Some e =>
    t = [] /\ res = if errors_is e provisioners_ErrYield then (yield_result, None) else (done_result, Some e)
  | None =>
    let o' := SetFinalizers (RemoveFinalizer (GetFinalizers o) constants.Finalizer).1 o in
    (constants.Finalizer ∉ GetFinalizers o /\ t = [] /\ res = (done_result, None)) \/
    (constants.Finalizer ∈ GetFinalizers o /\ exists o2 uerr,
      t = [Ev (UpdateObject o') (o2, uerr)] /\
      res = match uerr with Some _ => (yield_result, None) | None => (done_result, None) end)
  end.
Proof.
  unfold finishDelete. intros Hx. destruct perr as [e|].
  { destruct (errors_is e provisioners_ErrYield); exec_inv; done. }
  pose proof (RemoveFinalizer_updated (GetFinalizers o) constants.Finalizer) as Hu.
  destruct (RemoveFinalizer _ _) as [fs ok]; simpl in *.
  destruct ok; [right|left]; exec_inv; (split; [naive_solver|]);
    try done; match goal with x : _ * _ |- _ => destruct x end; simplify_eq/=; eauto.
Qed.

(** C16 Provisioning is never driven by error back-off. *)
Theorem normal_requeue_policy now o t r e :
  exec (reconcileNormal now o) t (r, e) ->
  (calls is_provision t = [] /\ r = done_result /\ e <> None) \/
  (exists o1 o2 perr,
    calls is_provision t = [Ev (Provision o1) (o2, perr)] /\ e = None /\
    ((r = done_result /\ status_failed t = false /\
       forall err, perr = Some err -> provisioners.IsTerminal err = true) \/
     (r = yield_result /\
       (status_failed t = true \/ exists err, perr = Some err /\ provisioners.IsTerminal err = false)))).
Proof.
  intros [(o1 & o2 & err & _ & -> & Hr)|(t1 & o1 & o2 & perr & t2 & o3 & herr & -> & Ht1 & Hh & Hr)]%normal_exec;
    simplify_eq/=; [by left|right].
  exists o1, o2, perr. destruct (handle_no_provision _ _ _ _ _ _ Hh) as (Hp & _ & _).
  rewrite status_failed_app. cbn [status_failed existsb is_refused_status orb].
  fold (status_failed t2). rewrite (handle_error _ _ _ _ _ _ _ Hh).
  assert (calls is_provision t1 = [] /\ status_failed t1 = false) as [Hc1 Hs1]
    by (destruct Ht1 as [(-> & _)|(o0 & -> & _)]; done).
  autorewrite with go. rewrite Hp, Hc1, Hs1. split; [done|].
  destruct herr as [he|]; simplify_eq/=; [eauto|].
  destruct perr as [err|]; simplify_eq/=; [|naive_solver].
  destruct (provisioners.IsTerminal err) eqn:Ht; simplify_eq/=; naive_solver.
Qed.

(** C14 The finalizer is persisted before anything is provisioned. *)
Theorem provision_after_finalizer now o t res :
  exec (reconcileNormal now o) t res ->
  calls is_provision t = [] \/
  exists t1 o1 a t2, t = t1 ++ Ev (Provision o1) a :: t2 /\
    calls is_provision t1 = [] /\ calls is_provision t2 = [] /\
    (t1 = [] /\ o1 = o /\ constants.Finalizer ∈ GetFinalizers o \/
     exists o0, t1 = [Ev (UpdateObject o0) (o1, None)] /\ constants.Finalizer ∈ GetFinalizers o0).
Proof.
  intros [(o1 & o2 & err & _ & -> & Hr)|(t1 & o1 & o2 & perr & t2 & o3 & herr & -> & Ht1 & Hh & Hr)]%normal_exec;
    [by left|right].
  destruct (handle_no_provision _ _ _ _ _ _ Hh) as (Hp & _ & _).
  exists t1, o1, (o2, perr), t2. split_and!; try done.
  destruct Ht1 as [(-> & _)|(o0 & -> & _)]; done.
Qed.

(** C6 A referenced resource is not deprovisioned. *)
Theorem deprovision_gated now o t res :
  exec (reconcileDelete now o) t res ->
  GetResourceReferences o <> [] \/ metav1.FinalizerDeleteDependents ∈ GetFinalizers o ->
  calls is_deprovision t = [] /\ calls is_update t = [] /\ res = (yield_result, None).
Proof.
  intros (t1 & o1 & perr & t2 & o2 & herr & t3 & -> & Hg & Hh & Hf)%delete_exec Hr.
  destruct Hg as [(_ & -> & -> & ->)|(? & ? & _)]; [|naive_solver].
  destruct (handle_no_provision _ _ _ _ _ _ Hh) as (_ & Hd & Hu).
  assert (t3 = [] /\ res = (yield_result, None)) as [-> ->].
  { destruct herr; [done|]. by apply finishDelete_exec in Hf. }
  autorewrite with go. rewrite Hd, Hu. done.
Qed.

(** C5 The finalizer is released only once deprovisioning is over. *)
Theorem finalizer_release_safe now o t res :
  exec (reconcileDelete now o) t res -> calls is_update t <> [] ->
  exists o1 t2 o2 o3 a,
    t = Ev (Deprovision o) (o1, None) :: t2 ++ [Ev (UpdateObject o3) a] /\
    exec (handleReconcileCondition now o1 None true) t2 (o2, None) /\
    status_failed t = false /\ calls is_update t2 = [] /\
    constants.Finalizer ∉ GetFinalizers o3 /\
    (forall f, f <> constants.Finalizer -> f ∈ GetFinalizers o3 <-> f ∈ GetFinalizers o2) /\
    (res = (done_result, None) <-> a.2 = None).
Proof.
  intros (t1 & o1 & perr & t2 & o2 & herr & t3 & -> & Hg & Hh & Hf)%delete_exec Hc.
  destruct (handle_no_provision _ _ _ _ _ _ Hh) as (_ & Hd & Hu).
  assert (calls is_update t1 = []) as Hu1 by (destruct Hg as [(_ & -> & _)|(_ & _ & ->)]; done).
  rewrite !calls_app, Hu1, Hu in Hc.
  destruct herr as [he|]; [by destruct Hf as [-> _]|].
  apply finishDelete_exec in Hf. destruct perr as [e|]; [by destruct Hf as [-> _]|].
  destruct Hf as [(_ & -> & _)|(Hin & o4 & uerr & -> & ->)]; [done|].
  destruct Hg as [(_ & _ & _ & ?)|(_ & _ & ->)]; [done|].
  do 5 eexists. split_and!; [done|exact Hh| |done| | |].
  - rewrite !status_failed_app, (handle_error _ _ _ _ _ _ _ Hh). done.
  - rewrite GetFinalizers_set, RemoveFinalizer_elem. naive_solver.
  - intros f Hne. rewrite GetFinalizers_set, RemoveFinalizer_elem. naive_solver.
  - destruct uerr; simpl; naive_solver.
Qed.

(** Deletion is reported complete only when it is. *)
Theorem deletion_complete now o t :
  exec (reconcileDelete now o) t (done_result, None) ->
  GetResourceReferences o = [] /\ metav1.FinalizerDeleteDependents ∉ GetFinalizers o /\
  status_failed t = false /\
  exists o1 t2 o2 t3, t = Ev (Deprovision o) (o1, None) :: t2 ++ t3 /\
    exec (handleReconcileCondition now o1 None true) t2 (o2, None) /\
    (t3 = [] /\ constants.Finalizer ∉ GetFinalizers o2 \/
     exists o3 o4, t3 = [Ev (UpdateObject o3) (o4, None)] /\ constants.Finalizer ∉ GetFinalizers o3).
Proof.
  intros (t1 & o1 & perr & t2 & o2 & herr & t3 & -> & Hg & Hh & Hf)%delete_exec.
  destruct herr as [he|]; [by destruct Hf|].
  apply finishDelete_exec in Hf.
  destruct perr as [e|]; [by destruct Hf as [_ Hf]; destruct (errors_is e _)|].
  destruct Hg as [(_ & _ & _ & ?)|(Hr & Hd & ->)]; [done|].
  rewrite !status_failed_app, (handle_error _ _ _ _ _ _ _ Hh).
  split_and!; [done|done| |].
  - destruct Hf as [(_ & -> & _)|(_ & o4 & uerr & -> & _)]; done.
  - exists o1, t2, o2, t3. split_and!; [done|done|].
    destruct Hf as [(Hn & -> & _)|(_ & o4 & uerr & -> & Heq)]; [auto|right].
    destruct uerr; [done|]. do 2 eexists. split; [done|].
    rewrite GetFinalizers_set, RemoveFinalizer_elem. naive_solver.
Qed.

(** What a user can see of an error: nothing but its disposition and, for a
    typed error, its reason and user-safe message. *)
Theorem condition_hides_detail now o e1 e2 d :
  errors_is e1 provisioners_ErrYield = errors_is e2 provisioners_ErrYield ->
  errors_is e1 context_Canceled = errors_is e2 context_Canceled ->
  (r ← errors_as_provisioning e1; Some (provisioners.Reason r, provisioners.Message r)) =
  (r ← errors_as_provisioning e2; Some (provisioners.Reason r, provisioners.Message r)) ->
  handleReconcileCondition now o (Some e1) d = handleReconcileCondition now o (Some e2) d.
Proof.
  intros Hy Hc Ha.
  assert (lifecycleCondition (Some e1) d = lifecycleCondition (Some e2) d) as Hl
    by (simpl; by rewrite Hy, Hc).
  assert (forall s, enrichCondition (Some e1) s = enrichCondition (Some e2) s) as He.
  { intros s. unfold enrichCondition. simpl.
    destruct (errors_as_provisioning e1) as [p1|], (errors_as_provisioning e2) as [p2|];
      simplify_eq/=; congruence. }
  unfold handleReconcileCondition. rewrite Hl.
  destruct (lifecycleCondition (Some e2) d); [|done]. by rewrite He.
Qed.

(** The messages that can reach a condition. *)
Theorem condition_message_vocabulary err d s0 :
  lifecycleCondition err d = Some s0 ->
  match err ≫= errors_as_provisioning with
  | Some p => surface_message (enrichCondition err s0) = provisioners.Message p /\
              surface_reason (enrichCondition err s0) = provisioners.Reason p
  | None =>
    (surface_reason (enrichCondition err s0), surface_message (enrichCondition err s0)) ∈
      [(ConditionReasonProvisioned, "provisioned"); (ConditionReasonDeprovisioned, "deprovisioned");
       (ConditionReasonProvisioning, "provisioning"); (ConditionReasonDeprovisioning, "deprovisioning");
       (ConditionReasonErrored, "an unexpected error occurred")]
  end /\
  (surface_status (enrichCondition err s0) = ConditionTrue <-> err = None).
Proof.
  intros Hl. unfold enrichCondition.
  assert (surface_status s0 = ConditionTrue <-> err = None) as Hs.
  { unfold lifecycleCondition in Hl. repeat case_match; simplify_eq/=; naive_solver. }
  destruct (err ≫= errors_as_provisioning) as [p|]; simpl; split; try done.
  unfold lifecycleCondition in Hl. repeat case_match; simplify_eq/=; set_solver.
Qed.

(** The provisioning log is edge-triggered. *)
Lemma handle_logs now o err d t o' r :
  exec (handleReconcileCondition now o err d) t (o', r) ->
  calls is_log t <> [] <->
  r = None /\ exists s0, lifecycleCondition err d = Some s0 /\
    conditionChanged (GetAvailableCondition o) (enrichCondition err s0) = true.
Proof.
  intros [(Hl & -> & ?)|(s0 & o1 & uerr & Hl & Hr & ->)]%handle_exec; simplify_eq/=.
  { split; [done|]. intros (_ & s0 & ? & _). congruence. }
  rewrite calls_cons, Hl. destruct uerr as [e|]; simpl; [split; [done|by intros [? _]]|].
  destruct (conditionChanged _ _) eqn:Hc; simpl.
  - split; [eauto|done].
  - split; [done|]. intros (_ & s1 & ? & ?). simplify_eq. congruence.
Qed.

(** Polling an object whose outcome does not change logs nothing. *)
Theorem log_quiet_on_poll now now' o err d t o' t' r' :
  exec (handleReconcileCondition now o err d) t (o', None) ->
  (forall s0, lifecycleCondition err d = Some s0 ->
    StatusConditionRead o' ConditionAvailable =
    StatusConditionRead (surfaced now (enrichCondition err s0) o) ConditionAvailable) ->
  exec (handleReconcileCondition now' o' err d) t' r' ->
  calls is_log t' = [].
Proof.
  intros Hx Hread Hx'. destruct r' as [o2 r'].
  destruct (decide (calls is_log t' = [])) as [|Hn]; [done|exfalso].
  apply (handle_logs _ _ _ _ _ _ _ Hx') in Hn as (_ & s0 & Hl & Hc).
  specialize (Hread s0 Hl). unfold GetAvailableCondition, GetTypedCondition in Hc.
  destruct (SetProvisioningCondition_read now (surface_status (enrichCondition err s0))
    (surface_reason (enrichCondition err s0)) (surface_message (enrichCondition err s0)) o)
    as (c & Hc' & Hst & Hre & Hme).
  rewrite Hread, Hc' in Hc. simpl in Hc.
  rewrite Hst, Hre, Hme, !bool_decide_true in Hc; done.
Qed.

(** A terminal error while deprovisioning is retried with back-off. *)
Theorem delete_terminal_retried now o o1 e t' res :
  exec (reconcileDelete now o) (Ev (Deprovision o) (o1, Some e) :: t') res ->
  errors_is e provisioners_ErrYield = false -> status_failed t' = false ->
  res = (done_result, Some e).
Proof.
  intros (t1 & o2 & perr & t2 & o3 & herr & t3 & Ht & Hg & Hh & Hf)%delete_exec Hy Hs.
  destruct Hg as [(_ & -> & -> & ->)|(_ & _ & ->)].
  { destruct (handle_no_provision _ _ _ _ _ _ Hh) as (_ & Hd & _).
    assert (t3 = []) as ->.
    { destruct herr; [by destruct Hf|]. by apply finishDelete_exec in Hf as [? _]. }
    simpl in Ht. rewrite app_nil_r in Ht. rewrite <-Ht in Hd. done. }
  simpl in Ht. apply (f_equal (fun l => (hd_error l ≫= deprovision_answer, tl l))) in Ht.
  simplify_eq/=. rewrite status_failed_app, (handle_error _ _ _ _ _ _ _ Hh) in Hs.
  destruct herr; [done|]. rewrite Hy in Hf. by exec_inv.
Qed.

(** The dispatch of the top-level reconcile. *)
Theorem reconcile_dispatch kind now t res :
  exec (Reconcile kind now) t res ->
  (kind <> DriverKindArgoCD /\ t = [] /\ res = (done_result, Some (Sentinel ErrCDDriver))) \/
  kind = DriverKindArgoCD /\ exists o gerr t', t = Ev GetObject (o, gerr) :: t' /\
  match gerr with
  | Some err => t' = [] /\ res = (done_result, if IsNotFound err then None else Some err)
  | None =>
    (exec (reconcileDelete now o) t' res /\ GetDeletionTimestamp o <> None /\ GetFinalizers o <> []) \/
    (exec (reconcileNormal now o) t' res /\ GetDeletionTimestamp o = None /\ Paused o = false) \/
    (t' = [] /\ res = (done_result, None) /\
      (GetDeletionTimestamp o <> None /\ GetFinalizers o = [] \/
       GetDeletionTimestamp o = None /\ Paused o = true))
  end.
Proof.
  unfold Reconcile, getDriver. case_bool_decide as Hk; intros Hx; [left|right]; [by exec_inv|].
  split; [destruct (decide (kind = DriverKindArgoCD)); [done|by destruct Hk]|].
  apply exec_bind in Hx as (t1 & t2 & [o gerr] & -> & Hc & Hx). apply exec_call in Hc as ->.
  exists o, gerr, t2. split; [done|].
  destruct gerr as [err|]; [destruct (IsNotFound err); by exec_inv|].
  destruct (GetDeletionTimestamp o) as [ts|]; [case_bool_decide as Hl|destruct (Paused o) eqn:Hp].
  - exec_inv. right; right. apply length_zero_iff_nil in Hl. naive_solver.
  - left. split_and!; [done|done|]. intros Hn. by rewrite Hn in Hl.
  - exec_inv. naive_solver.
  - naive_solver.
Qed.

(** An event is not in a trace of other calls. *)
Ltac other_event Hin :=
  first [by apply elem_of_nil in Hin
        |by apply (f_equal written_status) in Hin
        |by apply (f_equal written_object) in Hin
        |apply list_elem_of_singleton in Hin; other_event Hin].

(** A status update surfaces the outcome it was given. *)
Lemma handle_status now o err d t res o' a :
  exec (handleReconcileCondition now o err d) t res -> Ev (UpdateStatus o') a ∈ t ->
  exists s0, lifecycleCondition err d = Some s0 /\ o' = surfaced now (enrichCondition err s0) o.
Proof.
  intros [(_ & -> & _)|(s0 & o1 & uerr & Hl & _ & ->)]%handle_exec Hin; [other_event Hin|].
  exists s0. split; [done|]. apply elem_of_cons in Hin as [Heq|Hin].
  - apply (f_equal written_status) in Heq.
    by simplify_eq/=.
  - destruct uerr; [other_event Hin|]. destruct (conditionChanged _ _); [|other_event Hin].
    other_event Hin.
Qed.

(** Only success surfaces an Available condition that is true. *)
Lemma available_success now o err d t res o' a c :
  exec (handleReconcileCondition now o err d) t res -> Ev (UpdateStatus o') a ∈ t ->
  StatusConditionRead o' ConditionAvailable = Ok c -> metav1.Status c = ConditionTrue -> err = None.
Proof.
  intros Hx Hin Hc Ht. destruct (handle_status _ _ _ _ _ _ _ _ Hx Hin) as (s0 & Hl & ->).
  destruct (SetProvisioningCondition_read now (surface_status (enrichCondition err s0))
    (surface_reason (enrichCondition err s0)) (surface_message (enrichCondition err s0)) o) as (c' & Hc' & Hst & _).
  rewrite Hc' in Hc. simplify_eq. rewrite Hst in Ht.
  destruct err as [e|]; [|done]. exfalso. unfold lifecycleCondition, enrichCondition in *.
  destruct (Some e ≫= errors_as_provisioning); simpl in Ht; repeat case_match; simplify_eq/=.
Qed.

Lemma elem_of_update o a t : Ev (UpdateObject o) a ∈ t -> Ev (UpdateObject o) a ∈ calls is_update t.
Proof. intros. by apply list_elem_of_filter. Qed.

(** The update that takes the finalizer off is the last call of a reconcile
    that found the object being deleted and deprovisioned it. *)
Lemma release_exec kind now t1 o' a t2 res :
  exec (Reconcile kind now) (t1 ++ Ev (UpdateObject o') a :: t2) res -> constants.Finalizer ∉ GetFinalizers o' ->
  t2 = [] /\ exists o o1 t3, t1 = Ev GetObject (o, None) :: Ev (Deprovision o) (o1, None) :: t3 /\
    GetDeletionTimestamp o <> None /\ GetResourceReferences o = [].
Proof.
  intros Hx Hf. apply reconcile_dispatch in Hx as [(_ & Ht & _)|(_ & o & gerr & t' & Ht & Hx)]; [by destruct t1|].
  assert (exists t1', t1 = Ev GetObject (o, gerr) :: t1' /\ t' = t1' ++ Ev (UpdateObject o') a :: t2) as (t1' & -> & ->).
  { destruct t1 as [|ev t1']; [by apply (f_equal (fun l => head l ≫= fun ev => Some (is_update ev))) in Ht|].
    simpl in Ht. injection Ht as -> <-. by exists t1'. }
  clear Ht. destruct gerr as [err|]; [by destruct Hx as [? _]; destruct t1'|].
  destruct Hx as [(Hx & Hd & _)|[(Hx & _)|(Ht & _)]]; [| |by destruct t1'].
  - apply delete_exec in Hx as (s1 & o1 & perr & s2 & o2 & herr & s3 & Ht & Hg & Hh & Hfin).
    destruct (handle_no_provision _ _ _ _ _ _ Hh) as (_ & _ & Hu).
    assert (calls is_update (s1 ++ s2) = []) as Hu1
      by (rewrite calls_app, Hu; destruct Hg as [(_ & -> & _)|(_ & _ & ->)]; done).
    assert (exists ev, s3 = [ev] /\ perr = None) as (ev & -> & ->).
    { assert (Ev (UpdateObject o') a ∈ calls is_update s3) as Hin.
      { assert (calls is_update ((s1 ++ s2) ++ s3) = calls is_update s3) as <- by (by rewrite calls_app, Hu1).
        rewrite <-app_assoc, <-Ht. apply elem_of_update. set_solver. }
      destruct herr; [destruct Hfin as [-> _]; other_event Hin|].
      apply finishDelete_exec in Hfin. destruct perr as [e|]; [destruct Hfin as [-> _]; other_event Hin|].
      destruct Hfin as [(_ & -> & _)|(_ & o4 & uerr & -> & _)]; [other_event Hin|eauto]. }
    rewrite app_assoc in Ht. apply (calls_only_last is_update) in Ht as (-> & _ & ->); [|done..].
    split; [done|]. destruct Hg as [(_ & _ & _ & ?)|(Hr & _ & ->)]; [done|]. by exists o, o1, s2.
  - exfalso. apply Hf. apply normal_exec in Hx as
      [(o1 & o2 & err & Hfin & Ht & _)|(s1 & o1 & o2 & perr & s2 & o3 & herr & Ht & Hs1 & Hh & _)].
    + apply (calls_only_last is_update _ _ []) in Ht as (_ & Ht & _); [|done..].
      apply (f_equal written_object) in Ht.
      by simplify_eq/=.
    + destruct (handle_no_provision _ _ _ _ _ _ Hh) as (_ & _ & Hu).
      assert (Ev (UpdateObject o') a ∈ calls is_update s1) as Hin.
      { assert (calls is_update (s1 ++ Ev (Provision o1) (o2, perr) :: s2) = calls is_update s1) as <-
          by (rewrite calls_app, calls_cons, Hu; by rewrite app_nil_r).
        rewrite <-Ht. apply elem_of_update. set_solver. }
      destruct Hs1 as [(-> & _)|(o0 & -> & Hfin)]; [other_event Hin|].
      apply list_elem_of_singleton in Hin.
      apply (f_equal written_object) in Hin.
      by simplify_eq/=.
Qed.

(** An Available condition that is true follows a provision, or a deprovision,
    that succeeded, and is put on the object it left. *)
Lemma available_exec kind now t res o' a c :
  exec (Reconcile kind now) t res -> Ev (UpdateStatus o') a ∈ t ->
  StatusConditionRead o' ConditionAvailable = Ok c -> metav1.Status c = ConditionTrue ->
  exists o1 o2 d s0 t1 t2, lifecycleCondition None d = Some s0 /\ o' = surfaced now s0 o2 /\
    if d
    then t = t1 ++ Ev (Deprovision o1) (o2, None) :: t2 /\ Ev (UpdateStatus o') a ∉ t1 /\ GetDeletionTimestamp o1 <> None
    else t = t1 ++ Ev (Provision o1) (o2, None) :: t2 /\ Ev (UpdateStatus o') a ∉ t1.
Proof.
  intros Hx Hin Hc Hs. apply reconcile_dispatch in Hx as [(_ & -> & _)|(_ & o & gerr & t' & -> & Hx)];
    [other_event Hin|].
  apply elem_of_cons in Hin as [Heq|Hin];
    [other_event Heq|].
  destruct gerr as [err|]; [destruct Hx as [-> _]; other_event Hin|].
  destruct Hx as [(Hx & Hd & _)|[(Hx & _)|(-> & _)]]; [| |other_event Hin].
  - apply delete_exec in Hx as (s1 & o1 & perr & s2 & o2 & herr & s3 & -> & Hg & Hh & Hfin).
    rewrite !elem_of_app in Hin.
    assert (Ev (UpdateStatus o') a ∈ s2) as Hin2.
    { destruct Hin as [Hin|[Hin|Hin]]; [|done|]; exfalso.
      - destruct Hg as [(_ & -> & _)|(_ & _ & ->)]; [other_event Hin|]. other_event Hin.
      - destruct herr; [destruct Hfin as [-> _]; other_event Hin|].
        apply finishDelete_exec in Hfin. destruct perr as [e|]; [destruct Hfin as [-> _]; other_event Hin|].
        destruct Hfin as [(_ & -> & _)|(_ & o4 & uerr & -> & _)]; [other_event Hin|].
        other_event Hin. }
    pose proof (available_success _ _ _ _ _ _ _ _ _ Hh Hin2 Hc Hs) as ->.
    destruct (handle_status _ _ _ _ _ _ _ _ Hh Hin2) as (s0 & Hl & ->).
    destruct Hg as [(_ & _ & _ & ?)|(_ & _ & ->)]; [done|].
    exists o, o1, true, s0, [Ev GetObject (o, None)], (s2 ++ s3). split_and!; [done|done|done| |done].
    intros Hn. other_event Hn.
  - apply normal_exec in Hx as
      [(o1 & o2 & err & Hfin & -> & _)|(s1 & o1 & o2 & perr & s2 & o3 & herr & -> & Hs1 & Hh & _)].
    + other_event Hin.
    + assert (Ev (UpdateStatus o') a ∈ s2) as Hin2.
      { apply elem_of_app in Hin as [Hin|[Hin|Hin]%elem_of_cons]; [| |done]; exfalso.
        - destruct Hs1 as [(-> & _)|(o0 & -> & _)]; [other_event Hin|]. other_event Hin.
        - other_event Hin. }
      pose proof (available_success _ _ _ _ _ _ _ _ _ Hh Hin2 Hc Hs) as ->.
      destruct (handle_status _ _ _ _ _ _ _ _ Hh Hin2) as (s0 & Hl & ->).
      exists o1, o2, false, s0, (Ev GetObject (o, None) :: s1), s2. split_and!; [done|done|done|].
      intros [Hn|Hn]%elem_of_cons; [other_event Hn|].
      destruct Hs1 as [(-> & _)|(o0 & -> & _)]; other_event Hn.
Qed.

End facts.

(** ** Witnesses: the theorems at concrete resources *)

Module witnesses.
Import sample.

Definition finalized : list string := [constants.Finalizer].

Definition quota_error : error :=
  provisioners.as_error (provisioners.UserActionRequired "Errored" "the flavour does not exist").

(** A first reconcile of a resource that parks on a user error. *)
Definition parked_trace : trace (managerE fake.ManagedResource) :=
  [Ev (UpdateObject (network finalized None)) (network finalized None, None);
   Ev (Provision (network finalized None)) (network finalized None, Some quota_error);
   Ev (UpdateStatus (network_with finalized None "False" "Errored" "the flavour does not exist"))
      (network_with finalized None "False" "Errored" "the flavour does not exist", None);
   Ev (EmitLog (provisioninglog.Emit (network finalized None) "provisioning" "False" "Errored"
                  "the flavour does not exist")) tt].

Lemma parked_exec : exec (reconcileNormal 7 (network [] None)) parked_trace (done_result, None).
Proof. solve_exec. Qed.

Lemma normal_requeue_policy_witness :
  exec (reconcileNormal 7 (network [] None)) parked_trace (done_result, None) /\
  status_failed parked_trace = false.
Proof.
  split; [exact parked_exec|].
  destruct (normal_requeue_policy _ _ _ _ _ parked_exec)
    as [(Hc & _ & _)|(o1 & o2 & perr & _ & _ & [(_ & Hs & _)|(Hd & _)])]; [done|exact Hs|done].
Defined.

Lemma provision_after_finalizer_witness :
  exec (reconcileNormal 7 (network [] None)) parked_trace (done_result, None) /\
  exists t1 o1 a t2, parked_trace = t1 ++ Ev (Provision o1) a :: t2 /\ calls is_provision t1 = [].
Proof.
  split; [exact parked_exec|].
  destruct (provision_after_finalizer _ _ _ _ parked_exec) as [Hc|(t1 & o1 & a & t2 & Ht & H1 & _)];
    [done|eauto 10].
Defined.

(** A deletion blocked by a reference, and one that runs to completion. *)
Definition referenced : list string := [constants.Finalizer; "clusters.unikorn-cloud.org/c-1"].

Definition blocked_trace : trace (managerE fake.ManagedResource) :=
  [Ev (UpdateStatus (network_with referenced (Some 9%Z) "False" "Deprovisioning" "deprovisioning"))
      (network_with referenced (Some 9%Z) "False" "Deprovisioning" "deprovisioning", None);
   Ev (EmitLog (provisioninglog.Emit (network referenced None) "provisioning" "False" "Deprovisioning"
                  "deprovisioning")) tt].

Lemma deprovision_gated_witness :
  exec (reconcileDelete 7 (network referenced (Some 9%Z))) blocked_trace (yield_result, None) /\
  calls is_deprovision blocked_trace = [].
Proof.
  assert (exec (reconcileDelete 7 (network referenced (Some 9%Z))) blocked_trace (yield_result, None)) as Hx
    by solve_exec.
  split; [exact Hx|]. apply (deprovision_gated _ _ _ _ Hx). left. by vm_compute.
Defined.

Definition deleted_trace : trace (managerE fake.ManagedResource) :=
  [Ev (Deprovision (network finalized (Some 9%Z))) (network finalized (Some 9%Z), None);
   Ev (UpdateStatus (network_with finalized (Some 9%Z) "True" "Deprovisioned" "deprovisioned"))
      (network_with finalized (Some 9%Z) "True" "Deprovisioned" "deprovisioned", None);
   Ev (EmitLog (provisioninglog.Emit (network finalized None) "provisioning" "True" "Deprovisioned"
                  "deprovisioned")) tt;
   Ev (UpdateObject (network_with [] (Some 9%Z) "True" "Deprovisioned" "deprovisioned"))
      (network_with [] (Some 9%Z) "True" "Deprovisioned" "deprovisioned", None)].

Lemma deleted_exec : exec (reconcileDelete 7 (network finalized (Some 9%Z))) deleted_trace (done_result, None).
Proof. solve_exec. Qed.

Lemma finalizer_release_safe_witness :
  exec (reconcileDelete 7 (network finalized (Some 9%Z))) deleted_trace (done_result, None) /\
  status_failed deleted_trace = false.
Proof.
  split; [exact deleted_exec|].
  destruct (finalizer_release_safe _ _ _ _ deleted_exec) as (o1 & t2 & o2 & o3 & a & _ & _ & Hs & _);
    [by vm_compute|exact Hs].
Defined.

Lemma deletion_complete_witness :
  exec (reconcileDelete 7 (network finalized (Some 9%Z))) deleted_trace (done_result, None) /\
  GetResourceReferences (network finalized (Some 9%Z)) = [].
Proof.
  split; [exact deleted_exec|].
  destruct (deletion_complete _ _ _ deleted_exec) as (Hr & _). exact Hr.
Defined.

(** An operator-only detail, and the same error without it. *)
Lemma condition_hides_detail_witness :
  handleReconcileCondition 7 (network finalized None) (Some (Foreign "dial tcp 10.0.0.1: refused")) false =
  handleReconcileCondition 7 (network finalized None) (Some (Sentinel ErrConsistency)) false.
Proof. apply condition_hides_detail; reflexivity. Defined.

Lemma condition_message_vocabulary_witness :
  lifecycleCondition (Some quota_error) false =
    Some {| surface_status := "False"; surface_reason := "Errored"; surface_message := "an unexpected error occurred" |} /\
  surface_message (enrichCondition (Some quota_error)
    {| surface_status := "False"; surface_reason := "Errored"; surface_message := "an unexpected error occurred" |}) =
    "the flavour does not exist".
Proof.
  split; [reflexivity|].
  destruct (condition_message_vocabulary (Some quota_error) false
    {| surface_status := "False"; surface_reason := "Errored"; surface_message := "an unexpected error occurred" |}
    eq_refl) as [[Hm _] _].
  exact Hm.
Defined.

(** The first poll of a yielding resource logs, the second one does not. *)
Definition yielding : fake.ManagedResource :=
  network_with finalized None "False" "Provisioning" "provisioning".

Definition first_poll : trace (managerE fake.ManagedResource) :=
  [Ev (UpdateStatus yielding) (yielding, None);
   Ev (EmitLog (provisioninglog.Emit yielding "provisioning" "False" "Provisioning" "provisioning")) tt].

Definition second_poll : trace (managerE fake.ManagedResource) :=
  [Ev (UpdateStatus yielding) (yielding, None)].

Lemma log_quiet_on_poll_witness :
  exec (handleReconcileCondition 8 yielding (Some provisioners.ErrYield) false) second_poll (yielding, None) /\
  calls is_log second_poll = [].
Proof.
  assert (exec (handleReconcileCondition 8 yielding (Some provisioners.ErrYield) false)
    second_poll (yielding, None)) as Hx by solve_exec.
  split; [exact Hx|].
  eapply (log_quiet_on_poll 7 8 (network finalized None) (Some provisioners.ErrYield) false first_poll yielding);
    [solve_exec| |exact Hx].
  intros s0 Hl. simpl in Hl. simplify_eq. by vm_compute.
Defined.

(** An operator-only failure while deprovisioning. *)
Definition broken_error : error := provisioners.as_error (provisioners.Terminal "Errored" "gone").

Definition broken_trace : trace (managerE fake.ManagedResource) :=
  [Ev (UpdateStatus (network_with finalized (Some 9%Z) "False" "Errored" "gone"))
      (network_with finalized (Some 9%Z) "False" "Errored" "gone", None);
   Ev (EmitLog (provisioninglog.Emit (network finalized None) "provisioning" "False" "Errored" "gone")) tt].

Lemma delete_terminal_retried_witness :
  provisioners.IsTerminal broken_error = true /\
  exists res,
    exec (reconcileDelete 7 (network finalized (Some 9%Z)))
      (Ev (Deprovision (network finalized (Some 9%Z))) (network finalized (Some 9%Z), Some broken_error) :: broken_trace)
      res /\ res = (done_result, Some broken_error).
Proof.
  split; [reflexivity|].
  assert (exec (reconcileDelete 7 (network finalized (Some 9%Z)))
      (Ev (Deprovision (network finalized (Some 9%Z))) (network finalized (Some 9%Z), Some broken_error) :: broken_trace)
      (done_result, Some broken_error)) as Hx by solve_exec.
  eexists. split; [exact Hx|]. by apply (delete_terminal_retried _ _ _ _ _ _ Hx).
Defined.

Lemma reconcile_dispatch_witness :
  exec (Reconcile DriverKindArgoCD 7) (Ev GetObject (network [] None, None) :: parked_trace) (done_result, None) /\
  DriverKindArgoCD = "argocd".
Proof.
  assert (exec (Reconcile DriverKindArgoCD 7) (Ev GetObject (network [] None, None) :: parked_trace)
    (done_result, None)) as Hx by solve_exec.
  split; [exact Hx|].
  destruct (reconcile_dispatch _ _ _ _ Hx) as [(_ & ? & _)|[Hk _]]; [done|exact Hk].
Defined.

End witnesses.
