(* ===== verification/Concurrency.v ===== *)
(** * Concurrency: programs that fork, and the interleavings of their calls

    Go code that starts goroutines and waits for them with an errgroup.Group is
    modelled by [par]: the programs of Effects with a third shape, a group of
    programs run concurrently and joined.  [pexec p t r] says that [p] may
    perform the calls of [t] in that order, where the calls of a group's members
    are interleaved in any way that keeps each member's own order.

    Answers stay unconstrained, as in Effects.  What several members share (a
    counter, a mutex) is a constraint on the answers of the interleaved trace,
    stated by the component that owns it. *)

From S2P Require Import Prelude Errors Effects.

Inductive par (E : Type -> Type) (A : Type) : Type :=
| PRet (a : A)
| PCall (X : Type) (e : E X) (k : X -> par E A)
| PGroup (ps : list (par E (option error))) (k : option error -> par E A).

Arguments PRet {E A} a.
Arguments PCall {E A X} e k.
Arguments PGroup {E A} ps k.

Definition pcall {E : Type -> Type} {X : Type} (e : E X) : par E X := PCall e PRet.

(** errgroup.Group with no limit and no context: [Go] each function, [Wait]. *)
Definition errgroup {E : Type -> Type} (ps : list (par E (option error))) : par E (option error) := PGroup ps PRet.

Fixpoint par_bind {E : Type -> Type} {A B : Type} (k : A -> par E B) (p : par E A) : par E B :=
  match p with
  | PRet a => k a
  | PCall e k' => PCall e (fun x => par_bind k (k' x))
  | PGroup ps k' => PGroup ps (fun r => par_bind k (k' r))
  end.

#[export] Instance par_mret E : MRet (par E) := fun A a => PRet a.

#[export] Instance par_mbind E : MBind (par E) := fun A B k p => par_bind k p.

(** Go's [if err := p; err != nil { return err }; k]. *)
Definition pcheck {E : Type -> Type} (p : par E (option error)) (k : par E (option error)) : par E (option error) :=
  r ← p; match r with Some err => PRet (Some err) | None => k end.

(** Go's [x, err := p; if err != nil { return err }; k x]. *)
Definition pattempt {E : Type -> Type} {A : Type} (p : par E (result A)) (k : A -> par E (option error)) : par E (option error) :=
  r ← p; match r with Err err => PRet (Some err) | Ok a => k a end.

(** The part of a tagged sequence that belongs to thread [i]. *)
Definition thread {A : Type} (i : nat) (u : list (nat * A)) : list A :=
  omap (fun '(j, x) => if decide (j = i) then Some x else None) u.

(** [u] interleaves the sequences [ts]: every entry belongs to one of them, and
    the entries of each, in order, are that sequence. *)
Definition interleaves {A : Type} (ts : list (list A)) (u : list (nat * A)) : Prop :=
  (forall i x, (i, x) ∈ u -> i < length ts) /\
  forall i t, ts !! i = Some t -> thread i u = t.

(** What Wait returns: "blocks until all function calls from the Go method have
    returned, then returns the first non-nil error (if any) from them". *)
Definition waits (rs : list (option error)) (r : option error) : Prop :=
  match r with
  | None => Forall (fun x => x = None) rs
  | Some _ => r ∈ rs
  end.

Fixpoint pexec {E : Type -> Type} {A : Type} (p : par E A) (t : trace E) (r : A) : Prop :=
  match p with
  | PRet a => t = [] /\ r = a
  | PCall e k => exists x t', t = Ev e x :: t' /\ pexec (k x) t' r
  | PGroup ps k =>
    exists ts rs u r0 t', t = u.*2 ++ t' /\
      (fix members ps (ts : list (trace E)) rs :=
        match ps, ts, rs with
        | [], [], [] => True
        | p :: ps', t :: ts', r :: rs' => pexec p t r /\ members ps' ts' rs'
        | _, _, _ => False
        end) ps ts rs /\
      interleaves ts u /\ waits rs r0 /\ pexec (k r0) t' r
  end.

(** ** Structural lemmas *)

Section interleavings.
Context {A : Type}.
Implicit Types (u : list (nat * A)) (ts : list (list A)).

Lemma thread_app i u1 u2 : thread i (u1 ++ u2) = thread i u1 ++ thread i u2.
Proof. apply omap_app. Qed.

Lemma thread_cons_eq i x u : thread i ((i, x) :: u) = x :: thread i u.
Proof. unfold thread. simpl. by rewrite decide_True. Qed.

Lemma thread_cons_ne i j x u : j <> i -> thread i ((j, x) :: u) = thread i u.
Proof. intros. unfold thread. simpl. by rewrite decide_False. Qed.

Lemma elem_of_thread i x u : x ∈ thread i u <-> (i, x) ∈ u.
Proof.
  unfold thread. rewrite list_elem_of_omap. split.
  - intros ([j y] & Hin & Hj). case_decide; by simplify_eq.
  - intros Hin. exists (i, x). split; [done|]. by rewrite decide_True.
Qed.

(** Every entry of an interleaving comes from one of the sequences. *)
Lemma interleaves_elem ts u x : interleaves ts u -> x ∈ u.*2 -> exists i t, ts !! i = Some t /\ x ∈ t.
Proof.
  intros [Hlt Hth] ([i y] & -> & Hin)%list_elem_of_fmap.
  destruct (lookup_lt_is_Some_2 ts i) as [t Ht]; [by eapply Hlt|].
  exists i, t. split; [done|]. rewrite <-(Hth i t Ht). by apply elem_of_thread.
Qed.

(** ... and every entry of each sequence is there. *)
Lemma interleaves_elem_2 ts u i t x : interleaves ts u -> ts !! i = Some t -> x ∈ t -> x ∈ u.*2.
Proof.
  intros [_ Hth] Ht Hin. rewrite <-(Hth i t Ht) in Hin. apply elem_of_thread in Hin.
  apply list_elem_of_fmap. by exists (i, x).
Qed.

Lemma thread_tag i j (t : list A) : thread i (pair j <$> t) = if decide (j = i) then t else [].
Proof.
  induction t as [|x t IH]; [by destruct (decide _)|]. rewrite fmap_cons.
  destruct (decide (j = i)) as [->|Hne]; [by rewrite thread_cons_eq, IH|by rewrite thread_cons_ne, IH].
Qed.

(** Running two members one after the other is one of the interleavings. *)
Lemma interleaves_seq2 (t0 t1 : list A) : interleaves [t0; t1] ((pair 0 <$> t0) ++ (pair 1 <$> t1)).
Proof.
  split.
  - intros i x [Hin|Hin]%elem_of_app; apply list_elem_of_fmap in Hin as (y & ? & _); simplify_eq/=; lia.
  - intros [|[|]] t Ht; simplify_eq/=; rewrite thread_app, !thread_tag; simpl; by rewrite ?app_nil_r.
Qed.

Lemma tag_untag (t0 t1 : list A) : ((pair 0 <$> t0) ++ (pair 1 <$> t1)).*2 = t0 ++ t1.
Proof.
  rewrite fmap_app, <-!list_fmap_compose. f_equal; apply list_fmap_id.
Qed.

End interleavings.

Section facts.
Context {E : Type -> Type}.

Lemma pexec_ret {A} (a : A) (t : trace E) r : pexec (PRet a) t r <-> t = [] /\ r = a.
Proof. done. Qed.

Lemma pexec_mret {A} (a : A) (t : trace E) r : pexec (mret a) t r <-> t = [] /\ r = a.
Proof. done. Qed.

Lemma pexec_pcall {X} (e : E X) (t : trace E) r : pexec (pcall e) t r <-> t = [Ev e r].
Proof.
  simpl. split.
  - intros (x & t' & -> & -> & ->). done.
  - intros ->. eauto.
Qed.

Lemma pexec_group {A} ps (k : option error -> par E A) (t : trace E) r :
  pexec (PGroup ps k) t r <->
  exists ts rs u r0 t', t = u.*2 ++ t' /\ Forall3 pexec ps ts rs /\
    interleaves ts u /\ waits rs r0 /\ pexec (k r0) t' r.
Proof.
  assert (forall ts rs, (fix members ps (ts : list (trace E)) rs :=
        match ps, ts, rs with
        | [], [], [] => True
        | p :: ps', t :: ts', r :: rs' => pexec p t r /\ members ps' ts' rs'
        | _, _, _ => False
        end) ps ts rs <-> Forall3 pexec ps ts rs) as Hm.
  { clear. induction ps as [|p ps IH]; intros [|t ts] [|r rs]; split; intros H;
      try done; try (by inversion H); try constructor; try (by apply IH || apply H).
    - by destruct H as [_ H%IH].
    - by inversion H.
    - apply IH. by inversion H. }
  simpl. by setoid_rewrite Hm.
Qed.

Lemma pexec_errgroup ps (t : trace E) r :
  pexec (errgroup ps) t r <->
  exists ts rs u, t = u.*2 /\ Forall3 pexec ps ts rs /\ interleaves ts u /\ waits rs r.
Proof.
  unfold errgroup. rewrite pexec_group. split.
  - intros (ts & rs & u & r0 & t' & -> & ? & ? & ? & -> & ->). rewrite app_nil_r. eauto 10.
  - intros (ts & rs & u & -> & ? & ? & ?). exists ts, rs, u, r, []. rewrite app_nil_r. done.
Qed.

Lemma pexec_bind {A B} (k : A -> par E B) (p : par E A) (t : trace E) r :
  pexec (mbind k p) t r <-> exists t1 t2 a, t = t1 ++ t2 /\ pexec p t1 a /\ pexec (k a) t2 r.
Proof.
  revert k t. unfold mbind, par_mbind. induction p as [A a|A X e k' IH|A ps k' IH]; intros k t.
  - split.
    + intros H. by exists [], t, a.
    + by intros (t1 & t2 & a' & -> & [-> ->] & H).
  - simpl. setoid_rewrite IH. split.
    + intros (x & t' & -> & t1 & t2 & a & -> & H1 & H2). exists (Ev e x :: t1), t2, a. eauto 10.
    + intros (t1 & t2 & a & -> & (x & t1' & -> & H1) & H2). exists x, (t1' ++ t2). eauto 10.
  - cbn [par_bind]. setoid_rewrite pexec_group. setoid_rewrite IH. split.
    + intros (ts & rs & u & r0 & t' & -> & Hf & Hi & Hw & t1 & t2 & a & -> & H1 & H2).
      exists (u.*2 ++ t1), t2, a. rewrite app_assoc. split_and!; try done. eauto 10.
    + intros (t1 & t2 & a & -> & (ts & rs & u & r0 & t' & -> & Hf & Hi & Hw & H1) & H2).
      exists ts, rs, u, r0, (t' ++ t2). rewrite app_assoc. split_and!; try done. eauto 10.
Qed.

Lemma pexec_pcheck (p k : par E (option error)) (t : trace E) r :
  pexec (pcheck p k) t r <->
  (exists err, r = Some err /\ pexec p t (Some err)) \/
  (exists t1 t2, t = t1 ++ t2 /\ pexec p t1 None /\ pexec k t2 r).
Proof.
  unfold pcheck. rewrite pexec_bind. split.
  - intros (t1 & t2 & [err|] & -> & H1 & H2).
    + destruct H2 as [-> ->]. left. rewrite app_nil_r. eauto.
    + right. eauto 10.
  - intros [(err & -> & H)|(t1 & t2 & -> & H1 & H2)].
    + exists t, [], (Some err). rewrite app_nil_r. done.
    + exists t1, t2, None. done.
Qed.

Lemma pexec_pattempt {A} (p : par E (result A)) (k : A -> par E (option error)) (t : trace E) r :
  pexec (pattempt p k) t r <->
  (exists err, r = Some err /\ pexec p t (Err err)) \/
  (exists t1 t2 a, t = t1 ++ t2 /\ pexec p t1 (Ok a) /\ pexec (k a) t2 r).
Proof.
  unfold pattempt. rewrite pexec_bind. split.
  - intros (t1 & t2 & [a|err] & -> & H1 & H2).
    + right. eauto 10.
    + destruct H2 as [-> ->]. left. rewrite app_nil_r. eauto.
  - intros [(err & -> & H)|(t1 & t2 & a & -> & H1 & H2)].
    + exists t, [], (Err err). rewrite app_nil_r. done.
    + exists t1, t2, (Ok a). done.
Qed.

End facts.

(** Take an execution of a [par] apart, as [exec_inv] does for a [prog]. *)
Ltac pexec_step :=
  match goal with
  | H : pexec (PRet _) _ _ |- _ => apply pexec_ret in H as [? ?]; subst
  | H : pexec (mret _) _ _ |- _ => apply pexec_mret in H as [? ?]; subst
  | H : pexec (pcall _) _ _ |- _ => apply pexec_pcall in H; subst
  | H : pexec (pcheck _ _) _ _ |- _ =>
    let H1 := fresh H in
    apply pexec_pcheck in H as [(? & ? & H)|(? & ? & ? & H1 & H)]; subst
  | H : pexec (pattempt _ _) _ _ |- _ =>
    let H1 := fresh H in
    apply pexec_pattempt in H as [(? & ? & H)|(? & ? & ? & ? & H1 & H)]; subst
  | H : pexec (mbind _ _) _ _ |- _ =>
    let H1 := fresh H in
    apply pexec_bind in H as (? & ? & ? & ? & H1 & H); subst
  end.

(** ** Sequential programs as concurrent ones *)

Section lift.
Context {F E : Type -> Type} `{Subeffect F E}.

(** A program over the calls [F], in a program that makes other calls too. *)
Fixpoint lift {A : Type} (p : prog F A) : par E A :=
  match p with
  | Ret a => PRet a
  | Call e k => PCall (inject e) (fun x => lift (k x))
  end.

Lemma pexec_lift {A} (p : prog F A) (t : trace E) r :
  pexec (lift p) t r <-> exists t0, t = map inject_event t0 /\ exec p t0 r.
Proof.
  revert t. induction p as [a|X e k IH]; intros t; simpl.
  - split; [intros [-> ->]; by exists []|]. by intros (t0 & -> & -> & ->).
  - split.
    + intros (x & t' & -> & (t0 & -> & Hx)%IH). exists (Ev e x :: t0). split; [done|]. by exists x, t0.
    + intros (t0 & -> & x & t' & -> & Hx). exists x, (map inject_event t'). split; [done|].
      apply IH. by exists t'.
Qed.

End lift.

Lemma inject_event_refl {E : Type -> Type} (t : trace E) : map (inject_event (F := E) (E := E)) t = t.
Proof. induction t as [|[X e x] t IH]; [done|]. cbn [map]. by rewrite IH. Qed.

(** ** Programs whose calls fork *)

(** Run a program whose calls are themselves concurrent programs. *)
Fixpoint pinterp {F E : Type -> Type} {A : Type} (h : forall X, F X -> par E X) (p : prog F A) : par E A :=
  match p with
  | Ret a => PRet a
  | Call e k => x ← h _ e; pinterp h (k x)
  end.

Lemma pexec_pinterp {F E : Type -> Type} {A} (h : forall X, F X -> par E X) (p : prog F A) (t : trace E) r :
  pexec (pinterp h p) t r <->
  exists t' ts, exec p t' r /\ t = concat ts /\
    Forall2 (fun ev ti => match ev with Ev e x => pexec (h _ e) ti x end) t' ts.
Proof.
  revert t. induction p as [a|X e k IH]; intros t; cbn [pinterp].
  - split; [intros [-> ->]; by exists [], []|].
    intros (t' & ts & [-> ->] & -> & Hf). inversion Hf. done.
  - rewrite pexec_bind. setoid_rewrite IH. split.
    + intros (t1 & t2 & x & -> & Hx & t' & ts & Hk & -> & Hf). exists (Ev e x :: t'), (t1 :: ts).
      split_and!; [simpl; eauto|done|by constructor].
    + intros (t' & ts & (x & t'' & -> & Hk) & -> & Hf). apply Forall2_cons_inv_l in Hf as (t1 & ts' & Hx & Hf & ->).
      exists t1, (concat ts'), x. eauto 10.
Qed.

(** A concurrent program over the calls [F], in one that makes other calls too. *)
Fixpoint embed {F E : Type -> Type} `{Subeffect F E} {A : Type} (p : par F A) : par E A :=
  match p with
  | PRet a => PRet a
  | PCall e k => PCall (inject e) (fun x => embed (k x))
  | PGroup ps k => PGroup (map embed ps) (fun r => embed (k r))
  end.

Definition par_induction {E : Type -> Type} (P : forall A : Type, par E A -> Prop)
    (Hret : forall (A : Type) a, P A (PRet a))
    (Hcall : forall (A X : Type) (e : E X) k, (forall x, P A (k x)) -> P A (PCall e k))
    (Hgroup : forall (A : Type) ps k, Forall (P _) ps -> (forall r, P A (k r)) -> P A (PGroup ps k)) :
    forall (A : Type) (p : par E A), P A p :=
  fix go (A : Type) (p : par E A) : P A p :=
    match p with
    | PRet a => Hret A a
    | PCall e k => Hcall A _ e k (fun x => go A (k x))
    | PGroup ps k =>
      let all := fix all l : Forall (P _) l :=
        match l with [] => Forall_nil_2 _ | q :: l' => Forall_cons_2 _ q l' (go _ q) (all l') end in
      Hgroup A ps k (all ps) (fun r => go A (k r))
    end.

Section embedding.
Context {F E : Type -> Type} `{Subeffect F E}.

Lemma thread_map {A B} (f : A -> B) i (u : list (nat * A)) :
  thread i (map (prod_map id f) u) = map f (thread i u).
Proof.
  induction u as [|[j x] u IH]; [done|]. cbn [map prod_map fst snd]. unfold id at 1.
  destruct (decide (j = i)) as [->|Hne]; [by rewrite !thread_cons_eq, IH|by rewrite !thread_cons_ne, IH].
Qed.

(** Interleavings of renamed sequences are renamed interleavings. *)
Lemma interleaves_map {A B} (f : A -> B) `{!Inj (=) (=) f} ts (u : list (nat * B)) :
  interleaves (map (map f) ts) u <-> exists u0, u = map (prod_map id f) u0 /\ interleaves ts u0.
Proof.
  split.
  - intros [Hlt Hth]. rewrite length_map in Hlt.
    assert (Forall (fun x => exists y, x = prod_map id f y) u) as Hu.
    { apply Forall_forall. intros [i x] Hin. destruct (lookup_lt_is_Some_2 ts i (Hlt i x Hin)) as [t Ht].
      apply elem_of_thread in Hin. rewrite (Hth i (map f t)) in Hin by (rewrite list_lookup_fmap, Ht; done).
      apply list_elem_of_fmap in Hin as (y & -> & _). by exists (i, y). }
    assert (exists u0, u = map (prod_map id f) u0) as [u0 ->].
    { clear -Hu. induction Hu as [|? u [y ->] _ [u0 ->]]; [by exists []|by exists (y :: u0)]. }
    exists u0. split; [done|]. split.
    + intros i x Hin. apply (Hlt i (f x)). apply list_elem_of_fmap. by exists (i, x).
    + intros i t Ht. apply (inj (map f)). rewrite <-thread_map. apply Hth. by rewrite list_lookup_fmap, Ht.
  - intros (u0 & -> & Hlt & Hth). split.
    + intros i x ([j y] & Heq & Hin)%list_elem_of_fmap. cbn in Heq. unfold id in Heq. simplify_eq. rewrite length_map. by eapply Hlt.
    + intros i t Ht. rewrite list_lookup_fmap in Ht. apply fmap_Some in Ht as (t0 & Ht & ->).
      by rewrite thread_map, (Hth _ _ Ht).
Qed.

#[export] Instance inject_event_inj : Inj (=) (=) (inject_event (F := F) (E := E)).
Proof.
  intros [X e x] [Y g y] Heq. apply (f_equal project_event) in Heq.
  cbn [inject_event] in Heq. rewrite !project_event_inject in Heq. by apply Some_inj in Heq.
Qed.

Lemma embed_snd {A B} (f : A -> B) (u : list (nat * A)) : (map (prod_map id f) u).*2 = map f u.*2.
Proof. induction u as [|[i x] u IH]; [done|]. csimpl. by rewrite IH. Qed.

(** Embedding changes the name of every call and nothing else. *)
Lemma pexec_embed {A} (p : par F A) (t : trace E) r :
  pexec (embed p) t r <-> exists t0, t = map inject_event t0 /\ pexec p t0 r.
Proof.
  revert A p t r. apply (par_induction (fun (A : Type) p => forall (t : trace E) r,
    pexec (embed p) t r <-> exists t0, t = map inject_event t0 /\ pexec p t0 r)).
  - intros A a t r. simpl. split; [intros [-> ->]; by exists []|]. by intros (t0 & -> & -> & ->).
  - intros A X e k IH t r. cbn [embed pexec]. setoid_rewrite IH. split.
    + intros (x & t' & -> & t0 & -> & Hk). exists (Ev e x :: t0). eauto.
    + intros (t0 & -> & x & t' & -> & Hk). exists x, (map inject_event t'). eauto.
  - intros A ps k IHps IHk t r. cbn [embed]. rewrite pexec_group. setoid_rewrite pexec_group. setoid_rewrite IHk.
    assert (forall ts rs, Forall3 pexec (map embed ps) ts rs <->
      exists ts0, ts = map (map inject_event) ts0 /\ Forall3 pexec ps ts0 rs) as Hm.
    { clear IHk k. induction IHps as [|p ps Hp _ IH]; intros ts rs; cbn [map].
      - split; [intros Hf; inversion Hf; exists []; by repeat constructor|].
        intros (ts0 & -> & Hf). inversion Hf. constructor.
      - split.
        + intros Hf. inversion Hf as [|? ? ? ? ? ? Hpt Hl]; subst. apply Hp in Hpt as (t0 & -> & Hpt).
          apply IH in Hl as (ts0 & -> & Hl). exists (t0 :: ts0). split; [done|by constructor].
        + intros (ts0 & -> & Hf). inversion Hf; subst. cbn [map].
          constructor; [apply Hp; eauto|apply IH; eauto]. }
    setoid_rewrite Hm. split.
    + intros (ts & rs & u & r0 & t' & -> & (ts0 & -> & Hf) & (u0 & -> & Hi)%interleaves_map & Hw & t0 & -> & Hk);
        [|apply _]. exists (u0.*2 ++ t0). rewrite embed_snd, map_app. split; [done|]. by exists ts0, rs, u0, r0, t0.
    + intros (t0 & -> & ts0 & rs & u0 & r0 & t' & -> & Hf & Hi & Hw & Hk).
      exists (map (map inject_event) ts0), rs, (map (prod_map id inject_event) u0), r0, (map inject_event t').
      rewrite embed_snd, map_app. split_and!; [done|by exists ts0| |done|by exists t'].
      apply interleaves_map; [apply _|by exists u0].
Qed.

End embedding.
