(* ===== verification/Combinators.v ===== *)
(** * Combinators: serial, concurrent and conditional provisioners

    Models pkg/provisioners: the Provisioner interface (interfaces.go, types.go)
    and the combinators of the serial, concurrent and conditional packages, over
    provisioners that make any calls at all.  Log messages are left out. *)

From S2P Require Import Prelude Errors Effects Concurrency.

(** The Provisioner interface: [C] is the context a method is given. *)
Record Provisioner (E : Type -> Type) (C : Type) := {
  ProvisionerName : string;
  Provision : C -> par E (option error);
  Deprovision : C -> par E (option error);
}.

Arguments ProvisionerName {E C} _.
Arguments Provision {E C} _ _.
Arguments Deprovision {E C} _ _.

(** Metadata. *)
Record Metadata := { Name : string }.

Module serial.
Section serial.
Context {E : Type -> Type} {C : Type}.

Fixpoint Provision (provisioners : list (Provisioner E C)) (ctx : C) : par E (option error) :=
  match provisioners with
  | [] => mret None
  | provisioner :: l => pcheck (Combinators.Provision provisioner ctx) (Provision l ctx)
  end.

(** The loop of Deprovision, from index [i] on, [n] iterations from its end. *)
Fixpoint deprovisionFrom (provisioners : list (Provisioner E C)) (ctx : C) (i n : nat) : par E (option error) :=
  match n with
  | 0 => mret None
  | S n' =>
    match provisioners !! (length provisioners - (i + 1)) with
    | None => mret None
    | Some provisioner =>
      pcheck (Combinators.Deprovision provisioner ctx) (deprovisionFrom provisioners ctx (i + 1) n')
    end
  end.

Definition Deprovision (provisioners : list (Provisioner E C)) (ctx : C) : par E (option error) :=
  deprovisionFrom provisioners ctx 0 (length provisioners).

Definition New (name : string) (p : list (Provisioner E C)) : Provisioner E C :=
  {| ProvisionerName := name; Combinators.Provision := Provision p;
     Combinators.Deprovision := Deprovision p |}.

End serial.
End serial.

Module concurrent.
Section concurrent.
Context {E : Type -> Type} {C : Type}.

Definition Provision (provisioners : list (Provisioner E C)) (ctx : C) : par E (option error) :=
  errgroup (map (fun provisioner => Combinators.Provision provisioner ctx) provisioners).

Definition Deprovision (provisioners : list (Provisioner E C)) (ctx : C) : par E (option error) :=
  errgroup (map (fun provisioner => Combinators.Deprovision provisioner ctx) provisioners).

Definition New (name : string) (p : list (Provisioner E C)) : Provisioner E C :=
  {| ProvisionerName := name; Combinators.Provision := Provision p;
     Combinators.Deprovision := Deprovision p |}.

End concurrent.
End concurrent.

Module conditional.
Section conditional.
Context {E : Type -> Type} {C : Type}.

(** The condition is a closure of the caller: calling it is a call. *)
Definition Provision (condition : E bool) (provisioner : Provisioner E C) (ctx : C) : par E (option error) :=
  c ← pcall condition;
  if negb c then Combinators.Deprovision provisioner ctx
  else Combinators.Provision provisioner ctx.

Definition Deprovision (provisioner : Provisioner E C) (ctx : C) : par E (option error) :=
  Combinators.Deprovision provisioner ctx.

Definition New (name : string) (condition : E bool) (p : Provisioner E C) : Provisioner E C :=
  {| ProvisionerName := name; Combinators.Provision := Provision condition p;
     Combinators.Deprovision := Deprovision p |}.

End conditional.
End conditional.

(** ** Specification: running programs one after the other *)

Section specification.
Context {E : Type -> Type}.

(** Run in order, stopping at the first error. *)
Inductive in_order : list (par E (option error)) -> trace E -> option error -> Prop :=
| in_order_nil : in_order [] [] None
| in_order_stop p l t e : pexec p t (Some e) -> in_order (p :: l) t (Some e)
| in_order_next p l t t' r :
    pexec p t None -> in_order l t' r -> in_order (p :: l) (t ++ t') r.

(** [p] ran to success somewhere within [t]: its calls are a subsequence of it. *)
Definition succeeded (p : par E (option error)) (t : trace E) : Prop :=
  exists t', sublist t' t /\ pexec p t' None.

Lemma succeeded_sublist p t t' : succeeded p t -> sublist t t' -> succeeded p t'.
Proof. intros (t0 & Hs & Hp) Ht. exists t0. split; [by etrans|done]. Qed.

Lemma succeeded_self p t : pexec p t None -> succeeded p t.
Proof. exists t. done. Qed.

Lemma succeeded_app_l p t t' : succeeded p t -> succeeded p (t ++ t').
Proof. intros H. eapply succeeded_sublist; [done|]. by apply sublist_inserts_r. Qed.

Lemma succeeded_app_r p t t' : succeeded p t' -> succeeded p (t ++ t').
Proof. intros H. eapply succeeded_sublist; [done|]. by apply sublist_inserts_l. Qed.

Lemma in_order_succeeded l t p : in_order l t None -> p ∈ l -> succeeded p t.
Proof.
  intros H. remember None as r eqn:Hr. revert Hr. induction H as [|p' l t e Hp|p' l t t' r Hp Hl IH]; intros Hr Hin.
  - by apply elem_of_nil in Hin.
  - done.
  - apply elem_of_cons in Hin as [->|Hin].
    + apply succeeded_app_l, succeeded_self, Hp.
    + apply succeeded_app_r. by apply IH.
Qed.

Lemma thread_sublist {A} i (u : list (nat * A)) : sublist (thread i u) u.*2.
Proof.
  induction u as [|[j x] u IH]; [constructor|]. rewrite fmap_cons. cbn [snd].
  destruct (decide (j = i)) as [->|Hne].
  - rewrite thread_cons_eq. by constructor.
  - rewrite thread_cons_ne by done. by constructor.
Qed.

Lemma group_succeeded ps t p : pexec (errgroup ps) t None -> p ∈ ps -> succeeded p t.
Proof.
  intros (ts & rs & u & -> & Hf & [_ Hi] & Hw)%pexec_errgroup [i Hp]%list_elem_of_lookup.
  simpl in Hw.
  destruct (Forall3_lookup_l _ _ _ _ _ _ Hf Hp) as (t & r & Ht & Hr & Hx).
  rewrite Forall_lookup in Hw. rewrite (Hw _ _ Hr) in Hx.
  exists t. split; [|done]. rewrite <-(Hi _ _ Ht). apply thread_sublist.
Qed.

End specification.

Section facts.
Context {E : Type -> Type} {C : Type}.
Implicit Types (p : Provisioner E C) (l : list (Provisioner E C)) (t : trace E).

Lemma pcheck_in_order (p : par E (option error)) ps q t r :
  (forall t' r', pexec q t' r' <-> in_order ps t' r') ->
  pexec (pcheck p q) t r <-> in_order (p :: ps) t r.
Proof.
  intros Hq. rewrite pexec_pcheck. setoid_rewrite Hq. split.
  - intros [(e & -> & H)|(t1 & t2 & -> & H1 & H2)]; by constructor.
  - intros H. inversion H; subst; [left|right]; eauto 10.
Qed.

Lemma serial_provision_spec l ctx : forall t r,
  pexec (serial.Provision l ctx) t r <-> in_order ((fun p => Provision p ctx) <$> l) t r.
Proof.
  induction l as [|p l IH]; intros t r; simpl.
  - split; [intros [-> ->]; constructor|intros H; by inversion H].
  - by apply pcheck_in_order.
Qed.

Lemma deprovisionFrom_spec l ctx n : forall i, i + n = length l -> forall t r,
  pexec (serial.deprovisionFrom l ctx i n) t r <->
  in_order ((fun p => Deprovision p ctx) <$> drop i (reverse l)) t r.
Proof.
  induction n as [|n IH]; intros i Hi t r; simpl.
  - rewrite drop_ge by (rewrite length_reverse; lia).
    split; [intros [-> ->]; constructor|intros H; by inversion H].
  - destruct (lookup_lt_is_Some_2 l (length l - (i + 1))) as [p Hp]; [lia|].
    rewrite Hp. rewrite (drop_S (reverse l) p i).
    + apply pcheck_in_order. replace (S i) with (i + 1) by lia. apply IH. lia.
    + rewrite reverse_lookup by lia. by replace (length l - S i) with (length l - (i + 1)) by lia.
Qed.

Lemma serial_deprovision_spec l ctx t r :
  pexec (serial.Deprovision l ctx) t r <-> in_order ((fun p => Deprovision p ctx) <$> reverse l) t r.
Proof. unfold serial.Deprovision. by rewrite (deprovisionFrom_spec l ctx (length l) 0 eq_refl). Qed.

End facts.

(** ** Trees of provisioners *)

(** What a service builds out of the combinators; the leaves are its other
    provisioners. *)
Inductive tree (E : Type -> Type) (C : Type) : Type :=
| Leaf (p : Provisioner E C)
| Serial (name : string) (l : list (tree E C))
| Concurrent (name : string) (l : list (tree E C))
| Conditional (name : string) (condition : E bool) (t : tree E C).

Arguments Leaf {E C} p.
Arguments Serial {E C} name l.
Arguments Concurrent {E C} name l.
Arguments Conditional {E C} name condition t.

Section trees.
Context {E : Type -> Type} {C : Type}.

Fixpoint denote (T : tree E C) : Provisioner E C :=
  match T with
  | Leaf p => p
  | Serial name l => serial.New name (map denote l)
  | Concurrent name l => concurrent.New name (map denote l)
  | Conditional name condition T' => conditional.New name condition (denote T')
  end.

Fixpoint leaves (T : tree E C) : list (Provisioner E C) :=
  match T with
  | Leaf p => [p]
  | Serial _ l | Concurrent _ l => concat (map leaves l)
  | Conditional _ _ T' => leaves T'
  end.

(** The leaves under no condition. *)
Fixpoint unconditional (T : tree E C) : list (Provisioner E C) :=
  match T with
  | Leaf p => [p]
  | Serial _ l | Concurrent _ l => concat (map unconditional l)
  | Conditional _ _ _ => []
  end.

Definition tree_induction (P : tree E C -> Prop)
    (Hleaf : forall p, P (Leaf p))
    (Hserial : forall name l, Forall P l -> P (Serial name l))
    (Hconcurrent : forall name l, Forall P l -> P (Concurrent name l))
    (Hconditional : forall name c T, P T -> P (Conditional name c T)) : forall T, P T :=
  fix go T :=
    let all := fix all l : Forall P l :=
      match l with [] => Forall_nil_2 P | T' :: l' => Forall_cons_2 P T' l' (go T') (all l') end in
    match T with
    | Leaf p => Hleaf p
    | Serial name l => Hserial name l (all l)
    | Concurrent name l => Hconcurrent name l (all l)
    | Conditional name c T' => Hconditional name c T' (go T')
    end.

Lemma elem_of_concat_map {A B} (f : A -> list B) l x : x ∈ concat (map f l) <-> exists a, a ∈ l /\ x ∈ f a.
Proof.
  induction l as [|a l IH]; simpl; [set_solver|]. rewrite elem_of_app, IH. set_solver.
Qed.

(** A successful group ran each member to success. *)
Lemma serial_member (run : Provisioner E C -> par E (option error)) l p t :
  in_order (run <$> l) t None -> p ∈ l -> succeeded (run p) t.
Proof. intros H Hin. apply (in_order_succeeded _ _ _ H). by apply (list_elem_of_fmap_2 run). Qed.

Lemma concurrent_member (run : Provisioner E C -> par E (option error)) l p t :
  pexec (errgroup (map run l)) t None -> p ∈ l -> succeeded (run p) t.
Proof. intros H Hin. apply (group_succeeded _ _ _ H). by apply (list_elem_of_fmap_2 run). Qed.

Lemma succeeded_trans (p : par E (option error)) t (q : par E (option error)) :
  succeeded p t -> (forall t', pexec p t' None -> succeeded q t') -> succeeded q t.
Proof. intros (t' & Hs & Hp) Hq. eapply succeeded_sublist; [by apply Hq|done]. Qed.

Lemma denote_elem (T : tree E C) l : T ∈ l -> denote T ∈ map denote l.
Proof. apply (list_elem_of_fmap_2 denote). Qed.

Lemma denote_elem_reverse (T : tree E C) l : T ∈ l -> denote T ∈ reverse (map denote l).
Proof. intros. by apply elem_of_reverse, denote_elem. Qed.

Lemma tree_deprovision_leaves (T : tree E C) (ctx : C) p : forall t,
  pexec (Deprovision (denote T) ctx) t None -> p ∈ leaves T -> succeeded (Deprovision p ctx) t.
Proof.
  pose (run := fun p : Provisioner E C => Deprovision p ctx).
  induction T as [q|name l IH|name l IH|name c T IH] using tree_induction; intros t Hx Hin; simpl in *.
  - apply list_elem_of_singleton in Hin as ->. by apply succeeded_self.
  - apply elem_of_concat_map in Hin as (T & HT & Hin). rewrite Forall_forall in IH.
    apply serial_deprovision_spec in Hx.
    eapply succeeded_trans; [exact (serial_member run _ _ _ Hx (denote_elem_reverse _ _ HT))|].
    intros. by eapply IH.
  - apply elem_of_concat_map in Hin as (T & HT & Hin). rewrite Forall_forall in IH.
    eapply succeeded_trans; [exact (concurrent_member run _ _ _ Hx (denote_elem _ _ HT))|].
    intros. by eapply IH.
  - by apply IH.
Qed.

Lemma conditional_exec (c : E bool) (p : Provisioner E C) ctx t r :
  pexec (conditional.Provision c p ctx) t r <->
  exists b t', t = Ev c b :: t' /\ pexec (if b then Provision p ctx else Deprovision p ctx) t' r.
Proof.
  unfold conditional.Provision. rewrite pexec_bind. split.
  - intros (t1 & t2 & b & -> & ->%pexec_pcall & H). exists b, t2. by destruct b.
  - intros (b & t' & -> & H). exists [Ev c b], t', b. rewrite pexec_pcall. by destruct b.
Qed.

(** Tearing a tree down succeeds only if every leaf of it, whatever the
    conditions say, was torn down successfully. *)
Theorem tree_deprovision_complete (T : tree E C) (ctx : C) t p :
  pexec (Deprovision (denote T) ctx) t None -> p ∈ leaves T -> succeeded (Deprovision p ctx) t.
Proof. apply tree_deprovision_leaves. Qed.

(** What a tree that came up ran. *)
Lemma tree_provision_leaves (T : tree E C) (ctx : C) t p :
  pexec (Provision (denote T) ctx) t None ->
  (p ∈ unconditional T -> succeeded (Provision p ctx) t) /\
  (p ∈ leaves T -> succeeded (Provision p ctx) t \/ succeeded (Deprovision p ctx) t).
Proof.
  pose (run := fun p : Provisioner E C => Provision p ctx). revert t.
  induction T as [q|name l IH|name l IH|name c T IH] using tree_induction; intros t Hx; simpl in *.
  - split; intros ->%list_elem_of_singleton; [|left]; by apply succeeded_self.
  - apply serial_provision_spec in Hx. rewrite Forall_forall in IH.
    split; intros (T & HT & Hin)%elem_of_concat_map;
      destruct (serial_member run _ _ _ Hx (denote_elem _ _ HT)) as (t' & Hs & Ht');
      destruct (IH T HT t' Ht') as [Hu Hl]; [|destruct (Hl Hin); [left|right]];
      (eapply succeeded_sublist; [|done]); auto.
  - rewrite Forall_forall in IH.
    split; intros (T & HT & Hin)%elem_of_concat_map;
      destruct (concurrent_member run _ _ _ Hx (denote_elem _ _ HT)) as (t' & Hs & Ht');
      destruct (IH T HT t' Ht') as [Hu Hl]; [|destruct (Hl Hin); [left|right]];
      (eapply succeeded_sublist; [|done]); auto.
  - split; [by intros ?%elem_of_nil|]. intros Hin.
    apply conditional_exec in Hx as (b & t' & -> & Hx). destruct b.
    + destruct (IH t' Hx) as [_ Hl]. destruct (Hl Hin); [left|right]; by apply (succeeded_app_r _ [_]).
    + right. apply (succeeded_app_r _ [_]). by eapply tree_deprovision_leaves.
Qed.

(** C18 Bringing a tree up succeeds only if every unconditional leaf of it was
    provisioned, and every other leaf was provisioned or deprovisioned. *)
Theorem tree_provision_complete (T : tree E C) (ctx : C) t p :
  pexec (Provision (denote T) ctx) t None ->
  (p ∈ unconditional T -> succeeded (Provision p ctx) t) /\
  (p ∈ leaves T -> succeeded (Provision p ctx) t \/ succeeded (Deprovision p ctx) t).
Proof. apply tree_provision_leaves. Qed.

(** [p] failed with [e] somewhere within [t]. *)
Definition failed (p : par E (option error)) (e : error) (t : trace E) : Prop :=
  exists t', sublist t' t /\ pexec p t' (Some e).

Lemma failed_sublist p e t t' : failed p e t -> sublist t t' -> failed p e t'.
Proof. intros (t0 & Hs & Hp) Ht. exists t0. split; [by etrans|done]. Qed.

Lemma in_order_failed l t e : in_order l t (Some e) -> exists p, p ∈ l /\ failed p e t.
Proof.
  remember (Some e) as r eqn:Hr. intros H. revert Hr.
  induction H as [|p l t e' Hp|p l t t' r Hp Hl IH]; intros Hr; simplify_eq.
  - exists p. split; [left|]. by exists t.
  - destruct (IH eq_refl) as (q & Hq & Hf). exists q. split; [by right|].
    eapply failed_sublist; [done|]. by apply sublist_inserts_l.
Qed.

Lemma group_failed ps t e : pexec (errgroup ps) t (Some e) -> exists p, p ∈ ps /\ failed p e t.
Proof.
  intros (ts & rs & u & -> & Hf & [_ Hi] & [i Hr]%list_elem_of_lookup)%pexec_errgroup.
  destruct (Forall3_lookup_r _ _ _ _ _ _ Hf Hr) as (p & t & Hp & Ht & Hx).
  exists p. split; [by eapply list_elem_of_lookup_2|]. exists t. split; [|done].
  rewrite <-(Hi _ _ Ht). apply thread_sublist.
Qed.

Lemma tree_deprovision_error (T : tree E C) (ctx : C) e : forall t,
  pexec (Deprovision (denote T) ctx) t (Some e) ->
  exists p, p ∈ leaves T /\ failed (Deprovision p ctx) e t.
Proof.
  pose (run := fun p : Provisioner E C => Deprovision p ctx).
  assert (forall l t q, q ∈ run <$> (denote <$> l) -> failed q e t ->
    Forall (fun T => forall t, pexec (Deprovision (denote T) ctx) t (Some e) ->
      exists p, p ∈ leaves T /\ failed (Deprovision p ctx) e t) l ->
    exists p, p ∈ concat (map leaves l) /\ failed (Deprovision p ctx) e t) as Hmember.
  { intros l t q Hq (t' & Hs & Ht') IH. apply list_elem_of_fmap in Hq as (? & -> & Hq).
    apply list_elem_of_fmap in Hq as (T' & -> & HT). rewrite Forall_forall in IH.
    destruct (IH T' HT t' Ht') as (p & Hp & Hf). exists p.
    split; [apply elem_of_concat_map; eauto|by eapply failed_sublist]. }
  induction T as [q|name l IH|name l IH|name c T IH] using tree_induction; intros t Hx; simpl in *.
  - exists q. split; [left|]. by exists t.
  - apply serial_deprovision_spec, in_order_failed in Hx as (q & Hq & Hf).
    apply (Hmember l t q); [|done|done].
    apply list_elem_of_fmap in Hq as (p & -> & Hp). rewrite elem_of_reverse in Hp. exact (list_elem_of_fmap_2 run _ _ Hp).
  - apply group_failed in Hx as (q & Hq & Hf). by apply (Hmember l t q).
  - by apply IH.
Qed.

(** A tree never makes up or rewrites an error: the one it answers is that
    of one of its leaves, with its disposition untouched. *)
Theorem tree_error_origin (T : tree E C) (ctx : C) t e :
  (pexec (Deprovision (denote T) ctx) t (Some e) ->
    exists p, p ∈ leaves T /\ failed (Deprovision p ctx) e t) /\
  (pexec (Provision (denote T) ctx) t (Some e) ->
    exists p, p ∈ leaves T /\ (failed (Provision p ctx) e t \/ failed (Deprovision p ctx) e t)).
Proof.
  split; [apply tree_deprovision_error|].
  pose (run := fun p : Provisioner E C => Provision p ctx).
  pose (blamed := fun (p : Provisioner E C) t => failed (Provision p ctx) e t \/ failed (Deprovision p ctx) e t).
  assert (forall l t q, q ∈ run <$> (denote <$> l) -> failed q e t ->
    Forall (fun T => forall t, pexec (Provision (denote T) ctx) t (Some e) ->
      exists p, p ∈ leaves T /\ blamed p t) l ->
    exists p, p ∈ concat (map leaves l) /\ blamed p t) as Hmember.
  { intros l t0 q Hq (t' & Hs & Ht') IH. apply list_elem_of_fmap in Hq as (? & -> & Hq).
    apply list_elem_of_fmap in Hq as (T' & -> & HT). rewrite Forall_forall in IH.
    destruct (IH T' HT t' Ht') as (p & Hp & [Hf|Hf]); exists p;
      (split; [apply elem_of_concat_map; eauto|]); [left|right]; by eapply failed_sublist. }
  revert t. induction T as [q|name l IH|name l IH|name c T IH] using tree_induction; intros t Hx; simpl in *.
  - exists q. split; [left|]. left. by exists t.
  - apply serial_provision_spec, in_order_failed in Hx as (q & Hq & Hf). by apply (Hmember l t q).
  - apply group_failed in Hx as (q & Hq & Hf). by apply (Hmember l t q).
  - apply conditional_exec in Hx as (b & t' & -> & Hx).
    assert (sublist t' (Ev c b :: t')) as Hs by by constructor.
    destruct b.
    + destruct (IH t' Hx) as (p & Hp & [Hf|Hf]); exists p; (split; [done|]); [left|right]; by eapply failed_sublist.
    + apply tree_deprovision_error in Hx as (p & Hp & Hf). exists p. split; [done|right]. by eapply failed_sublist.
Qed.

End trees.

(** ** Ordering *)

Section ordering.
Context {E : Type -> Type} {C : Type}.
Implicit Types (l : list (Provisioner E C)) (t : trace E).

Lemma in_order_concat (run : Provisioner E C -> par E (option error)) l : forall t,
  in_order (run <$> l) t None <-> exists ts, t = concat ts /\ Forall2 (fun p t => pexec (run p) t None) l ts.
Proof.
  induction l as [|p l IH]; intros t; simpl.
  - split.
    + intros H. inversion H. by exists [].
    + intros (ts & -> & H). inversion H. constructor.
  - split.
    + intros H. inversion H as [| |? ? t1 t2 ? Hp Hl]; subst. apply IH in Hl as (ts & -> & Hf).
      exists (t1 :: ts). split; [done|by constructor].
    + intros (ts & -> & H). inversion H; subst. simpl. constructor; [done|]. apply IH. eauto.
Qed.

(** Teardown mirrors bring-up: a serial group provisions its members first
    to last, each one's calls before the next's, and deprovisions them last to
    first. *)
Theorem serial_mirrored l (ctx : C) t t' :
  pexec (serial.Provision l ctx) t None -> pexec (serial.Deprovision l ctx) t' None ->
  exists ts ts', t = concat ts /\ t' = concat (reverse ts') /\
    Forall2 (fun p t => pexec (Provision p ctx) t None) l ts /\
    Forall2 (fun p t => pexec (Deprovision p ctx) t None) l ts'.
Proof.
  intros (ts & -> & Hp)%serial_provision_spec%(in_order_concat (fun p => Provision p ctx))
    (ts' & -> & Hd)%serial_deprovision_spec%(in_order_concat (fun p => Deprovision p ctx)).
  exists ts, (reverse ts'). rewrite reverse_involutive. split_and!; [done..|].
  rewrite <-(reverse_involutive l). by apply Forall2_reverse.
Qed.

Lemma in_order_error (ps : list (par E (option error))) : forall t e,
  in_order ps t (Some e) <->
  exists ps1 p ps2 t1 t2, ps = ps1 ++ p :: ps2 /\ t = t1 ++ t2 /\
    in_order ps1 t1 None /\ pexec p t2 (Some e).
Proof.
  induction ps as [|p ps IH]; intros t e.
  - split; [intros H; by inversion H|]. intros ([|] & ? & ? & ? & ? & ? & _); simplify_eq.
  - split.
    + intros H. inversion H as [|? ? ? ? Hp|? ? t1 t2 ? Hp Hl]; subst.
      * exists [], p, ps, [], t. split_and!; try done. constructor.
      * apply IH in Hl as (ps1 & q & ps2 & t3 & t4 & -> & -> & Ho & Hq).
        exists (p :: ps1), q, ps2, (t1 ++ t3), t4. rewrite app_assoc. split_and!; try done. by constructor.
    + intros (ps1 & q & ps2 & t1 & t2 & Hps & -> & Ho & Hq). destruct ps1 as [|p1 ps1]; simplify_eq/=.
      * inversion Ho; subst. by constructor.
      * inversion Ho as [| |? ? t3 t4 ? Hp1 Ho1]; subst. rewrite <-app_assoc. constructor; [done|].
        apply IH. eauto 10.
Qed.

(** A serial group stops at the first member that fails, and nothing after
    it is touched, in either direction. *)
Theorem serial_stops l (ctx : C) t e :
  (pexec (serial.Provision l ctx) t (Some e) <->
    exists l1 p l2 t1 t2, l = l1 ++ p :: l2 /\ t = t1 ++ t2 /\
      pexec (serial.Provision l1 ctx) t1 None /\ pexec (Provision p ctx) t2 (Some e)) /\
  (pexec (serial.Deprovision l ctx) t (Some e) <->
    exists l1 p l2 t1 t2, l = l1 ++ p :: l2 /\ t = t1 ++ t2 /\
      pexec (serial.Deprovision l2 ctx) t1 None /\ pexec (Deprovision p ctx) t2 (Some e)).
Proof.
  split.
  - rewrite serial_provision_spec, in_order_error. setoid_rewrite serial_provision_spec. split.
    + intros (ps1 & q & ps2 & t1 & t2 & Hps & -> & Ho & Hq).
      apply fmap_app_inv in Hps as (l1 & l2' & -> & Hps & ->).
      destruct l2' as [|p l2]; simplify_eq/=. eauto 10.
    + intros (l1 & p & l2 & t1 & t2 & -> & -> & Ho & Hq). rewrite fmap_app. simpl. eauto 10.
  - rewrite serial_deprovision_spec, in_order_error. setoid_rewrite serial_deprovision_spec. split.
    + intros (ps1 & q & ps2 & t1 & t2 & Hps & -> & Ho & Hq).
      apply fmap_app_inv in Hps as (l1 & l2' & -> & Hps & Hl).
      destruct l2' as [|p l2]; simplify_eq/=.
      exists (reverse l2), p, (reverse l1), t1, t2. rewrite reverse_involutive. split_and!; try done.
      rewrite <-(reverse_involutive l), Hl, reverse_app, reverse_cons, <-app_assoc. done.
    + intros (l1 & p & l2 & t1 & t2 & -> & -> & Ho & Hq).
      rewrite reverse_app, reverse_cons, <-app_assoc, fmap_app. simpl. eauto 10.
Qed.

(** A concurrent group cancels nobody: every member runs to completion, the
    group succeeds exactly when all of them do, and answers one of their errors
    otherwise. *)
Theorem concurrent_completes l (ctx : C) t r :
  pexec (concurrent.Provision l ctx) t r ->
  exists ts rs u, t = u.*2 /\ interleaves ts u /\
    Forall3 (fun p t r => pexec (Provision p ctx) t r) l ts rs /\
    (r = None <-> Forall (fun x => x = None) rs) /\ (forall e, r = Some e -> Some e ∈ rs).
Proof.
  unfold concurrent.Provision. intros (ts & rs & u & -> & Hf & Hi & Hw)%pexec_errgroup.
  exists ts, rs, u. split_and!; [done|done|by apply Forall3_map_l| |].
  - destruct r as [e|]; [|by split]. split; [done|]. intros Ha. rewrite Forall_forall in Ha. by apply Ha in Hw.
  - intros e ->. done.
Qed.

End ordering.

(** ** Witnesses *)

Module witnesses.

(** Leaves that answer what they are told, and a feature flag. *)
Inductive stepE : Type -> Type :=
| Up (name : string) : stepE (option error)
| Down (name : string) : stepE (option error)
| Flag : stepE bool.

Definition leaf (name : string) : Provisioner stepE unit :=
  {| ProvisionerName := name;
     Provision := fun _ => pcall (Up name);
     Deprovision := fun _ => pcall (Down name) |}.

Definition stack : tree stepE unit :=
  Serial "stack" [Leaf (leaf "cni"); Concurrent "addons" [Leaf (leaf "csi"); Conditional "gpu" Flag (Leaf (leaf "gpu"))]].

(** The addons run interleaved: the flag is read before csi answers. *)
Definition addons_up : list (nat * event stepE) :=
  [(1, Ev Flag false); (0, Ev (Up "csi") None); (1, Ev (Down "gpu") None)].

Definition addons_down : list (nat * event stepE) :=
  [(1, Ev (Down "gpu") None); (0, Ev (Down "csi") None)].

Lemma interleaves_2 {A} (t0 t1 : list A) u :
  forallb (fun x => Nat.ltb x.1 2) u = true -> thread 0 u = t0 -> thread 1 u = t1 -> interleaves [t0; t1] u.
Proof.
  intros Hlt H0 H1. split.
  - intros i x Hin. rewrite forallb_elem_of in Hlt. by apply Hlt, Nat.ltb_lt in Hin.
  - intros [|[|]] t Ht; by simplify_eq/=.
Qed.

Lemma stack_up : pexec (Provision (denote stack) tt) (Ev (Up "cni") None :: addons_up.*2 ++ []) None.
Proof.
  simpl. exists None, (addons_up.*2 ++ []). split; [done|].
  apply (pexec_bind _ (errgroup _)). exists (addons_up.*2), [], None. split_and!; [done| |done].
  apply pexec_errgroup.
  exists [[Ev (Up "csi") None]; [Ev Flag false; Ev (Down "gpu") None]], [None; None], addons_up.
  split_and!; [done| |by apply interleaves_2|by repeat constructor].
  constructor; [by apply pexec_pcall|constructor; [|constructor]].
  apply conditional_exec. exists false, [Ev (Down "gpu") None]. split; [done|by apply pexec_pcall].
Qed.

Lemma stack_down : pexec (Deprovision (denote stack) tt) (addons_down.*2 ++ [Ev (Down "cni") None]) None.
Proof.
  apply serial_deprovision_spec. apply in_order_next.
  - apply pexec_errgroup.
    exists [[Ev (Down "csi") None]; [Ev (Down "gpu") None]], [None; None], addons_down.
    split_and!; [done| |by apply interleaves_2|by repeat constructor].
    repeat constructor; by apply pexec_pcall.
  - apply (in_order_next _ [] [_] []); [by apply pexec_pcall|constructor].
Qed.

Lemma tree_deprovision_complete_witness : succeeded (Deprovision (leaf "gpu") tt) (addons_down.*2 ++ [Ev (Down "cni") None]).
Proof. apply (tree_deprovision_complete stack tt _ _ stack_down). right; right; left. Defined.

Lemma tree_provision_complete_witness :
  succeeded (Provision (leaf "csi") tt) (Ev (Up "cni") None :: addons_up.*2 ++ []).
Proof. apply (tree_provision_complete stack tt _ _ stack_up). right; left. Defined.

Lemma tree_error_origin_witness :
  exists p, p ∈ leaves (Serial "s" [Leaf (leaf "cni")]) /\
    failed (Deprovision p tt) (Foreign "busy") [Ev (Down "cni") (Some (Foreign "busy"))].
Proof.
  apply (proj1 (tree_error_origin (Serial "s" [Leaf (leaf "cni")]) tt [Ev (Down "cni") (Some (Foreign "busy"))] (Foreign "busy"))).
  apply serial_deprovision_spec. apply in_order_stop. by apply pexec_pcall.
Defined.

Definition pair : list (Provisioner stepE unit) := [leaf "cni"; leaf "csi"].

Lemma serial_mirrored_witness :
  exists ts ts',
    [Ev (Up "cni") None; Ev (Up "csi") None] = concat ts /\
    [Ev (Down "csi") None; Ev (Down "cni") None] = concat (reverse ts') /\
    Forall2 (fun p t => pexec (Provision p tt) t None) pair ts /\
    Forall2 (fun p t => pexec (Deprovision p tt) t None) pair ts'.
Proof.
  apply (serial_mirrored pair tt).
  - apply serial_provision_spec. apply (in_order_next _ _ [_]); [by apply pexec_pcall|].
    apply (in_order_next _ _ [_] []); [by apply pexec_pcall|constructor].
  - apply serial_deprovision_spec. apply (in_order_next _ _ [_]); [by apply pexec_pcall|].
    apply (in_order_next _ _ [_] []); [by apply pexec_pcall|constructor].
Defined.

(** One member fails; the other still runs. *)
Definition one_fails : list (nat * event stepE) :=
  [(1, Ev (Up "csi") (Some (Foreign "quota"))); (0, Ev (Up "cni") None)].

Lemma concurrent_completes_witness :
  exists ts rs u, one_fails.*2 = u.*2 /\ interleaves ts u /\
    Forall3 (fun p t r => pexec (Provision p tt) t r) pair ts rs.
Proof.
  destruct (concurrent_completes pair tt one_fails.*2 (Some (Foreign "quota"))) as (ts & rs & u & H1 & H2 & H3 & _).
  - apply pexec_errgroup.
    exists [[Ev (Up "cni") None]; [Ev (Up "csi") (Some (Foreign "quota"))]], [None; Some (Foreign "quota")], one_fails.
    split_and!; [done| |by apply interleaves_2|by right; left].
    repeat constructor; by apply pexec_pcall.
  - eauto 10.
Defined.

End witnesses.
