(* ===== verification/CD.v ===== *)
(** * CD: the continuous-deployment layer's data, and provisioning contexts

    Models pkg/cd/types.go, the context values of pkg/client, pkg/cd,
    pkg/provisioners/application and pkg/provisioners/remotecluster, and the
    kubeconfig and URL handling of pkg/provisioners/remotecluster.  The fields
    of k8s.io/client-go's configuration types are those the code reads. *)

From S2P Require Import Prelude Errors GoStrings Kubernetes.
From Stdlib Require Import Ascii.

(** k8s.io/client-go/tools/clientcmd/api.  Byte slices are strings, nil is [None]. *)
Module clientcmdapi.

Record Cluster := { Server : string; CertificateAuthorityData : option string }.

Record AuthInfo := { ClientCertificateData : option string; ClientKeyData : option string }.

Record Context := { Context_Cluster : string; Context_AuthInfo : string }.

Record Config := {
  CurrentContext : string;
  Contexts : gmap string Context;
  Clusters : gmap string Cluster;
  AuthInfos : gmap string AuthInfo;
}.

End clientcmdapi.

(** pkg/cd/types.go. *)
Module cd.

Definition DriverKindArgoCD : string := "argocd".

Record ResourceIdentifierLabel := { label_Name : string; label_Value : string }.

#[export] Instance ResourceIdentifierLabel_eq_dec : EqDecision ResourceIdentifierLabel.
Proof. solve_decision. Defined.

Record ResourceIdentifier := { Name : string; Labels : list ResourceIdentifierLabel }.

#[export] Instance ResourceIdentifier_eq_dec : EqDecision ResourceIdentifier.
Proof. solve_decision. Defined.

Record HelmApplicationParameter := { param_Name : string; param_Value : string }.

Record HelmApplicationField := { field_Group : string; field_Kind : string; field_JSONPointers : list string }.

(** A nil map is [None]. *)
Record LabelsAnnotations := {
  la_Labels : option (gmap string string);
  la_Annotations : option (gmap string string);
}.

(** [V] is what a generator may answer as values; Go's nil is [None]. *)
Record HelmApplication (V : Type) := {
  Repo : string;
  Chart : string;
  Branch : string;
  Path : string;
  Version : string;
  Release : string;
  Parameters : list HelmApplicationParameter;
  Values : option V;
  app_Cluster : option ResourceIdentifier;
  Namespace : string;
  CreateNamespace : bool;
  NamespaceMetadata : LabelsAnnotations;
  IgnoreDifferences : list HelmApplicationField;
  ServerSideApply : bool;
  AllowDegraded : bool;
}.

Record Cluster := { Config : clientcmdapi.Config; Prefix : string }.

Definition HealthStatusUnknown : string := "unknown".
Definition HealthStatusHealthy : string := "healthy".
Definition HealthStatusDegraded : string := "degraded".

End cd.

#[global] Arguments cd.Repo {V} _.
#[global] Arguments cd.Chart {V} _.
#[global] Arguments cd.Branch {V} _.
#[global] Arguments cd.Path {V} _.
#[global] Arguments cd.Version {V} _.
#[global] Arguments cd.Release {V} _.
#[global] Arguments cd.Parameters {V} _.
#[global] Arguments cd.Values {V} _.
#[global] Arguments cd.app_Cluster {V} _.
#[global] Arguments cd.Namespace {V} _.
#[global] Arguments cd.CreateNamespace {V} _.
#[global] Arguments cd.NamespaceMetadata {V} _.
#[global] Arguments cd.IgnoreDifferences {V} _.
#[global] Arguments cd.ServerSideApply {V} _.
#[global] Arguments cd.AllowDegraded {V} _.

(** client.ClusterContext: [Cl] is the type of API clients. *)
Record ClusterContext (Cl : Type) := {
  ctx_Client : Cl;
  ctx_ID : option cd.ResourceIdentifier;
  ctx_Host : string;
  ctx_Port : string;
}.

Arguments ctx_Client {Cl} _.
Arguments ctx_ID {Cl} _.
Arguments ctx_Host {Cl} _.
Arguments ctx_Port {Cl} _.

(** The values a context.Context carries under the keys of these packages;
    [O] is the type of the resource being reconciled. *)
Record Context (Cl O : Type) := {
  provisionerClientKey : option Cl;
  clusterKey : option (ClusterContext Cl);
  namespaceKey : option string;
  resourceKey : option O;
  backgroundDeletionKey : option bool;
}.

Arguments provisionerClientKey {Cl O} _.
Arguments clusterKey {Cl O} _.
Arguments namespaceKey {Cl O} _.
Arguments resourceKey {Cl O} _.
Arguments backgroundDeletionKey {Cl O} _.

Section contexts.
Context {Cl O : Type}.

Definition Background : Context Cl O :=
  {| provisionerClientKey := None; clusterKey := None; namespaceKey := None; resourceKey := None;
     backgroundDeletionKey := None |}.

Definition NewContext (ctx : Context Cl O) (client : Cl) : Context Cl O :=
  {| provisionerClientKey := Some client; clusterKey := clusterKey ctx; namespaceKey := namespaceKey ctx;
     resourceKey := resourceKey ctx; backgroundDeletionKey := backgroundDeletionKey ctx |}.

Definition FromContext (ctx : Context Cl O) : result Cl :=
  match provisionerClientKey ctx with
  | Some client => Ok client
  | None => Err (Sentinel ErrInvalidContext)
  end.

Definition NewContextWithCluster (ctx : Context Cl O) (remote : ClusterContext Cl) : Context Cl O :=
  {| provisionerClientKey := provisionerClientKey ctx; clusterKey := Some remote; namespaceKey := namespaceKey ctx;
     resourceKey := resourceKey ctx; backgroundDeletionKey := backgroundDeletionKey ctx |}.

Definition ClusterFromContext (ctx : Context Cl O) : result (ClusterContext Cl) :=
  match clusterKey ctx with
  | Some remote => Ok remote
  | None => Err (Sentinel ErrInvalidContext)
  end.

Definition NewContextWithNamespace (ctx : Context Cl O) (namespace : string) : Context Cl O :=
  {| provisionerClientKey := provisionerClientKey ctx; clusterKey := clusterKey ctx; namespaceKey := Some namespace;
     resourceKey := resourceKey ctx; backgroundDeletionKey := backgroundDeletionKey ctx |}.

Definition NamespaceFromContext (ctx : Context Cl O) : result string :=
  match namespaceKey ctx with
  | Some namespace => Ok namespace
  | None => Err (Sentinel ErrInvalidContext)
  end.

Definition NewContextWithResource (ctx : Context Cl O) (resource : O) : Context Cl O :=
  {| provisionerClientKey := provisionerClientKey ctx; clusterKey := clusterKey ctx; namespaceKey := namespaceKey ctx;
     resourceKey := Some resource; backgroundDeletionKey := backgroundDeletionKey ctx |}.

Definition NewContextWithBackgroundDeletion (ctx : Context Cl O) (backgroundDeletion : bool) : Context Cl O :=
  {| provisionerClientKey := provisionerClientKey ctx; clusterKey := clusterKey ctx; namespaceKey := namespaceKey ctx;
     resourceKey := resourceKey ctx; backgroundDeletionKey := Some backgroundDeletion |}.

Definition BackgroundDeletionFromContext (ctx : Context Cl O) : bool :=
  match backgroundDeletionKey ctx with
  | Some backgroundDeletion => backgroundDeletion
  | None => false
  end.

End contexts.

(** ** Kubeconfigs, URLs and addresses *)

(** The parts of net/url's URL the code reads, and url.Parse. *)
Record URL := { Scheme : string; Host : string }.

Class UrlParse := { url_Parse : string -> result URL }.

Section kubeconfig.
Context `{UrlParse}.

Definition getKuebernetesURL (config : clientcmdapi.Config) : result URL :=
  match clientcmdapi.Contexts config !! clientcmdapi.CurrentContext config with
  | None => Err (Wrapped (Sentinel ErrKubeconfig) "unable to lookup context")
  | Some configContext =>
    match clientcmdapi.Clusters config !! clientcmdapi.Context_Cluster configContext with
    | None => Err (Wrapped (Sentinel ErrKubeconfig) "unable to lookup cluster")
    | Some cluster => url_Parse (clientcmdapi.Server cluster)
    end
  end.

End kubeconfig.

(** The index of the first, and of the last, occurrence of a byte. *)
Fixpoint index_byte (s : string) (c : ascii) : option nat :=
  match s with
  | EmptyString => None
  | String d s' => if Ascii.eqb d c then Some 0 else S <$> index_byte s' c
  end.

Fixpoint last_index_byte (s : string) (c : ascii) : option nat :=
  match s with
  | EmptyString => None
  | String d s' =>
    match last_index_byte s' c with
    | Some i => Some (S i)
    | None => if Ascii.eqb d c then Some 0 else None
    end
  end.

(** s[i:] and s[i:j] *)
Fixpoint string_drop (i : nat) (s : string) : string :=
  match i, s with
  | S i', String _ s' => string_drop i' s'
  | _, _ => s
  end.

Definition slice (i j : nat) (s : string) : string := String.substring i (j - i) s.

(** net.SplitHostPort, its errors told apart by nobody here. *)
Definition SplitHostPort (hostport : string) : option (string * string) :=
  match last_index_byte hostport ":" with
  | None => None
  | Some i =>
    let port := string_drop (i + 1) hostport in
    if match hostport with String c _ => Ascii.eqb c "[" | EmptyString => false end then
      match index_byte hostport "]" with
      | None => None
      | Some e =>
        if Nat.eqb (e + 1) (String.length hostport) then None
        else if negb (Nat.eqb (e + 1) i) then None
        else if bool_decide (is_Some (index_byte (string_drop 1 hostport) "[")) then None
        else if bool_decide (is_Some (index_byte (string_drop (e + 1) hostport) "]")) then None
        else Some (slice 1 e hostport, port)
      end
    else
      let host := slice 0 i hostport in
      if bool_decide (is_Some (index_byte host ":")) then None
      else if bool_decide (is_Some (index_byte hostport "[")) then None
      else if bool_decide (is_Some (index_byte hostport "]")) then None
      else Some (host, port)
  end.

Definition getHostPort (url : URL) : string * string :=
  match SplitHostPort (Host url) with
  | Some hp => hp
  | None =>
    (Host url,
     if bool_decide (Scheme url = "http") then "80"
     else if bool_decide (Scheme url = "https") then "443" else "")
  end.

(** *** Facts *)

Lemma index_byte_none s c : index_byte s c = None <-> last_index_byte s c = None.
Proof.
  induction s as [|d s IH]; simpl; [done|].
  destruct (Ascii.eqb d c); [by destruct (last_index_byte s c)|].
  destruct (index_byte s c), (last_index_byte s c); simpl; naive_solver.
Qed.

Lemma index_byte_app s1 s2 c : index_byte s1 c = None -> index_byte s2 c = None -> index_byte (s1 +:+ s2) c = None.
Proof.
  induction s1 as [|d s1 IH]; simpl; [done|]. destruct (Ascii.eqb d c); [done|].
  intros H1 H2. destruct (index_byte s1 c); [done|]. by rewrite IH.
Qed.

Lemma last_index_byte_app s1 s2 c :
  last_index_byte s2 c = None -> last_index_byte (s1 +:+ String c s2) c = Some (String.length s1).
Proof.
  intros H2. induction s1 as [|d s1 IH]; simpl; [by rewrite H2, Ascii.eqb_refl|]. by rewrite IH.
Qed.

Lemma string_drop_app s1 s2 n : string_drop (String.length s1 + n) (s1 +:+ s2) = string_drop n s2.
Proof. induction s1 as [|c s1 IH]; simpl; [done|exact IH]. Qed.

Lemma slice_app s1 s2 : slice 0 (String.length s1) (s1 +:+ s2) = s1.
Proof.
  unfold slice. rewrite Nat.sub_0_r. induction s1 as [|c s1 IH]; simpl; [by destruct s2|by rewrite IH].
Qed.

(** The port of a cluster endpoint is the URL's own, or its scheme's. *)
Theorem getHostPort_default scheme host port :
  index_byte host ":" = None -> index_byte host "[" = None -> index_byte host "]" = None ->
  index_byte port ":" = None -> index_byte port "[" = None -> index_byte port "]" = None ->
  getHostPort {| Scheme := scheme; Host := host +:+ ":" +:+ port |} = (host, port) /\
  getHostPort {| Scheme := "https"; Host := host |} = (host, "443") /\
  getHostPort {| Scheme := "http"; Host := host |} = (host, "80").
Proof.
  intros Hc Ho Hb Pc Po Pb.
  assert (forall s, getHostPort {| Scheme := s; Host := host |} =
    (host, if bool_decide (s = "http") then "80" else if bool_decide (s = "https") then "443" else "")) as Hd.
  { intros s. unfold getHostPort, SplitHostPort. simpl. apply index_byte_none in Hc. by rewrite Hc. }
  split; [|by rewrite !Hd].
  unfold getHostPort, SplitHostPort. cbn [Host].
  change (host +:+ ":" +:+ port) with (host +:+ String ":" port).
  rewrite last_index_byte_app by (by apply index_byte_none).
  rewrite slice_app, string_drop_app. cbn [string_drop].
  rewrite (index_byte_app host _ "["), (index_byte_app host _ "]") by (done || (simpl; by rewrite ?Po, ?Pb)).
  rewrite Hc, !bool_decide_false by (by intros []).
  destruct host as [|c host]; [done|].
  simpl in Ho. change (String c host +:+ String ":" port) with (String c (host +:+ String ":" port)). cbn iota beta.
  by destruct (Ascii.eqb c "[").
Qed.

Lemma getHostPort_default_witness :
  getHostPort {| Scheme := "https"; Host := "10.0.0.1" |} = ("10.0.0.1", "443").
Proof. apply (getHostPort_default "https" "10.0.0.1" "6443"); reflexivity. Defined.
