(* ===== verification/RemoteCluster.v ===== *)
(** * RemoteCluster: provisioning inside another cluster

    Models pkg/provisioners/remotecluster/provisioner.go.  Every provisioner
    ProvisionOn makes from one RemoteCluster shares its mutex and its count of
    calls; the goroutines of a concurrent group contend for them.  A critical
    section is the calls between [Lock] and [Unlock], and the shared count is
    what [IncrementCurrentCount] answers; [counted] and [exclusive] say when the
    answers of an interleaved trace are those of one counter and one mutex. *)

From S2P Require Import Prelude Errors Effects Kubernetes Provisioning Concurrency Combinators CD.

(** The calls, for API clients of type [Cl]; [r] is a RemoteCluster's identity. *)
Inductive remoteE (Cl : Type) : Type -> Type :=
| Lock (r : nat) : remoteE Cl unit
| Unlock (r : nat) : remoteE Cl unit
| IncrementCurrentCount (r : nat) : remoteE Cl nat
| GeneratorConfig (r : nat) : remoteE Cl (result clientcmdapi.Config)
| NewClient (config : clientcmdapi.Config) : remoteE Cl (result Cl)
| CreateOrUpdateCluster (id : cd.ResourceIdentifier) (cluster : cd.Cluster) : remoteE Cl (option error)
| DeleteCluster (r : nat) (id : cd.ResourceIdentifier) : remoteE Cl (option error).

Arguments Lock {Cl} r.
Arguments Unlock {Cl} r.
Arguments IncrementCurrentCount {Cl} r.
Arguments GeneratorConfig {Cl} r.
Arguments NewClient {Cl} config.
Arguments CreateOrUpdateCluster {Cl} id cluster.
Arguments DeleteCluster {Cl} r id.

Module remotecluster.

(** RemoteCluster: its fixed fields and refCount; currentCount lives in the
    answers of [IncrementCurrentCount]. *)
Record RemoteCluster := {
  ident : nat;
  generator_ID : cd.ResourceIdentifier;
  controller : bool;
  refCount : nat;
}.

Definition New (ident : nat) (generator_ID : cd.ResourceIdentifier) (controller : bool) : RemoteCluster :=
  {| ident := ident; generator_ID := generator_ID; controller := controller; refCount := 0 |}.

Section remote.
Context {E : Type -> Type} {Cl O : Type} `{Subeffect (remoteE Cl) E} `{UrlParse}.

Abbreviation Provisioner := (Combinators.Provisioner E (Context Cl O)).

(** remoteClusterProvisioner; its methods are given what [remote] points to. *)
Record remoteClusterProvisioner := {
  child : Provisioner;
  backgroundDeletion : bool;
  prefix : string;
}.

Definition ProvisionerOption : Type := remoteClusterProvisioner -> remoteClusterProvisioner.

Definition BackgroundDeletion : ProvisionerOption := fun p =>
  {| child := child p; backgroundDeletion := true; prefix := prefix p |}.

Definition WithPrefix (prefix : string) : ProvisionerOption := fun p =>
  {| child := child p; backgroundDeletion := backgroundDeletion p; prefix := prefix |}.

Definition ProvisionOn (r : RemoteCluster) (child : Provisioner) (options : list ProvisionerOption) :
    RemoteCluster * remoteClusterProvisioner :=
  ({| ident := ident r; generator_ID := generator_ID r; controller := controller r; refCount := S (refCount r) |},
   foldl (fun p o => o p) {| child := child; backgroundDeletion := false; prefix := "" |} options).

(** A call of this component. *)
Definition rcall {X : Type} (e : remoteE Cl X) : par E X := pcall (inject e).

Definition getClient (r : RemoteCluster) : par E (result (Cl * clientcmdapi.Config)) :=
  config ← rcall (GeneratorConfig (ident r));
  match config with
  | Err err => mret (Err err)
  | Ok config =>
    client ← rcall (NewClient config);
    match client with
    | Err err => mret (Err err)
    | Ok client => mret (Ok (client, config))
    end
  end.

(** The critical section of provisionRemote. *)
Definition provisionRemoteLocked (remote : RemoteCluster) (p : remoteClusterProvisioner) : par E (option error) :=
  currentCount ← rcall (IncrementCurrentCount (ident remote));
  if controller remote && (currentCount =? 1) then
    pattempt (rcall (GeneratorConfig (ident remote))) (fun config =>
      err ← rcall (CreateOrUpdateCluster (generator_ID remote)
                     {| cd.Config := config; cd.Prefix := prefix p |});
      match err with
      | Some _ => mret (Some provisioners.ErrYield)
      | None => mret None
      end)
  else mret None.

Definition provisionRemote (remote : RemoteCluster) (p : remoteClusterProvisioner) : par E (option error) :=
  _ ← rcall (Lock (ident remote));
  err ← provisionRemoteLocked remote p;
  _ ← rcall (Unlock (ident remote));
  mret err.

(** The context of the remote cluster. *)
Definition remoteContext (remote : RemoteCluster) (ctx : Context Cl O) (client : Cl) (url : URL) : Context Cl O :=
  let '(host, port) := getHostPort url in
  NewContextWithCluster ctx
    {| ctx_Client := client; ctx_ID := Some (generator_ID remote); ctx_Host := host; ctx_Port := port |}.

Definition Provision (remote : RemoteCluster) (p : remoteClusterProvisioner) (ctx : Context Cl O) : par E (option error) :=
  pcheck (provisionRemote remote p) (
    pattempt (getClient remote) (fun '(client, config) =>
      match getKuebernetesURL config with
      | Err err => mret (Some err)
      | Ok url => Combinators.Provision (child p) (remoteContext remote ctx client url)
      end)).

(** The children's part of Deprovision: skipped when there is no client. *)
Definition deprovisionChild (remote : RemoteCluster) (p : remoteClusterProvisioner) (ctx : Context Cl O) : par E (option error) :=
  c ← getClient remote;
  match c with
  | Err err => if negb (errors_is err provisioners_ErrYield) then mret (Some err) else mret None
  | Ok (client, config) =>
    match getKuebernetesURL config with
    | Err err => mret (Some err)
    | Ok url =>
      let ctx := remoteContext remote ctx client url in
      let ctx := if backgroundDeletion p then NewContextWithBackgroundDeletion ctx true else ctx in
      Combinators.Deprovision (child p) ctx
    end
  end.

(** The critical section of Deprovision. *)
Definition deprovisionRemoteLocked (remote : RemoteCluster) : par E (option error) :=
  currentCount ← rcall (IncrementCurrentCount (ident remote));
  if controller remote && (currentCount =? refCount remote) then
    rcall (DeleteCluster (ident remote) (generator_ID remote))
  else mret None.

Definition Deprovision (remote : RemoteCluster) (p : remoteClusterProvisioner) (ctx : Context Cl O) : par E (option error) :=
  pcheck (deprovisionChild remote p ctx) (
    _ ← rcall (Lock (ident remote));
    err ← deprovisionRemoteLocked remote;
    _ ← rcall (Unlock (ident remote));
    mret err).

(** The provisioner ProvisionOn answers with, once [remote] is fully built. *)
Definition as_provisioner (remote : RemoteCluster) (p : remoteClusterProvisioner) : Provisioner :=
  {| ProvisionerName := "remote-cluster"; Combinators.Provision := Provision remote p;
     Combinators.Deprovision := Deprovision remote p |}.

End remote.
End remotecluster.

(** ** Reading traces *)

Section events.
Context {E : Type -> Type} {Cl : Type} `{Subeffect (remoteE Cl) E}.

Definition of_remote {A : Type} (f : forall X, remoteE Cl X -> X -> option A) (ev : event E) : option A :=
  match project_event ev with Some (Ev e x) => f _ e x | None => None end.

(** The answer of an increment of [r]'s count. *)
Definition increment (r : nat) : event E -> option nat :=
  of_remote (fun X e =>
    match e in remoteE _ X return X -> option nat with
    | IncrementCurrentCount r' => fun c => if decide (r' = r) then Some c else None
    | _ => fun _ => None
    end).

(** A deletion of [r]'s cluster. *)
Definition deletion (r : nat) : event E -> option unit :=
  of_remote (fun X e _ =>
    match e with DeleteCluster r' _ => if decide (r' = r) then Some tt else None | _ => None end).

(** A lock ([true]) or unlock ([false]) of [r]'s mutex. *)
Definition locking (r : nat) : event E -> option bool :=
  of_remote (fun X e _ =>
    match e with
    | Lock r' => if decide (r' = r) then Some true else None
    | Unlock r' => if decide (r' = r) then Some false else None
    | _ => None
    end).

(** The answers of the increments are those of one counter that starts at 0. *)
Definition counted (r : nat) (t : trace E) : Prop :=
  omap (increment r) t = seq 1 (length (omap (increment r) t)).

(** Locks and unlocks alternate, starting with a lock. *)
Fixpoint alternates (held : bool) (l : list bool) : bool :=
  match l with
  | [] => true
  | b :: l' => bool_decide (b = negb held) && alternates (negb held) l'
  end.

Definition exclusive (r : nat) (t : trace E) : Prop := alternates false (omap (locking r) t) = true.

(** A trace that leaves [r]'s count, mutex and registration alone. *)
Definition quiet (r : nat) (t : trace E) : Prop :=
  omap (increment r) t = [] /\ omap (deletion r) t = [] /\ omap (locking r) t = [].

Lemma quiet_app r t1 t2 : quiet r t1 -> quiet r t2 -> quiet r (t1 ++ t2).
Proof. unfold quiet. rewrite !omap_app. intros (-> & -> & ->) (-> & -> & ->). done. Qed.

Lemma quiet_nil r : quiet r [].
Proof. done. Qed.

Lemma of_remote_inject {A} (f : forall X, remoteE Cl X -> X -> option A) {X} (e : remoteE Cl X) (x : X) :
  of_remote f (Ev (inject e) x) = f _ e x.
Proof. unfold of_remote. by rewrite project_event_inject. Qed.

End events.

#[export] Hint Rewrite @of_remote_inject : go.

(** Normalise what the observations of a trace are. *)
Ltac observe :=
  repeat (rewrite ?omap_app; cbn [omap list_omap]; unfold increment, deletion, locking;
          rewrite ?of_remote_inject; cbn beta iota);
  rewrite ?(decide_True_pi eq_refl); rewrite ?decide_True by done.

(** An increment that answered [n]. *)
Definition increment_to {E : Type -> Type} {Cl : Type} `{Subeffect (remoteE Cl) E} (r n : nat) (ev : event E) : option unit :=
  match increment r ev with Some c => if decide (c = n) then Some tt else None | None => None end.

(** ** Counting over interleavings *)

Section counting.
Context {A B : Type} (f : A -> option B).

Lemma omap_thread_length (n : nat) (u : list (nat * A)) :
  (forall i x, (i, x) ∈ u -> i < n) ->
  length (omap f u.*2) = sum_list_with (fun i => length (omap f (thread i u))) (seq 0 n).
Proof.
  induction u as [|[j x] u IH]; intros Hlt.
  { simpl. induction (seq 0 n); simpl; [done|]. done. }
  assert (j < n) as Hj by (eapply Hlt; left).
  assert (forall l, NoDup l -> sum_list_with (fun i => length (omap f (thread i ((j, x) :: u)))) l =
    sum_list_with (fun i => length (omap f (thread i u))) l +
    (if decide (j ∈ l) then length (omap f [x]) else 0)) as Hsum.
  { induction l as [|i l IHl]; intros Hnd; [done|]. apply NoDup_cons in Hnd as [Hi Hnd].
    cbn [sum_list_with]. rewrite (IHl Hnd). destruct (decide (j = i)) as [->|Hne].
    - rewrite thread_cons_eq, (decide_False (P := i ∈ l)), decide_True by (done || left).
      change (x :: thread i u) with ([x] ++ thread i u). rewrite omap_app, length_app. lia.
    - rewrite thread_cons_ne by done. destruct (decide (j ∈ l)).
      + rewrite decide_True by (by right). lia.
      + rewrite decide_False by (by intros [?|?]%elem_of_cons). lia. }
  rewrite Hsum by apply NoDup_seq. rewrite decide_True by (apply elem_of_seq; lia).
  rewrite <-IH by (intros; eapply Hlt; by right).
  rewrite fmap_cons. change (omap f ((j, x).2 :: u.*2)) with (omap f ([x] ++ u.*2)).
  rewrite omap_app, length_app. lia.
Qed.

Lemma sum_list_with_bound (g : nat -> nat) (l : list nat) :
  (forall i, i ∈ l -> g i <= 1) -> sum_list_with g l <= length l.
Proof.
  induction l as [|j l IH]; intros Hle; simpl; [lia|].
  assert (g j <= 1) by (apply Hle; left).
  assert (sum_list_with g l <= length l) by (apply IH; intros; apply Hle; by right). lia.
Qed.

(** If no thread contributes more than one and the total is the number of
    threads, each contributes one. *)
Lemma sum_list_pigeonhole (g : nat -> nat) (l : list nat) :
  (forall i, i ∈ l -> g i <= 1) -> length l <= sum_list_with g l -> forall i, i ∈ l -> g i = 1.
Proof.
  induction l as [|j l IH]; intros Hle Hsum i Hi; [by apply elem_of_nil in Hi|].
  simpl in Hsum.
  assert (g j <= 1) by (apply Hle; left).
  assert (sum_list_with g l <= length l) by (apply sum_list_with_bound; intros; apply Hle; by right).
  apply elem_of_cons in Hi as [->|Hi]; [lia|].
  apply IH; [intros; apply Hle; by right|lia|done].
Qed.

Lemma omap_filter_length (g : A -> option nat) (n : nat) (l : list A) :
  length (omap (fun x => match g x with Some c => if decide (c = n) then Some tt else None | None => None end) l) =
  length (base.filter (fun c => c = n) (omap g l)).
Proof.
  induction l as [|x l IH]; [done|]. cbn [omap list_omap].
  destruct (g x) as [c|]; [|exact IH].
  rewrite filter_cons. destruct (decide (c = n)); cbn [length]; by rewrite <-IH.
Qed.

Lemma filter_seq_once n m k : length (base.filter (fun c => c = n) (seq k m)) <= 1.
Proof.
  assert (NoDup (base.filter (fun c => c = n) (seq k m))) as Hnd by apply NoDup_filter, NoDup_seq.
  assert (forall c, c ∈ base.filter (fun c => c = n) (seq k m) -> c = n) as Hall
    by (by intros c [? _]%list_elem_of_filter).
  destruct (base.filter _ _) as [|a [|b l]]; simpl; [lia|lia|exfalso].
  apply NoDup_cons in Hnd as [Hab _]. apply Hab. rewrite (Hall a), (Hall b) by set_solver. left.
Qed.

Lemma sum_list_with_mono (g h : nat -> nat) (l : list nat) :
  (forall i, i ∈ l -> g i <= h i) -> sum_list_with g l <= sum_list_with h l.
Proof.
  induction l as [|j l IH]; intros Hle; simpl; [lia|].
  assert (g j <= h j) by (apply Hle; left).
  assert (sum_list_with g l <= sum_list_with h l) by (apply IH; intros; apply Hle; by right). lia.
Qed.

End counting.

Section facts.
Import remotecluster.
Context {E : Type -> Type} {Cl O : Type} `{Subeffect (remoteE Cl) E} `{UrlParse}.
Implicit Types (remote : RemoteCluster) (ctx : Context Cl O) (p : remoteClusterProvisioner (E := E) (Cl := Cl) (O := O)).
Implicit Types (t : trace E) (u : list (nat * event E)).

Abbreviation ev_lock r := (Ev (inject (Lock (Cl := Cl) r)) tt).
Abbreviation ev_unlock r := (Ev (inject (Unlock (Cl := Cl) r)) tt).
Abbreviation ev_count r c := (Ev (inject (IncrementCurrentCount (Cl := Cl) r)) c).
Abbreviation ev_delete remote a := (Ev (inject (DeleteCluster (Cl := Cl) (ident remote) (generator_ID remote))) a).

(** A child that has nothing to do with [r], whatever it is run in. *)
Definition quiet_child (r : nat) p : Prop :=
  forall ctx t a, pexec (Combinators.Provision (child p) ctx) t a \/ pexec (Combinators.Deprovision (child p) ctx) t a ->
    quiet r t.

Lemma getClient_exec remote t c :
  pexec (getClient remote) t c -> forall r, quiet (E := E) r t.
Proof.
  unfold getClient. intros Hx r.
  apply pexec_bind in Hx as (t1 & t2 & config & -> & ->%pexec_pcall & Hx).
  apply quiet_app; [by split_and!; observe|].
  destruct config as [config|err]; [|by pexec_step].
  apply pexec_bind in Hx as (t1 & t3 & client & -> & ->%pexec_pcall & Hx).
  apply quiet_app; [by split_and!; observe|]. by destruct client; pexec_step.
Qed.

Lemma deprovisionChild_quiet remote p ctx t a r :
  quiet_child r p -> pexec (deprovisionChild remote p ctx) t a -> quiet r t.
Proof.
  unfold deprovisionChild. intros Hq Hx.
  apply pexec_bind in Hx as (t1 & t2 & c & -> & Hc & Hx).
  apply quiet_app; [by eapply getClient_exec|].
  destruct c as [[client config]|err]; [|by destruct (errors_is err _); destruct Hx as [-> _]].
  destruct (getKuebernetesURL config); [|by pexec_step]. eapply Hq. by right.
Qed.

(** At the start of [t], the child of [p] was torn down in the remote cluster: a
    client was made from the cluster's configuration, and deprovisioning the child
    with it answered no error.  Or nothing was left to tear it down with: the
    configuration or the client answered a yield, which the code takes to mean that
    the cluster, and so the child, is gone. *)
Definition torn_down remote p ctx t : Prop :=
  (exists config client cluster ctx' t', ([Ev (inject (GeneratorConfig (Cl := Cl) (ident remote))) (Ok config);
       Ev (inject (NewClient (Cl := Cl) config)) (Ok client)] ++ t') `prefix_of` t /\
     ctx_Client cluster = client /\ ctx_ID cluster = Some (generator_ID remote) /\
     ClusterFromContext ctx' = Ok cluster /\
     BackgroundDeletionFromContext ctx' = backgroundDeletion p || BackgroundDeletionFromContext ctx /\
     pexec (Combinators.Deprovision (child p) ctx') t' None) \/
  (exists err, errors_is err provisioners_ErrYield = true /\
    ([Ev (inject (GeneratorConfig (Cl := Cl) (ident remote))) (Err err)] `prefix_of` t \/
     exists config, [Ev (inject (GeneratorConfig (Cl := Cl) (ident remote))) (Ok config);
                     Ev (inject (NewClient (Cl := Cl) config)) (Err err)] `prefix_of` t)).

Lemma deprovisionChild_torn_down remote p ctx t0 t :
  pexec (deprovisionChild remote p ctx) t0 None -> t0 `prefix_of` t -> torn_down remote p ctx t.
Proof.
  unfold deprovisionChild, getClient. intros Hx Hp.
  apply pexec_bind in Hx as (t1 & t2 & c & -> & Hc & Hx).
  apply pexec_bind in Hc as (t3 & t4 & config & -> & ->%pexec_pcall & Hc).
  destruct config as [config|err].
  2: { apply pexec_mret in Hc as [-> ->]. right. exists err. destruct (errors_is err _); [|by destruct Hx].
       split; [done|left]. etrans; [|exact Hp]. by apply prefix_app_r. }
  apply pexec_bind in Hc as (t5 & t6 & client & -> & ->%pexec_pcall & Hc).
  destruct client as [client|err]; apply pexec_mret in Hc as [-> ->].
  2: { right. exists err. destruct (errors_is err _); [|by destruct Hx].
       split; [done|right]. exists config. etrans; [|exact Hp]. by apply prefix_app_r. }
  destruct (getKuebernetesURL config) as [url|]; [left|by apply pexec_mret in Hx as [_ ?]].
  unfold remoteContext in Hx. destruct (getHostPort url) as [host port].
  eexists config, client, {| ctx_Client := client; ctx_ID := Some (generator_ID remote); ctx_Host := host; ctx_Port := port |}, _, t2.
  split; [exact Hp|]. split_and!; [..|exact Hx]; by destruct (backgroundDeletion p).
Qed.

Lemma deprovision_exec remote p ctx t r :
  pexec (Deprovision remote p ctx) t r <->
  (exists e, r = Some e /\ pexec (deprovisionChild remote p ctx) t (Some e)) \/
  exists t0 c, pexec (deprovisionChild remote p ctx) t0 None /\
    t = t0 ++ [ev_lock (ident remote); ev_count (ident remote) c] ++
      (if controller remote && (c =? refCount remote) then [ev_delete remote r] else []) ++
      [ev_unlock (ident remote)] /\
    (controller remote && (c =? refCount remote) = false -> r = None).
Proof.
  unfold Deprovision. rewrite pexec_pcheck. apply or_iff_compat_l. split.
  - intros (t0 & t2 & -> & Hc & Hx). exists t0.
    apply pexec_bind in Hx as (t3 & t4 & [] & -> & ->%pexec_pcall & Hx).
    apply pexec_bind in Hx as (t3 & t5 & err & -> & Hl & Hx).
    apply pexec_bind in Hx as (t6 & t7 & [] & -> & ->%pexec_pcall & [-> ->]).
    unfold deprovisionRemoteLocked in Hl.
    apply pexec_bind in Hl as (t6 & t8 & c & -> & ->%pexec_pcall & Hl).
    exists c. split; [done|]. destruct (controller remote && (c =? refCount remote)).
    + apply pexec_pcall in Hl as ->. done.
    + apply pexec_mret in Hl as [-> ->]. done.
  - intros (t0 & c & Hc & -> & Hr). eexists t0, _. split; [done|]. split; [done|].
    apply pexec_bind. eexists [_], _, tt. split_and!; [done|by apply pexec_pcall|].
    apply pexec_bind.
    exists (ev_count (ident remote) c ::
      (if controller remote && (c =? refCount remote) then [ev_delete remote r] else [])), [ev_unlock (ident remote)], r.
    split_and!; [by destruct (_ && _)| |].
    + apply pexec_bind. eexists [_], _, c. split_and!; [done|by apply pexec_pcall|].
      destruct (controller remote && (c =? refCount remote)); [by apply pexec_pcall|]. by rewrite Hr.
    + apply pexec_bind. eexists [_], [], tt. split_and!; [done|by apply pexec_pcall|done].
Qed.

(** What one thread of a teardown contributes. *)
Lemma deprovision_thread remote p ctx t r :
  quiet_child (ident remote) p -> pexec (Deprovision remote p ctx) t r ->
  length (omap (increment (ident remote)) t) <= 1 /\
  (forall ta ev tb, t = ta ++ ev :: tb -> deletion (ident remote) ev = Some tt ->
    refCount remote ∈ omap (increment (ident remote)) ta) /\
  (forall ta tb c, t = ta ++ tb -> c ∈ omap (increment (ident remote)) ta -> torn_down remote p ctx ta) /\
  length (omap (deletion (ident remote)) t) <= length (omap (increment_to (ident remote) (refCount remote)) t).
Proof.
  intros Hq [(e & -> & Hc)|(t0 & c & Hc & -> & Hr)]%deprovision_exec.
  - apply (deprovisionChild_quiet _ _ _ _ _ (ident remote)) in Hc as (Hi & Hd & _); [|done].
    rewrite Hi, Hd. split_and!; [simpl; lia| | |simpl; lia].
    + intros ta ev tb -> Hev. exfalso. by rewrite (omap_nil_elem _ _ ev Hd) in Hev by set_solver.
    + intros ta tb c -> Hin. rewrite omap_app in Hi. apply app_eq_nil in Hi as [Hi _]. rewrite Hi in Hin.
      by apply elem_of_nil in Hin.
  - assert (quiet (ident remote) t0) as (Hi & Hd & _) by (by eapply deprovisionChild_quiet).
    split_and!.
    + rewrite omap_app, Hi, app_nil_l. destruct (controller remote && _); observe; simpl; lia.
    + intros ta ev tb Heq Hev. apply app_split_after in Heq as (k & -> & Heq); [|].
      2: { intros Hin. by rewrite (omap_nil_elem _ _ ev Hd) in Hev. }
      rewrite omap_app, Hi, app_nil_l.
      destruct k as [|x k]; simplify_eq/=; [unfold deletion in Hev; by rewrite of_remote_inject in Hev|].
      destruct k as [|y k]; simplify_eq/=; [unfold deletion in Hev; by rewrite of_remote_inject in Hev|].
      destruct (controller remote && (c =? refCount remote)) eqn:Hcond.
      2: { destruct k as [|z [|]]; simplify_eq/=. unfold deletion in Hev. by rewrite of_remote_inject in Hev. }
      apply andb_true_iff in Hcond as [_ ->%Nat.eqb_eq]. observe. left.
    + intros ta tb c' Heq Hin. apply app_eq_inv in Heq as [(k & -> & _)|(k & -> & _)].
      * rewrite omap_app in Hi. apply app_eq_nil in Hi as [Hi _]. rewrite Hi in Hin. by apply elem_of_nil in Hin.
      * eapply deprovisionChild_torn_down; [done|]. by apply prefix_app_r.
    + rewrite !omap_app, Hd. rewrite !length_app.
      destruct (controller remote && (c =? refCount remote)) eqn:Hcond.
      * apply andb_true_iff in Hcond as [_ ->%Nat.eqb_eq]. unfold increment_to. observe. simpl. lia.
      * unfold increment_to. observe. simpl. lia.
Qed.

(** A deprovisioning pass: the threads of the provisioners that share [remote]. *)
Section teardown.
Variables (remote : RemoteCluster) (ts : list (trace E)) (u : list (nat * event E)).
Variable jobs : list (remoteClusterProvisioner (E := E) (Cl := Cl) (O := O) * Context Cl O).
Hypothesis Hlt : forall i ev, (i, ev) ∈ u -> i < length ts.
Hypothesis Hthread : forall i, i < length ts -> exists p ctx r, jobs !! i = Some (p, ctx) /\
  quiet_child (ident remote) p /\ pexec (Deprovision remote p ctx) (thread i u) r.
Hypothesis Hcount : counted (ident remote) u.*2.

Lemma teardown_once : length (omap (deletion (ident remote)) u.*2) <= 1.
Proof.
  rewrite (omap_thread_length _ (length ts)) by done.
  etrans; [apply (sum_list_with_mono _ (fun i => length (omap (increment_to (ident remote) (refCount remote)) (thread i u))))|].
  { intros i Hi%elem_of_seq. destruct (Hthread i) as (p & ctx & r & _ & Hq & Hx); [lia|].
    by apply (deprovision_thread _ _ _ _ _ Hq Hx). }
  rewrite <-omap_thread_length by done.
  unfold increment_to. rewrite omap_filter_length, Hcount. apply filter_seq_once.
Qed.

(** Once a thread has been answered [n], [n] increments have happened. *)
Lemma counted_many j ua ub n :
  u = ua ++ ub -> n ∈ omap (increment (ident remote)) (thread j ua) ->
  n <= length (omap (increment (ident remote)) ua.*2).
Proof.
  intros -> Hin. unfold counted in Hcount. rewrite fmap_app, omap_app, length_app, seq_app in Hcount.
  apply app_inj_1 in Hcount as [Hcount' _]; [|by rewrite length_seq].
  apply list_elem_of_omap in Hin as (x & Hx' & Hfx).
  assert (n ∈ omap (increment (ident remote)) ua.*2) as Hin.
  { apply list_elem_of_omap. exists x. split; [|done]. apply elem_of_thread in Hx'.
    apply list_elem_of_fmap. by exists (j, x). }
  rewrite Hcount' in Hin. apply elem_of_seq in Hin. lia.
Qed.

(** No thread increments twice. *)
Lemma teardown_thread_once ua ub i :
  u = ua ++ ub -> i < length ts -> length (omap (increment (ident remote)) (thread i ua)) <= 1.
Proof.
  intros Hu Hi. destruct (Hthread i Hi) as (p & ctx & r & _ & Hq & Hx).
  destruct (deprovision_thread _ _ _ _ _ Hq Hx) as (Hl & _).
  rewrite Hu, thread_app, omap_app, length_app in Hl. lia.
Qed.

(** If at some point there have been as many increments as threads, every
    thread's child has been torn down by then. *)
Lemma teardown_all ua ub :
  u = ua ++ ub -> length ts <= length (omap (increment (ident remote)) ua.*2) ->
  forall i p ctx, i < length ts -> jobs !! i = Some (p, ctx) -> torn_down remote p ctx (thread i ua).
Proof.
  intros Hu Hmany i p ctx Hilt Hi.
  rewrite (omap_thread_length _ (length ts)) in Hmany
    by (intros k x Hin; apply (Hlt k x); rewrite Hu; apply elem_of_app; by left).
  assert (length (omap (increment (ident remote)) (thread i ua)) = 1) as H1.
  { apply (sum_list_pigeonhole (fun i => length (omap (increment (ident remote)) (thread i ua))) (seq 0 (length ts)));
      [|by rewrite length_seq|apply elem_of_seq; lia].
    intros k Hk%elem_of_seq. eapply teardown_thread_once; [done|lia]. }
  destruct (Hthread i Hilt) as (p2 & ctx2 & r & Hi2 & Hq & Hx). simplify_eq.
  destruct (deprovision_thread _ _ _ _ _ Hq Hx) as (_ & _ & Hsucc & _).
  destruct (omap (increment (ident remote)) (thread i ua)) as [|c [|]] eqn:Hc; simplify_eq/=.
  eapply (Hsucc (thread i ua) _ c); [by rewrite thread_app|rewrite Hc; left].
Qed.

(** A deletion is preceded by [refCount] increments. *)
Lemma teardown_deletion ua j ev ub :
  u = ua ++ (j, ev) :: ub -> deletion (ident remote) ev = Some tt ->
  refCount remote <= length (omap (increment (ident remote)) ua.*2).
Proof.
  intros Hu Hev.
  assert (j < length ts) as Hj by (apply (Hlt j ev); rewrite Hu; apply elem_of_app; right; left).
  destruct (Hthread j Hj) as (p & ctx & r & _ & Hq & Hx).
  destruct (deprovision_thread _ _ _ _ _ Hq Hx) as (_ & Hdel & _).
  specialize (Hdel (thread j ua) ev (thread j ub)).
  rewrite Hu, thread_app, thread_cons_eq in Hdel.
  by eapply counted_many; [|apply Hdel].
Qed.

Lemma teardown_bound ua ub :
  u = ua ++ ub -> length (omap (increment (ident remote)) ua.*2) <= length ts.
Proof.
  intros Hu. rewrite (omap_thread_length _ (length ts))
    by (intros i x Hin; apply (Hlt i x); rewrite Hu; apply elem_of_app; by left).
  rewrite <-(length_seq (length ts) 0) at 2. apply sum_list_with_bound.
  intros k Hk%elem_of_seq. eapply teardown_thread_once; [done|lia].
Qed.

End teardown.

(** C9 The registration of a remote cluster is torn down at most once in a
    deprovisioning pass, however the provisioners that share it interleave, and
    only when every one of them has, before it, torn its child down in the remote
    cluster without an error, or found that there is no cluster to reach. *)
Theorem remote_teardown_last remote jobs ts u :
  Forall2 (fun '(p, ctx) t =>
    quiet_child (ident remote) p /\ exists r, pexec (Deprovision remote p ctx) t r) jobs ts ->
  length jobs <= refCount remote -> interleaves ts u -> counted (ident remote) u.*2 ->
  length (omap (deletion (ident remote)) u.*2) <= 1 /\
  forall ua j ev ub, u = ua ++ (j, ev) :: ub -> deletion (ident remote) ev = Some tt ->
    length jobs = refCount remote /\
    forall i p ctx, jobs !! i = Some (p, ctx) -> torn_down remote p ctx (thread i ua).
Proof.
  intros Hjobs Hlen [Hlt Hth] Hcount. pose proof (Forall2_length _ _ _ Hjobs) as Hlts.
  assert (forall i, i < length ts -> exists p ctx r, jobs !! i = Some (p, ctx) /\
    quiet_child (ident remote) p /\ pexec (Deprovision remote p ctx) (thread i u) r) as Hthread.
  { intros i Hi. destruct (lookup_lt_is_Some_2 ts i Hi) as [t Ht].
    destruct (Forall2_lookup_r _ _ _ _ _ Hjobs Ht) as ([p ctx] & Hj & Hq & r & Hx).
    rewrite (Hth i t Ht). eauto 10. }
  split; [by eapply teardown_once|]. intros ua j ev ub Hu Hev.
  assert (refCount remote <= length (omap (increment (ident remote)) ua.*2)) as Hdel
    by (by eapply (teardown_deletion remote ts)).
  assert (length (omap (increment (ident remote)) ua.*2) <= length ts) as Hub
    by (by eapply (teardown_bound remote ts)).
  split; [lia|]. intros i p ctx Hi. pose proof (lookup_lt_Some _ _ _ Hi).
  eapply (teardown_all remote ts); [done..|lia|lia|done].
Qed.

(** *** Bringing a remote up *)

Abbreviation ev_config r a := (Ev (inject (GeneratorConfig (Cl := Cl) r)) a).
Abbreviation ev_register remote config prefix a :=
  (Ev (inject (CreateOrUpdateCluster (Cl := Cl) (generator_ID remote)
     {| cd.Config := config; cd.Prefix := prefix |})) a).

(** What the critical section of provisionRemote does for count [c]. *)
Definition registers remote p (c : nat) t (r : option error) : Prop :=
  if controller remote && (c =? 1) then
    exists res, (exists err, res = Err err /\ t = [ev_config (ident remote) res] /\ r = Some err) \/
      (exists config a, res = Ok config /\
        t = [ev_config (ident remote) res; ev_register remote config (prefix p) a] /\
        r = match a with Some _ => Some provisioners.ErrYield | None => None end)
  else t = [] /\ r = None.

Lemma registers_quiet remote p c t r k : registers remote p c t r -> quiet k t.
Proof.
  unfold registers. destruct (controller remote && (c =? 1)); [|by intros [-> _]].
  intros (res & [(err & -> & -> & _)|(config & a & -> & -> & _)]); by split_and!; observe.
Qed.

Lemma provisionRemote_exec remote p t r :
  pexec (provisionRemote remote p) t r ->
  exists c body, t = ev_lock (ident remote) :: ev_count (ident remote) c :: body ++ [ev_unlock (ident remote)] /\
    registers remote p c body r.
Proof.
  unfold provisionRemote, provisionRemoteLocked. intros Hx.
  apply pexec_bind in Hx as (t1 & t2 & [] & -> & ->%pexec_pcall & Hx).
  apply pexec_bind in Hx as (t1 & t3 & err & -> & Hl & Hx).
  apply pexec_bind in Hx as (t4 & t5 & [] & -> & ->%pexec_pcall & [-> ->]).
  apply pexec_bind in Hl as (t4 & body & c & -> & ->%pexec_pcall & Hl).
  exists c, body. split; [done|]. unfold registers.
  destruct (controller remote && (c =? 1)); [|by pexec_step].
  apply pexec_pattempt in Hl as [(e & -> & ->%pexec_pcall)|(t1 & t2 & config & -> & ->%pexec_pcall & Hl)];
    eexists; [left; eauto|right].
  apply pexec_bind in Hl as (t1 & t3 & a & -> & ->%pexec_pcall & Hl). exists config, a.
  split_and!; [done| |]; by destruct a; destruct Hl as [-> ->].
Qed.

Lemma provision_exec remote p ctx t r :
  quiet_child (ident remote) p -> pexec (Provision remote p ctx) t r ->
  exists c body rest rr, t = (ev_lock (ident remote) :: ev_count (ident remote) c :: body) ++
      ev_unlock (ident remote) :: rest /\
    registers remote p c body rr /\ quiet (ident remote) rest /\
    (rr <> None -> rest = [] /\ r = rr).
Proof.
  unfold Provision. intros Hq Hx.
  apply pexec_pcheck in Hx as [(e & -> & Hx)|(t1 & t2 & -> & H1 & Hx)].
  - apply provisionRemote_exec in Hx as (c & body & -> & Hr). exists c, body, [], (Some e). done.
  - apply provisionRemote_exec in H1 as (c & body & -> & Hr). exists c, body, t2, None.
    split_and!; [by rewrite <-!app_comm_cons, <-app_assoc|done| |done].
    apply pexec_pattempt in Hx as [(e & -> & Hx)|(t3 & t4 & [client config] & -> & H1 & Hx)];
      [by eapply getClient_exec|].
    apply quiet_app; [by eapply getClient_exec|].
    destruct (getKuebernetesURL config); [|by pexec_step]. eapply Hq. by left.
Qed.

(** The registration of [remote] has been attempted: its configuration was asked
    for and, if there was one, it was handed to the driver, which answered. *)
Definition attempted remote t : Prop :=
  exists res, ev_config (ident remote) res ∈ t /\
    forall config, res = Ok config -> exists prefix a, ev_register remote config prefix a ∈ t.

Lemma registers_attempted remote p t r : controller remote = true -> registers remote p 1 t r -> attempted remote t.
Proof.
  unfold registers, attempted. intros -> (res & [(err & -> & -> & _)|(config & a & -> & -> & _)]); eexists;
    (split; [left|]); intros; simplify_eq. eexists _, _. right; left.
Qed.

Lemma provision_increment remote p ctx t r :
  quiet_child (ident remote) p -> pexec (Provision remote p ctx) t r ->
  exists c, omap (increment (ident remote)) t = [c].
Proof.
  intros Hq (c & body & rest & rr & -> & Hreg & (Hi & _) & _)%provision_exec; [|done].
  destruct (registers_quiet _ _ _ _ _ (ident remote) Hreg) as (Hb & _). exists c.
  rewrite omap_app. cbn [omap list_omap]. rewrite Hb, Hi. by observe.
Qed.

(** What one thread of a provisioning pass contributes. *)
Lemma provision_thread remote p ctx t r :
  quiet_child (ident remote) p -> pexec (Provision remote p ctx) t r ->
  (forall ta tb, t = ta ++ tb -> length (omap (increment (ident remote)) ta) <= length (omap (locking (ident remote)) ta)) /\
  (forall ta ev tb, t = ta ++ ev :: tb -> locking (ident remote) ev = Some false ->
    exists c body rr, ta = ev_lock (ident remote) :: ev_count (ident remote) c :: body /\ registers remote p c body rr).
Proof.
  intros Hq (c & body & rest & rr & -> & Hreg & (Hi & _ & Hl) & _)%provision_exec; [|done].
  pose proof (registers_quiet _ _ _ _ _ (ident remote) Hreg) as (Hib & _ & Hlb). split.
  - intros ta tb Heq.
    destruct ta as [|x ta]; [simpl; lia|]. simplify_eq/=.
    destruct ta as [|y ta]; simplify_eq/=; [unfold increment; rewrite of_remote_inject; simpl; lia|].
    assert (omap (increment (ident remote)) (ta ++ tb) = []) as Hnil.
    { match goal with H : _ ++ _ = ta ++ tb |- _ => rewrite <-H end. rewrite omap_app, Hib. by observe. }
    rewrite omap_app in Hnil. apply app_eq_nil in Hnil as [Hnil _].
    rewrite Hnil. observe. simpl. lia.
  - intros ta ev tb Heq Hev. apply app_split_after in Heq as (k & -> & Heq).
    + destruct k as [|z k]; simplify_eq/=; [rewrite app_nil_r; eauto|exfalso].
      by rewrite (omap_nil_elem _ _ ev Hl) in Hev by set_solver.
    + intros [->|[->|Hin]%elem_of_cons]%elem_of_cons.
      * unfold locking in Hev. rewrite of_remote_inject in Hev. by rewrite decide_True in Hev.
      * unfold locking in Hev. by rewrite of_remote_inject in Hev.
      * by rewrite (omap_nil_elem _ _ ev Hlb) in Hev.
Qed.

(** The first unlock of a mutex is preceded by one lock. *)
Lemma alternates_first b l1 l2 :
  alternates false (l1 ++ false :: l2) = true -> false ∉ l1 -> b ∈ l1 -> l1 = [true].
Proof.
  intros Ha Hn Hb. destruct l1 as [|[] l1]; [by apply elem_of_nil in Hb| |set_solver].
  destruct l1 as [|[] l1]; simpl in *; [done|done|set_solver].
Qed.

(** An unlock of [r]'s mutex, and an attempt to build a client. *)
Definition unlocking (r : nat) (ev : event E) : option unit :=
  match locking (Cl := Cl) r ev with Some false => Some tt | _ => None end.

Lemma first_match {A B} (f : A -> option B) (l : list A) :
  omap f l <> [] -> exists l1 x l2, l = l1 ++ x :: l2 /\ f x <> None /\ omap f l1 = [].
Proof.
  induction l as [|x l IH]; [done|]. cbn [omap list_omap]. destruct (f x) as [y|] eqn:Hf; intros Hne.
  - exists [], x, l. by rewrite Hf.
  - destruct (IH Hne) as (l1 & z & l2 & -> & Hz & Hl1). exists (x :: l1), z, l2.
    cbn [omap list_omap]. by rewrite Hf.
Qed.

Lemma unlocking_none r t : omap (unlocking r) t = [] -> false ∉ omap (locking (E := E) (Cl := Cl) r) t.
Proof.
  intros Hn (ev & Hin & Hl)%list_elem_of_omap.
  pose proof (omap_nil_elem _ _ _ Hn Hin) as Hu. unfold unlocking in Hu. by rewrite Hl in Hu.
Qed.

(** A provisioning pass of a controlling remote. *)
Section bringup.
Variables (remote : RemoteCluster) (ts : list (trace E)) (u : list (nat * event E)).
Hypothesis Hctl : controller remote = true.
Hypothesis Hlt : forall i ev, (i, ev) ∈ u -> i < length ts.
Hypothesis Hthread : forall i, i < length ts -> exists p ctx r,
  quiet_child (ident remote) p /\ pexec (Provision remote p ctx) (thread i u) r.
Hypothesis Hcount : counted (ident remote) u.*2.
Hypothesis Hexcl : exclusive (ident remote) u.*2.

(** By the first unlock, the first caller has attempted the registration. *)
Lemma first_unlock_attempted u1 j ev u2 :
  u = u1 ++ (j, ev) :: u2 -> locking (ident remote) ev = Some false ->
  omap (unlocking (ident remote)) u1.*2 = [] -> attempted remote u1.*2.
Proof.
  intros Hu Hev Hfirst. apply unlocking_none in Hfirst.
  assert (j < length ts) as Hj by (apply (Hlt j ev); rewrite Hu; apply elem_of_app; right; left).
  destruct (Hthread j Hj) as (p & ctx & r & Hq & Hx).
  destruct (provision_thread _ _ _ _ _ Hq Hx) as [_ Hcrit].
  destruct (Hcrit (thread j u1) ev (thread j u2)) as (c & body & rr & Hta & Hreg);
    [by rewrite Hu, thread_app, thread_cons_eq|done|].
  assert (forall ev', ev' ∈ thread j u1 -> ev' ∈ u1.*2) as Hsub.
  { intros ev' Hin%elem_of_thread. apply list_elem_of_fmap. by exists (j, ev'). }
  assert (omap (locking (ident remote)) u1.*2 = [true]) as Hlock.
  { unfold exclusive in Hexcl. rewrite Hu, fmap_app, fmap_cons, omap_app in Hexcl. cbn [omap list_omap snd] in Hexcl.
    rewrite Hev in Hexcl. apply (alternates_first true _ _ Hexcl Hfirst).
    apply list_elem_of_omap. exists (ev_lock (ident remote)).
    split; [apply Hsub; rewrite Hta; left|]. observe. done. }
  assert (length (omap (increment (ident remote)) u1.*2) <= 1) as Hone.
  { change 1 with (length [true]). rewrite <-Hlock.
    assert (forall i x, (i, x) ∈ u1 -> i < length ts) as Hlt1
      by (intros i x Hin; apply (Hlt i x); rewrite Hu; apply elem_of_app; by left).
    rewrite !(omap_thread_length _ (length ts)) by done. apply sum_list_with_mono.
    intros i Hi%elem_of_seq. destruct (Hthread i) as (p' & ctx' & r' & Hq' & Hx'); [lia|].
    destruct (provision_thread _ _ _ _ _ Hq' Hx') as [Hpre _]. eapply Hpre. by rewrite Hu, thread_app. }
  assert (c ∈ omap (increment (ident remote)) u1.*2) as Hc.
  { apply list_elem_of_omap. exists (ev_count (ident remote) c).
    split; [apply Hsub; rewrite Hta; right; left|]. by observe. }
  assert (c = 1) as ->.
  { unfold counted in Hcount. rewrite Hu, fmap_app, omap_app, length_app, seq_app in Hcount.
    apply app_inj_1 in Hcount as [Hc1 _]; [|by rewrite length_seq].
    rewrite Hc1 in Hc. apply elem_of_seq in Hc. lia. }
  destruct (registers_attempted _ _ _ _ Hctl Hreg) as (res & Hres & Hcfg).
  exists res. split; [apply Hsub; rewrite Hta; by do 2 right|].
  intros config Hok. destruct (Hcfg config Hok) as (prefix & a & Hin).
  exists prefix, a. apply Hsub. rewrite Hta. by do 2 right.
Qed.

End bringup.

(** Before any caller of a controlling remote leaves its critical section, and
    so before any child is provisioned inside the remote, its registration has
    been attempted: the mutex makes the others wait for the first. *)
Theorem remote_registered_first remote jobs ts u :
  Forall2 (fun '(p, ctx) t =>
    quiet_child (ident remote) p /\ exists r, pexec (Provision remote p ctx) t r) jobs ts ->
  controller remote = true -> interleaves ts u ->
  counted (ident remote) u.*2 -> exclusive (ident remote) u.*2 ->
  forall ua ub, u = ua ++ ub -> omap (unlocking (ident remote)) ua.*2 <> [] -> attempted remote ua.*2.
Proof.
  intros Hjobs Hctl [Hlt Hth] Hcount Hexcl ua ub Hu Hne.
  apply first_match in Hne as (t1 & ev & t2 & Hua & Hev & Hnone).
  apply fmap_app_inv in Hua as (u1 & u2' & Ht1 & Hu2 & Hua).
  destruct u2' as [|[j ev'] u2]; [done|]. rewrite fmap_cons in Hu2. simplify_eq. cbn [snd] in *.
  assert (attempted remote u1.*2) as (res & Hres & Hcfg).
  { eapply (first_unlock_attempted remote ts _ Hctl Hlt); [|done|done|by rewrite <-app_assoc| |done].
    - intros i Hi. destruct (lookup_lt_is_Some_2 ts i Hi) as [t Ht].
      destruct (Forall2_lookup_r _ _ _ _ _ Hjobs Ht) as ([p ctx] & Hj & Hq & r & Hx).
      rewrite (Hth i t Ht). eauto 10.
    - unfold unlocking in Hev. by destruct (locking (ident remote) ev') as [[]|]. }
  exists res. rewrite fmap_app. split; [apply elem_of_app; by left|].
  intros config Hok. destruct (Hcfg config Hok) as (prefix & a & Hin). exists prefix, a. apply elem_of_app. by left.
Qed.

(** A child that a false condition tears down during a provisioning pass
    counts as a caller of its remote: with two users of a remote, disabling the
    second one deletes the registration the first has just provisioned into. *)
Theorem conditional_child_unregisters remote a b flag name ctx t :
  controller remote = true -> refCount remote = 2 ->
  quiet_child (ident remote) a -> quiet_child (ident remote) b ->
  (forall x, quiet (ident remote) [Ev flag x]) ->
  pexec (serial.Provision [as_provisioner remote a; conditional.New name flag (as_provisioner remote b)] ctx) t None ->
  counted (ident remote) t ->
  exists t1 x t2, t = t1 ++ Ev flag x :: t2 /\
    pexec (Provision remote a ctx) t1 None /\
    (x = false -> omap (deletion (ident remote)) t2 = [tt]).
Proof.
  intros Hctl Href Ha Hb Hflag Hx Hcount.
  apply serial_provision_spec in Hx. simpl in Hx.
  inversion Hx as [| |? ? t1 t' ? H1 Hx']; subst.
  inversion Hx' as [| |? ? t2 t3 ? H2 Hx'']; subst. inversion Hx''; subst. rewrite app_nil_r in *.
  apply conditional_exec in H2 as (x & t2' & -> & H2). exists t1, x, t2'. split_and!; [done|done|intros ->].
  destruct (provision_increment _ _ _ _ _ Ha H1) as [c1 Hc1].
  apply deprovision_exec in H2 as [(e & ? & _)|(t0 & c & H2 & -> & _)]; [done|].
  assert (quiet (ident remote) t0) as (Hi0 & Hd0 & _) by (by eapply deprovisionChild_quiet).
  destruct (Hflag false) as (Hif & _).
  assert (c = 2) as ->.
  { unfold counted in Hcount. change (Ev flag false :: ?l) with ([Ev flag false] ++ l) in Hcount.
    rewrite !omap_app, Hc1, Hif, Hi0 in Hcount.
    destruct (controller remote && (c =? refCount remote)); revert Hcount; observe; simpl; congruence. }
  rewrite Hctl, Href, Nat.eqb_refl. cbn [andb]. rewrite !omap_app, Hd0. by observe.
Qed.

(** A failed registration only holds back the caller that attempted it: the
    next one in a concurrent group goes on to provision its child in a cluster
    the driver does not know. *)
Theorem registration_failure_not_shared remote a b ctx config client url err t2 :
  controller remote = true -> getKuebernetesURL config = Ok url ->
  pexec (Combinators.Provision (child b) (remoteContext remote ctx client url)) t2 None -> quiet (ident remote) t2 ->
  exists t, pexec (concurrent.Provision [as_provisioner remote a; as_provisioner remote b] ctx) t (Some provisioners.ErrYield) /\
    counted (ident remote) t /\ exclusive (ident remote) t /\
    ev_register remote config (prefix a) (Some err) ∈ t /\ sublist t2 t.
Proof.
  intros Hctl Hurl Hb (Hi & _ & Hl).
  pose (ta := [ev_lock (ident remote); ev_count (ident remote) 1; ev_config (ident remote) (Ok config);
    ev_register remote config (prefix a) (Some err); ev_unlock (ident remote)]).
  pose (tb := [ev_lock (ident remote); ev_count (ident remote) 2; ev_unlock (ident remote);
    ev_config (ident remote) (Ok config); Ev (inject (NewClient (Cl := Cl) config)) (Ok client)] ++ t2).
  exists (ta ++ tb). split_and!.
  - unfold concurrent.Provision. apply pexec_errgroup.
    exists [ta; tb], [Some provisioners.ErrYield; None], ((pair 0 <$> ta) ++ (pair 1 <$> tb)).
    split_and!; [by rewrite tag_untag| |apply interleaves_seq2|left].
    simpl. constructor; [|constructor; [|constructor]].
    + simpl. rewrite Hctl. repeat (eexists _, _; split; [reflexivity|]). done.
    + simpl. rewrite Hctl. do 5 (eexists _, _; split; [reflexivity|]; simpl). by rewrite Hurl.
  - unfold counted, ta, tb. rewrite !omap_app, Hi. by observe.
  - unfold exclusive, ta, tb. rewrite !omap_app, Hl. by observe.
  - apply elem_of_app. left. do 3 right. left.
  - do 2 apply sublist_inserts_l. done.
Qed.

End facts.

(** ** Witnesses *)

Module witnesses.
Import remotecluster.

Inductive labE : Type -> Type :=
| Remote (X : Type) (e : remoteE unit X) : labE X
| Flag : labE bool.

Arguments Remote {X} e.

#[local] Instance lab_remote : Subeffect (remoteE unit) labE.
Proof.
  by refine {| inject X e := Remote e;
               project X e := match e with Remote e => Some e | Flag => None end |}.
Defined.

#[local] Instance url_parse : UrlParse := {| url_Parse s := Ok {| Scheme := "https"; Host := s |} |}.

Definition config : clientcmdapi.Config :=
  {| clientcmdapi.CurrentContext := "admin";
     clientcmdapi.Contexts := {[ "admin" := {| clientcmdapi.Context_Cluster := "c"; clientcmdapi.Context_AuthInfo := "u" |} ]};
     clientcmdapi.Clusters := {[ "c" := {| clientcmdapi.Server := "10.0.0.1:6443"; clientcmdapi.CertificateAuthorityData := None |} ]};
     clientcmdapi.AuthInfos := ∅ |}.

(** A remote two provisioners share; their children make no calls. *)
Definition remote : RemoteCluster :=
  {| ident := 0; generator_ID := {| cd.Name := "vc"; cd.Labels := [] |}; controller := true; refCount := 2 |}.

Definition idle : Provisioner labE (Context unit unit) :=
  {| ProvisionerName := "idle"; Combinators.Provision _ := mret None; Combinators.Deprovision _ := mret None |}.

Definition prov : remoteClusterProvisioner := {| child := idle; backgroundDeletion := false; prefix := "" |}.

Lemma prov_quiet : quiet_child 0 prov.
Proof. intros ctx t a [[-> _]|[-> _]]; done. Qed.

Abbreviation lev e x := (Ev (E := labE) (Remote e) x).

Definition down_thread (c : nat) (tail : trace labE) : trace labE :=
  [lev (GeneratorConfig 0) (Ok config); lev (NewClient config) (Ok tt); lev (Lock 0) tt;
   lev (IncrementCurrentCount 0) c] ++ tail.

Definition down0 : trace labE := down_thread 1 [lev (Unlock 0) tt].
Definition down1 : trace labE := down_thread 2 [lev (DeleteCluster 0 (generator_ID remote)) None; lev (Unlock 0) tt].

Lemma down0_exec : pexec (Deprovision remote prov Background) down0 None.
Proof. repeat (hnf; do 2 eexists; split; [reflexivity|]). done. Qed.

Lemma down1_exec : pexec (Deprovision remote prov Background) down1 None.
Proof. repeat (hnf; do 2 eexists; split; [reflexivity|]). done. Qed.

(** A child that asks whether its flag is down, and yields while it is not. *)
Definition busy : Provisioner labE (Context unit unit) :=
  {| ProvisionerName := "busy"; Combinators.Provision _ := mret None;
     Combinators.Deprovision _ := down ← pcall Flag; mret (if (down : bool) then None else Some provisioners.ErrYield) |}.

Definition busy_prov : remoteClusterProvisioner := {| child := busy; backgroundDeletion := false; prefix := "" |}.

Lemma busy_quiet : quiet_child 0 busy_prov.
Proof.
  intros ctx t a [[-> _]|Hx]; [done|]. simpl in Hx. destruct Hx as (x & t' & -> & [-> _]). done.
Qed.

Definition busy0 : trace labE :=
  [lev (GeneratorConfig 0) (Ok config); lev (NewClient config) (Ok tt); Ev Flag true; lev (Lock 0) tt;
   lev (IncrementCurrentCount 0) 1; lev (Unlock 0) tt].

(** The registration goes after the flag of the first was seen down. *)
Lemma remote_teardown_last_witness :
  length (omap (deletion 0) (busy0 ++ down1)) <= 1 /\
  torn_down remote busy_prov Background busy0 /\ torn_down remote prov Background (take 4 down1).
Proof.
  pose proof (remote_teardown_last remote [(busy_prov, Background); (prov, Background)] [busy0; down1]
    ((pair 0 <$> busy0) ++ (pair 1 <$> down1))) as Hlast.
  destruct Hlast as [Honce Hdown].
  - constructor; [split; [exact busy_quiet|exists None; repeat (hnf; do 2 eexists; split; [reflexivity|]); done]|].
    constructor; [split; [exact prov_quiet|exists None; exact down1_exec]|constructor].
  - reflexivity.
  - apply interleaves_seq2.
  - reflexivity.
  - split; [exact Honce|].
    destruct (Hdown ((pair 0 <$> busy0) ++ (pair 1 <$> take 4 down1)) 1
      (lev (DeleteCluster 0 (generator_ID remote)) None) [(1, lev (Unlock 0) tt)]) as [_ Hall].
    { cbv. reflexivity. }
    { reflexivity. }
    split; [exact (Hall 0 busy_prov Background eq_refl)|exact (Hall 1 prov Background eq_refl)].
Defined.

Definition up0 : trace labE :=
  [lev (Lock 0) tt; lev (IncrementCurrentCount 0) 1; lev (GeneratorConfig 0) (Ok config);
   lev (CreateOrUpdateCluster (generator_ID remote) {| cd.Config := config; cd.Prefix := "" |}) None;
   lev (Unlock 0) tt; lev (GeneratorConfig 0) (Ok config); lev (NewClient config) (Ok tt)].

Definition up1 : trace labE :=
  [lev (Lock 0) tt; lev (IncrementCurrentCount 0) 2; lev (Unlock 0) tt;
   lev (GeneratorConfig 0) (Ok config); lev (NewClient config) (Ok tt)].

Lemma up0_exec : pexec (Provision remote prov Background) up0 None.
Proof. repeat (hnf; do 2 eexists; split; [reflexivity|]). done. Qed.

Lemma up1_exec : pexec (Provision remote prov Background) up1 None.
Proof. repeat (hnf; do 2 eexists; split; [reflexivity|]). done. Qed.

Lemma remote_registered_first_witness : attempted remote up0.
Proof.
  replace up0 with ((pair 0 <$> up0).*2) by reflexivity.
  apply (remote_registered_first remote [(prov, Background); (prov, Background)] [up0; up1]
    ((pair 0 <$> up0) ++ (pair 1 <$> up1))) with (ub := pair 1 <$> up1).
  - constructor; [split; [exact prov_quiet|exists None; exact up0_exec]|].
    constructor; [split; [exact prov_quiet|exists None; exact up1_exec]|constructor].
  - reflexivity.
  - apply interleaves_seq2.
  - reflexivity.
  - reflexivity.
  - reflexivity.
  - discriminate.
Defined.

Lemma conditional_child_unregisters_witness :
  exists t1 x t2, up0 ++ Ev Flag false :: down1 = t1 ++ Ev Flag x :: t2 /\
    pexec (Provision remote prov Background) t1 None /\
    (x = false -> omap (deletion 0) t2 = [tt]).
Proof.
  apply (conditional_child_unregisters remote prov prov Flag "gpu" Background (up0 ++ Ev Flag false :: down1)).
  - reflexivity.
  - reflexivity.
  - exact prov_quiet.
  - exact prov_quiet.
  - intros x. split_and!; reflexivity.
  - apply serial_provision_spec. apply in_order_next; [exact up0_exec|].
    rewrite <-(app_nil_r (Ev Flag false :: down1)). apply in_order_next; [|constructor].
    apply conditional_exec. exists false, down1. split; [done|exact down1_exec].
  - reflexivity.
Defined.

Lemma registration_failure_not_shared_witness :
  exists t, pexec (concurrent.Provision [as_provisioner remote prov; as_provisioner remote prov] Background) t
    (Some provisioners.ErrYield) /\ counted 0 t.
Proof.
  destruct (registration_failure_not_shared remote prov prov Background config tt
    {| Scheme := "https"; Host := "10.0.0.1:6443" |} (Foreign "conflict") []) as (t & Hx & Hc & _).
  - reflexivity.
  - reflexivity.
  - split; reflexivity.
  - split_and!; reflexivity.
  - exists t. split; [exact Hx|exact Hc].
Defined.

End witnesses.
