(* ===== verification/RefreshCache.v ===== *)
(** * RefreshCache: the refresh-ahead cache

    Models the data and operations of pkg/util/cache/refresh_ahead.go: epochs,
    the overlay of local writes, and a refresh, which is split where other
    goroutines may run in between: [newEpoch] at its start, the client's refresh
    function, and the commit under the lock.  A cache of items of type [T] is
    what the lock guards; every operation that takes the lock is one function
    on it.  The concurrent system is in RefreshSystem. *)

From S2P Require Import Prelude Errors.

(** Epoch; the counter is a uint64. *)
Record Epoch := { epoch : Z }.

#[export] Instance Epoch_eq_dec : EqDecision Epoch.
Proof. solve_decision. Defined.

Definition after (e other : Epoch) : bool := (epoch e >? epoch other)%Z.

Definition Valid (e previous : Epoch) : bool := (epoch e =? epoch previous)%Z.

(** Cacheable. *)
Class Cacheable (T : Type) := {
  Index : T -> string;
  Equal : T -> T -> bool;
}.

(** Equal "is used to detect modifications of the data": it is an equivalence. *)
Class CacheableLaws (T : Type) `{Cacheable T} := {
  Equal_refl x : Equal x x = true;
  Equal_sym x y : Equal x y = true -> Equal y x = true;
  Equal_trans x y z : Equal x y = true -> Equal y z = true -> Equal x z = true;
}.

Section cache.
Context {T : Type} `{Cacheable T}.

Abbreviation cacheMap := (gmap string T).

Definition cacheMap_Equal (m o : cacheMap) : bool :=
  if negb (size m =? size o) then false
  else forallb (fun '(k, v) => match o !! k with None => false | Some ov => Equal v ov end) (map_to_list m).

Record overlayEntry := { item : T; entry_epoch : Epoch }.

Abbreviation overlayMap := (gmap string overlayEntry).

(** GetSnapshot, ListSnapshot. *)
Record GetSnapshot := { get_Epoch : Epoch; Item : T }.
Record ListSnapshot := { list_Epoch : Epoch; Items : list T }.

(** RefreshAheadCache, less its channel.  A nil cache is [None]; a nil overlay
    behaves as an empty one. *)
Record RefreshAheadCache := {
  nextEpoch : Z;
  cur_epoch : Epoch;
  cache : option cacheMap;
  overlay : overlayMap;
}.

Definition NewRefreshAheadCache : RefreshAheadCache :=
  {| nextEpoch := 0; cur_epoch := {| epoch := 0 |}; cache := None; overlay := ∅ |}.

Definition newEpoch (c : RefreshAheadCache) : RefreshAheadCache * Epoch :=
  let n := ((nextEpoch c + 1) mod 2 ^ 64)%Z in
  ({| nextEpoch := n; cur_epoch := cur_epoch c; cache := cache c; overlay := overlay c |}, {| epoch := n |}).

(** What both local writes do: overlay, cache and epoch. *)
Definition writeThrough (c : RefreshAheadCache) (m : cacheMap) (x : T) : RefreshAheadCache :=
  let '(c, writeEpoch) := newEpoch c in
  {| nextEpoch := nextEpoch c;
     cur_epoch := writeEpoch;
     cache := Some (<[Index x := x]> m);
     overlay := <[Index x := {| item := x; entry_epoch := writeEpoch |}]> (overlay c) |}.

Definition InsertIfAbsent (x : T) (c : RefreshAheadCache) : RefreshAheadCache * option error :=
  match cache c with
  | None => (c, Some (Sentinel cache_ErrInvalid))
  | Some m =>
    match m !! Index x with
    | Some _ => (c, None)
    | None => (writeThrough c m x, None)
    end
  end.

Definition Upsert (x : T) (c : RefreshAheadCache) : RefreshAheadCache * option error :=
  match cache c with
  | None => (c, Some (Sentinel cache_ErrInvalid))
  | Some m => (writeThrough c m x, None)
  end.

(** The overlay entries newer than a refresh. *)
Definition surviving (refreshEpoch : Epoch) (o : overlayMap) : overlayMap :=
  base.filter (fun '(_, entry) => after (entry_epoch entry) refreshEpoch = true) o.

(** mergeAndPruneOverlayLocked: the cache with its overlay pruned, and the
    effective view. *)
Definition mergeAndPruneOverlayLocked (c : RefreshAheadCache) (fresh : cacheMap) (refreshEpoch : Epoch) :
    RefreshAheadCache * cacheMap :=
  if size (overlay c) =? 0 then (c, fresh)
  else
    let o := surviving refreshEpoch (overlay c) in
    ({| nextEpoch := nextEpoch c; cur_epoch := cur_epoch c; cache := cache c; overlay := o |},
     (item <$> o) ∪ fresh).

Definition Get (index : string) (c : RefreshAheadCache) : result GetSnapshot :=
  match cache c with
  | None => Err (Sentinel cache_ErrInvalid)
  | Some m =>
    match m !! index with
    | None => Err (Wrapped (Sentinel cache_ErrNotFound) ("requested index " +:+ index))
    | Some x => Ok {| get_Epoch := cur_epoch c; Item := x |}
    end
  end.

(** The order of a map's iteration is unspecified; this is one of them. *)
Definition List (c : RefreshAheadCache) : result ListSnapshot :=
  match cache c with
  | None => Err (Sentinel cache_ErrInvalid)
  | Some m => Ok {| list_Epoch := cur_epoch c; Items := (map_to_list m).*2 |}
  end.

(** The loop of doRefresh that indexes the data. *)
Fixpoint indexData (data : list T) (m : cacheMap) : result cacheMap :=
  match data with
  | [] => Ok m
  | x :: data' =>
    match m !! Index x with
    | Some _ => Err (Wrapped (Sentinel cache_ErrConflict) ("offending key " +:+ Index x))
    | None => indexData data' (<[Index x := x]> m)
    end
  end.

(** The end of doRefresh, under the lock. *)
Definition commitRefresh (c : RefreshAheadCache) (fresh : cacheMap) (refreshEpoch : Epoch) : RefreshAheadCache :=
  let '(c, effective) := mergeAndPruneOverlayLocked c fresh refreshEpoch in
  if cacheMap_Equal effective (default ∅ (cache c)) then
    {| nextEpoch := nextEpoch c; cur_epoch := cur_epoch c; cache := Some effective; overlay := overlay c |}
  else if size (overlay c) =? 0 then
    {| nextEpoch := nextEpoch c; cur_epoch := refreshEpoch; cache := Some effective; overlay := overlay c |}
  else
    let '(c, e) := newEpoch c in
    {| nextEpoch := nextEpoch c; cur_epoch := e; cache := Some effective; overlay := overlay c |}.

(** What calling the client's refresh function may come to. *)
Inductive fetched :=
| Fetched (data : list T)
| FetchFailed (err : error)
| FetchPanicked.

(** doRefresh with nothing in between: a recovered panic leaves the zero value
    of the result, no error. *)
Definition doRefresh (refresh : fetched) (c : RefreshAheadCache) : RefreshAheadCache * option error :=
  let '(c, refreshEpoch) := newEpoch c in
  match refresh with
  | FetchFailed err => (c, Some err)
  | FetchPanicked => (c, None)
  | Fetched data =>
    match indexData data ∅ with
    | Err err => (c, Some err)
    | Ok fresh => (commitRefresh c fresh refreshEpoch, None)
    end
  end.

End cache.

Arguments overlayEntry T : clear implicits.
Arguments GetSnapshot T : clear implicits.
Arguments ListSnapshot T : clear implicits.
Arguments RefreshAheadCache T : clear implicits.
Arguments fetched T : clear implicits.

(** ** Facts *)

Section facts.
Context {T : Type} `{CacheableLaws T}.
Implicit Types (c : RefreshAheadCache T) (m o : gmap string T).

(** The items of a nil cache. *)
Definition visible c : gmap string T := default ∅ (cache c).

(** Two maps are Equal when they relate pointwise. *)
Lemma cacheMap_Equal_spec m o :
  cacheMap_Equal m o = true <->
  forall k, match m !! k, o !! k with
            | Some x, Some y => Equal x y = true
            | None, None => True
            | _, _ => False
            end.
Proof.
  unfold cacheMap_Equal. split.
  - destruct (Nat.eqb_spec (size m) (size o)) as [Hsize|]; [|done]. cbn [negb].
    rewrite forallb_elem_of. intros Hall.
    assert (forall k x, m !! k = Some x -> exists y, o !! k = Some y /\ Equal x y = true) as Hsub.
    { intros k x Hk. specialize (Hall (k, x)). rewrite elem_of_map_to_list in Hall. specialize (Hall Hk).
      simpl in Hall. destruct (o !! k); [eauto|done]. }
    assert (dom m = dom o) as Hdom.
    { apply set_subseteq_size_eq; [|rewrite !size_dom; lia].
      intros k [x Hx]%elem_of_dom. destruct (Hsub k x Hx) as (y & Hy & _). apply elem_of_dom. eauto. }
    intros k. destruct (m !! k) as [x|] eqn:Hm.
    + destruct (Hsub k x Hm) as (y & -> & ?). done.
    + apply not_elem_of_dom in Hm. rewrite Hdom in Hm. apply not_elem_of_dom in Hm. by rewrite Hm.
  - intros Hall.
    assert (dom m = dom o) as Hdom.
    { apply set_eq. intros k. rewrite !elem_of_dom. specialize (Hall k).
      destruct (m !! k), (o !! k); split; intros []; eauto; done. }
    rewrite <-!size_dom, Hdom, Nat.eqb_refl. cbn [negb]. apply forallb_elem_of.
    intros [k x] Hk%elem_of_map_to_list. specialize (Hall k). rewrite Hk in Hall. by destruct (o !! k).
Qed.

Lemma cacheMap_Equal_refl m : cacheMap_Equal m m = true.
Proof. apply cacheMap_Equal_spec. intros k. destruct (m !! k); [apply Equal_refl|done]. Qed.

Lemma cacheMap_Equal_sym m o : cacheMap_Equal m o = true -> cacheMap_Equal o m = true.
Proof.
  rewrite !cacheMap_Equal_spec. intros Hall k. specialize (Hall k).
  destruct (m !! k), (o !! k); try done. by apply Equal_sym.
Qed.

Lemma cacheMap_Equal_trans m o q :
  cacheMap_Equal m o = true -> cacheMap_Equal o q = true -> cacheMap_Equal m q = true.
Proof.
  rewrite !cacheMap_Equal_spec. intros H1 H2 k. specialize (H1 k). specialize (H2 k).
  destruct (m !! k), (o !! k), (q !! k); try done. by eapply Equal_trans.
Qed.

(** The effective view of a merge, key by key, and the overlay it leaves. *)
Lemma merge_spec c fresh r :
  let '(c', effective) := mergeAndPruneOverlayLocked c fresh r in
  nextEpoch c' = nextEpoch c /\ cur_epoch c' = cur_epoch c /\ cache c' = cache c /\
  overlay c' = surviving r (overlay c) /\
  forall k, effective !! k = match surviving r (overlay c) !! k with Some e => Some (item e) | None => fresh !! k end.
Proof.
  unfold mergeAndPruneOverlayLocked. destruct (Nat.eqb_spec (size (overlay c)) 0) as [Hz|Hz].
  - apply map_size_empty_inv in Hz. rewrite Hz. unfold surviving. rewrite map_filter_empty. done.
  - split_and!; [done..|]. intros k. rewrite lookup_union, lookup_fmap.
    destruct (surviving r (overlay c) !! k); simpl; [by destruct (fresh !! k)|by destruct (fresh !! k)].
Qed.

Lemma surviving_lookup r (ov : gmap string (overlayEntry T)) k e :
  surviving r ov !! k = Some e <-> ov !! k = Some e /\ after (entry_epoch e) r = true.
Proof. unfold surviving. by rewrite map_lookup_filter_Some. Qed.

Lemma surviving_none r (ov : gmap string (overlayEntry T)) k :
  surviving r ov !! k = None <-> forall e, ov !! k = Some e -> after (entry_epoch e) r = false.
Proof.
  unfold surviving. rewrite map_lookup_filter_None. split.
  - intros [Hn|Hn] e He; [by rewrite Hn in He|]. apply not_true_is_false. by apply Hn.
  - intros Hall. destruct (ov !! k) as [e|] eqn:He; [right|by left].
    intros e' [= <-]. rewrite Hall; done.
Qed.

Lemma surviving_nonempty r (ov : gmap string (overlayEntry T)) k e :
  ov !! k = Some e -> after (entry_epoch e) r = true -> surviving r ov <> ∅.
Proof.
  intros He Ha Hempty. assert (surviving r ov !! k = Some e) as Hk by (by apply surviving_lookup).
  by rewrite Hempty, lookup_empty in Hk.
Qed.

(** Everything a commit does. *)
Lemma commit_spec c fresh r :
  let c' := commitRefresh c fresh r in
  exists effective, cache c' = Some effective /\
  overlay c' = surviving r (overlay c) /\
  (forall k, effective !! k = match surviving r (overlay c) !! k with Some e => Some (item e) | None => fresh !! k end) /\
  (cacheMap_Equal effective (visible c) = true /\ nextEpoch c' = nextEpoch c /\ cur_epoch c' = cur_epoch c \/
   cacheMap_Equal effective (visible c) = false /\ surviving r (overlay c) = ∅ /\ nextEpoch c' = nextEpoch c /\ cur_epoch c' = r \/
   cacheMap_Equal effective (visible c) = false /\ surviving r (overlay c) <> ∅ /\
     nextEpoch c' = ((nextEpoch c + 1) mod 2 ^ 64)%Z /\ epoch (cur_epoch c') = nextEpoch c').
Proof.
  unfold commitRefresh, visible. pose proof (merge_spec c fresh r) as Hm.
  destruct (mergeAndPruneOverlayLocked c fresh r) as [c1 effective].
  destruct Hm as (Hn & He & Hc & Ho & Hk). exists effective. rewrite Hc.
  destruct (cacheMap_Equal effective (default ∅ (cache c))) eqn:Heq; [|destruct (Nat.eqb_spec (size (overlay c1)) 0) as [Hz|Hz]];
    cbn [cache overlay nextEpoch cur_epoch newEpoch epoch]; split_and!; try done.
  - left. done.
  - right; left. apply map_size_empty_inv in Hz. by rewrite <-Ho, Hz.
  - right; right. split_and!; [done| |by rewrite Hn|done]. rewrite <-Ho. intros Hz'. by rewrite Hz', map_size_empty in Hz.
Qed.

(** Indexing accepts exactly the data without a repeated key. *)
Lemma indexData_spec (data : list T) : forall m,
  (forall m', indexData data m = Ok m' ->
    NoDup (Index <$> data) /\ (forall x, x ∈ data -> m !! Index x = None) /\
    forall k, m' !! k = match list_find (fun x => Index x = k) data with Some (_, x) => Some x | None => m !! k end) /\
  (forall err, indexData data m = Err err -> errors_is err cache_ErrConflict = true /\
    (~ NoDup (Index <$> data) \/ exists x, x ∈ data /\ m !! Index x <> None)).
Proof.
  induction data as [|x data IH]; intros m; simpl.
  - split; [|done]. intros m' [= <-]. split_and!; [constructor|set_solver|done].
  - destruct (m !! Index x) as [y|] eqn:Hx.
    + split; [done|]. intros err [= <-]. split; [done|]. right. exists x. split; [left|by rewrite Hx].
    + destruct (IH (<[Index x := x]> m)) as [IHok IHerr]. split.
      * intros m' Hok. destruct (IHok m' Hok) as (Hnd & Hfree & Hk).
        assert (Index x ∉ Index <$> data) as Hni.
        { intros (y & Hy & Hin)%list_elem_of_fmap. specialize (Hfree y Hin). by rewrite <-Hy, lookup_insert_eq in Hfree. }
        split_and!.
        -- by constructor.
        -- intros y [->|Hin]%elem_of_cons; [done|]. specialize (Hfree y Hin).
           by apply lookup_insert_None in Hfree as [? _].
        -- intros k. rewrite Hk. case_decide as Hd.
           ++ subst k. destruct (list_find _ data) as [[i y]|] eqn:Hf; [|by rewrite lookup_insert_eq].
              apply list_find_Some in Hf as (Hy & Hi & _). exfalso. apply Hni. rewrite <-Hi.
              apply list_elem_of_fmap_2. by eapply list_elem_of_lookup_2.
           ++ destruct (list_find (fun x => Index x = k) data) as [[i y]|]; simpl; [done|]. by rewrite lookup_insert_ne.
      * intros err Herr. destruct (IHerr err Herr) as [? [Hnd|(y & Hin & Hy)]]; (split; [done|]).
        -- left. intros Hc. by apply NoDup_cons in Hc as [_ ?].
        -- destruct (decide (Index y = Index x)) as [He|He].
           ++ left. intros Hc. apply NoDup_cons in Hc as [Hc _]. apply Hc. rewrite <-He. by apply list_elem_of_fmap_2.
           ++ rewrite lookup_insert_ne in Hy by done. right. exists y. split; [by right|done].
Qed.

End facts.
