(* ===== verification/RefreshSystem.v ===== *)
(** * RefreshSystem: the refresh-ahead cache under concurrency

    The operations of RefreshCache interleaved with the backend they cache.  The
    backend is its history: every version it has had, the last one current.  The
    refresher goroutine runs one refresh at a time, in three steps; local writes
    and backend writes happen in between.  Two constraints of the code's
    documentation are rules of the system: a local write follows the commit of
    its backend write, and a refresh observes, for each key, the backend at some
    moment since it started. *)

From S2P Require Import Prelude Errors RefreshCache.

(** A refresh in flight: its epoch, the backend version when it started and,
    once fetched, its indexed data. *)
Record flight (T : Type) := {
  f_epoch : Epoch;
  f_start : nat;
  f_data : option (gmap string T);
}.

Arguments f_epoch {T} _.
Arguments f_start {T} _.
Arguments f_data {T} _.

(** [written] records, for each key, the backend version its last local write
    published; it is not part of the cache. *)
Record system (T : Type) := {
  the_cache : RefreshAheadCache T;
  history : list (gmap string T);
  inflight : option (flight T);
  written : gmap string nat;
}.

Arguments the_cache {T} _.
Arguments history {T} _.
Arguments inflight {T} _.
Arguments written {T} _.

Section system.
Context {T : Type} `{CacheableLaws T}.

(** [k] had content [o] at version [v]. *)
Definition committed (h : list (gmap string T)) (k : string) (o : option T) (v : nat) : Prop :=
  exists m, h !! v = Some m /\ m !! k = o.

Definition init (m : gmap string T) : system T :=
  {| the_cache := NewRefreshAheadCache; history := [m]; inflight := None; written := ∅ |}.

(** Does InsertIfAbsent insert? *)
Definition inserts (x : T) (c : RefreshAheadCache T) : bool :=
  match cache c with
  | None => false
  | Some m => match m !! Index x with Some _ => false | None => true end
  end.

Inductive step : system T -> system T -> Prop :=
| backend_write s m :
    step s {| the_cache := the_cache s; history := history s ++ [m]; inflight := inflight s; written := written s |}
| local_upsert s x v :
    committed (history s) (Index x) (Some x) v ->
    step s {| the_cache := (Upsert x (the_cache s)).1; history := history s; inflight := inflight s;
              written := match (Upsert x (the_cache s)).2 with None => <[Index x := v]> (written s) | Some _ => written s end |}
| local_insert s x v :
    committed (history s) (Index x) (Some x) v ->
    step s {| the_cache := (InsertIfAbsent x (the_cache s)).1; history := history s; inflight := inflight s;
              written := if inserts x (the_cache s) then <[Index x := v]> (written s) else written s |}
| refresh_start s :
    inflight s = None ->
    step s {| the_cache := (newEpoch (the_cache s)).1; history := history s;
              inflight := Some {| f_epoch := (newEpoch (the_cache s)).2; f_start := length (history s) - 1; f_data := None |};
              written := written s |}
| refresh_fetch s f data m :
    inflight s = Some f -> f_data f = None -> indexData data ∅ = Ok m ->
    (forall k, exists v, f_start f <= v /\ committed (history s) k (m !! k) v) ->
    step s {| the_cache := the_cache s; history := history s;
              inflight := Some {| f_epoch := f_epoch f; f_start := f_start f; f_data := Some m |}; written := written s |}
| refresh_fail s f :
    inflight s = Some f ->
    step s {| the_cache := the_cache s; history := history s; inflight := None; written := written s |}
| refresh_commit s f m :
    inflight s = Some f -> f_data f = Some m ->
    step s {| the_cache := commitRefresh (the_cache s) m (f_epoch f); history := history s; inflight := None;
              written := written s |}
| refresh_commit_panic s f m :
    inflight s = Some f -> f_data f = Some m ->
    step s {| the_cache := (mergeAndPruneOverlayLocked (the_cache s) m (f_epoch f)).1; history := history s;
              inflight := None; written := written s |}.

(** [n] steps. *)
Inductive steps : nat -> system T -> system T -> Prop :=
| steps_O s : steps 0 s s
| steps_S n s1 s2 s3 : steps n s1 s2 -> step s2 s3 -> steps (S n) s1 s3.

(** ** Invariants *)

(** The version below which a key may not be read. *)
Definition floor (s : system T) (k : string) : nat := default 0 (written s !! k).

Record fresh_invariant (s : system T) : Prop := {
  fresh_history : 0 < length (history s);
  fresh_visible m k : cache (the_cache s) = Some m ->
    exists v, floor s k <= v /\ committed (history s) k (m !! k) v;
  fresh_overlay k e : overlay (the_cache s) !! k = Some e ->
    exists v, written s !! k = Some v /\ committed (history s) k (Some (item e)) v;
  fresh_written k v : written s !! k = Some v -> v < length (history s);
  fresh_flight f : inflight s = Some f ->
    f_start f < length (history s) /\
    (forall k v, written s !! k = Some v -> v <= f_start f \/
      exists e, overlay (the_cache s) !! k = Some e /\ after (entry_epoch e) (f_epoch f) = true) /\
    (forall m k, f_data f = Some m -> exists v, f_start f <= v /\ committed (history s) k (m !! k) v);
}.

Record epoch_invariant (n : nat) (s : system T) : Prop := {
  epoch_next : (0 <= nextEpoch (the_cache s) <= Z.of_nat n)%Z;
  epoch_current : (epoch (cur_epoch (the_cache s)) <= nextEpoch (the_cache s))%Z;
  epoch_overlay k e : overlay (the_cache s) !! k = Some e ->
    (epoch (entry_epoch e) <= nextEpoch (the_cache s))%Z;
  epoch_flight f : inflight s = Some f ->
    (epoch (f_epoch f) <= nextEpoch (the_cache s))%Z /\
    epoch (cur_epoch (the_cache s)) <> epoch (f_epoch f) /\
    (after (cur_epoch (the_cache s)) (f_epoch f) = true ->
      surviving (f_epoch f) (overlay (the_cache s)) <> ∅);
}.

Lemma committed_app h h' k o v : committed h k o v -> committed (h ++ h') k o v.
Proof. intros (m & Hm & Hk). exists m. split; [|done]. by apply lookup_app_l_Some. Qed.

Lemma committed_lt h k o v : committed h k o v -> v < length h.
Proof. intros (m & Hm & _). by eapply lookup_lt_Some. Qed.

(** Below 2^64 allocations, epochs do not wrap. *)
Lemma next_no_wrap z n : (0 <= z <= Z.of_nat n)%Z -> (Z.of_nat (S n) < 2 ^ 64)%Z -> ((z + 1) mod 2 ^ 64 = z + 1)%Z.
Proof. intros. apply Z.mod_small. lia. Qed.

(** What a successful local write does. *)
Lemma writeThrough_spec (c : RefreshAheadCache T) m x n :
  (0 <= nextEpoch c <= Z.of_nat n)%Z -> (Z.of_nat (S n) < 2 ^ 64)%Z ->
  let e := {| epoch := nextEpoch c + 1 |} in
  writeThrough c m x =
    {| nextEpoch := nextEpoch c + 1; cur_epoch := e; cache := Some (<[Index x := x]> m);
       overlay := <[Index x := {| item := x; entry_epoch := e |}]> (overlay c) |}.
Proof. intros Hn Hb. unfold writeThrough, newEpoch. by rewrite (next_no_wrap _ n). Qed.

Lemma epoch_invariant_init m : epoch_invariant 0 (init m).
Proof. constructor; try done. Qed.

Lemma fresh_invariant_init m : fresh_invariant (init m).
Proof. constructor; simpl; try done. lia. Qed.

(** A local write keeps both invariants. *)
Lemma write_invariants n s m x v :
  epoch_invariant n s -> fresh_invariant s -> (Z.of_nat (S n) < 2 ^ 64)%Z ->
  cache (the_cache s) = Some m -> committed (history s) (Index x) (Some x) v ->
  let s' := {| the_cache := writeThrough (the_cache s) m x; history := history s; inflight := inflight s;
               written := <[Index x := v]> (written s) |} in
  epoch_invariant (S n) s' /\ fresh_invariant s'.
Proof.
  intros [Hn Hc Hov Hf] [Hh Hv Ho Hw Hfl] Hb Hm Hx. simpl. rewrite (writeThrough_spec _ _ _ n Hn Hb).
  assert (forall f, inflight s = Some f -> after {| epoch := nextEpoch (the_cache s) + 1 |} (f_epoch f) = true) as Hafter.
  { intros f Hf'. destruct (Hf f Hf') as (Hle & _). unfold after. apply Z.gtb_lt. simpl. lia. }
  split; constructor; cbn [the_cache history inflight written nextEpoch cur_epoch cache overlay epoch].
  - lia.
  - lia.
  - intros k e. destruct (decide (Index x = k)) as [<-|Hne].
    + rewrite lookup_insert_eq. intros [= <-]. simpl. lia.
    + rewrite lookup_insert_ne by done. intros He. specialize (Hov k e He). lia.
  - intros f Hf'. destruct (Hf f Hf') as (Hle & _ & _). split_and!; [lia|lia|].
    intros _. eapply surviving_nonempty; [by rewrite lookup_insert_eq|]. by apply Hafter.
  - done.
  - intros m' k [= <-]. unfold floor. cbn [written]. destruct (decide (Index x = k)) as [<-|Hne].
    + rewrite !lookup_insert_eq. simpl. eauto.
    + rewrite !lookup_insert_ne by done. by apply Hv.
  - intros k e. destruct (decide (Index x = k)) as [<-|Hne].
    + rewrite !lookup_insert_eq. intros [= <-]. eauto.
    + rewrite !lookup_insert_ne by done. apply Ho.
  - intros k v'. destruct (decide (Index x = k)) as [<-|Hne].
    + rewrite lookup_insert_eq. intros [= <-]. by eapply committed_lt.
    + rewrite lookup_insert_ne by done. apply Hw.
  - intros f Hf'. destruct (Hfl f Hf') as (Hs & Hwr & Hd). split_and!; [done| |done].
    intros k v'. destruct (decide (Index x = k)) as [<-|Hne].
    + intros _. right. rewrite lookup_insert_eq. eexists. split; [done|]. by apply Hafter.
    + rewrite !lookup_insert_ne by done. apply Hwr.
Qed.

(** The view and overlay a merge leaves are fresh enough. *)
Lemma merge_fresh s f m k :
  fresh_invariant s -> inflight s = Some f -> f_data f = Some m ->
  exists v, floor s k <= v /\ committed (history s) k
    (match surviving (f_epoch f) (overlay (the_cache s)) !! k with Some e => Some (item e) | None => m !! k end) v.
Proof.
  intros [Hh Hv Ho Hw Hfl] Hf Hm. destruct (Hfl f Hf) as (Hs & Hwr & Hd). unfold floor.
  destruct (surviving (f_epoch f) (overlay (the_cache s)) !! k) as [e|] eqn:He.
  - apply surviving_lookup in He as [He _]. destruct (Ho k e He) as (v & -> & Hc). eauto.
  - destruct (Hd m k Hm) as (v & Hle & Hc). exists v. split; [|done].
    destruct (written s !! k) as [w|] eqn:Hk; simpl; [|lia].
    destruct (Hwr k w Hk) as [|(e & He' & Ha)]; [lia|].
    rewrite surviving_none in He. rewrite (He e He') in Ha. done.
Qed.

Lemma system_eta (s : system T) :
  {| the_cache := the_cache s; history := history s; inflight := inflight s; written := written s |} = s.
Proof. by destruct s. Qed.

(** A merge prunes the overlay but keeps it in line with what was written. *)
Lemma pruned_overlay s (f : flight T) k e :
  fresh_invariant s -> surviving (f_epoch f) (overlay (the_cache s)) !! k = Some e ->
  exists v, written s !! k = Some v /\ committed (history s) k (Some (item e)) v.
Proof. intros Hi [He _]%surviving_lookup. by apply (fresh_overlay s Hi). Qed.

Lemma fresh_step n s s' :
  epoch_invariant n s -> fresh_invariant s -> (Z.of_nat (S n) < 2 ^ 64)%Z -> step s s' -> fresh_invariant s'.
Proof.
  intros He Hi Hb Hstep. pose proof Hi as [Hh Hv Ho Hw Hfl].
  destruct Hstep as [s m|s x v Hx|s x v Hx|s Hnone|s f data m Hf Hd Hix Hcov|s f Hf|s f m Hf Hd|s f m Hf Hd].
  - assert (forall k o v, committed (history s) k o v -> committed (history s ++ [m]) k o v) as Hc
      by (intros; by apply committed_app).
    constructor; cbn [the_cache history inflight written].
    + rewrite length_app. lia.
    + intros m' k Hm'. destruct (Hv m' k Hm') as (v & ? & ?). exists v. auto.
    + intros k e Hk. destruct (Ho k e Hk) as (v & ? & ?). exists v. auto.
    + intros k v Hk. rewrite length_app. specialize (Hw k v Hk). lia.
    + intros f Hf. destruct (Hfl f Hf) as (Hs & Hwr & Hd). rewrite length_app. split_and!; [lia|done|].
      intros m' k Hm'. destruct (Hd m' k Hm') as (v & ? & ?). exists v. auto.
  - unfold Upsert. destruct (cache (the_cache s)) as [m|] eqn:Hm; cbn [fst snd]; [|by rewrite system_eta].
    by eapply (write_invariants n).
  - unfold InsertIfAbsent, inserts. destruct (cache (the_cache s)) as [m|] eqn:Hm; cbn [fst snd]; [|by rewrite system_eta].
    destruct (m !! Index x) eqn:Hmx; cbn [fst snd]; [by rewrite system_eta|].
    by eapply (write_invariants n).
  - constructor; cbn [the_cache history inflight written newEpoch fst snd cache overlay]; try done.
    intros f [= <-]. cbn [f_start f_epoch f_data]. split_and!; [lia| |done].
    intros k v Hk. left. specialize (Hw k v Hk). lia.
  - destruct (Hfl f Hf) as (Hs & Hwr & _).
    constructor; cbn [the_cache history inflight written]; try done.
    intros f' [= <-]. cbn [f_start f_epoch f_data]. split_and!; [done|done|]. intros m' k [= <-]. apply Hcov.
  - by constructor.
  - destruct (commit_spec (the_cache s) m (f_epoch f)) as (eff & Hc & Hov & Hk & _).
    constructor; cbn [the_cache history inflight written]; try done.
    + rewrite Hc. intros m' k [= <-]. rewrite Hk. unfold floor. cbn [written]. by eapply merge_fresh.
    + rewrite Hov. intros k e. by apply pruned_overlay.
  - pose proof (merge_spec (the_cache s) m (f_epoch f)) as Hm.
    destruct (mergeAndPruneOverlayLocked (the_cache s) m (f_epoch f)) as [c' eff]. destruct Hm as (_ & _ & Hc & Hov & _).
    constructor; cbn [the_cache history inflight written fst]; try done.
    + by rewrite Hc.
    + rewrite Hov. intros k e. by apply pruned_overlay.
Qed.

Lemma epoch_step n s s' :
  epoch_invariant n s -> fresh_invariant s -> (Z.of_nat (S n) < 2 ^ 64)%Z -> step s s' -> epoch_invariant (S n) s'.
Proof.
  intros He Hi Hb Hstep. pose proof He as [Hn Hc Hov Hf].
  destruct Hstep as [s m|s x v Hx|s x v Hx|s Hnone|s f data m Hf1 Hd Hix Hcov|s f Hf1|s f m Hf1 Hd|s f m Hf1 Hd].
  - constructor; cbn [the_cache inflight]; [lia|done|done|done].
  - unfold Upsert. destruct (cache (the_cache s)) as [m|] eqn:Hm; cbn [fst snd];
      [|constructor; cbn [the_cache inflight]; [lia|done|done|done]].
    by eapply (write_invariants n).
  - unfold InsertIfAbsent, inserts. destruct (cache (the_cache s)) as [m|] eqn:Hm; cbn [fst snd];
      [|constructor; cbn [the_cache inflight]; [lia|done|done|done]].
    destruct (m !! Index x) eqn:Hmx; cbn [fst snd]; [constructor; cbn [the_cache inflight]; [lia|done|done|done]|].
    by eapply (write_invariants n).
  - constructor; cbn [the_cache inflight newEpoch fst snd nextEpoch cur_epoch overlay];
      rewrite (next_no_wrap _ n Hn Hb); [lia|lia|intros k e He0; specialize (Hov k e He0); lia|].
    intros f [= <-]. cbn [f_epoch epoch]. split_and!; [lia|lia|].
    intros Ha%Z.gtb_lt. simpl in Ha. lia.
  - constructor; cbn [the_cache inflight]; [lia|done|done|]. intros f' [= <-]. exact (Hf f Hf1).
  - constructor; cbn [the_cache inflight]; [lia|done|done|done].
  - destruct (commit_spec (the_cache s) m (f_epoch f)) as (eff & _ & Ho & _ & Hcase).
    destruct (Hf f Hf1) as (Hle & _ & _).
    assert (nextEpoch (the_cache s) <= nextEpoch (commitRefresh (the_cache s) m (f_epoch f)))%Z as Hmono.
    { destruct Hcase as [(_ & -> & _)|[(_ & _ & -> & _)|(_ & _ & -> & _)]]; rewrite ?(next_no_wrap _ n Hn Hb); lia. }
    constructor; cbn [the_cache inflight]; [| |rewrite Ho; intros k e [He0 _]%surviving_lookup; specialize (Hov k e He0); lia|done];
      destruct Hcase as [(_ & Hn' & He')|[(_ & _ & Hn' & He')|(_ & _ & Hn' & He')]];
      rewrite ?He', Hn'; rewrite ?(next_no_wrap _ n Hn Hb); lia.
  - pose proof (merge_spec (the_cache s) m (f_epoch f)) as Hm.
    destruct (mergeAndPruneOverlayLocked (the_cache s) m (f_epoch f)) as [c' eff]. destruct Hm as (Hn' & He' & _ & Ho & _).
    constructor; cbn [the_cache inflight fst]; rewrite ?Hn', ?He'; [lia|done| |done].
    rewrite Ho. intros k e [He0 _]%surviving_lookup. by apply (Hov k e).
Qed.

Lemma steps_invariants n m s :
  steps n (init m) s -> (Z.of_nat n < 2 ^ 64)%Z -> epoch_invariant n s /\ fresh_invariant s.
Proof.
  remember (init m) as s0 eqn:Hs0. intros Hsteps. induction Hsteps as [s|n s1 s2 s3 Hsteps IH Hstep]; intros Hb; subst.
  - split; [apply epoch_invariant_init|apply fresh_invariant_init].
  - destruct IH as [He Hf]; [done|lia|]. split; [by eapply epoch_step|by eapply fresh_step].
Qed.

(** ** Properties *)

(** C7 Read your writes: whatever refreshes and writes interleave, a read of a key
    answers what the backend held for it at some moment no earlier than the
    version the last local write of that key published; a key reported missing
    was missing at such a moment. *)
Theorem read_your_writes n m s k :
  steps n (init m) s -> (Z.of_nat n < 2 ^ 64)%Z ->
  (forall g, Get k (the_cache s) = Ok g ->
    exists v, floor s k <= v /\ committed (history s) k (Some (Item g)) v) /\
  (forall err, Get k (the_cache s) = Err err -> errors_is err cache_ErrNotFound = true ->
    exists v, floor s k <= v /\ committed (history s) k None v).
Proof.
  intros Hsteps Hb. destruct (steps_invariants n m s Hsteps Hb) as [_ Hi].
  unfold Get. destruct (cache (the_cache s)) as [mc|] eqn:Hc; [|split; [done|by intros err [= <-]]].
  destruct (fresh_visible s Hi mc k Hc) as (v & Hle & Hk).
  destruct (mc !! k) as [x|]; split; try done.
  - intros g [= <-]. eauto.
  - intros err _ _. eauto.
Qed.

Lemma cacheMap_Equal_keep (c c' : RefreshAheadCache T) : visible c' = visible c -> cacheMap_Equal (visible c') (visible c) = true.
Proof. intros ->. apply cacheMap_Equal_refl. Qed.

(** One step either moves to a later epoch or keeps the snapshot. *)
Lemma epoch_progress n s s' :
  epoch_invariant n s -> fresh_invariant s -> (Z.of_nat (S n) < 2 ^ 64)%Z -> step s s' ->
  (epoch (cur_epoch (the_cache s)) < epoch (cur_epoch (the_cache s')))%Z \/
  cur_epoch (the_cache s') = cur_epoch (the_cache s) /\
  cacheMap_Equal (visible (the_cache s')) (visible (the_cache s)) = true.
Proof.
  intros He Hi Hb Hstep. pose proof He as [Hn Hc _ Hf].
  destruct Hstep as [s m|s x v Hx|s x v Hx|s Hnone|s f data m Hf1 Hd Hix Hcov|s f Hf1|s f m Hf1 Hd|s f m Hf1 Hd];
    cbn [the_cache].
  - right. split; [done|by apply cacheMap_Equal_keep].
  - unfold Upsert. destruct (cache (the_cache s)) as [m|] eqn:Hm; cbn [fst];
      [left|right; split; [done|by apply cacheMap_Equal_keep]].
    rewrite (writeThrough_spec _ _ _ n Hn Hb). simpl. lia.
  - unfold InsertIfAbsent. destruct (cache (the_cache s)) as [m|] eqn:Hm; cbn [fst];
      [|right; split; [done|by apply cacheMap_Equal_keep]].
    destruct (m !! Index x) eqn:Hmx; cbn [fst]; [right; split; [done|by apply cacheMap_Equal_keep]|left].
    rewrite (writeThrough_spec _ _ _ n Hn Hb). simpl. lia.
  - right. split; [done|by apply cacheMap_Equal_keep].
  - right. split; [done|by apply cacheMap_Equal_keep].
  - right. split; [done|by apply cacheMap_Equal_keep].
  - destruct (commit_spec (the_cache s) m (f_epoch f)) as (eff & Hce & _ & _ & Hcase).
    destruct (Hf f Hf1) as (Hle & Hne & Hsurv). unfold visible at 1. rewrite Hce. cbn [default].
    destruct Hcase as [(Heq & Hn' & He')|[(_ & Hs & Hn' & He')|(_ & _ & Hn' & He')]].
    + right. done.
    + left. rewrite He'. destruct (after (cur_epoch (the_cache s)) (f_epoch f)) eqn:Ha; [by destruct (Hsurv eq_refl)|].
      unfold after in Ha. rewrite Z.gtb_ltb, Z.ltb_ge in Ha. lia.
    + left. rewrite He', Hn', (next_no_wrap _ n Hn Hb). lia.
  - right. pose proof (merge_spec (the_cache s) m (f_epoch f)) as Hm.
    destruct (mergeAndPruneOverlayLocked (the_cache s) m (f_epoch f)) as [c' eff]. destruct Hm as (_ & He' & Hce & _).
    cbn [fst]. split; [done|]. apply cacheMap_Equal_keep. unfold visible. by rewrite Hce.
Qed.

Lemma steps_progress n1 m s n2 s' :
  steps n1 (init m) s -> steps n2 s s' -> (Z.of_nat (n1 + n2) < 2 ^ 64)%Z ->
  steps (n1 + n2) (init m) s' /\
  ((epoch (cur_epoch (the_cache s)) < epoch (cur_epoch (the_cache s')))%Z \/
   cur_epoch (the_cache s') = cur_epoch (the_cache s) /\
   cacheMap_Equal (visible (the_cache s')) (visible (the_cache s)) = true).
Proof.
  intros H1 H2. induction H2 as [s|n s s2 s3 H2 IH Hstep]; intros Hb.
  - rewrite Nat.add_0_r. split; [done|right]. split; [done|apply cacheMap_Equal_refl].
  - destruct IH as [Hs2 Hprog]; [done|lia|].
    rewrite Nat.add_succ_r. split; [by econstructor|].
    destruct (steps_invariants _ _ _ Hs2) as [He Hi]; [lia|].
    destruct (epoch_progress _ _ s3 He Hi) as [Hlt|[Heq Hm]]; [lia|done| |].
    + left. destruct Hprog as [|[Heq' _]]; [lia|]. by rewrite Heq' in Hlt.
    + destruct Hprog as [|[Heq' Hm']]; [left; rewrite Heq; lia|right].
      split; [congruence|by eapply cacheMap_Equal_trans].
Qed.

(** C12 An epoch identifies a snapshot: if an epoch a client holds is still valid,
    then, whatever happened in between, the visible items are Equal to those it
    was given; and epochs never go back. *)
Theorem epoch_identifies_snapshot n1 m s n2 s' :
  steps n1 (init m) s -> steps n2 s s' -> (Z.of_nat (n1 + n2) < 2 ^ 64)%Z ->
  after (cur_epoch (the_cache s)) (cur_epoch (the_cache s')) = false /\
  (Valid (cur_epoch (the_cache s')) (cur_epoch (the_cache s)) = true ->
    cacheMap_Equal (visible (the_cache s')) (visible (the_cache s)) = true).
Proof.
  intros H1 H2 Hb. destruct (steps_progress _ _ _ _ _ H1 H2 Hb) as [_ [Hlt|[Heq Hm]]].
  - unfold after, Valid. rewrite Z.gtb_ltb, Z.ltb_ge, Z.eqb_eq. split; lia.
  - split; [|done]. unfold after. rewrite Heq, Z.gtb_ltb, Z.ltb_ge. lia.
Qed.

(** The data of a refresh, by key. *)
Definition by_key (data : list T) (k : string) : option T := snd <$> list_find (fun x => Index x = k) data.

Lemma indexData_by_key data m : indexData data ∅ = Ok m -> forall k, m !! k = by_key data k.
Proof.
  intros Hm k. destruct (proj1 (indexData_spec data ∅) m Hm) as (_ & _ & Hk). rewrite Hk. unfold by_key.
  destruct (list_find _ data) as [[i x]|]; [done|]. apply lookup_empty.
Qed.

Lemma indexData_total data : NoDup (Index <$> data) -> exists m, indexData data ∅ = Ok m.
Proof.
  intros Hnd. destruct (indexData data ∅) as [m|err] eqn:Hm; [eauto|].
  destruct (proj2 (indexData_spec data ∅) err Hm) as [_ [Hn|(x & _ & Hx)]]; [done|]. by rewrite lookup_empty in Hx.
Qed.

(** Convergence: a refresh that nothing interrupts makes the cache exactly the
    data it was given, indexed, whatever local writes came before; data with a
    repeated index is refused with ErrConflict, and neither it nor a failure of
    the client's function changes what clients see. *)
Theorem refresh_converges n m0 s refresh :
  steps n (init m0) s -> (Z.of_nat (S n) < 2 ^ 64)%Z ->
  let '(c', r) := doRefresh refresh (the_cache s) in
  match refresh with
  | Fetched data =>
    (NoDup (Index <$> data) /\ r = None /\ overlay c' = ∅ /\
      exists m, cache c' = Some m /\ forall k, m !! k = by_key data k) \/
    (~ NoDup (Index <$> data) /\ (exists err, r = Some err /\ errors_is err cache_ErrConflict = true) /\
      cache c' = cache (the_cache s) /\ overlay c' = overlay (the_cache s) /\ cur_epoch c' = cur_epoch (the_cache s))
  | FetchFailed err =>
    r = Some err /\ cache c' = cache (the_cache s) /\ overlay c' = overlay (the_cache s) /\
    cur_epoch c' = cur_epoch (the_cache s)
  | FetchPanicked => cache c' = cache (the_cache s) /\ overlay c' = overlay (the_cache s) /\
    cur_epoch c' = cur_epoch (the_cache s)
  end.
Proof.
  intros Hsteps Hb. destruct (steps_invariants _ _ _ Hsteps) as [[Hn Hc Hov _] _]; [lia|].
  unfold doRefresh. destruct refresh as [data|err|]; simpl; [|done|done].
  destruct (indexData data ∅) as [m|err] eqn:Hix.
  - left. split; [by apply (proj1 (indexData_spec data ∅) m Hix)|]. split; [done|].
    set (c1 := {| nextEpoch := _ |}).
    destruct (commit_spec c1 m {| epoch := (nextEpoch (the_cache s) + 1) mod 2 ^ 64 |}) as (eff & Hce & Ho & Hk & _).
    rewrite (next_no_wrap _ n Hn Hb) in *.
    assert (surviving {| epoch := nextEpoch (the_cache s) + 1 |} (overlay c1) = ∅) as Hempty.
    { apply map_empty. intros k. apply surviving_none. intros e He. specialize (Hov k e He).
      unfold after. rewrite Z.gtb_ltb, Z.ltb_ge. simpl. lia. }
    rewrite Hempty in Ho, Hk. split; [done|]. exists eff. split; [done|]. intros k.
    rewrite Hk, lookup_empty. by apply indexData_by_key.
  - right. destruct (proj2 (indexData_spec data ∅) err Hix) as [Herr Hdup].
    split_and!; [|by exists err|done|done|done].
    destruct Hdup as [?|(x & _ & Hx)]; [done|]. by rewrite lookup_empty in Hx.
Qed.

(** A refresh function that panics is answered as a success: the recovered
    panic leaves no error, so that Run and Invalidate report a refresh that
    never happened. *)
Theorem refresh_panic_reported_ok (c : RefreshAheadCache T) :
  (doRefresh FetchPanicked c).2 = None /\ cache (doRefresh FetchPanicked c).1 = cache c /\
  (forall k, cache c = None -> Get k (doRefresh FetchPanicked c).1 = Err (Sentinel cache_ErrInvalid)).
Proof.
  unfold doRefresh, Get. simpl. split_and!; [done|done|]. intros k ->. done.
Qed.

(** Items sit under their own index. *)
Definition keyed (m : gmap string T) : Prop := forall k x, m !! k = Some x -> Index x = k.

Record keyed_invariant (s : system T) : Prop := {
  keyed_visible : keyed (visible (the_cache s));
  keyed_overlay k e : overlay (the_cache s) !! k = Some e -> Index (item e) = k;
  keyed_flight f m : inflight s = Some f -> f_data f = Some m -> keyed m;
}.

Lemma keyed_insert m x : keyed m -> keyed (<[Index x := x]> m).
Proof. intros Hm k y. rewrite lookup_insert_Some. intros [[<- <-]|[_ Hk]]; [done|by apply Hm]. Qed.

Lemma indexData_keyed data m : indexData data ∅ = Ok m -> keyed m.
Proof.
  intros Hm k x. rewrite (indexData_by_key _ _ Hm). unfold by_key.
  destruct (list_find _ data) as [[i y]|] eqn:Hf; [|done]. intros [= <-]. by apply list_find_Some in Hf as (_ & ? & _).
Qed.

Lemma writeThrough_keyed s m x :
  keyed_invariant s -> cache (the_cache s) = Some m -> keyed_invariant
    {| the_cache := writeThrough (the_cache s) m x; history := history s; inflight := inflight s; written := written s |}.
Proof.
  intros [Hv Ho Hf] Hm. unfold visible in Hv. rewrite Hm in Hv.
  constructor; cbn [the_cache inflight]; [by apply keyed_insert| |done].
  intros k e. simpl. rewrite lookup_insert_Some. intros [[<- <-]|[_ Hk]]; [done|by apply Ho].
Qed.

Lemma keyed_step s s' : keyed_invariant s -> step s s' -> keyed_invariant s'.
Proof.
  intros Hi Hstep. pose proof Hi as [Hv Ho Hf].
  destruct Hstep as [s m|s x v Hx|s x v Hx|s Hnone|s f data m Hf1 Hd Hix Hcov|s f Hf1|s f m Hf1 Hd|s f m Hf1 Hd].
  - by constructor.
  - unfold Upsert. destruct (cache (the_cache s)) as [m|] eqn:Hm; cbn [fst snd]; [|by rewrite system_eta].
    destruct (writeThrough_keyed s m x Hi Hm). by constructor.
  - unfold InsertIfAbsent, inserts. destruct (cache (the_cache s)) as [m|] eqn:Hm; cbn [fst snd]; [|by rewrite system_eta].
    destruct (m !! Index x) eqn:Hmx; cbn [fst snd]; [by rewrite system_eta|].
    destruct (writeThrough_keyed s m x Hi Hm). by constructor.
  - constructor; cbn [the_cache inflight]; [done|done|]. by intros f m [= <-].
  - constructor; cbn [the_cache inflight]; [done|done|]. intros f' m' [= <-] [= <-]. by eapply indexData_keyed.
  - by constructor.
  - destruct (commit_spec (the_cache s) m (f_epoch f)) as (eff & Hc & Hov & Hk & _).
    constructor; cbn [the_cache inflight]; [| |done].
    + unfold visible. rewrite Hc. intros k x. cbn [default]. rewrite Hk.
      destruct (surviving _ _ !! k) as [e|] eqn:He; [|by apply (Hf f m Hf1 Hd)].
      apply surviving_lookup in He as [He _]. intros [= <-]. by apply Ho.
    + rewrite Hov. intros k e [He _]%surviving_lookup. by apply Ho.
  - pose proof (merge_spec (the_cache s) m (f_epoch f)) as Hm.
    destruct (mergeAndPruneOverlayLocked (the_cache s) m (f_epoch f)) as [c' eff]. destruct Hm as (_ & _ & Hc & Hov & _).
    constructor; cbn [the_cache inflight fst]; [|rewrite Hov; intros k e [He _]%surviving_lookup; by apply Ho|done].
    unfold visible. by rewrite Hc.
Qed.

(** The cache is well formed in every reachable state: each item sits under its
    own index, so that a list holds exactly what gets answer, no index twice. *)
Theorem list_agrees_with_get n m s l :
  steps n (init m) s -> List (the_cache s) = Ok l ->
  NoDup (Index <$> Items l) /\
  forall x, x ∈ Items l <-> Get (Index x) (the_cache s) = Ok {| get_Epoch := list_Epoch l; Item := x |}.
Proof.
  intros Hsteps.
  assert (keyed_invariant s) as [Hv _ _].
  { remember (init m) as s0 eqn:Hs0. induction Hsteps as [s|n s1 s2 s3 Hsteps IH Hstep]; subst.
    - constructor; simpl; try done; intros k x Hk; by rewrite lookup_empty in Hk.
    - eapply keyed_step; [by apply IH|done]. }
  unfold List, Get, visible in *. destruct (cache (the_cache s)) as [mc|]; [|done]. intros [= <-]. cbn [Items list_Epoch].
  assert (forall kx, kx ∈ map_to_list mc -> Index kx.2 = kx.1) as Hkey.
  { intros [k x] Hin%elem_of_map_to_list. by apply Hv. }
  split.
  - rewrite <-list_fmap_compose.
    rewrite (list_fmap_ext (Index ∘ snd) fst (map_to_list mc)) by (intros i kx Hi; apply Hkey; by eapply list_elem_of_lookup_2).
    apply NoDup_fst_map_to_list.
  - intros x. rewrite list_elem_of_fmap. split.
    + intros ([k y] & -> & Hin). pose proof (Hkey _ Hin) as Hk. simpl in *. rewrite Hk.
      apply elem_of_map_to_list in Hin. by rewrite Hin.
    + destruct (mc !! Index x) as [y|] eqn:Hy; [|done]. intros [= ->]. exists (Index x, x).
      split; [done|]. by apply elem_of_map_to_list.
Qed.

End system.

(** ** Witnesses *)

Module witnesses.

#[local] Instance pair_cacheable : Cacheable (string * nat) := {|
  Index x := x.1;
  Equal x y := bool_decide (x = y);
|}.

#[local] Instance pair_laws : CacheableLaws (string * nat).
Proof.
  constructor; simpl; intros *; rewrite ?bool_decide_eq_true; congruence.
Qed.

Definition item_a : string * nat := ("a", 1).
Definition backend_a : gmap string (string * nat) := {[ "a" := item_a ]}.

(** The cache loads an empty backend. *)
Lemma loaded : exists s, steps 3 (init ∅) s /\ inflight s = None /\ history s = [∅] /\ written s = ∅ /\
  the_cache s = (doRefresh (Fetched []) NewRefreshAheadCache).1.
Proof.
  eexists. split; [|].
  { eapply steps_S; [eapply steps_S; [eapply steps_S; [apply steps_O|]|]|].
    - apply refresh_start. reflexivity.
    - eapply (refresh_fetch _ _ [] ∅); [reflexivity|reflexivity|reflexivity|].
      intros k. exists 0. split; [apply Nat.le_refl|]. exists ∅. done.
    - eapply (refresh_commit _ _ ∅); reflexivity. }
  split_and!; reflexivity.
Qed.

(** A second refresh is in flight when [item_a] is written to the backend and to
    the cache, and still answers the empty backend. *)
Lemma raced s : inflight s = None -> history s = [∅] -> written s = ∅ ->
  the_cache s = (doRefresh (Fetched []) NewRefreshAheadCache).1 ->
  exists s', steps 5 s s' /\ floor s' "a" = 1 /\
    Get "a" (the_cache s') = Ok {| get_Epoch := {| epoch := 3 |}; Item := item_a |}.
Proof.
  destruct s as [c h f w]; simpl; intros -> -> -> ->. eexists. split; [|].
  { eapply steps_S; [eapply steps_S; [eapply steps_S; [eapply steps_S; [eapply steps_S; [apply steps_O|]|]|]|]|].
    - apply refresh_start. reflexivity.
    - apply (backend_write _ backend_a).
    - apply (local_upsert _ item_a 1). exists backend_a. done.
    - eapply (refresh_fetch _ _ [] ∅); [reflexivity|reflexivity|reflexivity|].
      intros k. exists 0. split; [apply Nat.le_refl|]. exists ∅. done.
    - eapply (refresh_commit _ _ ∅); reflexivity. }
  split; vm_compute; reflexivity.
Qed.

Lemma steps_app n1 n2 (s1 s2 s3 : system (string * nat)) : steps n1 s1 s2 -> steps n2 s2 s3 -> steps (n2 + n1) s1 s3.
Proof. intros H1 H2. induction H2; simpl; [done|]. econstructor; eauto. Qed.

Lemma read_your_writes_witness : exists s v,
  Get "a" (the_cache s) = Ok {| get_Epoch := {| epoch := 3 |}; Item := item_a |} /\
  1 <= v /\ committed (history s) "a" (Some item_a) v.
Proof.
  destruct loaded as (s0 & H0 & Hf & Hh & Hw & Hc). destruct (raced s0 Hf Hh Hw Hc) as (s & Hs & Hfl & Hg).
  destruct (read_your_writes 8 ∅ s "a" (steps_app _ _ _ _ _ H0 Hs)) as [Hok _]; [reflexivity|].
  destruct (Hok _ Hg) as (v & Hv & Hcom). rewrite Hfl in Hv. exists s, v. done.
Defined.

Lemma epoch_identifies_snapshot_witness : exists s s' : system (string * nat),
  steps 5 s s' /\ after (cur_epoch (the_cache s)) (cur_epoch (the_cache s')) = false.
Proof.
  destruct loaded as (s0 & H0 & Hf & Hh & Hw & Hc). destruct (raced s0 Hf Hh Hw Hc) as (s & Hs & _).
  exists s0, s. split; [exact Hs|].
  destruct (epoch_identifies_snapshot 3 ∅ s0 5 s H0 Hs) as [Ha _]; [reflexivity|exact Ha].
Defined.

Lemma refresh_converges_witness : exists s : system (string * nat),
  (doRefresh (Fetched [item_a]) (the_cache s)).2 = None /\
  overlay (doRefresh (Fetched [item_a]) (the_cache s)).1 = ∅.
Proof.
  destruct loaded as (s0 & H0 & Hf & Hh & Hw & Hc). exists s0.
  pose proof (refresh_converges 3 ∅ s0 (Fetched [item_a]) H0 ltac:(reflexivity)) as Hx.
  destruct (doRefresh (Fetched [item_a]) (the_cache s0)) as [c' r]. cbn [fst snd].
  destruct Hx as [(_ & Hr & Ho & _)|(Hd & _)]; [done|].
  exfalso. apply Hd. apply NoDup_singleton.
Defined.

Lemma refresh_panic_reported_ok_witness :
  (doRefresh FetchPanicked (NewRefreshAheadCache (T := string * nat))).2 = None /\
  Get "a" (doRefresh FetchPanicked (NewRefreshAheadCache (T := string * nat))).1 = Err (Sentinel cache_ErrInvalid).
Proof.
  destruct (refresh_panic_reported_ok (NewRefreshAheadCache (T := string * nat))) as (Hr & _ & Hg).
  split; [exact Hr|]. apply Hg. reflexivity.
Defined.

Lemma list_agrees_with_get_witness : exists (s : system (string * nat)) l,
  List (the_cache s) = Ok l /\ NoDup (Index <$> Items l).
Proof.
  destruct loaded as (s0 & H0 & Hf & Hh & Hw & Hc). destruct (raced s0 Hf Hh Hw Hc) as (s & Hs & _ & Hg).
  destruct (List (the_cache s)) as [l|err] eqn:Hl.
  - exists s, l. split; [exact Hl|].
    exact (proj1 (list_agrees_with_get 8 ∅ s l (steps_app _ _ _ _ _ H0 Hs) Hl)).
  - exfalso. unfold List in Hl. unfold Get in Hg. by destruct (cache (the_cache s)).
Defined.

End witnesses.
