(* ===== verification/Invalidation.v ===== *)
(** * Invalidation: coalescing synchronous refreshes

    Models Run's refresher goroutine, Invalidate and sendInvalidation of
    pkg/util/cache/refresh_ahead.go as a machine: any number of calls of
    Invalidate run concurrently with the refresher, sharing the pending request
    (under its lock), an unbuffered channel and the requests' done channels.
    [act] is the machine, one atomic action of one goroutine at a time; a blocked
    action is [None].  A logical clock counts the commits of the backend, so that
    the age of a refresh can be compared with that of a call. *)

From S2P Require Import Prelude Errors.

(** invalidationRequest; [started] is the clock when its refresh began. *)
Record request := {
  req_done : bool;
  req_err : option error;
  req_started : option nat;
}.

Definition new_request : request := {| req_done := false; req_err := None; req_started := None |}.

(** Where a call of Invalidate is; [r] is the request it waits for and [t0] the
    clock when it was called. *)
Inductive caller :=
| Idle
| Entered (r t0 : nat)              (* created the pending request, about to send it *)
| Sending (r t0 : nat)              (* blocked on the channel *)
| Stuck (r t0 : nat)                (* blocked on a nil channel *)
| Recovering (stage r t0 : nat)     (* in the deferred recover of sendInvalidation *)
| Waiting (r t0 : nat)              (* blocked on the request's done channel *)
| Returned (r t0 : nat) (err : option error).

(** Where the refresher is; it does not exist before Run, when the channel is
    nil, and closes the channel when it stops. *)
Inductive refresher :=
| NotRunning
| Selecting
| Received (r : nat)
| Cleared (r : nat)
| Refreshing (r : option nat)
| Finished (r : nat)
| Stopped.

Record state := {
  clock : nat;
  pending : option nat;
  requests : list request;
  callers : nat -> caller;
  refr : refresher;
}.

Definition initial : state :=
  {| clock := 0; pending := None; requests := []; callers := fun _ => Idle; refr := NotRunning |}.

Definition set_caller (i : nat) (x : caller) (s : state) : state :=
  {| clock := clock s; pending := pending s; requests := requests s;
     callers := fun j => if decide (j = i) then x else callers s j; refr := refr s |}.

Definition set_pending (p : option nat) (s : state) : state :=
  {| clock := clock s; pending := p; requests := requests s; callers := callers s; refr := refr s |}.

Definition set_refr (x : refresher) (s : state) : state :=
  {| clock := clock s; pending := pending s; requests := requests s; callers := callers s; refr := x |}.

Definition set_requests (l : list request) (s : state) : state :=
  {| clock := clock s; pending := pending s; requests := l; callers := callers s; refr := refr s |}.

Definition update (r : nat) (f : request -> request) (s : state) : state :=
  set_requests (alter f r (requests s)) s.

Definition with_err (e : option error) (q : request) : request :=
  {| req_done := req_done q; req_err := e; req_started := req_started q |}.

Definition with_done (q : request) : request :=
  {| req_done := true; req_err := req_err q; req_started := req_started q |}.

Definition with_started (t : nat) (q : request) : request :=
  {| req_done := req_done q; req_err := req_err q; req_started := Some t |}.

(** ** The operations *)

(** Invalidate, up to the release of the pending lock. *)
Definition Invalidate (i : nat) (s : state) : option state :=
  match callers s i with
  | Idle =>
    match pending s with
    | Some r => Some (set_caller i (Waiting r (clock s)) s)
    | None =>
      let r := length (requests s) in
      Some (set_caller i (Entered r (clock s))
        (set_pending (Some r) (set_requests (requests s ++ [new_request]) s)))
    end
  | _ => None
  end.

(** sendInvalidation: the channel is read once, nil before Run; a send on a closed
    channel panics. *)
Definition sendInvalidation (i : nat) (s : state) : option state :=
  match callers s i with
  | Entered r t0 =>
    match refr s with
    | NotRunning => Some (set_caller i (Stuck r t0) s)
    | Stopped => Some (set_caller i (Recovering 0 r t0) s)
    | _ => Some (set_caller i (Sending r t0) s)
    end
  | _ => None
  end.

(** The send completes when the refresher selects it, and panics when the channel
    is closed under it. *)
Definition deliver (i : nat) (s : state) : option state :=
  match callers s i with
  | Sending r t0 =>
    match refr s with
    | Selecting => Some (set_refr (Received r) (set_caller i (Waiting r t0) s))
    | Stopped => Some (set_caller i (Recovering 0 r t0) s)
    | _ => None
    end
  | _ => None
  end.

(** The deferred function of sendInvalidation, after a panic. *)
Definition recovers (i : nat) (s : state) : option state :=
  match callers s i with
  | Recovering 0 r t0 =>
    Some (set_caller i (Recovering 1 r t0) (update r (with_err (Some (Sentinel cache_ErrInvalid))) s))
  | Recovering 1 r t0 => Some (set_caller i (Recovering 2 r t0) (set_pending None s))
  | Recovering _ r t0 =>
    Some (set_caller i (Returned r t0 (Some (Sentinel cache_ErrInvalid))) (update r with_done s))
  | _ => None
  end.

(** The end of Invalidate: the request's done channel is closed. *)
Definition await (i : nat) (s : state) : option state :=
  match callers s i with
  | Waiting r t0 =>
    match requests s !! r with
    | Some q => if req_done q then Some (set_caller i (Returned r t0 (req_err q)) s) else None
    | None => None
    end
  | _ => None
  end.

(** Run, once its own refresh has succeeded. *)
Definition Run (s : state) : option state :=
  match refr s with NotRunning => Some (set_refr Selecting s) | _ => None end.

(** The refresher's loop body, for a request and for the ticker. *)
Definition clearPending (s : state) : option state :=
  match refr s with Received r => Some (set_refr (Cleared r) (set_pending None s)) | _ => None end.

Definition beginRefresh (s : state) : option state :=
  match refr s with
  | Cleared r => Some (set_refr (Refreshing (Some r)) (update r (with_started (clock s)) s))
  | Selecting => Some (set_refr (Refreshing None) s)
  | _ => None
  end.

Definition endRefresh (e : option error) (s : state) : option state :=
  match refr s with
  | Refreshing (Some r) => Some (set_refr (Finished r) (update r (with_err e) s))
  | Refreshing None => Some (set_refr Selecting s)
  | _ => None
  end.

Definition closeDone (s : state) : option state :=
  match refr s with Finished r => Some (set_refr Selecting (update r with_done s)) | _ => None end.

Definition shutdown (s : state) : option state :=
  match refr s with Selecting => Some (set_refr Stopped s) | _ => None end.

(** ** The machine *)

Inductive label :=
| Commit
| Call (i : nat)
| Send (i : nat)
| Deliver (i : nat)
| Recover (i : nat)
| Await (i : nat)
| Start
| Clear
| Begin
| End_ (e : option error)
| Close
| Shutdown.

Definition act (l : label) (s : state) : option state :=
  match l with
  | Commit =>
    Some {| clock := S (clock s); pending := pending s; requests := requests s; callers := callers s; refr := refr s |}
  | Call i => Invalidate i s
  | Send i => sendInvalidation i s
  | Deliver i => deliver i s
  | Recover i => recovers i s
  | Await i => await i s
  | Start => Run s
  | Clear => clearPending s
  | Begin => beginRefresh s
  | End_ e => endRefresh e s
  | Close => closeDone s
  | Shutdown => shutdown s
  end.

Inductive reachable : state -> Prop :=
| reachable_initial : reachable initial
| reachable_act s l s' : reachable s -> act l s = Some s' -> reachable s'.

Fixpoint acts (ls : list label) (s : state) : option state :=
  match ls with
  | [] => Some s
  | l :: ls' => s' ← act l s; acts ls' s'
  end.

Lemma acts_reachable ls : forall s s', reachable s -> acts ls s = Some s' -> reachable s'.
Proof.
  induction ls as [|l ls IH]; intros s s' Hr Ha; simpl in Ha; [by simplify_eq|].
  apply bind_Some in Ha as (s1 & H1 & Ha). eapply IH; [|done]. by econstructor.
Qed.

(** ** The invariant *)

(** The request a call has created and not yet handed over. *)
Definition owned (c : caller) : option nat :=
  match c with
  | Entered r _ | Sending r _ | Stuck r _ | Recovering 0 r _ | Recovering 1 r _ => Some r
  | _ => None
  end.

(** The request and start of a call. *)
Definition engaged (c : caller) : option (nat * nat) :=
  match c with
  | Idle => None
  | Entered r t0 | Sending r t0 | Stuck r t0 | Recovering _ r t0 | Waiting r t0 | Returned r t0 _ => Some (r, t0)
  end.

(** The request the refresher works on, past the point where it was pending. *)
Definition handled (x : refresher) : option nat :=
  match x with Cleared r | Refreshing (Some r) | Finished r => Some r | _ => None end.

(** Has it begun the refresh? *)
Definition begun (x : refresher) : bool :=
  match x with Refreshing (Some _) | Finished _ => true | _ => false end.

Record invariant (s : state) : Prop := {
  inv_owner i r : owned (callers s i) = Some r -> pending s = Some r;
  inv_owner_unique i j r : owned (callers s i) = Some r -> owned (callers s j) = Some r -> i = j;
  inv_received r : refr s = Received r -> pending s = Some r /\ forall i, owned (callers s i) <> Some r;
  inv_pending r : pending s = Some r ->
    exists q, requests s !! r = Some q /\ req_done q = false /\ req_started q = None;
  inv_pending_owner r : pending s = Some r -> (exists i, owned (callers s i) = Some r) \/ refr s = Received r;
  inv_handled r : handled (refr s) = Some r -> pending s <> Some r /\
    exists q, requests s !! r = Some q /\ req_done q = false /\ (begun (refr s) = true <-> is_Some (req_started q));
  inv_engaged i r t0 : engaged (callers s i) = Some (r, t0) ->
    t0 <= clock s /\ exists q, requests s !! r = Some q /\ (forall v, req_started q = Some v -> t0 <= v);
  inv_waiting i r t0 : callers s i = Waiting r t0 ->
    (exists q, requests s !! r = Some q /\ req_done q = true) \/ pending s = Some r \/ handled (refr s) = Some r \/
    exists j t1, callers s j = Recovering 2 r t1;
  inv_done r q : requests s !! r = Some q -> req_done q = true -> req_err q = None -> is_Some (req_started q);
  inv_recovering i stage r t0 : callers s i = Recovering stage r t0 ->
    refr s = Stopped /\ stage <= 2 /\
    (stage <> 0 -> exists q, requests s !! r = Some q /\ req_done q = false /\ is_Some (req_err q));
  inv_closing i r t0 : callers s i = Recovering 2 r t0 -> pending s <> Some r;
  inv_closing_unique i j r t0 t1 : callers s i = Recovering 2 r t0 -> callers s j = Recovering 2 r t1 -> i = j;
  inv_returned i r t0 : callers s i = Returned r t0 None ->
    exists q v, requests s !! r = Some q /\ req_started q = Some v /\ t0 <= v;
}.

Lemma invariant_initial : invariant initial.
Proof. by constructor. Qed.

(** *** Helpers: updating one caller, one request *)

Lemma upd_exists (P : caller -> Prop) f i x :
  (exists j, P (f j)) -> (P (f i) -> P x) -> exists j : nat, P (if decide (j = i) then x else f j).
Proof.
  intros [j Hj] Hx. exists j. destruct (decide (j = i)) as [->|]; auto.
Qed.

Lemma upd_forall (P : caller -> Prop) f i x :
  (forall j, P (f j)) -> P x -> forall j : nat, P (if decide (j = i) then x else f j).
Proof. intros Hf Hx j. by destruct (decide (j = i)). Qed.

Lemma alter_exists (P : request -> Prop) (f : request -> request) (l : list request) r r' :
  (exists q, l !! r = Some q /\ P q) -> (forall q, r = r' -> P q -> P (f q)) ->
  exists q, alter f r' l !! r = Some q /\ P q.
Proof.
  intros (q & Hq & Hp) Hf. destruct (decide (r' = r)) as [->|Hne].
  - exists (f q). rewrite list_lookup_alter_eq, Hq. auto.
  - exists q. by rewrite list_lookup_alter_ne.
Qed.

Lemma alter_inv (f : request -> request) (l : list request) r r' q :
  alter f r' l !! r = Some q -> exists q0, l !! r = Some q0 /\ q = if decide (r' = r) then f q0 else q0.
Proof.
  destruct (decide (r' = r)) as [->|Hne].
  - rewrite list_lookup_alter_eq. intros (q0 & -> & ->)%fmap_Some. eauto.
  - rewrite list_lookup_alter_ne by done. eauto.
Qed.

Lemma snoc_exists (P : request -> Prop) (l : list request) x r :
  (exists q, l !! r = Some q /\ P q) -> exists q, (l ++ [x]) !! r = Some q /\ P q.
Proof. intros (q & Hq & Hp). exists q. split; [by apply lookup_app_l_Some|done]. Qed.

(** *** Preservation, action by action *)

Lemma commit_invariant s s' : invariant s -> act Commit s = Some s' -> invariant s'.
Proof.
  intros [] [= <-]. constructor; simpl; try done.
  intros i r t0 He. destruct (inv_engaged0 i r t0 He). split; [lia|done].
Qed.

Ltac callers_of :=
  repeat match goal with H : context [decide (?j = ?i)] |- _ => destruct (decide (j = i)); subst end;
  simplify_eq/=.

Lemma join_invariant i s r :
  invariant s -> callers s i = Idle -> pending s = Some r ->
  invariant (set_caller i (Waiting r (clock s)) s).
Proof.
  intros [] Hc Hp. constructor; simpl.
  - intros j r0 Ho. callers_of; eauto.
  - intros j k r0 Hj Hk. callers_of; eauto.
  - intros r0 Hr. destruct (inv_received0 r0 Hr) as [? Hf]. split; [done|].
    by apply (upd_forall (fun c => owned c <> Some r0)).
  - done.
  - intros r0 Hr. destruct (inv_pending_owner0 r0 Hr) as [Ho|]; [left|by right].
    apply (upd_exists (fun c => owned c = Some r0)); [done|]. by rewrite Hc.
  - done.
  - intros j r0 t0 He. callers_of; [|eauto].
    destruct (inv_pending0 r0 Hp) as (q & Hq & _ & Hn). split; [lia|]. exists q. split; [done|]. by rewrite Hn.
  - intros j r0 t0 Hw. callers_of; [by right; left|].
    destruct (inv_waiting0 j r0 t0) as [|[|[|(k & t1 & Hk)]]]; eauto. do 3 right. exists k, t1.
    destruct (decide (k = i)); [congruence|done].
  - done.
  - intros j st r0 t0 Hr. callers_of; eauto.
  - intros j r0 t0 Hr. callers_of; eauto.
  - intros j k r0 t0 t1 Hj Hk. callers_of; eauto.
  - intros j r0 t0 Hr. callers_of; eauto.
Qed.

Lemma create_invariant i s :
  invariant s -> callers s i = Idle -> pending s = None ->
  invariant (set_caller i (Entered (length (requests s)) (clock s))
    (set_pending (Some (length (requests s))) (set_requests (requests s ++ [new_request]) s))).
Proof.
  intros [] Hc Hp.
  assert (forall r (P : request -> Prop), (exists q, requests s !! r = Some q /\ P q) -> r <> length (requests s)) as Hfresh.
  { intros r P (q & Hq & _). apply lookup_lt_Some in Hq. lia. }
  assert (forall j r, owned (callers s j) <> Some r) as Hnone.
  { intros j r Ho. by rewrite (inv_owner0 j r Ho) in Hp. }
  constructor; simpl.
  - intros j r0 Ho. callers_of; [done|]. by apply Hnone in Ho.
  - intros j k r0 Hj Hk. callers_of; try done; exfalso; by eapply Hnone.
  - intros r0 Hr. destruct (inv_received0 r0 Hr). congruence.
  - intros r0 [= <-]. exists new_request. by rewrite lookup_app_r, Nat.sub_diag.
  - intros r0 [= <-]. left. exists i. by rewrite decide_True.
  - intros r0 Hh. destruct (inv_handled0 r0 Hh) as [_ Hq]. split; [|by apply snoc_exists].
    intros [= Heq]. by apply Hfresh in Hq.
  - intros j r0 t0 He. callers_of.
    + split; [lia|]. exists new_request. by rewrite lookup_app_r, Nat.sub_diag.
    + destruct (inv_engaged0 j r0 t0 He). split; [done|]. by apply snoc_exists.
  - intros j r0 t0 Hw. callers_of. destruct (inv_waiting0 j r0 t0) as [Hq|[|[|(k & t1 & Hk)]]]; eauto.
    + left. by apply snoc_exists.
    + congruence.
    + do 3 right. exists k, t1. destruct (decide (k = i)); [congruence|done].
  - intros r0 q [[_ Hq]|[_ <-]]%lookup_snoc_Some; [eauto|done].
  - intros j st r0 t0 Hr. callers_of. destruct (inv_recovering0 _ _ _ _ Hr) as (? & ? & Hq).
    split_and!; [done|done|]. intros Hst. apply snoc_exists. auto.
  - intros j r0 t0 Hr. callers_of. destruct (inv_recovering0 _ _ _ _ Hr) as (_ & _ & Hq).
    intros [= Heq]. by apply Hfresh in Hq.
  - intros j k r0 t0 t1 Hj Hk. callers_of; eauto.
  - intros j r0 t0 Hr. callers_of. destruct (inv_returned0 _ _ _ Hr) as (q & v & Hq & ?). exists q, v.
    split; [by apply lookup_app_l_Some|done].
Qed.

Lemma call_invariant i s s' : invariant s -> Invalidate i s = Some s' -> invariant s'.
Proof.
  unfold Invalidate. intros Hi Ha. destruct (callers s i) eqn:Hc; try done.
  destruct (pending s) as [r|] eqn:Hp; simplify_eq; [by apply join_invariant|by apply create_invariant].
Qed.

(** A call that moves on while it keeps its request. *)
Lemma move_invariant i s c r t0 :
  invariant s -> owned (callers s i) = Some r -> engaged (callers s i) = Some (r, t0) ->
  owned c = Some r -> engaged c = Some (r, t0) ->
  (forall stage t1, c = Recovering stage r t1 -> refr s = Stopped /\ stage = 0) ->
  invariant (set_caller i c s).
Proof.
  intros [] Ho He Ho' He' Hrec. constructor; simpl.
  - intros j r0 Hj. callers_of; eauto.
  - intros j k r0 Hj Hk. callers_of; eauto using eq_sym.
  - intros r0 Hr. destruct (inv_received0 r0 Hr) as [? Hf]. split; [done|].
    apply (upd_forall (fun c => owned c <> Some r0)); [done|]. rewrite Ho'. intros [= ->]. by apply (Hf i).
  - done.
  - intros r0 Hr. destruct (inv_pending_owner0 r0 Hr) as [Hex|]; [left|by right].
    apply (upd_exists (fun c => owned c = Some r0)); [done|]. by rewrite Ho, Ho'.
  - done.
  - intros j r0 t1 Hj. callers_of; eauto.
  - intros j r0 t1 Hw. callers_of.
    destruct (inv_waiting0 j r0 t1) as [|[|[|(k & t2 & Hk)]]]; eauto. do 3 right. exists k, t2.
    destruct (decide (k = i)) as [->|]; [by rewrite Hk in Ho|done].
  - done.
  - intros j st r0 t1 Hr. callers_of; [|eauto].
    destruct (Hrec _ _ eq_refl) as [? ->]. split_and!; [done|lia|done].
  - intros j r0 t1 Hr. callers_of; eauto.
  - intros j k r0 t1 t2 Hj Hk. callers_of; eauto.
  - intros j r0 t1 Hr. callers_of; eauto.
Qed.

Lemma send_invariant i s s' : invariant s -> sendInvalidation i s = Some s' -> invariant s'.
Proof.
  unfold sendInvalidation. intros Hi Ha. destruct (callers s i) eqn:Hc; try done.
  destruct (refr s) eqn:Hr; simplify_eq; (eapply move_invariant; [done|by rewrite Hc|by rewrite Hc|..]); try done;
    intros; by simplify_eq.
Qed.

Lemma deliver_invariant i s s' : invariant s -> deliver i s = Some s' -> invariant s'.
Proof.
  unfold deliver. intros Hi Ha. destruct (callers s i) as [| |r t0| | | |] eqn:Hc; try done.
  assert (owned (callers s i) = Some r) as Ho by (by rewrite Hc).
  assert (engaged (callers s i) = Some (r, t0)) as He by (by rewrite Hc).
  destruct (refr s) eqn:Hr; simplify_eq.
  - destruct Hi. assert (pending s = Some r) as Hp by eauto. constructor; simpl.
    + intros j r0 Hj. callers_of; eauto.
    + intros j k r0 Hj Hk. callers_of; eauto.
    + intros r0 [= <-]. split; [done|]. intros j Hj. callers_of. by destruct (inv_owner_unique0 j i r).
    + done.
    + intros r0 Hr0. right. congruence.
    + done.
    + intros j r0 t1 Hj. callers_of; eauto.
    + intros j r0 t1 Hw. callers_of; [by right; left|].
      destruct (inv_waiting0 j r0 t1 Hw) as [|[|[Hh|(k & t2 & Hk)]]]; eauto; [by rewrite Hr in Hh|].
      destruct (inv_recovering0 _ _ _ _ Hk). congruence.
    + done.
    + intros j st r0 t1 Hj. callers_of. destruct (inv_recovering0 _ _ _ _ Hj). congruence.
    + intros j r0 t1 Hj. callers_of; eauto.
    + intros j k r0 t1 t2 Hj Hk. callers_of; eauto.
    + intros j r0 t1 Hj. callers_of; eauto.
  - eapply move_invariant; [done|done|done|done|done|]. intros. by simplify_eq.
Qed.

(** The three actions of a recovering call. *)
Lemma recover_err_invariant i s r t0 :
  invariant s -> callers s i = Recovering 0 r t0 ->
  invariant (set_caller i (Recovering 1 r t0) (update r (with_err (Some (Sentinel cache_ErrInvalid))) s)).
Proof.
  intros Hi Hc. assert (engaged (callers s i) = Some (r, t0)) as He by (by rewrite Hc).
  destruct Hi. destruct (inv_recovering0 _ _ _ _ Hc) as (Hst & _ & Herr).
  assert (handled (refr s) = None) as Hh by (by rewrite Hst).
  assert (owned (callers s i) = Some r) as Ho by (by rewrite Hc).
  assert (pending s = Some r) as Hp by eauto. constructor; simpl.
  - intros j r0 Hj. callers_of; eauto.
  - intros j k r0 Hj Hk. callers_of; eauto using eq_sym.
  - rewrite Hst. done.
  - intros r0 Hr0. apply alter_exists; [by apply inv_pending0|done].
  - intros r0 Hr0. left. exists i. rewrite decide_True by done. simpl. congruence.
  - by rewrite Hh.
  - intros j r0 t1 Hj. assert (engaged (callers s j) = Some (r0, t1)) as Hj' by (callers_of; [by rewrite He|done]).
    destruct (inv_engaged0 j r0 t1 Hj'). split; [done|]. by apply alter_exists.
  - intros j r0 t1 Hw. callers_of. destruct (inv_waiting0 j r0 t1 Hw) as [Hq|[|[|(k & t2 & Hk)]]]; eauto.
    + left. by apply alter_exists.
    + do 3 right. exists k, t2. destruct (decide (k = i)); [congruence|done].
  - intros r0 q (q0 & Hq & ->)%alter_inv. destruct (decide (r = r0)); simpl; [done|by apply (inv_done0 r0)].
  - intros j st r0 t1 Hj. split; [done|]. callers_of.
    + split; [lia|]. intros _. destruct (inv_pending0 _ Hp) as (q & Hq & Hd & _).
      exists (with_err (Some (Sentinel cache_ErrInvalid)) q). rewrite list_lookup_alter_eq, Hq. eauto.
    + destruct (inv_recovering0 _ _ _ _ Hj) as (_ & ? & Hq). split; [done|]. intros Hne.
      apply (alter_exists (fun q => req_done q = false /\ is_Some (req_err q))); [auto|]. intros q _ [? _]. eauto.
  - intros j r0 t1 Hj. callers_of; eauto.
  - intros j k r0 t1 t2 Hj Hk. callers_of; eauto.
  - intros j r0 t1 Hj. callers_of. destruct (inv_returned0 _ _ _ Hj) as (q & v & Hq & Hv).
    destruct (alter_exists (fun q => req_started q = Some v /\ t1 <= v) (with_err (Some (Sentinel cache_ErrInvalid))) (requests s) r0 r) as (q' & ? & ?); eauto.
Qed.

Lemma recover_pending_invariant i s r t0 :
  invariant s -> callers s i = Recovering 1 r t0 ->
  invariant (set_caller i (Recovering 2 r t0) (set_pending None s)).
Proof.
  intros Hi Hc. assert (engaged (callers s i) = Some (r, t0)) as He by (by rewrite Hc).
  destruct Hi. destruct (inv_recovering0 _ _ _ _ Hc) as (Hst & _ & Herr).
  assert (handled (refr s) = None) as Hh by (by rewrite Hst).
  assert (owned (callers s i) = Some r) as Ho by (by rewrite Hc).
  assert (pending s = Some r) as Hp by eauto.
  assert (forall j r0, j <> i -> owned (callers s j) <> Some r0) as Hnone.
  { intros j r0 Hne Hj. apply Hne. apply inv_owner0 in Hj as Hj'. apply (inv_owner_unique0 j i r); congruence. }
  constructor; simpl.
  - intros j r0 Hj. callers_of. by destruct (Hnone j r0).
  - intros j k r0 Hj Hk. callers_of; exfalso; by eapply (Hnone j r0).
  - rewrite Hst. done.
  - done.
  - done.
  - by rewrite Hh.
  - intros j r0 t1 Hj. callers_of; [|eauto]. destruct (inv_engaged0 i r0 t1 He). done.
  - intros j r0 t1 Hw. callers_of. destruct (inv_waiting0 j r0 t1 Hw) as [Hq|[|[|(k & t2 & Hk)]]]; eauto.
    + do 3 right. exists i, t0. rewrite decide_True by done. congruence.
    + do 3 right. exists k, t2. destruct (decide (k = i)); [congruence|done].
  - done.
  - intros j st r0 t1 Hj. split; [done|]. callers_of.
    + split; [lia|]. intros _. by apply Herr.
    + by destruct (inv_recovering0 _ _ _ _ Hj) as (_ & ? & ?).
  - done.
  - intros j k r0 t1 t2 Hj Hk. callers_of; eauto; exfalso; by eapply inv_closing0.
  - intros j r0 t1 Hj. callers_of. eauto.
Qed.

Lemma recover_done_invariant i s r t0 :
  invariant s -> callers s i = Recovering 2 r t0 ->
  invariant (set_caller i (Returned r t0 (Some (Sentinel cache_ErrInvalid))) (update r with_done s)).
Proof.
  intros Hi Hc. assert (engaged (callers s i) = Some (r, t0)) as He by (by rewrite Hc).
  destruct Hi. destruct (inv_recovering0 _ _ _ _ Hc) as (Hst & _ & Herr).
  assert (handled (refr s) = None) as Hh by (by rewrite Hst).
  destruct (Herr ltac:(done)) as (q & Hq & Hd & Hsome).
  assert (owned (callers s i) = None) as Ho by (by rewrite Hc). constructor; simpl.
  - intros j r0 Hj. callers_of; eauto.
  - intros j k r0 Hj Hk. callers_of; eauto.
  - rewrite Hst. done.
  - intros r0 Hp. apply (alter_exists (fun q => req_done q = false /\ req_started q = None)); [by apply inv_pending0|].
    intros q' -> _. by destruct (inv_closing0 _ _ _ Hc).
  - intros r0 Hp. destruct (inv_pending_owner0 r0 Hp) as [Hex|]; [left|by right].
    apply (upd_exists (fun c => owned c = Some r0)); [done|]. by rewrite Ho.
  - by rewrite Hh.
  - intros j r0 t1 Hj. assert (engaged (callers s j) = Some (r0, t1)) as Hj' by (callers_of; [by rewrite He|done]).
    destruct (inv_engaged0 j r0 t1 Hj'). split; [done|]. by apply alter_exists.
  - intros j r0 t1 Hw. callers_of. destruct (inv_waiting0 j r0 t1 Hw) as [Hq'|[|[|(k & t2 & Hk)]]]; eauto.
    + left. by apply alter_exists.
    + destruct (decide (k = i)) as [->|Hne].
      * left. rewrite Hc in Hk. simplify_eq. exists (with_done q). by rewrite list_lookup_alter_eq, Hq.
      * do 3 right. exists k, t2. by rewrite decide_False.
  - intros r0 q' (q0 & Hq' & ->)%alter_inv. destruct (decide (r = r0)) as [<-|]; simpl; [|by apply (inv_done0 r0)].
    simplify_eq. intros _ Hn. rewrite Hn in Hsome. by destruct Hsome.
  - intros j st r0 t1 Hj. callers_of. split; [done|]. destruct (inv_recovering0 _ _ _ _ Hj) as (_ & ? & Hq').
    split; [done|]. intros Hne.
    apply (alter_exists (fun q => req_done q = false /\ is_Some (req_err q))); [auto|]. intros q' <- _. exfalso.
    destruct st as [|[|st]]; [done| |].
    + apply (inv_closing0 _ _ _ Hc). eapply (inv_owner0 j). by rewrite Hj.
    + assert (st = 0) as -> by lia. by destruct (inv_closing_unique0 j i _ _ _ Hj Hc).
  - intros j r0 t1 Hj. callers_of; eauto.
  - intros j k r0 t1 t2 Hj Hk. callers_of; eauto.
  - intros j r0 t1 Hj. callers_of. destruct (inv_returned0 _ _ _ Hj) as (q' & v & Hq' & Hv).
    destruct (alter_exists (fun q => req_started q = Some v /\ t1 <= v) with_done (requests s) r0 r) as (q2 & ? & ?); eauto.
Qed.

Lemma recovers_invariant i s s' : invariant s -> recovers i s = Some s' -> invariant s'.
Proof.
  unfold recovers. intros Hi Ha. destruct (callers s i) as [| | | |stage r t0| |] eqn:Hc; try done.
  destruct (inv_recovering s Hi _ _ _ _ Hc) as (_ & Hle & _).
  destruct stage as [|[|[|stage]]]; simplify_eq.
  - by apply recover_err_invariant.
  - by apply recover_pending_invariant.
  - by apply recover_done_invariant.
  - lia.
Qed.

Lemma await_invariant i s s' : invariant s -> await i s = Some s' -> invariant s'.
Proof.
  unfold await. intros Hi Ha. destruct (callers s i) as [| | | | |r t0|] eqn:Hc; try done.
  destruct (requests s !! r) as [q|] eqn:Hq; [|done]. destruct (req_done q) eqn:Hd; simplify_eq.
  assert (engaged (callers s i) = Some (r, t0)) as He by (by rewrite Hc).
  assert (owned (callers s i) = None) as Ho by (by rewrite Hc).
  destruct Hi. constructor; simpl.
  - intros j r0 Hj. callers_of; eauto.
  - intros j k r0 Hj Hk. callers_of; eauto.
  - intros r0 Hr. destruct (inv_received0 r0 Hr) as [? Hf]. split; [done|].
    by apply (upd_forall (fun c => owned c <> Some r0)).
  - done.
  - intros r0 Hr. destruct (inv_pending_owner0 r0 Hr) as [Hex|]; [left|by right].
    apply (upd_exists (fun c => owned c = Some r0)); [done|]. by rewrite Ho.
  - done.
  - intros j r0 t1 Hj. callers_of; eauto.
  - intros j r0 t1 Hw. callers_of. destruct (inv_waiting0 j r0 t1 Hw) as [|[|[|(k & t2 & Hk)]]]; eauto.
    do 3 right. exists k, t2. destruct (decide (k = i)); [congruence|done].
  - done.
  - intros j st r0 t1 Hj. callers_of; eauto.
  - intros j r0 t1 Hj. callers_of; eauto.
  - intros j k r0 t1 t2 Hj Hk. callers_of; eauto.
  - intros j r0 t1 Hj. callers_of; [|eauto].
    destruct (inv_engaged0 i r0 t1 He) as (_ & q' & Hq' & Hle). simplify_eq.
    destruct (inv_done0 _ _ Hq Hd) as [v Hv]; [done|]. eauto 10.
Qed.

(** The refresher changes state without touching a request. *)
Lemma refr_invariant s x :
  invariant s -> handled (refr s) = None -> handled x = None ->
  (forall r, refr s <> Received r) -> (forall r, x <> Received r) -> refr s <> Stopped ->
  invariant (set_refr x s).
Proof.
  intros [] Hh Hx Hr Hr' Hst. constructor; simpl; try done.
  - intros r Hx'. by apply Hr' in Hx'.
  - intros r Hp. left. destruct (inv_pending_owner0 r Hp) as [|Hrr]; [done|]. by apply Hr in Hrr.
  - by rewrite Hx.
  - intros i r t0 Hw. destruct (inv_waiting0 i r t0 Hw) as [|[|[|]]]; eauto. congruence.
  - intros i st r t0 Hc. by destruct (inv_recovering0 _ _ _ _ Hc).
Qed.

Lemma clear_invariant s s' : invariant s -> clearPending s = Some s' -> invariant s'.
Proof.
  unfold clearPending. intros Hi Ha. destruct (refr s) as [| |r| | | |] eqn:Hr; simplify_eq.
  destruct Hi. destruct (inv_received0 r Hr) as [Hp Hf].
  assert (forall j r0, owned (callers s j) <> Some r0) as Hnone.
  { intros j r0 Ho. pose proof (inv_owner0 j r0 Ho). simplify_eq. by apply (Hf j). }
  assert (forall j st r0 t0, callers s j <> Recovering st r0 t0) as Hrec.
  { intros j st r0 t0 Hc. destruct (inv_recovering0 _ _ _ _ Hc). congruence. }
  constructor; simpl; try done.
  - intros j r0 Ho. by apply Hnone in Ho.
  - intros r0 [= <-]. split; [done|]. destruct (inv_pending0 r Hp) as (q & ? & ? & Hn).
    exists q. rewrite Hn. split_and!; [done|done|]. split; [done|by intros []].
  - intros i r0 t0 Hw. destruct (inv_waiting0 i r0 t0 Hw) as [|[Hp'|[Hh|(k & t2 & Hk)]]]; eauto.
    + right; right; left. congruence.
    + by rewrite Hr in Hh.
    + by apply Hrec in Hk.
  - intros i st r0 t0 Hc. by apply Hrec in Hc.
Qed.

(** While the refresher runs, nobody is recovering, and the request it handles is
    nobody else's business. *)
Lemma handled_alone s r :
  invariant s -> handled (refr s) = Some r ->
  (forall j st r0 t0, callers s j <> Recovering st r0 t0) /\ pending s <> Some r /\
  (forall r0, refr s <> Received r0) /\ (forall r0, handled (refr s) = Some r0 -> r0 = r).
Proof.
  intros [] Hh. split_and!.
  - intros j st r0 t0 Hc. destruct (inv_recovering0 _ _ _ _ Hc) as [Hst _]. by rewrite Hst in Hh.
  - by apply inv_handled0.
  - intros r0 Hr. by rewrite Hr in Hh.
  - intros r0 Hr0. congruence.
Qed.

(** The refresher updates the request it handles, and keeps handling it. *)
Lemma update_invariant s r f x :
  invariant s -> handled (refr s) = Some r -> handled x = Some r ->
  (forall q, req_done (f q) = req_done q) ->
  (forall q, requests s !! r = Some q -> is_Some (req_started q) -> req_started (f q) = req_started q) ->
  (forall q, req_started (f q) = req_started q \/ req_started (f q) = Some (clock s)) ->
  (forall q, requests s !! r = Some q -> begun x = true <-> is_Some (req_started (f q))) ->
  invariant (set_refr x (update r f s)).
Proof.
  intros Hi Hh Hx Hdone Hkeep Hnew Hst. destruct (handled_alone s r Hi Hh) as (Hrec & Hnp & _ & _).
  destruct Hi. constructor; simpl; try done.
  - intros r0 Hr. by rewrite Hr in Hx.
  - intros r0 Hp. apply (alter_exists (fun q => req_done q = false /\ req_started q = None)); [by apply inv_pending0|].
    intros q ->. by apply Hnp in Hp.
  - intros r0 Hp. destruct (inv_pending_owner0 r0 Hp) as [|Hr]; [by left|]. by rewrite Hr in Hh.
  - intros r0 Hr0. assert (r0 = r) as -> by congruence. split; [done|].
    destruct (inv_handled0 r Hh) as (_ & q & Hq & Hd & _). exists (f q).
    rewrite list_lookup_alter_eq, Hq. split_and!; [done|by rewrite Hdone|by apply Hst].
  - intros i r0 t0 He. destruct (inv_engaged0 i r0 t0 He) as [Hle Hq]. split; [done|].
    apply (alter_exists (fun q => forall v, req_started q = Some v -> t0 <= v)); [done|].
    intros q _ Hv v. destruct (Hnew q) as [->| ->]; [apply Hv|]. by intros [= <-].
  - intros i r0 t0 Hw. destruct (inv_waiting0 i r0 t0 Hw) as [Hq|[|[Hr|(k & t2 & Hk)]]]; eauto.
    + left. apply (alter_exists (fun q => req_done q = true)); [done|]. intros q _. by rewrite Hdone.
    + right; right; left. congruence.
    + by apply Hrec in Hk.
  - intros r0 q (q0 & Hq & ->)%alter_inv. destruct (decide (r = r0)) as [<-|]; [|by apply (inv_done0 r0)].
    rewrite Hdone. destruct (inv_handled0 r Hh) as (_ & q1 & Hq1 & Hd & _). congruence.
  - intros i st r0 t0 Hc. by apply Hrec in Hc.
  - intros i r0 t0 Hc. destruct (inv_returned0 i r0 t0 Hc) as (q & v & Hq & Hv & Hle).
    destruct (decide (r = r0)) as [<-|Hne].
    + exists (f q), v. rewrite list_lookup_alter_eq, Hq, Hkeep; [done|done|]. by rewrite Hv.
    + exists q, v. by rewrite list_lookup_alter_ne.
Qed.

Lemma begin_invariant s s' : invariant s -> beginRefresh s = Some s' -> invariant s'.
Proof.
  unfold beginRefresh. intros Hi Ha. destruct (refr s) as [| | |r| | |] eqn:Hr; simplify_eq.
  - apply refr_invariant; rewrite ?Hr; done.
  - assert (handled (refr s) = Some r) as Hh by (by rewrite Hr).
    destruct (inv_handled s Hi r Hh) as (_ & q & Hq & _ & Hb). rewrite Hr in Hb. simpl in Hb.
    eapply update_invariant; try done; simpl.
    + intros q' Hq' Hs. simplify_eq. by apply Hb in Hs.
    + by right.
Qed.

Lemma end_invariant e s s' : invariant s -> endRefresh e s = Some s' -> invariant s'.
Proof.
  unfold endRefresh. intros Hi Ha. destruct (refr s) as [| | | |[r|]| |] eqn:Hr; simplify_eq.
  - assert (handled (refr s) = Some r) as Hh by (by rewrite Hr).
    eapply update_invariant; [done|done|done|done|done|by left|]. intros q Hq.
    destruct (inv_handled s Hi r Hh) as (_ & q' & Hq' & _ & Hb). rewrite Hr in Hb. by simplify_eq.
  - apply refr_invariant; rewrite ?Hr; done.
Qed.

Lemma close_invariant s s' : invariant s -> closeDone s = Some s' -> invariant s'.
Proof.
  unfold closeDone. intros Hi Ha. destruct (refr s) as [| | | | |r|] eqn:Hr; simplify_eq.
  assert (handled (refr s) = Some r) as Hh by (by rewrite Hr).
  destruct (handled_alone s r Hi Hh) as (Hrec & Hnp & _ & _).
  destruct Hi. destruct (inv_handled0 r Hh) as (_ & q & Hq & Hd & Hb). rewrite Hr in Hb.
  assert (is_Some (req_started q)) as Hs by (by apply Hb).
  constructor; simpl; try done.
  - intros r0 Hp. apply (alter_exists (fun q => req_done q = false /\ req_started q = None)); [by apply inv_pending0|].
    intros q0 ->. by apply Hnp in Hp.
  - intros r0 Hp. destruct (inv_pending_owner0 r0 Hp) as [|Hr0]; [by left|]. congruence.
  - intros i r0 t0 He. destruct (inv_engaged0 i r0 t0 He) as [Hle Hq0]. split; [done|]. by apply alter_exists.
  - intros i r0 t0 Hw. destruct (inv_waiting0 i r0 t0 Hw) as [Hq0|[|[Hr0|(k & t2 & Hk)]]]; eauto.
    + left. by apply alter_exists.
    + left. assert (r0 = r) as -> by congruence. exists (with_done q). by rewrite list_lookup_alter_eq, Hq.
    + by apply Hrec in Hk.
  - intros r0 q' (q0 & Hq' & ->)%alter_inv. destruct (decide (r = r0)) as [<-|]; simpl; [|by apply (inv_done0 r0)].
    by simplify_eq.
  - intros i st r0 t0 Hc. by apply Hrec in Hc.
  - intros i r0 t0 Hc. destruct (inv_returned0 i r0 t0 Hc) as (q' & v & Hq' & Hv & Hle).
    destruct (alter_exists (fun q => req_started q = Some v) with_done (requests s) r0 r) as (q2 & ? & ?); eauto 10.
Qed.

Lemma act_invariant l s s' : invariant s -> act l s = Some s' -> invariant s'.
Proof.
  intros Hi Ha. destruct l; simpl in Ha.
  - by eapply commit_invariant.
  - by eapply call_invariant.
  - by eapply send_invariant.
  - by eapply deliver_invariant.
  - by eapply recovers_invariant.
  - by eapply await_invariant.
  - unfold Run in Ha. destruct (refr s) eqn:Hr; simplify_eq. apply refr_invariant; rewrite ?Hr; done.
  - by eapply clear_invariant.
  - by eapply begin_invariant.
  - by eapply end_invariant.
  - by eapply close_invariant.
  - unfold shutdown in Ha. destruct (refr s) eqn:Hr; simplify_eq. apply refr_invariant; rewrite ?Hr; done.
Qed.

Lemma reachable_invariant s : reachable s -> invariant s.
Proof. induction 1; [apply invariant_initial|by eapply act_invariant]. Qed.

(** ** Properties *)

(** C13 A call of Invalidate that succeeds answers the result of a refresh that
    began after the call did: coalescing never hands a caller a refresh that was
    already under way. *)
Theorem invalidate_fresh s i r t0 :
  reachable s -> callers s i = Returned r t0 None ->
  exists q v, requests s !! r = Some q /\ req_started q = Some v /\ t0 <= v.
Proof. intros Hr. by apply inv_returned, reachable_invariant. Qed.

(** The actions of the calls and of the refresher at work: not new calls, commits
    of the backend, the start, the ticker or the end of the refresher. *)
Definition internal (l : label) (s : state) : Prop :=
  match l with
  | Commit | Call _ | Start | Shutdown => False
  | Begin => refr s <> Selecting
  | _ => True
  end.

(** Is the call under way? *)
Definition active (c : caller) : bool :=
  match c with Idle | Returned _ _ _ => false | _ => true end.

(** Some action of a call that owns its request is possible once the refresher
    is at rest. *)
Lemma owner_progress s j r :
  invariant s -> owned (callers s j) = Some r -> (forall r t0, callers s j <> Stuck r t0) ->
  refr s = Selecting \/ refr s = Stopped -> exists l s', internal l s /\ act l s = Some s'.
Proof.
  intros Hi Ho Hst Hr. destruct (callers s j) as [|r' t0|r' t0|r' t0|[|[|st]] r' t0| |] eqn:Hc; try done.
  - exists (Send j). simpl. unfold sendInvalidation. rewrite Hc. destruct Hr as [-> | ->]; eauto.
  - exists (Deliver j). simpl. unfold deliver. rewrite Hc. destruct Hr as [-> | ->]; eauto.
  - by destruct (Hst r' t0).
  - exists (Recover j). simpl. unfold recovers. rewrite Hc. eauto.
  - exists (Recover j). simpl. unfold recovers. rewrite Hc. eauto.
Qed.

(** C29 No call is orphaned: once Run has started the refresher, and unless a call
    was made before it, some action is possible as long as any call of Invalidate
    has not returned, whether the refresher is at work, idle or stopped. *)
Theorem invalidate_progress s i :
  reachable s -> refr s <> NotRunning -> (forall j r t0, callers s j <> Stuck r t0) ->
  active (callers s i) = true -> exists l s', internal l s /\ act l s = Some s'.
Proof.
  intros Hr%reachable_invariant Hrun Hst Hact.
  destruct (refr s) as [| |r|r|[r|]|r|] eqn:Hrf; try done.
  2: exists Clear; simpl; unfold clearPending; rewrite Hrf; eauto.
  2: exists Begin; simpl; unfold beginRefresh; rewrite Hrf; eauto.
  2,3: exists (End_ None); simpl; unfold endRefresh; rewrite Hrf; eauto.
  2: exists Close; simpl; unfold closeDone; rewrite Hrf; eauto.
  all: assert (refr s = Selecting \/ refr s = Stopped) as Hrest by auto.
  all: destruct (owned (callers s i)) as [r|] eqn:Ho; [by eapply owner_progress|].
  all: destruct (callers s i) as [|r t0|r t0|r t0|st r t0|r t0|] eqn:Hc; try done.
  1,3: exists (Recover i); simpl; unfold recovers; rewrite Hc; destruct st as [|[|]]; eauto.
  all: destruct (inv_waiting s Hr i r t0 Hc) as [(q & Hq & Hd)|[Hp|[Hh|(k & t2 & Hk)]]].
  1,5: exists (Await i); simpl; unfold await; rewrite Hc, Hq, Hd; eauto.
  1,4: destruct (inv_pending_owner s Hr r Hp) as [[j Hj]|Hrr]; [by eapply owner_progress|congruence].
  1,3: by rewrite Hrf in Hh.
  1,2: exists (Recover k); simpl; unfold recovers; rewrite Hk; eauto.
Qed.

(** A call made before Run: its request is pending for good. *)
Lemma stuck_step l s s' j r t0 :
  invariant s -> callers s j = Stuck r t0 -> act l s = Some s' ->
  callers s' j = Stuck r t0 /\
  forall i, callers s i = Idle \/ (exists t1, callers s i = Waiting r t1) ->
            callers s' i = Idle \/ exists t1, callers s' i = Waiting r t1.
Proof.
  intros Hi Hj Ha.
  assert (owned (callers s j) = Some r) as Ho by (by rewrite Hj).
  assert (pending s = Some r) as Hp by (by apply (inv_owner s Hi j)).
  assert (forall i r', owned (callers s i) = Some r' -> i = j) as Hown.
  { intros i r' Hi'. apply (inv_owner_unique s Hi i j r); [|done].
    pose proof (inv_owner s Hi i r' Hi'). congruence. }
  assert (forall i c, (callers s i = Idle -> c = Waiting r (clock s)) -> callers s i <> Stuck r t0 ->
    ~ (exists t1, callers s i = Waiting r t1) ->
    callers (set_caller i c s) j = Stuck r t0 /\
    forall k, callers s k = Idle \/ (exists t1, callers s k = Waiting r t1) ->
              callers (set_caller i c s) k = Idle \/ exists t1, callers (set_caller i c s) k = Waiting r t1) as Hset.
  { intros i c Hidle Hns Hnw. simpl. split; [by destruct (decide (j = i)) as [<-|]|].
    intros k Hk. destruct (decide (k = i)) as [->|]; [|done]. destruct Hk as [Hk|Hk]; [|done].
    right. rewrite Hidle; eauto. }
  destruct l as [|i|i|i|i|i| | | | | |]; simpl in Ha.
  - by simplify_eq/=.
  - unfold Invalidate in Ha. rewrite Hp in Ha. destruct (callers s i) eqn:Hc; simplify_eq.
    apply Hset; [done|congruence|]. intros [? ?]; congruence.
  - unfold sendInvalidation in Ha. destruct (callers s i) as [|r' t'| | | | |] eqn:Hc; try done.
    assert (i = j) as -> by (apply (Hown i r'); by rewrite Hc). congruence.
  - unfold deliver in Ha. destruct (callers s i) as [| |r' t'| | | |] eqn:Hc; try done.
    assert (i = j) as -> by (apply (Hown i r'); by rewrite Hc). congruence.
  - unfold recovers in Ha. destruct (callers s i) as [| | | |st r' t'| |] eqn:Hc; try done.
    destruct st as [|[|st]]; simplify_eq.
    1,2: assert (i = j) as -> by (apply (Hown i r'); by rewrite Hc); congruence.
    apply (Hset i); [congruence|congruence|]. intros [? ?]; congruence.
  - unfold await in Ha. destruct (callers s i) as [| | | | |r' t'|] eqn:Hc; try done.
    destruct (requests s !! r') as [q|] eqn:Hq; [|done]. destruct (req_done q) eqn:Hd; simplify_eq.
    apply (Hset i); [congruence|congruence|]. intros [t1 Ht1]. assert (r' = r) as -> by congruence.
    destruct (inv_pending s Hi r Hp) as (q' & ? & ? & _). congruence.
  - unfold Run in Ha. destruct (refr s); by simplify_eq/=.
  - unfold clearPending in Ha. destruct (refr s); by simplify_eq/=.
  - unfold beginRefresh in Ha. destruct (refr s); by simplify_eq/=.
  - unfold endRefresh in Ha. destruct (refr s) as [| | | |[]| |]; by simplify_eq/=.
  - unfold closeDone in Ha. destruct (refr s); by simplify_eq/=.
  - unfold shutdown in Ha. destruct (refr s); by simplify_eq/=.
Qed.

(** A call of Invalidate made before Run is never unblocked by Run, and every
    later call coalesces onto it: none of them ever returns. *)
Theorem invalidate_before_run_wedges s j r t0 ls s' i :
  reachable s -> callers s j = Stuck r t0 -> callers s i = Idle -> acts ls s = Some s' ->
  callers s' j = Stuck r t0 /\ forall r' t e, callers s' i <> Returned r' t e.
Proof.
  intros Hs Hj Hidle Ha.
  assert (callers s i = Idle \/ exists t1, callers s i = Waiting r t1) as Hw by (by left). clear Hidle.
  revert s Hs Hj Hw Ha. induction ls as [|l ls IH]; intros s Hs Hj Hw Ha; simpl in Ha.
  - simplify_eq. split; [done|]. intros r' t e He. destruct Hw as [|[? ?]]; congruence.
  - apply bind_Some in Ha as (s1 & H1 & Ha).
    destruct (stuck_step l s s1 j r t0 (reachable_invariant s Hs) Hj H1) as [Hj1 Hw1].
    apply (IH s1); [by econstructor|done|by apply Hw1|done].
Qed.

(** At most one call at a time is handing its request to the refresher: all
    others have coalesced onto it or wait for a refresh under way. *)
Theorem invalidate_single_sender s i j r r' :
  reachable s -> owned (callers s i) = Some r -> owned (callers s j) = Some r' -> i = j /\ r = r'.
Proof.
  intros Hs%reachable_invariant Hi Hj.
  pose proof (inv_owner s Hs i r Hi) as Hp. pose proof (inv_owner s Hs j r' Hj) as Hp'.
  assert (r = r') as -> by congruence. split; [|done]. by eapply (inv_owner_unique s Hs).
Qed.

(** ** Witnesses *)

Module witnesses.

(** A call during a refresh that began too early: it waits for the next one, and
    a third call coalesces onto it. *)
Definition late : list label :=
  [Start; Call 0; Send 0; Deliver 0; Clear; Begin; Commit; Call 1; Call 2; Send 1; End_ None; Close; Await 0;
   Deliver 1; Clear; Begin; End_ None; Close; Await 1; Await 2].

Definition run (ls : list label) : state := default initial (acts ls initial).

Lemma run_reachable ls : (if acts ls initial then true else false) = true -> reachable (run ls).
Proof.
  unfold run. destruct (acts ls initial) as [s|] eqn:Hs; [|done]. intros _. eapply acts_reachable; [constructor|done].
Qed.

Lemma invalidate_fresh_witness :
  callers (run late) 2 = Returned 1 1 None /\ exists q v, requests (run late) !! 1 = Some q /\ req_started q = Some v /\ 1 <= v.
Proof.
  assert (callers (run late) 2 = Returned 1 1 None) as Hc by (vm_compute; reflexivity).
  split; [exact Hc|]. apply (invalidate_fresh (run late) 2 1 1); [|exact Hc].
  apply run_reachable. vm_compute. reflexivity.
Defined.

Definition closing : list label := [Start; Call 0; Call 1; Send 0; Shutdown].

Lemma invalidate_progress_witness : exists l s', internal l (run closing) /\ act l (run closing) = Some s'.
Proof.
  apply (invalidate_progress (run closing) 1).
  - apply run_reachable. vm_compute. reflexivity.
  - vm_compute. discriminate.
  - intros [|[|j]] r t0; vm_compute; discriminate.
  - vm_compute. reflexivity.
Defined.

(** A call before Run, then a normal life. *)
Definition early : list label := [Call 0; Send 0].
Definition normal : list label := [Start; Call 1; Begin; End_ None].

Lemma invalidate_before_run_wedges_witness :
  exists s', acts normal (run early) = Some s' /\ forall r t e, callers s' 1 <> Returned r t e.
Proof.
  destruct (acts normal (run early)) as [s'|] eqn:Ha; [|exfalso; revert Ha; vm_compute; discriminate].
  exists s'. split; [reflexivity|].
  apply (invalidate_before_run_wedges (run early) 0 0 0 normal s' 1); [|vm_compute; reflexivity|vm_compute; reflexivity|exact Ha].
  apply run_reachable. vm_compute. reflexivity.
Defined.

Lemma invalidate_single_sender_witness : forall j, owned (callers (run early) j) = Some 0 -> 0 = j /\ 0 = 0.
Proof.
  intros j Hj. apply (invalidate_single_sender (run early) 0 j 0 0); [|vm_compute; reflexivity|exact Hj].
  apply run_reachable. vm_compute. reflexivity.
Defined.

End witnesses.
