(* ===== verification/ServerErrors.v ===== *)
(** * ServerErrors: HTTP errors and the responses they become

    Models pkg/server/errors/errors.go.  A handler's error is an [error] value;
    HandleError turns it into calls on the response writer and the logger.  The
    branch of Write for an error of json.Marshal is left out: a struct of strings
    always marshals. *)

From S2P Require Import Prelude Errors GoStrings Effects Json.

(** The generated API error and its codes (pkg/openapi/types.go). *)
Module openapi.

Abbreviation ErrorError := string.
Definition AccessDenied : ErrorError := "access_denied".
Definition Conflict : ErrorError := "conflict".
Definition Forbidden : ErrorError := "forbidden".
Definition InvalidRequest : ErrorError := "invalid_request".
Definition MethodNotAllowed : ErrorError := "method_not_allowed".
Definition NotFound : ErrorError := "not_found".
Definition RequestEntityTooLarge : ErrorError := "request_entity_too_large".
Definition ServerError : ErrorError := "server_error".
Definition UnprocessableContent : ErrorError := "unprocessable_content".
Definition UnsupportedMediaType : ErrorError := "unsupported_media_type".

Record Error := {
  Error_ : ErrorError;
  ErrorDescription : string;
  TraceId : option string;
}.

(** Its JSON document, after the struct's tags. *)
Definition Error_json (e : Error) : json :=
  JObject ([("error", JString (Error_ e)); ("error_description", JString (ErrorDescription e))] ++
           omitempty "trace_id" JString (TraceId e)).

End openapi.

(** The calls of a response: header, status line and body of the writer, and
    the request's logger. *)
Inductive httpE : Type -> Type :=
| HeaderAdd (key value : string) : httpE unit
| WriteHeader (code : Z) : httpE unit
| WriteBody (body : string) : httpE (option error)
| LogInfo (msg : string) (details : list string) : httpE unit
| LogError (err : error) (msg : string) : httpE unit.

Module servererrors.

Abbreviation Error := Errors.HTTPError.

Definition AuthenticateHeader : string := "WWW-Authenticate".

(** net/http's names for status codes. *)
Definition StatusBadRequest : Z := 400.
Definition StatusUnauthorized : Z := 401.
Definition StatusForbidden : Z := 403.
Definition StatusNotFound : Z := 404.
Definition StatusMethodNotAllowed : Z := 405.
Definition StatusConflict : Z := 409.
Definition StatusRequestEntityTooLarge : Z := 413.
Definition StatusUnprocessableEntity : Z := 422.
Definition StatusInternalServerError : Z := 500.

(** A *Error used as an error value. *)
Definition as_error (e : Error) : error :=
  HTTP (http_status e) (http_code e) (http_description e) (http_header e) (http_err e) (http_values e).

Definition newError (status : Z) (code : openapi.ErrorError) (a : list operand) : Error :=
  {| http_status := status; http_code := code;
     http_description := strings_TrimSuffix (fmt_Sprintln a) newline;
     http_header := ∅; http_err := None; http_values := [] |}.

Definition WithError (err : error) (e : Error) : Error :=
  {| http_status := http_status e; http_code := http_code e; http_description := http_description e;
     http_header := http_header e; http_err := Some err; http_values := http_values e |}.

Definition WithValues (values : list string) (e : Error) : Error :=
  {| http_status := http_status e; http_code := http_code e; http_description := http_description e;
     http_header := http_header e; http_err := http_err e; http_values := values |}.

(** http.Header.Set replaces the values of the canonical key. *)
Definition withHeader (key value : string) (e : Error) : Error :=
  {| http_status := http_status e; http_code := http_code e; http_description := http_description e;
     http_header := <[ CanonicalMIMEHeaderKey key := [value] ]> (http_header e);
     http_err := http_err e; http_values := http_values e |}.

Definition Unwrap (e : Error) : option error := http_err e.

Definition Error_Error (e : Error) : string := http_description e.

Section responses.

(** [error_text]: how an error prints; [trace_id]: the trace of the request. *)
Context `{MapOrder}.
Variable error_text : error -> string.
Variable trace_id : string.

Fixpoint forEach {A : Type} (l : list A) (f : A -> prog httpE unit) : prog httpE unit :=
  match l with
  | [] => mret tt
  | x :: l' => _ ← f x; forEach l' f
  end.

(** The details Write logs. *)
Definition details (e : Error) : list string :=
  (if bool_decide (http_description e = "") then [] else ["detail"; http_description e]) ++
  (match http_err e with Some err => ["error"; error_text err] | None => [] end) ++
  http_values e.

Definition Write (e : Error) : prog httpE unit :=
  _ ← call (LogInfo "error detail" (details e));
  _ ← call (HeaderAdd "Cache-Control" "no-cache");
  _ ← call (HeaderAdd "Content-Type" "application/json");
  _ ← forEach (map_range (http_header e)) (fun '(header, values) =>
        forEach values (fun value => call (HeaderAdd header value)));
  _ ← call (WriteHeader (http_status e));
  let ge := {| openapi.Error_ := http_code e; openapi.ErrorDescription := http_description e;
               openapi.TraceId := if bool_decide (trace_id = "") then None else Some trace_id |} in
  r ← call (WriteBody (marshal (openapi.Error_json ge)));
  match r with
  | Some err => call (LogError err "failed to write error response")
  | None => mret tt
  end.

Definition asError (err : error) : option Error := errors_as_http err.

Definition isErrorType (err : error) (code : Z) : bool :=
  match asError err with
  | None => false
  | Some httpError => if negb (http_status httpError =? code)%Z then false else true
  end.

Definition FromOpenAPIError (code : Z) (err : openapi.Error) : Error :=
  newError code (openapi.Error_ err) [OString (openapi.ErrorDescription err)].

Definition HTTPForbidden (a : list operand) : Error := newError StatusForbidden openapi.Forbidden a.
Definition IsForbidden (err : error) : bool := isErrorType err StatusForbidden.
Definition HTTPNotFound : Error := newError StatusNotFound openapi.NotFound [OString "resource not found"].
Definition IsHTTPNotFound (err : error) : bool := isErrorType err StatusNotFound.
Definition HTTPMethodNotAllowed : Error :=
  newError StatusMethodNotAllowed openapi.MethodNotAllowed [OString "the requested method was not allowed"].
Definition IsMethodNotAllowed (err : error) : bool := isErrorType err StatusMethodNotAllowed.
Definition HTTPConflict : Error :=
  newError StatusConflict openapi.Conflict [OString "the requested resource already exists"].
Definition IsConflict (err : error) : bool := isErrorType err StatusConflict.
Definition HTTPRequestEntityTooLarge (a : list operand) : Error :=
  newError StatusRequestEntityTooLarge openapi.RequestEntityTooLarge a.
Definition IsRequestEntityTooLarge (err : error) : bool := isErrorType err StatusRequestEntityTooLarge.
Definition HTTPUnprocessableContent (a : list operand) : Error :=
  newError StatusUnprocessableEntity openapi.UnprocessableContent a.
Definition IsUnprocessableContent (err : error) : bool := isErrorType err StatusUnprocessableEntity.
Definition OAuth2InvalidRequest (a : list operand) : Error := newError StatusBadRequest openapi.InvalidRequest a.
Definition IsBadRequest (err : error) : bool := isErrorType err StatusBadRequest.
Definition OAuth2AccessDenied (a : list operand) : Error := newError StatusUnauthorized openapi.AccessDenied a.
Definition IsAccessDenied (err : error) : bool := isErrorType err StatusUnauthorized.

(** HandleError. *)
Definition HandleError (err : error) : prog httpE unit :=
  match asError err with
  | Some httpError => Write httpError
  | None =>
    Write (WithError err (newError StatusInternalServerError openapi.ServerError
      [OString "an internal error has occurred, please contact support"]))
  end.

(** WWWAuthenticateHeader: challenge type to fields. *)
Record WWWAuthenticateHeader := { data : gmap string (gmap string string) }.

Definition NewWWWAuthenticateHeader : WWWAuthenticateHeader := {| data := ∅ |}.

Definition AddField (challenge key value : string) (w : WWWAuthenticateHeader) : WWWAuthenticateHeader :=
  let d := match data w !! challenge with Some _ => data w | None => <[ challenge := ∅ ]> (data w) end in
  {| data := <[ challenge := <[ key := value ]> (default ∅ (d !! challenge)) ]> d |}.

Definition Encode (w : WWWAuthenticateHeader) : string :=
  let challengeKeys := sort_strings (map_keys (data w)) in
  let challenges := map (fun challenge =>
    let m := default ∅ (data w !! challenge) in
    let fieldKeys := sort_strings (map_keys m) in
    let fields := map (fun key => key +:+ "=" +:+ dquote +:+ default "" (m !! key) +:+ dquote) fieldKeys in
    challenge +:+ " " +:+ strings_Join "," fields) challengeKeys in
  strings_Join ", " challenges.

Definition AccessDenied (host : string) (a : list operand) : Error :=
  let header :=
    AddField "Bearer" "resource_metadata" ("https://" +:+ host +:+ "/.well-known/openid-protected-resource")
      (AddField "Bearer" "error_description" (fmt_Sprint a)
        (AddField "Bearer" "error" openapi.AccessDenied NewWWWAuthenticateHeader)) in
  withHeader AuthenticateHeader (Encode header) (newError StatusUnauthorized openapi.AccessDenied a).

End responses.

(** What reflection finds in a generated response type: [RStruct] with its
    fields, a pointer or interface to another value, or something else. *)
Inductive field_value : Type :=
| FError (e : option openapi.Error)
| FOther (zero : bool).

Record field := { can_interface : bool; value : field_value }.

Inductive reflected : Type :=
| RStruct (fields : gmap string field)
| RPointer (target : option reflected)
| ROther.

Definition IsZero (f : field) : bool :=
  match value f with FError None => true | FError (Some _) => false | FOther zero => zero end.

(** PropagateError, for a response of that status. *)
Definition PropagateError (status : Z) (response : reflected) : error :=
  if (status <? 400)%Z
  then Wrapped (Sentinel ErrAPIStatus) ("status code " +:+ itoa status +:+ " not valid")
  else
    let v := match response with RPointer (Some v) => v | RPointer None => ROther | v => v end in
    match v with
    | RStruct fields =>
      let fieldName := "JSON" +:+ itoa status in
      match fields !! fieldName with
      | None => Wrapped (Sentinel ErrTypeConversion) ("error field " +:+ fieldName +:+ " not defined")
      | Some f =>
        if IsZero f
        then Wrapped (Sentinel ErrTypeConversion) ("error field " +:+ fieldName +:+ " not populated")
        else if negb (can_interface f)
        then Wrapped (Sentinel ErrTypeConversion) ("error field " +:+ fieldName +:+ " not interfaceable")
        else match value f with
             | FError (Some concreteError) => as_error (FromOpenAPIError status concreteError)
             | _ => Wrapped (Sentinel ErrTypeConversion) "unable to assert error"
             end
      end
    | _ => Wrapped (Sentinel ErrTypeConversion) "error response is not a struct"
    end.

End servererrors.

(** ** What the client is sent *)

Import servererrors.

Definition is_log (ev : event httpE) : bool :=
  match ev with Ev e _ => match e with LogInfo _ _ | LogError _ _ => true | _ => false end end.

(** The calls on the response writer. *)
Definition response (t : trace httpE) : trace httpE := calls (fun ev => negb (is_log ev)) t.

(** The fields of an error that are meant for the client. *)
Record Public := {
  pub_status : Z;
  pub_code : openapi.ErrorError;
  pub_description : string;
  pub_header : gmap string (list string);
}.

Definition public (err : error) : Public :=
  match asError err with
  | Some e => {| pub_status := http_status e; pub_code := http_code e;
                 pub_description := http_description e; pub_header := http_header e |}
  | None => {| pub_status := 500; pub_code := openapi.ServerError;
               pub_description := "an internal error has occurred, please contact support"; pub_header := ∅ |}
  end.

Section facts.
Context `{MapOrder} (error_text : error -> string) (trace_id : string).

(** The response that carries those fields. *)
Definition sent (p : Public) (answer : option error) : trace httpE :=
  [Ev (HeaderAdd "Cache-Control" "no-cache") tt; Ev (HeaderAdd "Content-Type" "application/json") tt] ++
  flat_map (fun '(k, vs) => map (fun v => Ev (HeaderAdd k v) tt) vs) (map_range (pub_header p)) ++
  [Ev (WriteHeader (pub_status p)) tt;
   Ev (WriteBody (marshal (openapi.Error_json
     {| openapi.Error_ := pub_code p; openapi.ErrorDescription := pub_description p;
        openapi.TraceId := if bool_decide (trace_id = "") then None else Some trace_id |}))) answer].

Lemma exec_forEach {A} (l : list A) (f : A -> prog httpE unit) (g : A -> trace httpE) t r :
  (forall x t' r', exec (f x) t' r' -> t' = g x) ->
  exec (forEach l f) t r -> t = flat_map g l.
Proof.
  intros Hf. revert t. induction l as [|x l IH]; intros t Hx; simpl in *; [by exec_inv|].
  exec_step. by rewrite (Hf _ _ _ Hx0), (IH _ Hx).
Qed.

Lemma response_no_log (t : trace httpE) : Forall (fun ev => is_log ev = false) t -> response t = t.
Proof.
  induction 1 as [|ev t Hev _ IH]; [done|]. unfold response in *. by rewrite calls_cons, Hev, IH.
Qed.

Lemma Write_response e t r :
  exec (Write error_text trace_id e) t r ->
  exists answer, response t = sent {| pub_status := http_status e; pub_code := http_code e;
    pub_description := http_description e; pub_header := http_header e |} answer.
Proof.
  unfold Write. intros Hx. repeat exec_step.
  match goal with Hl : exec (forEach _ _) _ _ |- _ =>
    eapply (exec_forEach _ _ (fun '(k, vs) => map (fun v => Ev (HeaderAdd k v) tt) vs)) in Hl as -> end.
  2: { intros [k vs] t' r' Hv.
       apply (exec_forEach _ _ (fun v => [Ev (HeaderAdd k v) tt])) in Hv as ->.
       - clear. induction vs as [|v vs IH]; simpl; by f_equal.
       - intros v t'' [] Hc. by exec_inv. }
  exists x8.
  assert (response x2 = []) as Hx2 by (destruct x8; exec_inv; done).
  unfold response in *. rewrite !calls_app, !calls_cons, !calls_nil, Hx2.
  cbn [is_log negb app].
  unfold sent. cbn [pub_status pub_code pub_description pub_header].
  fold (response (flat_map (fun '(k, vs) => map (fun v => Ev (HeaderAdd k v) tt) vs) (map_range (http_header e)))).
  rewrite response_no_log; [by destruct x1, x3, x4, x7|].
  apply Forall_flat_map, Forall_forall. intros [k vs] _. by apply Forall_map, Forall_forall.
Qed.

Lemma HandleError_response err t r :
  exec (HandleError error_text trace_id err) t r -> exists answer, response t = sent (public err) answer.
Proof.
  unfold HandleError, public. intros Hx. destruct (asError err) as [e|]; by apply Write_response in Hx.
Qed.

(** C30 What a client is told of an error: the status, code, description and
    headers of the first HTTP error in its chain, or a fixed internal server
    error; never the text of a wrapped error nor the values to log. *)
Theorem handle_error_opaque err t r :
  exec (HandleError error_text trace_id err) t r ->
  exists answer, response t = sent (public err) answer.
Proof. apply HandleError_response. Qed.

Lemma newError_description status code s :
  http_description (newError status code [OString s]) = s.
Proof. unfold newError, fmt_Sprintln. simpl. apply strings_TrimSuffix_app. Qed.

(** An error survives a hop between services: what one service sends is
    what the calling service sends on when it propagates the response. *)
Theorem error_propagates err tid fields :
  (400 <= pub_status (public err))%Z ->
  fields !! ("JSON" +:+ itoa (pub_status (public err))) =
    Some {| can_interface := true;
            value := FError (Some {| openapi.Error_ := pub_code (public err);
                                     openapi.ErrorDescription := pub_description (public err);
                                     openapi.TraceId := tid |}) |} ->
  public (PropagateError (pub_status (public err)) (RPointer (Some (RStruct fields)))) =
    {| pub_status := pub_status (public err); pub_code := pub_code (public err);
       pub_description := pub_description (public err); pub_header := ∅ |}.
Proof.
  intros Hs Hf. generalize dependent (public err). intros p Hs Hf. unfold PropagateError.
  assert ((pub_status p <? 400)%Z = false) as -> by (apply Z.ltb_ge; lia).
  cbv zeta. rewrite Hf. cbn [IsZero value can_interface negb].
  unfold public, asError, as_error, FromOpenAPIError.
  cbn [errors_as_http http_status http_code http_description http_header openapi.ErrorDescription openapi.Error_].
  by rewrite newError_description.
Qed.

(** The predicates see the status of the first HTTP error in a chain. *)
Lemma isErrorType_iff err code :
  isErrorType err code = true <-> exists e, asError err = Some e /\ http_status e = code.
Proof.
  unfold isErrorType. destruct (asError err) as [e|]; [|naive_solver].
  destruct (Z.eqb_spec (http_status e) code); simpl; naive_solver.
Qed.

End facts.

(** The header is encoded the same way whatever order the maps are visited in. *)
Lemma Encode_deterministic (o1 o2 : MapOrder) w : @Encode o1 w = @Encode o2 w.
Proof.
  assert (forall V (m : gmap string V),
    sort_strings (@map_keys o1 V m) = sort_strings (@map_keys o2 V m)) as Hk
    by (intros V m; apply sort_strings_perm; by rewrite !map_keys_perm).
  unfold Encode. rewrite Hk. f_equal. apply map_ext. intros c. by rewrite Hk.
Qed.

Module witnesses.

#[local] Existing Instance some_map_order.

(** A conflict wrapped by the code that met it. *)
Definition wrapped_conflict : error :=
  Wrapped (as_error (WithError (Foreign "key exists in etcd") HTTPConflict)) "create cluster".

Definition conflict_body : openapi.Error :=
  {| openapi.Error_ := openapi.Conflict;
     openapi.ErrorDescription := "the requested resource already exists"; openapi.TraceId := None |}.

Definition conflict_trace : trace httpE :=
  [Ev (LogInfo "error detail"
        ["detail"; "the requested resource already exists"; "error"; "key exists in etcd"]) tt;
   Ev (HeaderAdd "Cache-Control" "no-cache") tt;
   Ev (HeaderAdd "Content-Type" "application/json") tt;
   Ev (WriteHeader 409) tt;
   Ev (WriteBody (marshal (openapi.Error_json conflict_body))) None].

Lemma handle_error_opaque_witness :
  let text e := match e with Foreign s => s | _ => "" end in
  exec (HandleError text "" wrapped_conflict) conflict_trace tt /\
  exists answer, response conflict_trace = sent "" (public wrapped_conflict) answer.
Proof.
  intros text.
  assert (exec (HandleError text "" wrapped_conflict) conflict_trace tt) as Hx by solve_exec.
  split; [exact Hx|]. exact (handle_error_opaque text "" wrapped_conflict _ _ Hx).
Defined.

Definition conflict_response : gmap string field :=
  {[ "JSON409" := {| can_interface := true; value := FError (Some conflict_body) |} ]}.

Lemma error_propagates_witness :
  (400 <= pub_status (public wrapped_conflict))%Z /\
  public (PropagateError 409 (RPointer (Some (RStruct conflict_response)))) =
    {| pub_status := 409; pub_code := "conflict";
       pub_description := "the requested resource already exists"; pub_header := ∅ |}.
Proof.
  split; [vm_compute; discriminate|].
  exact (error_propagates wrapped_conflict None conflict_response ltac:(vm_compute; discriminate)
           ltac:(vm_compute; reflexivity)).
Defined.

End witnesses.
