(* ===== verification/Saga.v ===== *)
(** * Saga: all-or-nothing sequences of actions

    Models pkg/server/saga/saga.go.  The actions are bound receivers over
    calls of a signature [E] that the saga does not know. *)

From S2P Require Import Prelude Errors Effects.

(** The log entry of a failed compensation. *)
Inductive sagaE : Type -> Type :=
| LogCompensation (cerr : error) (name : string) : sagaE unit.

Module saga.
Section saga.
Context {E : Type -> Type} `{Subeffect sagaE E}.

Definition ActionFunc : Type := prog E (option error).

Record Action := {
  name : string;
  action : ActionFunc;
  compensate : option ActionFunc;
}.

Definition NewAction (name : string) (action : ActionFunc) (compensate : option ActionFunc) : Action :=
  {| name := name; action := action; compensate := compensate |}.

(** The loop that undoes the prior steps, given from the last one back; it
    stops at the first compensation that fails. *)
Fixpoint undo (prior : list Action) : prog E unit :=
  match prior with
  | [] => mret tt
  | a :: prior' =>
    match compensate a with
    | None => undo prior'
    | Some c =>
      cerr ← c;
      match cerr with
      | Some err => call (inject (LogCompensation err (name a)))
      | None => undo prior'
      end
    end
  end.

(** The loop over the actions, [prior] holding those that are done, last first. *)
Fixpoint runFrom (prior : list Action) (actions : list Action) : prog E (option error) :=
  match actions with
  | [] => mret None
  | a :: actions' =>
    err ← action a;
    match err with
    | Some e => _ ← undo prior; mret (Some e)
    | None => runFrom (a :: prior) actions'
    end
  end.

Definition Run (actions : list Action) : prog E (option error) := runFrom [] actions.

(** ** What a saga promises *)

(** Every call of the saga is one of an action or of a compensation, in this
    order: the actions up to the first that fails, then the compensations of
    those before it, the last one first, up to the first that fails. *)
Lemma runFrom_exec prior actions t r :
  exec (runFrom prior actions) t r ->
  (r = None /\ exists ts, Forall2 (fun a t => exec (action a) t None) actions ts /\ t = concat ts) \/
  exists e l1 a l2 ts ta tu, r = Some e /\ actions = l1 ++ a :: l2 /\
    Forall2 (fun a t => exec (action a) t None) l1 ts /\ exec (action a) ta (Some e) /\
    t = concat ts ++ ta ++ tu /\ exec (undo (reverse l1 ++ prior)) tu tt.
Proof.
  revert prior t. induction actions as [|a actions IH]; intros prior t Hx; simpl in Hx.
  { exec_inv. left. split; [done|]. by exists []. }
  apply exec_bind in Hx as (ta & t' & [e|] & -> & Ha & Hx).
  - right. apply exec_bind in Hx as (tu & t'' & [] & -> & Hu & Hx). exec_inv.
    exists e, [], a, actions, [], ta, tu. by rewrite app_nil_r.
  - apply IH in Hx as [(-> & ts & Hts & ->)|(e & l1 & b & l2 & ts & tb & tu & -> & -> & Hts & Hb & -> & Hu)].
    + left. split; [done|]. exists (ta :: ts). by split; [constructor|].
    + right. exists e, (a :: l1), b, l2, (ta :: ts), tb, tu. split_and!; try done.
      * by constructor.
      * simpl. by rewrite <-!app_assoc.
      * by rewrite reverse_cons, <-app_assoc.
Qed.

(** A compensation undoes its action: a failed action changes nothing, and
    after a successful one the compensation restores the state, answering no
    error; an action without compensation changes nothing. *)
Definition compensable {S : Type} (h : forall X, E X -> S -> S * X) (a : Action) : Prop :=
  forall s,
    match outcome h (action a) s with
    | (s', Some _) => s' = s
    | (s', None) =>
      match compensate a with
      | Some c => outcome h c s' = (s, None)
      | None => s' = s
      end
    end.

(** [prior] leads from [s0] to [s] and can be undone. *)
Fixpoint reached {S : Type} (h : forall X, E X -> S -> S * X) (prior : list Action) (s0 s : S) : Prop :=
  match prior with
  | [] => s = s0
  | a :: prior' => exists s', reached h prior' s0 s' /\
      match compensate a with Some c => outcome h c s = (s', None) | None => s = s' end
  end.

Lemma undo_reached {S} (h : forall X, E X -> S -> S * X) prior s0 s :
  reached h prior s0 s -> outcome h (undo prior) s = (s0, tt).
Proof.
  revert s. induction prior as [|a prior IH]; intros s; simpl; [by intros ->|].
  intros (s' & Hr & Hc). destruct (compensate a) as [c|]; [|subst; auto].
  rewrite outcome_bind, Hc. auto.
Qed.

Lemma runFrom_reached {S} (h : forall X, E X -> S -> S * X) prior actions s0 s :
  Forall (compensable h) actions -> reached h prior s0 s ->
  match outcome h (runFrom prior actions) s with
  | (s', Some _) => s' = s0
  | (s', None) => reached h (reverse actions ++ prior) s0 s'
  end.
Proof.
  intros Hc. revert prior s. induction Hc as [|a actions Ha _ IH]; intros prior s Hr; simpl; [done|].
  rewrite outcome_bind. specialize (Ha s). destruct (outcome h (action a) s) as [s' [e|]].
  - subst s'. rewrite outcome_bind, (undo_reached _ _ _ _ Hr). done.
  - specialize (IH (a :: prior) s'). rewrite reverse_cons, <-app_assoc. apply IH.
    exists s. split; [done|]. by destruct (compensate a).
Qed.

(** C19 A saga is all or nothing: as long as every compensation undoes its
    action, a saga that answers an error leaves the state it started from, and
    the error is that of the action that failed. *)
Theorem saga_all_or_nothing {S} (h : forall X, E X -> S -> S * X) actions s s' t e :
  Forall (compensable h) actions ->
  run h (Run actions) s = (s', t, Some e) ->
  s' = s /\ exists l1 a l2 ts ta tu, actions = l1 ++ a :: l2 /\
    Forall2 (fun a t => exec (action a) t None) l1 ts /\ exec (action a) ta (Some e) /\
    t = concat ts ++ ta ++ tu /\ exec (undo (reverse l1)) tu tt.
Proof.
  intros Hc Hr. split.
  - pose proof (runFrom_reached h [] actions s s Hc eq_refl) as Hx.
    unfold outcome in Hx. fold (Run actions) in Hx. by rewrite Hr in Hx.
  - pose proof (run_exec h (Run actions) s) as Hx. rewrite Hr in Hx.
    apply runFrom_exec in Hx as [[? _]|(e' & l1 & a & l2 & ts & ta & tu & ? & -> & Hts & Ha & -> & Hu)];
      simplify_eq/=. rewrite app_nil_r in Hu. by exists l1, a, l2, ts, ta, tu.
Qed.

End saga.
End saga.

(** ** A saga over a set of allocations *)

Module witnesses.
Import saga.

Inductive quotaE : Type -> Type :=
| Allocate (k : string) : quotaE (option error)
| Free (k : string) : quotaE (option error)
| Log (e : sagaE unit) : quotaE unit.

#[local] Instance quota_saga : Subeffect sagaE quotaE.
Proof.
  refine {| inject X e := match e in sagaE X return quotaE X with
                          | LogCompensation cerr name => Log (LogCompensation cerr name) end;
            project X e := match e in quotaE X return option (sagaE X) with Log f => Some f | _ => None end |}.
  by intros X [].
Defined.

(** Allocations that exist are refused. *)
Definition quota (X : Type) (e : quotaE X) (s : gset string) : gset string * X :=
  match e in quotaE X return gset string * X with
  | Allocate k => if decide (k ∈ s) then (s, Some (Foreign "quota exceeded")) else ({[k]} ∪ s, None)
  | Free k => (s ∖ {[k]}, None)
  | Log _ => (s, tt)
  end.

Definition allocate (k : string) : Action := NewAction k (call (Allocate k)) (Some (call (Free k))).

Lemma allocate_compensable k : compensable quota (allocate k).
Proof.
  intros s. unfold outcome. simpl. destruct (decide (k ∈ s)) as [Hk|Hk]; [done|]. simpl.
  f_equal. set_solver.
Defined.

Lemma saga_all_or_nothing_witness :
  exists t,
    run quota (Run [allocate "vcpu"; allocate "gpu"]) {["gpu"]} = ({["gpu"]}, t, Some (Foreign "quota exceeded")) /\
    length t = 3 /\ ({["gpu"]} : gset string) = {["gpu"]}.
Proof.
  eexists. split; [vm_compute; reflexivity|]. split; [reflexivity|].
  eapply (saga_all_or_nothing quota [allocate "vcpu"; allocate "gpu"]).
  - repeat constructor; apply allocate_compensable.
  - vm_compute. reflexivity.
Defined.

End witnesses.
