(* ===== verification/ServerUtil.v ===== *)
(** * ServerUtil: helpers of request handlers

    Models pkg/server/util: ownership checks (rbac.go), tag selectors (tags.go)
    and the JSON bodies of requests and responses (json.go, octet_stream.go). *)

From S2P Require Import Prelude Errors GoStrings Effects Kubernetes Conditions ServerErrors.
From Stdlib Require Import Ascii.

Module util.

Section ownership.
Context {O : Type} `{Object O}.

(** A 404 when the resource is somebody else's, so as not to give it away. *)
Definition AssertOrganizationOwnership (resource : O) (organizationID : string) : option error :=
  match GetLabels resource !! constants.OrganizationLabel with
  | None => Some (Wrapped (Sentinel ErrConsistency) "resource missing organization label")
  | Some id =>
    if bool_decide (id <> organizationID)
    then Some (servererrors.as_error servererrors.HTTPNotFound) else None
  end.

Definition AssertProjectOwnership (resource : O) (organizationID projectID : string) : option error :=
  match AssertOrganizationOwnership resource organizationID with
  | Some err => Some err
  | None =>
    match GetLabels resource !! constants.ProjectLabel with
    | None => Some (Wrapped (Sentinel ErrConsistency) "resource missing projectlabel")
    | Some id =>
      if bool_decide (id <> projectID)
      then Some (servererrors.as_error servererrors.HTTPNotFound) else None
    end
  end.

End ownership.

(** The loop of DecodeTagSelectorParam; [out[i]] is set for each parameter. *)
Fixpoint decodeTags (tags : list string) : result TagList :=
  match tags with
  | [] => Ok []
  | tag :: tags' =>
    match strings_Split "="%char tag with
    | [name; value] =>
      match decodeTags tags' with
      | Ok out => Ok ({| tag_Name := name; tag_Value := value |} :: out)
      | Err err => Err err
      end
    | _ => Err (servererrors.as_error (servererrors.OAuth2InvalidRequest [OString "tag decode failed"]))
    end
  end.

Definition DecodeTagSelectorParam (tags : option (list string)) : result TagList :=
  match tags with
  | None => Ok []
  | Some tags => decodeTags tags
  end.

(** A request body read, with what io.ReadAll answered, and decoded with what
    json.Unmarshal made of it. *)
Definition ReadJSONBody {A : Type} (body : result string) (unmarshal : string -> result A) : result A :=
  match body with
  | Err err => Err (Wrapped err "unable to read request body")
  | Ok body =>
    match unmarshal body with
    | Err err => Err (servererrors.as_error (servererrors.WithError err
        (servererrors.OAuth2InvalidRequest [OString "the request body is missing or malformed"])))
    | Ok v => Ok v
    end
  end.

(** The writes of a response of some content type. *)
Definition writeBody (contentType : string) (code : Z) (body : string) : prog httpE unit :=
  _ ← call (HeaderAdd "Content-Type" contentType);
  _ ← call (WriteHeader code);
  r ← call (WriteBody body);
  match r with
  | Some err => call (LogError err "failed to write response")
  | None => mret tt
  end.

(** [response] is what json.Marshal made of the response. *)
Definition WriteJSONResponse (code : Z) (response : result string) : prog httpE unit :=
  match response with
  | Err err => call (LogError err "unable to marshal body")
  | Ok body => writeBody "application/json" code body
  end.

Definition WriteOctetStreamResponse (code : Z) (body : string) : prog httpE unit :=
  writeBody "application/octet-stream" code body.

End util.

Import util.

(** ** Ownership *)

Section facts.
Context {O : Type} `{Object O}.

(** C32 Ownership is granted exactly to the organization and project the
    resource is labelled with.  A resource of another organization, or of another
    project of the same one, is answered with the same not-found a missing one is;
    one whose labels do not say whose it is, with a consistency error, which a
    client is not told apart from any other internal one. *)
Theorem project_ownership_exact (resource : O) organizationID projectID :
  let organization := GetLabels resource !! constants.OrganizationLabel in
  let project := GetLabels resource !! constants.ProjectLabel in
  let answer := AssertProjectOwnership resource organizationID projectID in
  (answer = None <-> organization = Some organizationID /\ project = Some projectID) /\
  (forall o, organization = Some o -> o <> organizationID ->
    answer = Some (servererrors.as_error servererrors.HTTPNotFound)) /\
  (forall p, organization = Some organizationID -> project = Some p -> p <> projectID ->
    answer = Some (servererrors.as_error servererrors.HTTPNotFound)) /\
  (organization = None \/ organization = Some organizationID /\ project = None ->
    exists err, answer = Some err /\ errors_is err ErrConsistency = true /\ servererrors.asError err = None).
Proof.
  unfold AssertProjectOwnership, AssertOrganizationOwnership. cbv zeta.
  destruct (GetLabels resource !! constants.OrganizationLabel) as [o|]; [|split_and!; naive_solver].
  case_bool_decide as Ho; [split_and!; naive_solver|]. subst o.
  destruct (GetLabels resource !! constants.ProjectLabel) as [p|]; [|split_and!; naive_solver].
  case_bool_decide as Hp; split_and!; naive_solver.
Qed.

End facts.

(** ** Tag selectors *)

(** A string without the separator is one part, and two such strings joined by
    it are two. *)
Lemma strings_Split_none sep s :
  string_forallb (fun c => negb (Ascii.eqb c sep)) s = true -> strings_Split sep s = [s].
Proof.
  induction s as [|c s IH]; simpl; [done|]. intros [Hc Hs]%andb_true_iff.
  apply negb_true_iff in Hc. by rewrite Hc, IH.
Qed.

Lemma strings_Split_app sep s1 s2 :
  string_forallb (fun c => negb (Ascii.eqb c sep)) s1 = true ->
  strings_Split sep (s1 +:+ String sep s2) = s1 :: strings_Split sep s2.
Proof.
  induction s1 as [|c s1 IH]; simpl; [by rewrite Ascii.eqb_refl|]. intros [Hc Hs]%andb_true_iff.
  apply negb_true_iff in Hc. by rewrite Hc, IH.
Qed.

(** The selector a client writes for a tag. *)
Definition selector (t : Tag) : string := tag_Name t +:+ "=" +:+ tag_Value t.

Definition no_equals (s : string) : bool := string_forallb (fun c => negb (Ascii.eqb c "="%char)) s.

(** No part of a split string holds the separator. *)
Lemma strings_Split_parts sep s :
  Forall (fun p => string_forallb (fun c => negb (Ascii.eqb c sep)) p = true) (strings_Split sep s).
Proof.
  induction s as [|c s IH]; simpl; [by constructor|].
  destruct (Ascii.eqb c sep) eqn:Hc; [by constructor|].
  destruct IH as [|w ws Hw Hws]; repeat constructor; try done; simpl; by rewrite Hc.
Qed.

(** Tag selectors are decoded to exactly the tags they were written for, and
    every list of parameters that is accepted was written for tags. *)
Theorem tag_selectors_decode (params : list string) (tags : TagList) :
  DecodeTagSelectorParam (Some params) = Ok tags <->
  params = map selector tags /\
  Forall (fun t => no_equals (tag_Name t) = true /\ no_equals (tag_Value t) = true) tags.
Proof.
  simpl. revert tags. induction params as [|p params IH]; intros tags; simpl.
  { split; [intros; simplify_eq; done|]. intros [Hm _]. by destruct tags. }
  split.
  - pose proof (strings_Split_parts "="%char p) as Hp. pose proof (strings_Join_Split "="%char p) as Hj.
    destruct (strings_Split "="%char p) as [|n [|v [|? ?]]]; try done.
    destruct (decodeTags params) as [out|]; [|done]. intros Heq. simplify_eq.
    destruct (proj1 (IH out) eq_refl) as [-> Hout]. inversion Hp as [|? ? Hn Hv]; subst.
    inversion Hv; subst. split; [done|]. by constructor.
  - intros [Hm Ht]. destruct tags as [|[n v] tags]; [done|]. simplify_eq/=.
    apply Forall_cons in Ht as [[Hn Hv] Ht]. unfold selector at 1. simpl in *.
    change ("=" +:+ v) with (String "="%char v). rewrite strings_Split_app by done. rewrite strings_Split_none by done.
    destruct (IH tags) as [_ IH2]. by rewrite IH2.
Qed.

(** A body that cannot be read is an internal error; one that cannot be
    decoded is the client's. *)
Lemma ReadJSONBody_bad_request {A} body (unmarshal : string -> result A) err :
  ReadJSONBody (Ok body) unmarshal = Err err -> servererrors.IsBadRequest err = true.
Proof. unfold ReadJSONBody. intros Hr. destruct (unmarshal body); by simplify_eq/=. Qed.

Module witnesses.
Import sample.

(** The network of organization acme, in project prod. *)
Definition owned : fake.ManagedResource :=
  {| fake.ObjectMeta := {| metav1.Name := "net-1"; metav1.Namespace := "unikorn"; metav1.Generation := 1;
       metav1.CreationTimestamp := 1; metav1.DeletionTimestamp := None;
       metav1.Labels := {[ constants.OrganizationLabel := "acme"; constants.ProjectLabel := "prod" ]};
       metav1.Annotations := ∅; metav1.Finalizers := [] |}; fake.Conditions := [] |}.

Lemma project_ownership_exact_witness :
  AssertProjectOwnership owned "acme" "prod" = None /\
  AssertProjectOwnership owned "evil" "prod" = Some (servererrors.as_error servererrors.HTTPNotFound) /\
  AssertProjectOwnership owned "acme" "dev" = Some (servererrors.as_error servererrors.HTTPNotFound) /\
  exists err, AssertProjectOwnership (network [] None) "acme" "dev" = Some err /\ errors_is err ErrConsistency = true.
Proof.
  split; [apply (project_ownership_exact owned "acme" "prod"); split; reflexivity|].
  split; [apply (project_ownership_exact owned "evil" "prod") with (o := "acme"); [reflexivity|discriminate]|].
  split; [apply (project_ownership_exact owned "acme" "dev") with (p := "prod"); [reflexivity..|discriminate]|].
  destruct (project_ownership_exact (network [] None) "acme" "dev") as (_ & _ & _ & Hmissing).
  destruct Hmissing as (err & Ha & He & _); [right; split; reflexivity|]. exists err. split; [exact Ha|exact He].
Defined.

End witnesses.
