(* ===== verification/Conversion.v ===== *)
(** * Conversion: between Kubernetes resources and the API

    Models pkg/server/conversion/conversion.go: the projection of conditions
    onto API statuses, the read metadata of a resource and of scoped ones, the
    builder of object metadata, and tags. *)

From coqutil Require Import Datatypes.RecordSetters.
Import TriangleBracketNotations.
From S2P Require Import Prelude Errors GoStrings Json Kubernetes Conditions Provisioning.
From S2P Require Manager.

(** The generated API types (pkg/openapi/types.go). *)
Module openapi.

Abbreviation ResourceProvisioningStatus := string.
Definition ResourceProvisioningStatusDeprovisioning : ResourceProvisioningStatus := "deprovisioning".
Definition ResourceProvisioningStatusError : ResourceProvisioningStatus := "error".
Definition ResourceProvisioningStatusPending : ResourceProvisioningStatus := "pending".
Definition ResourceProvisioningStatusProvisioned : ResourceProvisioningStatus := "provisioned".
Definition ResourceProvisioningStatusProvisioning : ResourceProvisioningStatus := "provisioning".

Abbreviation ResourceHealthStatus := string.
Definition ResourceHealthStatusDegraded : ResourceHealthStatus := "degraded".
Definition ResourceHealthStatusError : ResourceHealthStatus := "error".
Definition ResourceHealthStatusHealthy : ResourceHealthStatus := "healthy".
Definition ResourceHealthStatusUnknown : ResourceHealthStatus := "unknown".

(** ProvisioningStatusDetail and HealthStatusDetail, which have the same fields. *)
Record StatusDetail := { detail_Message : string; detail_Reason : string }.

Record Tag := { Tag_Name : string; Tag_Value : string }.

Record ResourceReadMetadata := {
  CreatedBy : option string;
  CreationTime : Z;
  DeletionTime : option Z;
  Description : option string;
  HealthStatus : ResourceHealthStatus;
  HealthStatusDetail : option StatusDetail;
  Id : string;
  ModifiedBy : option string;
  ModifiedTime : option Z;
  Name : string;
  ProvisioningStatus : ResourceProvisioningStatus;
  ProvisioningStatusDetail : option StatusDetail;
  Tags : option (list Tag);
}.

(** OrganizationScopedResourceReadMetadata and ProjectScopedResourceReadMetadata
    have the fields of ResourceReadMetadata, grouped here in one, and the scope. *)
Record OrganizationScopedResourceReadMetadata := {
  org_Metadata : ResourceReadMetadata;
  org_OrganizationId : string;
}.

Record ProjectScopedResourceReadMetadata := {
  project_Metadata : ResourceReadMetadata;
  project_OrganizationId : string;
  project_ProjectId : string;
}.

(** ResourceWriteMetadata. *)
Record ResourceMetadata := {
  write_Description : option string;
  write_Name : string;
  write_Tags : option (list Tag);
}.

End openapi.

(** What Go's time package makes of an instant, in nanoseconds since the Unix
    epoch: its RFC 3339 text in seconds, with the years it is defined for, and
    the text encoding/json gives it. *)
Class GoTime := {
  ZeroTime : Z;
  representable : Z -> Prop;
  FormatRFC3339 : Z -> string;
  ParseRFC3339 : string -> option Z;
  MarshalTime : Z -> option string;
  UnmarshalTime : string -> option Z;
  Parse_Format t : representable t -> ParseRFC3339 (FormatRFC3339 t) = Some (t / 1000000000 * 1000000000)%Z;
  Marshal_representable t : representable t -> exists s, MarshalTime t = Some s;
  Unmarshal_Marshal t s : MarshalTime t = Some s -> UnmarshalTime s = Some t;
}.

(** A metav1.Object and what a type assertion to StatusConditionReader finds. *)
Class MaybeReader (O R : Type) := {
  as_reader : O -> option R;
}.

Section conversion.
Context {O R : Type} `{Object O} `{MaybeReader O R} `{StatusConditionReader R} `{GoTime}.

(** The reason of an Available condition as a status; [None] is the fall-through. *)
Definition reasonStatus (reason : ProvisioningConditionReason) : option openapi.ResourceProvisioningStatus :=
  if bool_decide (reason = ConditionReasonProvisioning)
  then Some openapi.ResourceProvisioningStatusProvisioning
  else if bool_decide (reason = ConditionReasonProvisioned)
  then Some openapi.ResourceProvisioningStatusProvisioned
  else if bool_decide (reason = ConditionReasonErrored) || bool_decide (reason = ConditionReasonDependencyNotFound)
  then Some openapi.ResourceProvisioningStatusError
  else if bool_decide (reason = ConditionReasonDeprovisioned) || bool_decide (reason = ConditionReasonDeprovisioning)
  then Some openapi.ResourceProvisioningStatusDeprovisioning
  else if bool_decide (reason = ConditionReasonDependencyNotReady) || bool_decide (reason = ConditionReasonDependencyFailed)
  then Some openapi.ResourceProvisioningStatusProvisioning
  else None.

(** The status, and the reason and resource of the warning, when one is logged. *)
Definition convertStatusCondition (object : O) : openapi.ResourceProvisioningStatus * option (string * string) :=
  match GetDeletionTimestamp object with
  | Some _ => (openapi.ResourceProvisioningStatusDeprovisioning, None)
  | None =>
    match as_reader object with
    | None => (openapi.ResourceProvisioningStatusProvisioned, None)
    | Some reader =>
      match GetAvailableCondition reader with
      | Err _ => (openapi.ResourceProvisioningStatusPending, None)
      | Ok condition =>
        match reasonStatus (Reason condition) with
        | Some status => (status, None)
        | None => (openapi.ResourceProvisioningStatusProvisioning, Some (Reason condition, GetName object))
        end
      end
    end
  end.

Definition convertHealthCondition (object : O) : openapi.ResourceHealthStatus :=
  match as_reader object with
  | None => openapi.ResourceHealthStatusHealthy
  | Some reader =>
    match GetHealthyCondition reader with
    | Err _ => openapi.ResourceHealthStatusUnknown
    | Ok condition =>
      if bool_decide (Reason condition = ConditionReasonHealthy) then openapi.ResourceHealthStatusHealthy
      else if bool_decide (Reason condition = ConditionReasonDegraded) then openapi.ResourceHealthStatusDegraded
      else if bool_decide (Reason condition = ConditionReasonUnknown) then openapi.ResourceHealthStatusUnknown
      else ""
    end
  end.

Definition convertProvisioningStatusDetail (object : O) : option openapi.StatusDetail :=
  match as_reader object with
  | None => None
  | Some reader =>
    match GetAvailableCondition reader with
    | Err _ => None
    | Ok condition =>
      Some {| openapi.detail_Reason := Reason condition; openapi.detail_Message := Message condition |}
    end
  end.

Definition convertHealthStatusDetail (object : O) : option openapi.StatusDetail :=
  match as_reader object with
  | None => None
  | Some reader =>
    match GetHealthyCondition reader with
    | Err _ => None
    | Ok condition =>
      Some {| openapi.detail_Reason := Reason condition; openapi.detail_Message := Message condition |}
    end
  end.

(** ** Tags *)

Definition ConvertTag (t : Tag) : openapi.Tag :=
  {| openapi.Tag_Name := tag_Name t; openapi.Tag_Value := tag_Value t |}.

Definition ConvertTags (l : TagList) : list openapi.Tag := map ConvertTag l.

Definition GenerateTag (t : openapi.Tag) : Tag :=
  {| tag_Name := openapi.Tag_Name t; tag_Value := openapi.Tag_Value t |}.

Definition GenerateTagList (l : option (list openapi.Tag)) : TagList :=
  match l with None => [] | Some l => map GenerateTag l end.

(** ** Read metadata *)

Definition ResourceReadMetadata (object : O) (tags : TagList) : openapi.ResourceReadMetadata :=
  let labels := GetLabels object in
  let annotations := GetAnnotations object in
  {| openapi.Id := GetName object;
     openapi.Name := default "" (labels !! constants.NameLabel);
     openapi.CreationTime := metav1.CreationTimestamp (object_meta object);
     openapi.ProvisioningStatus := (convertStatusCondition object).1;
     openapi.ProvisioningStatusDetail := convertProvisioningStatusDetail object;
     openapi.HealthStatus := convertHealthCondition object;
     openapi.HealthStatusDetail := convertHealthStatusDetail object;
     openapi.Description := annotations !! constants.DescriptionAnnotation;
     openapi.CreatedBy := annotations !! constants.CreatorAnnotation;
     openapi.ModifiedBy := annotations !! constants.ModifierAnnotation;
     openapi.ModifiedTime := annotations !! constants.ModifiedTimestampAnnotation ≫= ParseRFC3339;
     openapi.DeletionTime := GetDeletionTimestamp object;
     openapi.Tags := if bool_decide (length tags <> 0) then Some (ConvertTags tags) else None |}.

(** *** As a JSON document, and back *)

Definition Detail_json (d : openapi.StatusDetail) : json :=
  JObject [("message", JString (openapi.detail_Message d)); ("reason", JString (openapi.detail_Reason d))].

Definition Tag_json (t : openapi.Tag) : json :=
  JObject [("name", JString (openapi.Tag_Name t)); ("value", JString (openapi.Tag_Value t))].

(** Marshalling fails when a time does.  Strings are written as they are: they are
    valid UTF-8, as all that is read from the Kubernetes API is; encoding/json would
    put U+FFFD for other bytes. *)
Definition Metadata_json (m : openapi.ResourceReadMetadata) : option json :=
  creation ← MarshalTime (openapi.CreationTime m);
  deletion ← match openapi.DeletionTime m with None => Some None | Some t => Some <$> MarshalTime t end;
  modified ← match openapi.ModifiedTime m with None => Some None | Some t => Some <$> MarshalTime t end;
  Some (JObject (
    omitempty "createdBy" JString (openapi.CreatedBy m) ++
    [("creationTime", JString creation)] ++
    omitempty "deletionTime" JString deletion ++
    omitempty "description" JString (openapi.Description m) ++
    [("healthStatus", JString (openapi.HealthStatus m))] ++
    omitempty "healthStatusDetail" Detail_json (openapi.HealthStatusDetail m) ++
    [("id", JString (openapi.Id m))] ++
    omitempty "modifiedBy" JString (openapi.ModifiedBy m) ++
    omitempty "modifiedTime" JString modified ++
    [("name", JString (openapi.Name m));
     ("provisioningStatus", JString (openapi.ProvisioningStatus m))] ++
    omitempty "provisioningStatusDetail" Detail_json (openapi.ProvisioningStatusDetail m) ++
    omitempty "tags" (fun l => JArray (map Tag_json l)) (openapi.Tags m))).

(** json.Unmarshal into the fields of the struct; [over] embeds them in the
    scoped struct that is filled. *)
Definition set_detail (store : openapi.StatusDetail -> openapi.ResourceReadMetadata -> openapi.ResourceReadMetadata) :
    setter openapi.ResourceReadMetadata := fun v out =>
  match v with
  | JObject obj =>
    Some (store (decode_fields
      [("message", set_string (fun s d => d <| openapi.detail_Message := s |>));
       ("reason", set_string (fun s d => d <| openapi.detail_Reason := s |>))]
      obj {| openapi.detail_Message := ""; openapi.detail_Reason := "" |}) out)
  | _ => Some out
  end.

Definition decode_tag (v : json) : openapi.Tag :=
  match v with
  | JObject obj =>
    decode_fields
      [("name", set_string (fun s t => t <| openapi.Tag_Name := s |>));
       ("value", set_string (fun s t => t <| openapi.Tag_Value := s |>))]
      obj {| openapi.Tag_Name := ""; openapi.Tag_Value := "" |}
  | _ => {| openapi.Tag_Name := ""; openapi.Tag_Value := "" |}
  end.

Definition set_tags : setter openapi.ResourceReadMetadata := fun v out =>
  match v with
  | JArray l => Some (out <| openapi.Tags := Some (map decode_tag l) |>)
  | _ => Some out
  end.

(** A time that does not parse stops the decoding. *)
Definition set_time (store : Z -> openapi.ResourceReadMetadata -> openapi.ResourceReadMetadata) :
    setter openapi.ResourceReadMetadata := fun v out =>
  match v with
  | JString s => t ← UnmarshalTime s; Some (store t out)
  | JNull => Some out
  | _ => None
  end.

Definition Metadata_fields : list (string * setter openapi.ResourceReadMetadata) :=
  [("createdBy", set_string (fun s m => m <| openapi.CreatedBy := Some s |>));
   ("creationTime", set_time (fun t m => m <| openapi.CreationTime := t |>));
   ("deletionTime", set_time (fun t m => m <| openapi.DeletionTime := Some t |>));
   ("description", set_string (fun s m => m <| openapi.Description := Some s |>));
   ("healthStatus", set_string (fun s m => m <| openapi.HealthStatus := s |>));
   ("healthStatusDetail", set_detail (fun d m => m <| openapi.HealthStatusDetail := Some d |>));
   ("id", set_string (fun s m => m <| openapi.Id := s |>));
   ("modifiedBy", set_string (fun s m => m <| openapi.ModifiedBy := Some s |>));
   ("modifiedTime", set_time (fun t m => m <| openapi.ModifiedTime := Some t |>));
   ("name", set_string (fun s m => m <| openapi.Name := s |>));
   ("provisioningStatus", set_string (fun s m => m <| openapi.ProvisioningStatus := s |>));
   ("provisioningStatusDetail", set_detail (fun d m => m <| openapi.ProvisioningStatusDetail := Some d |>));
   ("tags", set_tags)].

(** A struct of that type before anything is decoded into it. *)
Definition zero_metadata : openapi.ResourceReadMetadata :=
  {| openapi.CreatedBy := None; openapi.CreationTime := ZeroTime; openapi.DeletionTime := None;
     openapi.Description := None; openapi.HealthStatus := ""; openapi.HealthStatusDetail := None;
     openapi.Id := ""; openapi.ModifiedBy := None; openapi.ModifiedTime := None; openapi.Name := "";
     openapi.ProvisioningStatus := ""; openapi.ProvisioningStatusDetail := None; openapi.Tags := None |}.

(** Unmarshalling what was marshalled; nothing is decoded when that failed. *)
Definition Metadata_unmarshal (doc : option json) : openapi.ResourceReadMetadata :=
  match doc with
  | Some (JObject obj) => decode_fields Metadata_fields obj zero_metadata
  | _ => zero_metadata
  end.

(** The scope is set before the document is decoded, which has no such fields. *)
Definition OrganizationScopedResourceReadMetadata (object : O) (tags : TagList) :
    openapi.OrganizationScopedResourceReadMetadata :=
  let temp := ResourceReadMetadata object tags in
  {| openapi.org_OrganizationId := default "" (GetLabels object !! constants.OrganizationLabel);
     openapi.org_Metadata := Metadata_unmarshal (Metadata_json temp) |}.

Definition ProjectScopedResourceReadMetadata (object : O) (tags : TagList) :
    openapi.ProjectScopedResourceReadMetadata :=
  let temp := ResourceReadMetadata object tags in
  {| openapi.project_OrganizationId := default "" (GetLabels object !! constants.OrganizationLabel);
     openapi.project_ProjectId := default "" (GetLabels object !! constants.ProjectLabel);
     openapi.project_Metadata := Metadata_unmarshal (Metadata_json temp) |}.

End conversion.

(** ** Object metadata *)

(** ObjectMetadata: a builder over metav1.ObjectMeta. *)
Module ObjectMetadata.

Abbreviation ObjectMetadata := metav1.ObjectMeta.

(** NewObjectMetadata and NewDeterministicObjectMetadata, given the name
    GenerateResourceID or GenerateDeterministicResourceID answers. *)
Definition newMetadata (id : string) (metadata : openapi.ResourceMetadata) (namespace : string) : ObjectMetadata :=
  {| metav1.Name := id; metav1.Namespace := namespace;
     metav1.Labels := {[ constants.NameLabel := openapi.write_Name metadata ]};
     metav1.Annotations :=
       match openapi.write_Description metadata with
       | Some d => {[ constants.DescriptionAnnotation := d ]}
       | None => ∅
       end;
     metav1.Generation := 0; metav1.CreationTimestamp := 0; metav1.DeletionTimestamp := None;
     metav1.Finalizers := [] |}.

Definition NewObjectMetadata (GenerateResourceID : string) (metadata : openapi.ResourceMetadata)
    (namespace : string) : ObjectMetadata :=
  newMetadata GenerateResourceID metadata namespace.

Definition NewDeterministicObjectMetadata {UUID : Type} (GenerateDeterministicResourceID : UUID -> string -> string)
    (metadata : openapi.ResourceMetadata) (namespace : string) (idNamespace : UUID) (invariant : string) : ObjectMetadata :=
  newMetadata (GenerateDeterministicResourceID idNamespace invariant) metadata namespace.

Definition WithLabel (key value : string) (o : ObjectMetadata) : ObjectMetadata :=
  o <| metav1.Labels := <[ key := value ]> (metav1.Labels o) |>.

Definition WithOrganization (id : string) (o : ObjectMetadata) : ObjectMetadata :=
  WithLabel constants.OrganizationLabel id o.

Definition WithProject (id : string) (o : ObjectMetadata) : ObjectMetadata :=
  WithLabel constants.ProjectLabel id o.

Definition Get (o : ObjectMetadata) : metav1.ObjectMeta := o.

End ObjectMetadata.

Section update.
Context {O : Type} `{Object O} `{GoTime}.

(** A mutator may rewrite both objects and answers an error. *)
Definition MetadataMutationFunc : Type := O -> O -> O * O * option error.

Fixpoint applyMutators (required current : O) (mutators : list MetadataMutationFunc) : O * O * option error :=
  match mutators with
  | [] => (required, current, None)
  | m :: mutators' =>
    let '(required, current, err) := m required current in
    match err with
    | Some err => (required, current, Some err)
    | None => applyMutators required current mutators'
    end
  end.

(** [now] is time.Now. *)
Definition UpdateObjectMetadata (now : Z) (required current : O) (mutators : list MetadataMutationFunc) :
    O * O * option error :=
  let req := <[ constants.ModifiedTimestampAnnotation := FormatRFC3339 now ]> (GetAnnotations required) in
  let required := set_object_meta (metav1.with_annotations req (object_meta required)) required in
  applyMutators required current mutators.

End update.

(** LogUpdate: the entry it logs, the current object and the merge patch to the
    required one.  The patch is the json-patch library's. *)
Section log_update.
Context {O Raw : Type}.
Variable json_Marshal : O -> result string.
Variable json_Unmarshal : string -> result Raw.
Variable CreateMergePatch : string -> string -> result string.

Definition LogUpdate (current required : O) : result (Raw * Raw) :=
  match json_Marshal current with
  | Err err => Err (Wrapped err "failed to marshal current object")
  | Ok currentJSON =>
    match json_Marshal required with
    | Err err => Err (Wrapped err "failed to marshal required object")
    | Ok requiredJSON =>
      match CreateMergePatch currentJSON requiredJSON with
      | Err err => Err (Wrapped err "failed to generate merge patch")
      | Ok patch =>
        match json_Unmarshal patch with
        | Err err => Err (Wrapped err "failed to unmarshal merge patch")
        | Ok patchRaw =>
          match json_Unmarshal currentJSON with
          | Err err => Err (Wrapped err "failed to current raw")
          | Ok currentRaw => Ok (currentRaw, patchRaw)
          end
        end
      end
    end
  end.

End log_update.

(** ** The JSON round trip *)

Section json_facts.
Context `{GoTime}.

Lemma decode_key {T : Type} (fields : list (string * setter T)) key v obj out set out' :
  field_of fields key = Some set -> set v out = Some out' ->
  decode_fields fields ((key, v) :: obj) out = decode_fields fields obj out'.
Proof. intros Hf Hs. simpl. by rewrite Hf, Hs. Qed.

Lemma decode_omitempty {T A : Type} (fields : list (string * setter T)) key (enc : A -> json) p obj out set
    (upd : option A -> T -> T) :
  field_of fields key = Some set -> (forall a, set (enc a) out = Some (upd (Some a) out)) -> upd None out = out ->
  decode_fields fields (omitempty key enc p ++ obj) out = decode_fields fields obj (upd p out).
Proof.
  intros Hf Hs Hn. destruct p as [a|]; simpl; [|by rewrite Hn]. by rewrite Hf, Hs.
Qed.

Lemma decode_omitempty_time (fields : list (string * setter openapi.ResourceReadMetadata)) key t p obj out
    (upd : option Z -> openapi.ResourceReadMetadata -> openapi.ResourceReadMetadata) :
  field_of fields key = Some (set_time (fun t m => upd (Some t) m)) -> upd None out = out ->
  match t with None => Some None | Some t => Some <$> MarshalTime t end = Some p ->
  decode_fields fields (omitempty key JString p ++ obj) out = decode_fields fields obj (upd t out).
Proof.
  intros Hf Hn Hp. destruct t as [t|]; [|by simplify_eq/=; rewrite Hn].
  destruct (MarshalTime t) as [s|] eqn:Hs; simplify_eq/=. rewrite Hf. unfold set_time.
  by rewrite (Unmarshal_Marshal _ _ Hs).
Qed.

Lemma decode_tags (l : list openapi.Tag) : map decode_tag (map Tag_json l) = l.
Proof. induction l as [|[n v] l IH]; simpl; [done|]. by rewrite IH. Qed.

(** The times of a document can be written. *)
Definition times_ok (m : openapi.ResourceReadMetadata) : Prop :=
  representable (openapi.CreationTime m) /\
  (forall t, openapi.DeletionTime m = Some t -> representable t) /\
  (forall t, openapi.ModifiedTime m = Some t -> representable t).

Lemma marshal_option t :
  (forall t', t = Some t' -> representable t') ->
  exists p, match t with None => Some None | Some t => Some <$> MarshalTime t end = Some p.
Proof.
  intros Ht. destruct t as [t|]; [|by eexists].
  destruct (Marshal_representable t (Ht t eq_refl)) as [s ->]. by eexists.
Qed.

Lemma metadata_json_roundtrip m : times_ok m -> Metadata_unmarshal (Metadata_json m) = m.
Proof.
  intros (Hc & Hd & Hm). unfold Metadata_json.
  destruct (Marshal_representable _ Hc) as [c Hcm]. rewrite Hcm. simpl.
  destruct (marshal_option _ Hd) as [d Hdm]. rewrite Hdm. simpl.
  destruct (marshal_option _ Hm) as [mo Hmm]. rewrite Hmm. simpl.
  destruct m as [cb ct dt de hs hd i mb mt na ps pd ta]; simpl in *. unfold zero_metadata.
  erewrite (decode_omitempty _ _ _ cb _ _ _ (fun p m => m <| openapi.CreatedBy := p |>)); try reflexivity.
  erewrite (decode_key _ "creationTime"); [|reflexivity|simpl; rewrite (Unmarshal_Marshal _ _ Hcm); reflexivity].
  erewrite (decode_omitempty_time _ _ dt d _ _ (fun p m => m <| openapi.DeletionTime := p |>)); [|reflexivity..|done].
  erewrite (decode_omitempty _ _ _ de _ _ _ (fun p m => m <| openapi.Description := p |>)); try reflexivity.
  erewrite (decode_key _ "healthStatus"); [|reflexivity..].
  erewrite (decode_omitempty _ _ _ hd _ _ _ (fun p m => m <| openapi.HealthStatusDetail := p |>));
    [|reflexivity|by intros []|reflexivity].
  erewrite (decode_key _ "id"); [|reflexivity..].
  erewrite (decode_omitempty _ _ _ mb _ _ _ (fun p m => m <| openapi.ModifiedBy := p |>)); try reflexivity.
  erewrite (decode_omitempty_time _ _ mt mo _ _ (fun p m => m <| openapi.ModifiedTime := p |>)); [|reflexivity..|done].
  erewrite (decode_key _ "name"); [|reflexivity..].
  erewrite (decode_key _ "provisioningStatus"); [|reflexivity..].
  erewrite (decode_omitempty _ _ _ pd _ _ _ (fun p m => m <| openapi.ProvisioningStatusDetail := p |>));
    [|reflexivity|by intros []|reflexivity].
  destruct ta as [ta|]; [|reflexivity]. simpl. by rewrite decode_tags.
Qed.

End json_facts.

(** ** What a user reads *)

(** A managed resource is its own reader. *)
Definition reader_self (O : Type) : MaybeReader O O := {| as_reader := Some |}.

Section facts.
Context {O : Type} `{ManagableResource O} `{GoTime}.

#[local] Existing Instance reader_self.

(** The coarse status the API means each reason to read as: what is in flight or
    can heal is provisioning, what needs somebody to act is an error. *)
Definition documented_statuses : list (string * string) :=
  [("Provisioning", "provisioning"); ("Provisioned", "provisioned");
   ("Deprovisioning", "deprovisioning"); ("Deprovisioned", "deprovisioning");
   ("DependencyNotReady", "provisioning"); ("DependencyFailed", "provisioning");
   ("DependencyNotFound", "error"); ("Errored", "error")].

(** And one that is none of these, as provisioning. *)
Definition documented_status (reason : string) : string :=
  foldr (fun entry rest => if decide (reason = entry.1) then entry.2 else rest) "provisioning" documented_statuses.

(** What a provisioning outcome means to a user: the coarse status. *)
Definition outcome_status (err : option error) : string :=
  match err with
  | None => "provisioned"
  | Some e =>
    match errors_as_provisioning e with
    | Some p => documented_status (provisioners.Reason p)
    | None => if errors_is e provisioners_ErrYield then "provisioning" else "error"
    end
  end.

Lemma reasonStatus_documented reason :
  default openapi.ResourceProvisioningStatusProvisioning (reasonStatus reason) = documented_status reason.
Proof.
  unfold reasonStatus, documented_status. simpl.
  repeat (case_decide; [by subst|]). by repeat (rewrite bool_decide_false by done).
Qed.

(** C28 The condition the manager surfaces for the outcome of a provisioner is
    what the API shows: success reads as provisioned, a yield as provisioning, a
    typed error as its reason is documented to, and any other error as an error;
    the detail is the reason and message surfaced, and the health is left alone. *)
Theorem api_status_of_outcome now (object : O) err s0 :
  GetDeletionTimestamp object = None ->
  Manager.lifecycleCondition err false = Some s0 ->
  let s := Manager.enrichCondition err s0 in
  let object' := SetProvisioningCondition now (Manager.surface_status s) (Manager.surface_reason s)
                   (Manager.surface_message s) object in
  (convertStatusCondition object').1 = outcome_status err /\
  convertProvisioningStatusDetail object' =
    Some {| openapi.detail_Message := Manager.surface_message s;
            openapi.detail_Reason := Manager.surface_reason s |} /\
  convertHealthCondition object' = convertHealthCondition object.
Proof.
  intros Hd Hl s object'.
  destruct (GetAvailableCondition_set now (Manager.surface_status s) (Manager.surface_reason s)
    (Manager.surface_message s) object) as (c & Hc & _ & Hre & Hme).
  fold object' in Hc. split_and!.
  - unfold convertStatusCondition, GetDeletionTimestamp in *. unfold object' at 1.
    rewrite SetProvisioningCondition_meta, Hd. simpl. rewrite Hc, Hre. clear Hre Hme.
    unfold s, outcome_status, Manager.enrichCondition, Manager.lifecycleCondition in *.
    destruct err as [e|]; [|by simplify_eq/=]. simpl.
    destruct (errors_as_provisioning e) as [p|]; simpl.
    { rewrite <-reasonStatus_documented. by destruct (reasonStatus _). }
    destruct (errors_is e provisioners_ErrYield); [by simplify_eq/=|].
    destruct (errors_is e context_Canceled); by simplify_eq/=.
  - unfold convertProvisioningStatusDetail. simpl. by rewrite Hc, Hre, Hme.
  - unfold convertHealthCondition, object'. simpl. by rewrite GetHealthyCondition_set.
Qed.

(** The errors of dependencies: a user is shown an error exactly when the
    manager stops polling. *)
Lemma dependency_status_terminal {D} `{Object D, Scheme D} (o : D) e :
  e ∈ [provisioners.DependencyNotReady o; provisioners.DependencyFailed o; provisioners.DependencyNotFound o] ->
  outcome_status (Some (provisioners.as_error e)) = openapi.ResourceProvisioningStatusError <->
  provisioners.IsTerminal (provisioners.as_error e) = true.
Proof. intros He. repeat (apply elem_of_cons in He as [->|He]; [by vm_compute|]). by apply elem_of_nil in He. Qed.

Lemma convert_generate_tags (l : list openapi.Tag) : ConvertTags (GenerateTagList (Some l)) = l.
Proof. unfold ConvertTags. simpl. induction l as [|[n v] l IH]; simpl; [done|]. by rewrite IH. Qed.

(** C31 What an API client wrote is what it reads back: the metadata of a
    resource made from a request carries the request's name, description and
    tags, and the identity and scope it was given. *)
Theorem written_metadata_read_back (o0 : O) id w ns organization project creation :
  representable creation ->
  let m := ObjectMetadata.WithProject project (ObjectMetadata.WithOrganization organization
             (ObjectMetadata.NewObjectMetadata id w ns)) in
  let object := set_object_meta (ObjectMetadata.Get m <| metav1.CreationTimestamp := creation |>) o0 in
  let tags := GenerateTagList (openapi.write_Tags w) in
  let r := ProjectScopedResourceReadMetadata object tags in
  openapi.project_Metadata r = ResourceReadMetadata object tags /\
  openapi.project_OrganizationId r = organization /\ openapi.project_ProjectId r = project /\
  openapi.Id (openapi.project_Metadata r) = id /\
  openapi.Name (openapi.project_Metadata r) = openapi.write_Name w /\
  openapi.Description (openapi.project_Metadata r) = openapi.write_Description w /\
  openapi.CreationTime (openapi.project_Metadata r) = creation /\
  default [] (openapi.Tags (openapi.project_Metadata r)) = default [] (openapi.write_Tags w).
Proof.
  intros Hc m object tags r.
  assert (object_meta object = ObjectMetadata.Get m <| metav1.CreationTimestamp := creation |>) as Hm
    by apply object_meta_set.
  assert (openapi.project_Metadata r = ResourceReadMetadata object tags) as Hr.
  { apply metadata_json_roundtrip. unfold times_ok. simpl.
    unfold GetDeletionTimestamp, GetAnnotations. rewrite Hm. split_and!; [done|done|]. simpl.
    destruct (openapi.write_Description w); by simplify_map_eq. }
  rewrite Hr. subst r. unfold GetName, GetLabels, GetAnnotations. simpl.
  unfold GetName, GetLabels, GetAnnotations. rewrite Hm. simpl.
  split_and!; try done; try by simplify_map_eq.
  - destruct (openapi.write_Description w); by simplify_map_eq.
  - unfold tags. destruct (openapi.write_Tags w) as [[|t l]|]; [done| |done].
    case_bool_decide as Hl; [|done]. cbn [default]. by rewrite convert_generate_tags.
Qed.

(** An update records when it happened, to the second. *)
Lemma update_sets_modified_time now (required current : O) tags :
  representable now ->
  openapi.ModifiedTime (ResourceReadMetadata (UpdateObjectMetadata now required current []).1.1 tags) =
    Some (now / 1000000000 * 1000000000)%Z.
Proof.
  intros Hn. unfold UpdateObjectMetadata. simpl. unfold GetAnnotations. rewrite object_meta_set.
  simpl. rewrite lookup_insert_eq. simpl. by apply Parse_Format.
Qed.

End facts.

Module witnesses.
Import sample.

#[local] Existing Instance reader_self.

(** A clock that knows one instant. *)
Definition noon : Z := 1767268800000000000.

Definition one_instant : GoTime.
Proof.
  refine {| ZeroTime := 0; representable t := t = noon; FormatRFC3339 _ := "2026-01-01T12:00:00Z";
            ParseRFC3339 s := if bool_decide (s = "2026-01-01T12:00:00Z") then Some noon else None;
            MarshalTime t := if bool_decide (t = noon) then Some "2026-01-01T12:00:00Z" else None;
            UnmarshalTime s := if bool_decide (s = "2026-01-01T12:00:00Z") then Some noon else None |}.
  - by intros t ->.
  - intros t ->. by eexists.
  - intros t s. case_bool_decide; intros; simplify_eq. done.
Defined.

#[local] Existing Instance one_instant.

(** A dependency that is gone parks the network, and its user sees an error; one
    that is not ready yet does not. *)
Definition shown (reason message : string) : openapi.ResourceProvisioningStatus :=
  (convertStatusCondition (SetProvisioningCondition 7 "False" reason message (network [] None))).1.

Lemma api_status_of_outcome_witness :
  shown "DependencyNotFound" (provisioners.Message (provisioners.DependencyNotFound (network [] None))) = "error" /\
  shown "DependencyNotReady" (provisioners.Message (provisioners.DependencyNotReady (network [] None))) = "provisioning".
Proof.
  split.
  - apply (api_status_of_outcome 7 (network [] None) (Some (provisioners.as_error (provisioners.DependencyNotFound (network [] None))))
      {| Manager.surface_status := "False"; Manager.surface_reason := "Errored";
         Manager.surface_message := "an unexpected error occurred" |}); reflexivity.
  - apply (api_status_of_outcome 7 (network [] None) (Some (provisioners.as_error (provisioners.DependencyNotReady (network [] None))))
      {| Manager.surface_status := "False"; Manager.surface_reason := "Provisioning";
         Manager.surface_message := "provisioning" |}); reflexivity.
Defined.

Lemma written_metadata_read_back_witness :
  let w := {| openapi.write_Description := Some "edge"; openapi.write_Name := "prod-net";
              openapi.write_Tags := Some [{| openapi.Tag_Name := "env"; openapi.Tag_Value := "prod" |}] |} in
  representable noon /\
  openapi.Name (openapi.project_Metadata (ProjectScopedResourceReadMetadata
    (set_object_meta (ObjectMetadata.Get (ObjectMetadata.WithProject "p" (ObjectMetadata.WithOrganization "acme"
       (ObjectMetadata.NewObjectMetadata "net-1" w "unikorn"))) <| metav1.CreationTimestamp := noon |>) (network [] None))
    (GenerateTagList (openapi.write_Tags w)))) = "prod-net".
Proof.
  intros w. split; [reflexivity|].
  apply (written_metadata_read_back (network [] None) "net-1" w "unikorn" "acme" "p" noon). reflexivity.
Defined.

End witnesses.
