(* ===== verification/ArgoCD.v ===== *)
(** * ArgoCD: the continuous-deployment driver

    Models pkg/cd/argocd/driver.go over pkg/apis/argoproj/v1alpha1/types.go.
    The Kubernetes API, the connectivity tester and controllerutil's
    CreateOrPatch are calls; a call given a pointer it may write to answers the
    content it leaves there. *)

From coqutil Require Import Datatypes.RecordSetters.
Import TriangleBracketNotations.
From S2P Require Import Prelude Errors GoStrings Json Effects Kubernetes Conditions Provisioning CD.
From Stdlib Require Import Ascii.

(** pkg/apis/argoproj/v1alpha1. *)
Module argoprojv1.

Record HelmParameter := { param_Name : string; param_Value : string }.

Record ApplicationSourceHelm := {
  ReleaseName : string;
  Values : string;
  Parameters : list HelmParameter;
}.

Record ApplicationSource := {
  RepoURL : string;
  Chart : string;
  Path : string;
  TargetRevision : string;
  Helm : option ApplicationSourceHelm;
}.

Record ApplicationDestination := { dest_Name : string; dest_Namespace : string }.

Abbreviation ApplicationSyncOption := string.
Definition CreateNamespace : ApplicationSyncOption := "CreateNamespace=true".
Definition ServerSideApply : ApplicationSyncOption := "ServerSideApply=true".

Record ApplicationSyncAutomation := { SelfHeal : bool; Prune : bool }.

Record NamespaceMetadata := {
  ns_Labels : option (gmap string string);
  ns_Annotations : option (gmap string string);
}.

Record ApplicationSyncPolicy := {
  SyncOptions : list ApplicationSyncOption;
  Automated : option ApplicationSyncAutomation;
  ManagedNamespaceMetadata : option NamespaceMetadata;
}.

Record ApplicationIgnoreDifference := {
  Group : string;
  Kind : string;
  JSONPointers : list string;
}.

Record ApplicationSpec := {
  Project : string;
  Source : ApplicationSource;
  Destination : ApplicationDestination;
  SyncPolicy : ApplicationSyncPolicy;
  IgnoreDifferences : list ApplicationIgnoreDifference;
}.

Definition Healthy : string := "Healthy".
Definition Degraded : string := "Degraded".
Definition Synced : string := "Synced".
Definition Unknown : string := "Unknown".

(** ApplicationStatus: the status strings behind the Health and Sync pointers. *)
Record ApplicationStatus := { Health : option string; Sync : option string }.

Record Application := {
  GenerateName : string;
  ObjectMeta : metav1.ObjectMeta;
  Spec : ApplicationSpec;
  Status : ApplicationStatus;
}.

Definition app_Labels (a : Application) : gmap string string := metav1.Labels (ObjectMeta a).

End argoprojv1.

(** corev1.Secret. *)
Record Secret := {
  secret_ObjectMeta : metav1.ObjectMeta;
  secret_Data : gmap string string;
}.

(** The calls of the driver. *)
Inductive argoE : Type -> Type :=
| ListApplications (namespace : string) (selector : gmap string string) : argoE (result (list argoprojv1.Application))
| CreateApplication (a : argoprojv1.Application) : argoE (argoprojv1.Application * option error)
| PatchApplication (base temp : argoprojv1.Application) : argoE (argoprojv1.Application * option error)
| DeleteApplication (a : argoprojv1.Application) : argoE (option error)
| ListSecrets (namespace : string) (selector : gmap string string) : argoE (result (list Secret))
| GetSecret (namespace name : string) : argoE (result Secret)
| Connect (config : clientcmdapi.Config) : argoE (option error)
| CreateOrPatchSecret (namespace name : string) (mutate : Secret -> Secret) : argoE (option error)
| DeleteSecret (s : Secret) : argoE (option error).

Module argocd.

Definition namespace : string := "argocd".

(** labels.SelectorFromSet(set).Matches. *)
Definition selects (selector labels : gmap string string) : bool :=
  bool_decide (map_Forall (fun k v => labels !! k = Some v) selector).

Definition clusterName (id : cd.ResourceIdentifier) : string :=
  let name := cd.Name id in
  if bool_decide (length (cd.Labels id) <> 0)
  then name +:+ "-" +:+ strings_Join ":" (map cd.label_Value (cd.Labels id))
  else name.

(** The loop that adds the labels of an identifier to a set; the last wins. *)
Definition addLabels (l : list cd.ResourceIdentifierLabel) (labels : gmap string string) : gmap string string :=
  foldl (fun labels label => <[ cd.label_Name label := cd.label_Value label ]> labels) labels l.

Definition applicationLabels (id : cd.ResourceIdentifier) : gmap string string :=
  addLabels (cd.Labels id) {[ constants.ApplicationLabel := cd.Name id ]}.

Definition applicationLabelsForOwningResource (id : cd.ResourceIdentifier) : gmap string string :=
  addLabels (cd.Labels id) ∅.

Definition Kind : string := cd.DriverKindArgoCD.

Section driver.
Context {V : Type} `{MapOrder}.

Definition convertApplicationID (a : argoprojv1.Application) : cd.ResourceIdentifier :=
  let name := default "" (argoprojv1.app_Labels a !! constants.ApplicationLabel) in
  let labels := delete constants.ApplicationLabel (argoprojv1.app_Labels a) in
  {| cd.Name := name;
     cd.Labels := map (fun '(k, v) => {| cd.label_Name := k; cd.label_Value := v |}) (map_range labels) |}.

Definition convertApplication (a : argoprojv1.Application) : cd.HelmApplication V :=
  let source := argoprojv1.Source (argoprojv1.Spec a) in
  {| cd.Repo := argoprojv1.RepoURL source;
     cd.Chart := argoprojv1.Chart source;
     cd.Path := argoprojv1.Path source;
     cd.Version := if bool_decide (argoprojv1.Chart source <> "") then argoprojv1.TargetRevision source else "";
     cd.Branch := if bool_decide (argoprojv1.Path source <> "") then argoprojv1.TargetRevision source else "";
     cd.Release := ""; cd.Parameters := []; cd.Values := None; cd.app_Cluster := None; cd.Namespace := "";
     cd.CreateNamespace := false;
     cd.NamespaceMetadata := {| cd.la_Labels := None; cd.la_Annotations := None |};
     cd.IgnoreDifferences := []; cd.ServerSideApply := false; cd.AllowDegraded := false |}.

(** A map keyed by fresh pointers: its entries. *)
Definition convertApplicationList (items : list argoprojv1.Application) :
    list (cd.ResourceIdentifier * cd.HelmApplication V) :=
  map (fun item => (convertApplicationID item, convertApplication item)) items.

(** The loop of GetHealthStatus. *)
Fixpoint healthOf (items : list argoprojv1.Application) : string :=
  match items with
  | [] => cd.HealthStatusHealthy
  | application :: items' =>
    match argoprojv1.Health (argoprojv1.Status application) with
    | None => cd.HealthStatusUnknown
    | Some status =>
      if bool_decide (status <> argoprojv1.Healthy) then cd.HealthStatusDegraded else healthOf items'
    end
  end.

(** GetHealthStatus answers a status next to the error; the status of an error
    is unknown. *)
Definition GetHealthStatus (id : cd.ResourceIdentifier) : prog argoE (string * option error) :=
  resources ← call (ListApplications namespace (applicationLabelsForOwningResource id));
  match resources with
  | Err err => mret (cd.HealthStatusUnknown, Some err)
  | Ok items => mret (healthOf items, None)
  end.

Definition ListHelmApplications (id : cd.ResourceIdentifier) :
    prog argoE (result (list (cd.ResourceIdentifier * cd.HelmApplication V))) :=
  attempt (call (ListApplications namespace (applicationLabelsForOwningResource id))) (fun items =>
    mret (Ok (convertApplicationList items))).

Definition GetHelmApplication (id : cd.ResourceIdentifier) : prog argoE (result argoprojv1.Application) :=
  attempt (call (ListApplications namespace (applicationLabels id))) (fun items =>
    match items with
    | [] => mret (Err (Sentinel cd_ErrNotFound))
    | [resource] => mret (Ok resource)
    | _ => mret (Err (Sentinel argocd_ErrItemLengthMismatch))
    end).

(** [yaml_Marshal] is sigs.k8s.io/yaml's Marshal. *)
Variable yaml_Marshal : V -> result string.

Definition emptyMeta : metav1.ObjectMeta :=
  {| metav1.Name := ""; metav1.Namespace := ""; metav1.Generation := 0; metav1.CreationTimestamp := 0;
     metav1.DeletionTimestamp := None; metav1.Labels := ∅; metav1.Annotations := ∅; metav1.Finalizers := [] |}.

Definition helmIsZero (h : argoprojv1.ApplicationSourceHelm) : bool :=
  bool_decide (argoprojv1.ReleaseName h = "") && bool_decide (argoprojv1.Values h = "") &&
  bool_decide (length (argoprojv1.Parameters h) = 0).

Definition generateApplication (id : cd.ResourceIdentifier) (app : cd.HelmApplication V) : result argoprojv1.Application :=
  let parameters := map (fun p =>
    {| argoprojv1.param_Name := cd.param_Name p; argoprojv1.param_Value := cd.param_Value p |}) (cd.Parameters app) in
  match match cd.Values app with None => Ok "" | Some v => yaml_Marshal v end with
  | Err err => Err err
  | Ok values =>
    let helm := {| argoprojv1.ReleaseName := cd.Release app; argoprojv1.Parameters := parameters;
                   argoprojv1.Values := values |} in
    let destinationName := match cd.app_Cluster app with Some c => clusterName c | None => "in-cluster" end in
    let version := if bool_decide (cd.Branch app <> "") then cd.Branch app else cd.Version app in
    let metadata := cd.NamespaceMetadata app in
    Ok {| argoprojv1.GenerateName := cd.Name id +:+ "-";
          argoprojv1.ObjectMeta := emptyMeta <| metav1.Namespace := namespace |> <| metav1.Labels := applicationLabels id |>;
          argoprojv1.Spec := {|
            argoprojv1.Project := "default";
            argoprojv1.Source := {|
              argoprojv1.RepoURL := cd.Repo app;
              argoprojv1.Chart := cd.Chart app;
              argoprojv1.Path := cd.Path app;
              argoprojv1.TargetRevision := version;
              argoprojv1.Helm := if negb (helmIsZero helm) then Some helm else None |};
            argoprojv1.Destination := {|
              argoprojv1.dest_Name := destinationName;
              argoprojv1.dest_Namespace := cd.Namespace app |};
            argoprojv1.SyncPolicy := {|
              argoprojv1.Automated := Some {| argoprojv1.SelfHeal := true; argoprojv1.Prune := true |};
              argoprojv1.SyncOptions :=
                (if cd.CreateNamespace app then [argoprojv1.CreateNamespace] else []) ++
                (if cd.ServerSideApply app then [argoprojv1.ServerSideApply] else []);
              argoprojv1.ManagedNamespaceMetadata :=
                if bool_decide (is_Some (cd.la_Labels metadata)) || bool_decide (is_Some (cd.la_Annotations metadata))
                then Some {| argoprojv1.ns_Labels := cd.la_Labels metadata;
                             argoprojv1.ns_Annotations := cd.la_Annotations metadata |}
                else None |};
            argoprojv1.IgnoreDifferences := map (fun field =>
              {| argoprojv1.Group := cd.field_Group field; argoprojv1.Kind := cd.field_Kind field;
                 argoprojv1.JSONPointers := cd.field_JSONPointers field |}) (cd.IgnoreDifferences app) |};
          argoprojv1.Status := {| argoprojv1.Health := None; argoprojv1.Sync := None |} |}
  end.

(** What is answered of an application that was written. *)
Definition readiness (app : cd.HelmApplication V) (resource : argoprojv1.Application) : option error :=
  match argoprojv1.Sync (argoprojv1.Status resource) with
  | None => Some provisioners.ErrYield
  | Some sync =>
    if bool_decide (sync <> argoprojv1.Synced) then Some provisioners.ErrYield
    else match argoprojv1.Health (argoprojv1.Status resource) with
         | None => Some provisioners.ErrYield
         | Some health =>
           if cd.AllowDegraded app && bool_decide (health = argoprojv1.Degraded) then None
           else if bool_decide (health <> argoprojv1.Healthy) then Some provisioners.ErrYield
           else None
         end
  end.

(** The application that is written over an existing one. *)
Definition replaceSpec (required resource : argoprojv1.Application) : argoprojv1.Application :=
  {| argoprojv1.GenerateName := argoprojv1.GenerateName resource;
     argoprojv1.ObjectMeta := (argoprojv1.ObjectMeta resource) <| metav1.Labels := argoprojv1.app_Labels required |>;
     argoprojv1.Spec := argoprojv1.Spec required;
     argoprojv1.Status := argoprojv1.Status resource |}.

Definition CreateOrUpdateHelmApplication (id : cd.ResourceIdentifier) (app : cd.HelmApplication V) : prog argoE (option error) :=
  match generateApplication id app with
  | Err err => mret (Some err)
  | Ok required =>
    r ← GetHelmApplication id;
    match r with
    | Err err =>
      if negb (errors_is err cd_ErrNotFound) then mret (Some err)
      else
        a ← call (CreateApplication required);
        match a.2 with
        | Some err => mret (Some err)
        | None => mret (readiness app a.1)
        end
    | Ok resource =>
      a ← call (PatchApplication resource (replaceSpec required resource));
      match a.2 with
      | Some err => mret (Some err)
      | None => mret (readiness app a.1)
      end
    end
  end.

(** The application that is written before it is deleted. *)
Definition finalize (resource : argoprojv1.Application) : argoprojv1.Application :=
  {| argoprojv1.GenerateName := argoprojv1.GenerateName resource;
     argoprojv1.ObjectMeta :=
       (argoprojv1.ObjectMeta resource) <| metav1.Finalizers := ["resources-finalizer.argocd.argoproj.io"] |>;
     argoprojv1.Spec :=
       (argoprojv1.Spec resource) <| argoprojv1.SyncPolicy :=
         (argoprojv1.SyncPolicy (argoprojv1.Spec resource)) <| argoprojv1.Automated := None |> |>;
     argoprojv1.Status := argoprojv1.Status resource |}.

Definition DeleteHelmApplication (id : cd.ResourceIdentifier) (backgroundDelete : bool) : prog argoE (option error) :=
  r ← GetHelmApplication id;
  match r with
  | Err err => if errors_is err cd_ErrNotFound then mret None else mret (Some err)
  | Ok resource =>
    match metav1.DeletionTimestamp (argoprojv1.ObjectMeta resource) with
    | Some _ => if backgroundDelete then mret None else mret (Some provisioners.ErrYield)
    | None =>
      a ← call (PatchApplication resource (finalize resource));
      match a.2 with
      | Some err => mret (Some err)
      | None =>
        check (call (DeleteApplication resource)) (
          if negb backgroundDelete then mret (Some provisioners.ErrYield) else mret None)
      end
    end
  end.

End driver.
(** ** Clusters *)

(** A call of a function that may dereference a nil pointer. *)
Inductive completion : Type :=
| Returned (err : option error)
| Panicked.

(** encoding/base64's standard encoding. *)
Definition base64_digit (n : N) : ascii :=
  (if n <? 26 then ascii_of_N (65 + n)
   else if n <? 52 then ascii_of_N (71 + n)
   else if n <? 62 then ascii_of_N (n - 4)
   else if n =? 62 then "+"%char else "/"%char)%N.

Fixpoint base64 (s : string) : string :=
  (match s with
   | String a (String b (String c s')) =>
     let n := N.lor (N.shiftl (N_of_ascii a) 16) (N.lor (N.shiftl (N_of_ascii b) 8) (N_of_ascii c)) in
     String (base64_digit (N.shiftr n 18)) (String (base64_digit (N.land (N.shiftr n 12) 63))
       (String (base64_digit (N.land (N.shiftr n 6) 63)) (String (base64_digit (N.land n 63)) (base64 s'))))
   | String a (String b EmptyString) =>
     let n := N.lor (N.shiftl (N_of_ascii a) 16) (N.shiftl (N_of_ascii b) 8) in
     String (base64_digit (N.shiftr n 18)) (String (base64_digit (N.land (N.shiftr n 12) 63))
       (String (base64_digit (N.land (N.shiftr n 6) 63)) "="))
   | String a EmptyString =>
     let n := N.shiftl (N_of_ascii a) 16 in
     String (base64_digit (N.shiftr n 18)) (String (base64_digit (N.land (N.shiftr n 12) 63)) "==")
   | EmptyString => EmptyString
   end)%N.

(** A []byte field: null when nil. *)
Definition bytes_json (b : option string) : json :=
  match b with Some b => JString (base64 b) | None => JNull end.

Record ClusterTLSClientConfig := {
  CAData : option string;
  CertData : option string;
  KeyData : option string;
}.

Record ClusterConfig := { TLSClientConfig : ClusterTLSClientConfig }.

Definition ClusterConfig_json (c : ClusterConfig) : json :=
  let t := TLSClientConfig c in
  JObject [("tlsClientConfig",
    JObject [("caData", bytes_json (CAData t)); ("certData", bytes_json (CertData t)); ("keyData", bytes_json (KeyData t))])].

(** hash/fnv's 32-bit FNV-1a. *)
Fixpoint fnv32a_from (hash : Z) (s : string) : Z :=
  match s with
  | EmptyString => hash
  | String c s' => fnv32a_from (Z.lxor hash (Z.of_N (N_of_ascii c)) * 16777619 mod 2 ^ 32) s'
  end.

Definition fnv32a (s : string) : Z := fnv32a_from 2166136261 s.

(** fmt's %x of bytes. *)
Definition hex_bytes (l : list ascii) : string :=
  strings_Join "" (map (fun c =>
    String (hex_digit (N_of_ascii c / 16)) (String (hex_digit (N_of_ascii c mod 16)) EmptyString)) l).

Section clusters.
(** [sha256_Sum256]: crypto/sha256. *)
Context `{UrlParse} `{ApiErrors}.
Variable sha256_Sum256 : string -> list ascii.

Definition clusterSecretName (host prefix : string) : result string :=
  let prefix := if bool_decide (prefix = "") then "cluster" else prefix in
  match url_Parse host with
  | Err err => Err err
  | Ok url =>
    let hostname := strings_Split ":"%char (Host url) in
    Ok (prefix +:+ "-" +:+ default "" (head hostname) +:+ "-" +:+ itoa (fnv32a host))
  end.

Definition clusterLabel (id : cd.ResourceIdentifier) : string :=
  "cluster-" +:+ hex_bytes (take 8 (sha256_Sum256 (clusterName id))).

(** The labels a cluster's secret is looked up by. *)
Definition clusterSelector (id : cd.ResourceIdentifier) : gmap string string :=
  {[ constants.ApplicationIDLabel := clusterLabel id ]}.

Definition GetClusterSecret (id : cd.ResourceIdentifier) : prog argoE (result Secret) :=
  attempt (call (ListSecrets namespace (clusterSelector id))) (fun items =>
    match items with
    | [] => mret (Err (Sentinel cd_ErrNotFound))
    | [resource] => mret (Ok resource)
    | _ => mret (Err (Sentinel argocd_ErrItemLengthMismatch))
    end).

Definition mustateSecret (labels data : gmap string string) (current : Secret) : Secret :=
  {| secret_ObjectMeta := (secret_ObjectMeta current) <| metav1.Labels := labels |>; secret_Data := data |}.

(** The wait for the API of a cluster that is not registered yet. *)
Definition awaitConnectivity (secretName : string) (config : clientcmdapi.Config) : prog argoE (option error) :=
  object ← call (GetSecret namespace secretName);
  match object with
  | Ok _ => mret None
  | Err err =>
    if negb (IsNotFound err) then mret (Some err)
    else
      r ← call (Connect config);
      match r with
      | Some err => if negb (errors_is err util_ErrK8SConnectionError) then mret (Some err) else mret (Some provisioners.ErrYield)
      | None => mret None
      end
  end.

(** The labels and the data of a cluster's secret. *)
Definition clusterLabels (id : cd.ResourceIdentifier) : gmap string string :=
  {[ "argocd.argoproj.io/secret-type" := "cluster"; constants.ApplicationIDLabel := clusterLabel id ]}.

Definition clusterData (id : cd.ResourceIdentifier) (clusterConfig : clientcmdapi.Cluster)
    (authInfo : clientcmdapi.AuthInfo) : gmap string string :=
  let config := {| TLSClientConfig := {|
    CAData := clientcmdapi.CertificateAuthorityData clusterConfig;
    CertData := clientcmdapi.ClientCertificateData authInfo;
    KeyData := clientcmdapi.ClientKeyData authInfo |} |} in
  {[ "name" := clusterName id; "server" := clientcmdapi.Server clusterConfig;
     "config" := marshal (ClusterConfig_json config) ]}.

Definition CreateOrUpdateCluster (id : cd.ResourceIdentifier) (cluster : cd.Cluster) : prog argoE completion :=
  let config := cd.Config cluster in
  match clientcmdapi.Contexts config !! clientcmdapi.CurrentContext config with
  | None => mret Panicked
  | Some configContext =>
    match clientcmdapi.Clusters config !! clientcmdapi.Context_Cluster configContext with
    | None => mret Panicked
    | Some clusterConfig =>
      match clusterSecretName (clientcmdapi.Server clusterConfig) (cd.Prefix cluster) with
      | Err err => mret (Returned (Some err))
      | Ok secretName =>
        r ← awaitConnectivity secretName config;
        match r with
        | Some err => mret (Returned (Some err))
        | None =>
          match clientcmdapi.AuthInfos config !! clientcmdapi.Context_AuthInfo configContext with
          | None => mret Panicked
          | Some authInfo =>
            err ← call (CreateOrPatchSecret namespace secretName
                          (mustateSecret (clusterLabels id) (clusterData id clusterConfig authInfo)));
            mret (Returned err)
          end
        end
      end
    end
  end.

Definition DeleteCluster (id : cd.ResourceIdentifier) : prog argoE (option error) :=
  r ← GetClusterSecret id;
  match r with
  | Err err => if negb (errors_is err cd_ErrNotFound) then mret (Some err) else mret None
  | Ok resource =>
    check (call (DeleteSecret resource)) (mret None)
  end.

End clusters.
End argocd.

(** ** An API server: what the calls of the driver do to its objects

    List answers the objects whose labels the selector matches; Create refuses a
    taken name and gives an application a generated one; Patch and Delete answer
    not found for an object that is gone; Delete leaves an object that has
    finalizers, with a deletion time.  Objects are known by name. *)

Record apiserver := {
  applications : list argoprojv1.Application;
  secrets : list Secret;
  generated : nat;
}.

Definition app_name (a : argoprojv1.Application) : string := metav1.Name (argoprojv1.ObjectMeta a).
Definition secret_name (s : Secret) : string := metav1.Name (secret_ObjectMeta s).
Definition secret_labels (s : Secret) : gmap string string := metav1.Labels (secret_ObjectMeta s).

Definition notFound : error := Foreign "NotFound".

Definition emptySecret (name : string) : Secret :=
  {| secret_ObjectMeta := argocd.emptyMeta <| metav1.Namespace := argocd.namespace |> <| metav1.Name := name |>;
     secret_Data := ∅ |}.

Definition terminating (time : Z) (a : argoprojv1.Application) : argoprojv1.Application :=
  a <| argoprojv1.ObjectMeta := (argoprojv1.ObjectMeta a) <| metav1.DeletionTimestamp := Some time |> |>.

Definition serve (X : Type) (e : argoE X) (s : apiserver) : apiserver * X :=
  match e in argoE X return apiserver * X with
  | ListApplications _ selector =>
    (s, Ok (base.filter (fun a => argocd.selects selector (argoprojv1.app_Labels a) = true) (applications s)))
  | CreateApplication a =>
    let name := argoprojv1.GenerateName a +:+ itoa (Z.of_nat (generated s)) in
    let a' := {| argoprojv1.GenerateName := argoprojv1.GenerateName a;
                 argoprojv1.ObjectMeta := (argoprojv1.ObjectMeta a) <| metav1.Name := name |>;
                 argoprojv1.Spec := argoprojv1.Spec a;
                 argoprojv1.Status := {| argoprojv1.Health := None; argoprojv1.Sync := None |} |} in
    if bool_decide (name ∈ map app_name (applications s))
    then (s <| generated := S (generated s) |>, (a, Some (Foreign "AlreadyExists")))
    else ({| applications := applications s ++ [a']; secrets := secrets s; generated := S (generated s) |}, (a', None))
  | PatchApplication base temp =>
    if bool_decide (app_name base ∈ map app_name (applications s))
    then (s <| applications := map (fun a => if bool_decide (app_name a = app_name base) then temp else a) (applications s) |>,
          (temp, None))
    else (s, (temp, Some notFound))
  | DeleteApplication a =>
    if bool_decide (app_name a ∈ map app_name (applications s))
    then (s <| applications := omap (fun b =>
            if bool_decide (app_name b = app_name a)
            then match metav1.Finalizers (argoprojv1.ObjectMeta b) with
                 | [] => None
                 | _ => Some (terminating (Z.of_nat (generated s)) b)
                 end
            else Some b) (applications s) |>, None)
    else (s, Some notFound)
  | ListSecrets _ selector =>
    (s, Ok (base.filter (fun x => argocd.selects selector (secret_labels x) = true) (secrets s)))
  | GetSecret _ name =>
    (s, match base.filter (fun x => secret_name x = name) (secrets s) with
        | x :: _ => Ok x
        | [] => Err notFound
        end)
  | Connect _ => (s, None)
  | CreateOrPatchSecret _ name mutate =>
    if bool_decide (name ∈ map secret_name (secrets s))
    then (s <| secrets := map (fun x => if bool_decide (secret_name x = name) then mutate x else x) (secrets s) |>, None)
    else (s <| secrets := secrets s ++ [mutate (emptySecret name)] |>, None)
  | DeleteSecret x =>
    if bool_decide (secret_name x ∈ map secret_name (secrets s))
    then (s <| secrets := base.filter (fun y => secret_name y <> secret_name x) (secrets s) |>, None)
    else (s, Some notFound)
  end.
