(* ===== verification/ArgoCDFacts.v ===== *)
(** * ArgoCDFacts: what the continuous-deployment driver guarantees

    Theorems about ArgoCD.v: on every trace of calls, whatever the API
    answers, and on the API server the end of that file describes. *)

From coqutil Require Import Datatypes.RecordSetters.
Import TriangleBracketNotations.
From S2P Require Import Prelude Errors GoStrings Json Effects Kubernetes Conditions Provisioning CD ArgoCD.
From Stdlib Require Import Ascii.
Import argocd.

(** ** Selectors *)

Lemma selects_spec selector labels : selects selector labels = true <-> selector ⊆ labels.
Proof.
  unfold selects. rewrite bool_decide_eq_true, map_subseteq_spec. unfold map_Forall. naive_solver.
Qed.

Lemma selects_refl m : selects m m = true.
Proof. by apply selects_spec. Qed.

Lemma addLabels_lookup l m k v :
  NoDup (map cd.label_Name l) ->
  addLabels l m !! k = Some v <->
  {| cd.label_Name := k; cd.label_Value := v |} ∈ l \/ k ∉ map cd.label_Name l /\ m !! k = Some v.
Proof.
  revert m. induction l as [|[n w] l IH]; intros m Hn; simpl.
  - unfold addLabels. simpl. set_solver.
  - apply NoDup_cons in Hn as [Hnl Hn]. change (addLabels (_ :: l) m) with (addLabels l (<[n:=w]> m)).
    rewrite IH by done. clear IH. rewrite elem_of_cons, not_elem_of_cons. simpl.
    destruct (decide (k = n)) as [->|Hk].
    + rewrite lookup_insert_eq. split; [|naive_solver].
      intros [Hin|[_ ?]]; simplify_eq; [by left; right|by left; left].
    + rewrite lookup_insert_ne by done. naive_solver.
Qed.

(** Identifiers the manager makes: labels once each, none of them the
    application's own. *)
Definition well_formed (id : cd.ResourceIdentifier) : Prop :=
  NoDup (map cd.label_Name (cd.Labels id)) /\ constants.ApplicationLabel ∉ map cd.label_Name (cd.Labels id).

(** An application is found under an identifier exactly when it was created
    under one of the same name whose labels include the identifier's: the scopes
    of a name nest, they do not exclude each other. *)
Theorem application_lookup_scope id1 id2 :
  well_formed id1 -> well_formed id2 ->
  selects (applicationLabels id1) (applicationLabels id2) = true <->
  cd.Name id1 = cd.Name id2 /\ cd.Labels id1 ⊆ cd.Labels id2.
Proof.
  intros [H1 A1] [H2 A2]. rewrite selects_spec, map_subseteq_spec. unfold applicationLabels.
  setoid_rewrite addLabels_lookup; [|done..]. split.
  - intros Hs. split.
    + assert (constants.ApplicationLabel ∉ map cd.label_Name (cd.Labels id2) /\
        ({[constants.ApplicationLabel := cd.Name id2]} : gmap string string) !! constants.ApplicationLabel = Some (cd.Name id1)) as [_ Hk].
      { edestruct Hs as [Hin|Hk]; [right; split; [done|by apply lookup_singleton_eq]| |exact Hk].
        destruct A2. apply list_elem_of_fmap. eexists. by split; [|exact Hin]. }
      by simplify_map_eq.
    + intros [k v] Hin. destruct (Hs k v (or_introl Hin)) as [|[_ Hk]]; [done|].
      apply lookup_singleton_Some in Hk as [<- _]. destruct A1. apply list_elem_of_fmap.
      eexists. by split; [|exact Hin].
  - intros [Hn Hl] k v [Hin|[Hk Hin]]; [left; by apply Hl|right].
    apply lookup_singleton_Some in Hin as [<- <-]. rewrite Hn. split; [done|by simplify_map_eq].
Qed.

(** ** Applications, on every trace *)

Definition is_write (ev : event argoE) : bool :=
  match ev with
  | Ev e _ => match e with
              | CreateApplication _ | PatchApplication _ _ | DeleteApplication _
              | CreateOrPatchSecret _ _ _ | DeleteSecret _ => true
              | _ => false
              end
  end.

Section traces.
Context {V : Type} (yaml_Marshal : V -> result string).
Implicit Types (id : cd.ResourceIdentifier) (app : cd.HelmApplication V).

Abbreviation listed id items := (Ev (ListApplications namespace (applicationLabels id)) items).

Lemma get_exec id t r :
  exec (GetHelmApplication id) t r ->
  exists items, t = [listed id items] /\
  match items with
  | Err err => r = Err err
  | Ok [] => r = Err (Sentinel cd_ErrNotFound)
  | Ok [resource] => r = Ok resource
  | Ok _ => r = Err (Sentinel argocd_ErrItemLengthMismatch)
  end.
Proof.
  unfold GetHelmApplication. intros Hx. exec_inv; eexists; (split; [done|]); done.
Qed.

(** An application Argo CD reports as synced, and healthy or as tolerated. *)
Definition is_ready app (a : argoprojv1.Application) : Prop :=
  argoprojv1.Sync (argoprojv1.Status a) = Some argoprojv1.Synced /\
  (argoprojv1.Health (argoprojv1.Status a) = Some argoprojv1.Healthy \/
   cd.AllowDegraded app = true /\ argoprojv1.Health (argoprojv1.Status a) = Some argoprojv1.Degraded).

Lemma readiness_spec app a :
  readiness app a = None /\ is_ready app a \/ readiness app a = Some provisioners.ErrYield /\ ~ is_ready app a.
Proof.
  unfold readiness, is_ready.
  destruct (argoprojv1.Sync _) as [sync|]; [|right; naive_solver].
  case_bool_decide as Hs; [right; naive_solver|]. subst sync.
  destruct (argoprojv1.Health _) as [health|]; [|right; naive_solver].
  destruct (cd.AllowDegraded app); simpl; repeat case_bool_decide; subst; try (left; naive_solver); right; naive_solver.
Qed.

(** A list that found nothing. *)
Definition answers_none (items : result (list argoprojv1.Application)) : Prop :=
  match items with Ok l => l = [] | Err err => errors_is err cd_ErrNotFound = true end.

(** What creating or updating an application does. *)
Lemma create_exec id app t r :
  exec (CreateOrUpdateHelmApplication yaml_Marshal id app) t r ->
  (calls is_write t = [] /\ r <> None) \/
  exists required a werr,
    generateApplication yaml_Marshal id app = Ok required /\
    ((exists none, answers_none none /\ t = [listed id none; Ev (CreateApplication required) (a, werr)]) \/
     exists resource, t = [listed id (Ok [resource]);
                           Ev (PatchApplication resource (replaceSpec required resource)) (a, werr)]) /\
    match werr with
    | Some err => r = Some err
    | None => r = None /\ is_ready app a \/ r = Some provisioners.ErrYield /\ ~ is_ready app a
    end.
Proof.
  unfold CreateOrUpdateHelmApplication. intros Hx.
  destruct (generateApplication yaml_Marshal id app) as [required|err] eqn:Hg; [|left; by exec_inv].
  apply exec_bind in Hx as (t1 & t2 & g & -> & (items & -> & Hr)%get_exec & Hx).
  destruct items as [[|resource [|? ?]]|err]; subst g; simpl in Hx.
  - exec_step. destruct x0 as [a werr]. right. exists required, a, werr.
    destruct werr; exec_inv; (split_and!; [done|left; by exists (Ok [])|]); [done|apply readiness_spec].
  - exec_step. destruct x0 as [a werr]. right. exists required, a, werr.
    destruct werr; exec_inv; (split_and!; [done|right; by eexists|]); [done|apply readiness_spec].
  - left. exec_inv. done.
  - destruct (errors_is err cd_ErrNotFound) eqn:Hn; simpl in Hx; [|left; by exec_inv].
    exec_step. destruct x0 as [a werr]. right. exists required, a, werr.
    destruct werr; exec_inv; (split_and!; [done|left; by exists (Err err)|]); [done|apply readiness_spec].
Qed.

(** C17 An application counts as provisioned only when the one write of the call
    left it as generated and the CD reports it synced and healthy: it is created
    only when none was found, an existing one keeps its identity, and anything
    short of ready is a yield. *)
Theorem application_provisioned_ready id app t r :
  exec (CreateOrUpdateHelmApplication yaml_Marshal id app) t r ->
  (calls is_write t = [] /\ r <> None) \/
  exists required a werr,
    generateApplication yaml_Marshal id app = Ok required /\
    ((exists none, answers_none none /\ t = [listed id none; Ev (CreateApplication required) (a, werr)]) \/
     exists resource, t = [listed id (Ok [resource]);
                           Ev (PatchApplication resource (replaceSpec required resource)) (a, werr)]) /\
    match werr with
    | Some err => r = Some err
    | None => r = None /\ is_ready app a \/ r = Some provisioners.ErrYield /\ ~ is_ready app a
    end.
Proof. apply create_exec. Qed.

(** What deleting an application does. *)
Lemma delete_application_exec id background t r :
  exec (DeleteHelmApplication id background) t r ->
  (exists items, t = [listed id items] /\
    match items with
    | Ok [] => r = None
    | Ok [resource] =>
      metav1.DeletionTimestamp (argoprojv1.ObjectMeta resource) <> None /\
      r = if background then None else Some provisioners.ErrYield
    | Ok _ => r = Some (Sentinel argocd_ErrItemLengthMismatch)
    | Err err => r = if errors_is err cd_ErrNotFound then None else Some err
    end) \/
  exists resource patched perr t',
    metav1.DeletionTimestamp (argoprojv1.ObjectMeta resource) = None /\
    t = listed id (Ok [resource]) :: Ev (PatchApplication resource (finalize resource)) (patched, perr) :: t' /\
    match perr with
    | Some err => t' = [] /\ r = Some err
    | None => exists derr, t' = [Ev (DeleteApplication resource) derr] /\
        r = match derr with
            | Some err => Some err
            | None => if background then None else Some provisioners.ErrYield
            end
    end.
Proof.
  unfold DeleteHelmApplication. intros Hx.
  apply exec_bind in Hx as (t1 & t2 & g & -> & (items & -> & Hr)%get_exec & Hx).
  destruct items as [[|resource [|a l]]|err]; subst g; cbn [app] in *.
  - left. exists (Ok []). simpl in Hx. by exec_inv.
  - destruct (metav1.DeletionTimestamp (argoprojv1.ObjectMeta resource)) as [ts|] eqn:Hts.
    + left. exists (Ok [resource]). destruct background; exec_inv; (split; [done|]); by rewrite Hts.
    + right. simpl in Hx. exec_step. destruct x0 as [patched perr]. exists resource, patched, perr, t.
      split_and!; [done|done|]. destruct perr as [err|]; [by exec_inv|].
      simpl in Hx. exec_step. exists x0. destruct x0, background; by exec_inv.
  - left. exists (Ok (resource :: a :: l)). by exec_inv.
  - left. exists (Err err). destruct (errors_is err cd_ErrNotFound); by exec_inv.
Qed.

(** Deletion in the foreground succeeds only once no application is left;
    one that is found is deleted after it was given the finalizer that makes
    the deletion synchronous, and without self-healing; one that is already
    terminating is left alone. *)
Theorem application_deletion id background t r :
  exec (DeleteHelmApplication id background) t r ->
  (exists items, t = [listed id items] /\
    match items with
    | Ok [] => r = None
    | Ok [resource] =>
      metav1.DeletionTimestamp (argoprojv1.ObjectMeta resource) <> None /\
      r = if background then None else Some provisioners.ErrYield
    | Ok _ => r = Some (Sentinel argocd_ErrItemLengthMismatch)
    | Err err => r = if errors_is err cd_ErrNotFound then None else Some err
    end) \/
  exists resource patched perr t',
    metav1.DeletionTimestamp (argoprojv1.ObjectMeta resource) = None /\
    t = listed id (Ok [resource]) :: Ev (PatchApplication resource (finalize resource)) (patched, perr) :: t' /\
    match perr with
    | Some err => t' = [] /\ r = Some err
    | None => exists derr, t' = [Ev (DeleteApplication resource) derr] /\
        r = match derr with
            | Some err => Some err
            | None => if background then None else Some provisioners.ErrYield
            end
    end.
Proof. apply delete_application_exec. Qed.

End traces.

(** ** Applications, on the API server *)

Section server.
Context {V : Type} (yaml_Marshal : V -> result string).
Implicit Types (id : cd.ResourceIdentifier) (app : cd.HelmApplication V) (s : apiserver).

Definition matching id s : list argoprojv1.Application :=
  base.filter (fun a => selects (applicationLabels id) (argoprojv1.app_Labels a) = true) (applications s).

Definition others id s : list argoprojv1.Application :=
  base.filter (fun a => selects (applicationLabels id) (argoprojv1.app_Labels a) <> true) (applications s).

(** Names are unique, and the next generated one is free. *)
Definition names_ok id s : Prop :=
  NoDup (map app_name (applications s)) /\
  (cd.Name id +:+ "-") +:+ itoa (Z.of_nat (generated s)) ∉ map app_name (applications s).

Lemma generate_labels id app required :
  generateApplication yaml_Marshal id app = Ok required -> argoprojv1.app_Labels required = applicationLabels id.
Proof.
  unfold generateApplication. destruct (cd.Values app) as [v|]; [destruct (yaml_Marshal v)|]; intros; by simplify_eq.
Qed.

Lemma generate_name id app required :
  generateApplication yaml_Marshal id app = Ok required -> argoprojv1.GenerateName required = cd.Name id +:+ "-".
Proof.
  unfold generateApplication. destruct (cd.Values app) as [v|]; [destruct (yaml_Marshal v)|]; intros; by simplify_eq.
Qed.

(** Patching the one application of that name. *)
Lemma patch_split (l1 l2 : list argoprojv1.Application) x temp :
  NoDup (map app_name (l1 ++ x :: l2)) ->
  map (fun a => if bool_decide (app_name a = app_name x) then temp else a) (l1 ++ x :: l2) = l1 ++ temp :: l2.
Proof.
  intros Hn. rewrite map_app in Hn. simpl in Hn.
  apply NoDup_app in Hn as (_ & Hd & [Hx2 _]%NoDup_cons).
  assert (forall l, app_name x ∉ map app_name l ->
    map (fun a => if bool_decide (app_name a = app_name x) then temp else a) l = l) as Hid.
  { clear. induction l as [|a l IH]; [done|]. simpl. rewrite not_elem_of_cons. intros [Ha Hl].
    rewrite bool_decide_false by done. by rewrite IH. }
  rewrite map_app. simpl. rewrite bool_decide_true by done. rewrite !Hid; [done|done|].
  intros Hin. apply (Hd _ Hin). by left.
Qed.

(** A call that finds an application: it is patched in place. *)
Lemma update_found id app s required resource :
  generateApplication yaml_Marshal id app = Ok required ->
  NoDup (map app_name (applications s)) -> matching id s = [resource] ->
  exists l1 l2, applications s = l1 ++ resource :: l2 /\
    base.filter (fun a => selects (applicationLabels id) (argoprojv1.app_Labels a) = true) l1 = [] /\
    base.filter (fun a => selects (applicationLabels id) (argoprojv1.app_Labels a) = true) l2 = [] /\
    outcome serve (CreateOrUpdateHelmApplication yaml_Marshal id app) s =
      ({| applications := l1 ++ replaceSpec required resource :: l2; secrets := secrets s; generated := generated s |},
       readiness app (replaceSpec required resource)).
Proof.
  intros Hg Hn Hm. destruct (filter_singleton_split _ _ _ Hm) as (Hx & l1 & l2 & Hl & H1 & H2).
  exists l1, l2. split_and!; [done..|].
  unfold CreateOrUpdateHelmApplication, GetHelmApplication, attempt. rewrite Hg.
  rewrite !outcome_bind. unfold outcome at 1. simpl. fold (matching id s). rewrite Hm. simpl.
  unfold outcome. simpl. rewrite bool_decide_true by (rewrite Hl, map_app; set_solver).
  simpl. rewrite Hl, patch_split by (by rewrite <-Hl). by destruct s.
Qed.

(** A call that finds none: one is created, under a generated name. *)
Lemma update_created id app s required :
  generateApplication yaml_Marshal id app = Ok required ->
  names_ok id s -> matching id s = [] ->
  exists a, argoprojv1.Spec a = argoprojv1.Spec required /\ argoprojv1.app_Labels a = applicationLabels id /\
    app_name a ∉ map app_name (applications s) /\
    outcome serve (CreateOrUpdateHelmApplication yaml_Marshal id app) s =
      ({| applications := applications s ++ [a]; secrets := secrets s; generated := S (generated s) |},
       readiness app a).
Proof.
  intros Hg [Hn Hf] Hm. eexists. split_and!; [| | |].
  4: { unfold CreateOrUpdateHelmApplication, GetHelmApplication, attempt. rewrite Hg.
       rewrite !outcome_bind. unfold outcome at 1. simpl. fold (matching id s). rewrite Hm. simpl.
       unfold outcome. simpl. rewrite bool_decide_false by (by rewrite (generate_name _ _ _ Hg)). simpl. reflexivity. }
  - done.
  - exact (generate_labels _ _ _ Hg).
  - unfold app_name at 1. simpl. by rewrite (generate_name _ _ _ Hg).
Qed.

Lemma replaceSpec_same required a :
  argoprojv1.Spec a = argoprojv1.Spec required -> argoprojv1.app_Labels a = argoprojv1.app_Labels required ->
  replaceSpec required a = a.
Proof. destruct a as [g [] sp st]. unfold replaceSpec, argoprojv1.app_Labels. simpl. by intros <- <-. Qed.

Lemma replaceSpec_name required a : app_name (replaceSpec required a) = app_name a.
Proof. by destruct a as [g [] sp st]. Qed.

Lemma replaceSpec_labels required a :
  argoprojv1.app_Labels (replaceSpec required a) = argoprojv1.app_Labels required.
Proof. by destruct a as [g [] sp st]. Qed.

(** C10 The driver converges: with at most one application under an identifier,
    one call leaves exactly one, with the generated specification and labels,
    whatever drift it had, and leaves every other application and the clusters
    alone; it answers that application's readiness; and a second call changes
    nothing. *)
Theorem application_converges id app s required :
  generateApplication yaml_Marshal id app = Ok required ->
  names_ok id s -> length (matching id s) <= 1 ->
  exists s' a,
    outcome serve (CreateOrUpdateHelmApplication yaml_Marshal id app) s = (s', readiness app a) /\
    matching id s' = [a] /\ others id s' = others id s /\ secrets s' = secrets s /\
    argoprojv1.Spec a = argoprojv1.Spec required /\ argoprojv1.app_Labels a = applicationLabels id /\
    outcome serve (CreateOrUpdateHelmApplication yaml_Marshal id app) s' = (s', readiness app a).
Proof.
  intros Hg Hnames Hm. pose proof (generate_labels _ _ _ Hg) as Hrl.
  assert (exists s' a l1 l2,
    outcome serve (CreateOrUpdateHelmApplication yaml_Marshal id app) s = (s', readiness app a) /\
    applications s' = l1 ++ a :: l2 /\ NoDup (map app_name (applications s')) /\
    base.filter (fun a => selects (applicationLabels id) (argoprojv1.app_Labels a) = true) l1 = [] /\
    base.filter (fun a => selects (applicationLabels id) (argoprojv1.app_Labels a) = true) l2 = [] /\
    others id s = base.filter (fun a => selects (applicationLabels id) (argoprojv1.app_Labels a) <> true) (l1 ++ l2) /\
    secrets s' = secrets s /\
    argoprojv1.Spec a = argoprojv1.Spec required /\ argoprojv1.app_Labels a = applicationLabels id)
    as (s' & a & l1 & l2 & Hr & Hl & Hn' & H1 & H2 & Ho & Hs & Hspec & Hlab).
  { destruct (matching id s) as [|resource [|? ?]] eqn:Hmatch; [| |simpl in Hm; lia].
    - destruct (update_created _ _ _ _ Hg Hnames Hmatch) as (a & Hspec & Hlab & Hfresh & Hr).
      eexists _, a, (applications s), []. rewrite app_nil_r. split_and!; try done. simpl.
      rewrite map_app. apply NoDup_app. split_and!; [apply Hnames|set_solver|apply NoDup_singleton].
    - destruct (update_found _ _ _ _ _ Hg (proj1 Hnames) Hmatch) as (l1 & l2 & Hl & H1 & H2 & Hr).
      eexists _, _, l1, l2. split_and!; try done.
      + destruct Hnames as [Hn _]. rewrite Hl in Hn. simpl.
        rewrite map_app in Hn |- *. simpl in *. by rewrite replaceSpec_name.
      + unfold others. rewrite Hl, !filter_app. f_equal. rewrite filter_cons_False; [done|].
        intros Hne. apply Hne. assert (resource ∈ matching id s) as Hin by (rewrite Hmatch; by left).
        by apply list_elem_of_filter in Hin as [? _]. }
  assert (matching id s' = [a]) as Hm'.
  { unfold matching. rewrite Hl, filter_app, filter_cons_True, H1, H2; [done|]. by rewrite Hlab, selects_refl. }
  exists s', a. split_and!; try done.
  - rewrite Ho. unfold others. rewrite Hl, !filter_app. f_equal. apply filter_cons_False.
    rewrite Hlab, selects_refl. by intros [].
  - destruct (update_found _ _ _ _ _ Hg Hn' Hm') as (k1 & k2 & Hk & _ & _ & Hr').
    rewrite Hr', replaceSpec_same by congruence. rewrite <-Hk. by destruct s'.
Qed.

End server.

(** ** Clusters *)

Section clusters.
Context `{UrlParse} `{ApiErrors} (sha256_Sum256 : string -> list ascii).
Implicit Types (id : cd.ResourceIdentifier) (cluster : cd.Cluster) (s : apiserver).

(** A kubeconfig whose current context names a cluster and credentials. *)
Definition resolves (config : clientcmdapi.Config) (c : clientcmdapi.Cluster) (a : clientcmdapi.AuthInfo) : Prop :=
  exists x, clientcmdapi.Contexts config !! clientcmdapi.CurrentContext config = Some x /\
    clientcmdapi.Clusters config !! clientcmdapi.Context_Cluster x = Some c /\
    clientcmdapi.AuthInfos config !! clientcmdapi.Context_AuthInfo x = Some a.

(** Registering a cluster trusts its kubeconfig: when the current context is
    missing, or names no cluster, the driver panics before any call; when
    everything resolves it does not panic, whatever the API answers. *)
Theorem cluster_config_panics id cluster t r :
  exec (CreateOrUpdateCluster sha256_Sum256 id cluster) t r ->
  ((exists c a, resolves (cd.Config cluster) c a) -> exists err, r = Returned err) /\
  ((forall x, clientcmdapi.Contexts (cd.Config cluster) !! clientcmdapi.CurrentContext (cd.Config cluster) = Some x ->
      clientcmdapi.Clusters (cd.Config cluster) !! clientcmdapi.Context_Cluster x = None) ->
   r = Panicked /\ t = []).
Proof.
  unfold CreateOrUpdateCluster. intros Hx. split.
  - intros (c & a & x & Hc & Hcl & Ha). rewrite Hc, Hcl in Hx.
    destruct (clusterSecretName _ _) as [name|err]; [|exec_inv; by eexists].
    apply exec_bind in Hx as (t1 & t2 & [err|] & -> & _ & Hx); [exec_inv; by eexists|].
    rewrite Ha in Hx. exec_inv; by eexists.
  - intros Hn. destruct (clientcmdapi.Contexts _ !! _) as [x|] eqn:Hc; [|by exec_inv].
    rewrite (Hn x eq_refl) in Hx. by exec_inv.
Qed.

(** The secret of a cluster that is registered for the first time. *)
Definition registered id (c : clientcmdapi.Cluster) (a : clientcmdapi.AuthInfo) (name : string) : Secret :=
  mustateSecret (clusterLabels sha256_Sum256 id) (clusterData id c a) (emptySecret name).

Definition with_secrets (l : list Secret) s : apiserver :=
  {| applications := applications s; secrets := l; generated := generated s |}.

(** The cluster [cluster] is registered under [name], whose secret is not taken. *)
Definition registrable cluster c a name s : Prop :=
  resolves (cd.Config cluster) c a /\
  clusterSecretName (clientcmdapi.Server c) (cd.Prefix cluster) = Ok name /\
  name ∉ map secret_name (secrets s).

Lemma filter_name_none (l : list Secret) name :
  name ∉ map secret_name l -> base.filter (fun x => secret_name x = name) l = [].
Proof.
  induction l as [|x l IH]; [done|]. simpl. rewrite not_elem_of_cons. intros [Hx Hl].
  rewrite filter_cons_False by congruence. auto.
Qed.

Lemma register_new id cluster c a name s :
  IsNotFound notFound = true -> registrable cluster c a name s ->
  outcome serve (CreateOrUpdateCluster sha256_Sum256 id cluster) s =
    (with_secrets (secrets s ++ [registered id c a name]) s, Returned None).
Proof.
  intros Hnf ((x & Hc & Hcl & Ha) & Hname & Hfree).
  unfold CreateOrUpdateCluster. rewrite Hc, Hcl, Hname. unfold awaitConnectivity, outcome. simpl.
  rewrite filter_name_none by done. simpl. rewrite Hnf. simpl. rewrite Ha. simpl.
  rewrite bool_decide_false by done. by destruct s.
Qed.

Lemma registered_selected id c a name :
  selects (clusterSelector sha256_Sum256 id) (secret_labels (registered id c a name)) = true.
Proof.
  apply selects_spec, map_subseteq_spec. intros k v Hk.
  unfold clusterSelector in Hk. apply lookup_singleton_Some in Hk as [<- <-]. 
  change (clusterLabels sha256_Sum256 id !! constants.ApplicationIDLabel = Some (clusterLabel sha256_Sum256 id)).
  unfold clusterLabels. by rewrite lookup_insert_ne, lookup_singleton_eq by done.
Qed.

Lemma registered_name id c a name : secret_name (registered id c a name) = name.
Proof. done. Qed.

(** The secrets an identifier selects. *)
Definition selected id s : list Secret :=
  base.filter (fun x => selects (clusterSelector sha256_Sum256 id) (secret_labels x) = true) (secrets s).

Lemma get_secret_outcome id s :
  outcome serve (GetClusterSecret sha256_Sum256 id) s =
    (s, match selected id s with
        | [] => Err (Sentinel cd_ErrNotFound)
        | [x] => Ok x
        | _ => Err (Sentinel argocd_ErrItemLengthMismatch)
        end).
Proof.
  unfold GetClusterSecret, attempt. rewrite outcome_bind. unfold outcome at 1. simpl. fold (selected id s).
  by destruct (selected id s) as [|x [|? ?]].
Qed.

Lemma delete_cluster_outcome id s :
  outcome serve (DeleteCluster sha256_Sum256 id) s =
    match selected id s with
    | [] => (s, None)
    | [x] => outcome serve (check (call (DeleteSecret x)) (mret None)) s
    | _ => (s, Some (Sentinel argocd_ErrItemLengthMismatch))
    end.
Proof.
  unfold DeleteCluster. rewrite outcome_bind, get_secret_outcome.
  by destruct (selected id s) as [|x [|? ?]].
Qed.

Lemma filter_other_names (l : list Secret) name :
  name ∉ map secret_name l -> base.filter (fun y => secret_name y <> name) l = l.
Proof.
  induction l as [|x l IH]; [done|]. simpl. rewrite not_elem_of_cons. intros [Hx Hl].
  rewrite filter_cons_True by congruence. f_equal. auto.
Qed.

(** Registering a cluster whose secret is its own leaves it as it is. *)
Lemma register_again id cluster c a name s :
  registrable cluster c a name s ->
  let s1 := with_secrets (secrets s ++ [registered id c a name]) s in
  outcome serve (CreateOrUpdateCluster sha256_Sum256 id cluster) s1 = (s1, Returned None).
Proof.
  intros ((x & Hc & Hcl & Ha) & Hname & Hfree) s1.
  unfold CreateOrUpdateCluster. rewrite Hc, Hcl, Hname. unfold awaitConnectivity, outcome. simpl.
  rewrite filter_app, filter_name_none, filter_cons_True by done. simpl. rewrite Ha. simpl.
  rewrite bool_decide_true by (rewrite map_app; set_solver). simpl.
  rewrite map_app. simpl. rewrite bool_decide_true by done. unfold s1, with_secrets. simpl.
  do 4 f_equal. unfold constant. f_equal. induction (secrets s) as [|y l IH]; [done|]. simpl in *.
  rewrite not_elem_of_cons in Hfree. destruct Hfree as [Hy Hl].
  rewrite bool_decide_false by congruence. f_equal. auto.
Qed.

(** What the secret of a registered cluster holds, as Argo CD reads it: a name,
    the address of the API, and the three parts of the kubeconfig that TLS needs,
    each where its field says, in base64 or null. *)
Definition declared (id : cd.ResourceIdentifier) (c : clientcmdapi.Cluster) (a : clientcmdapi.AuthInfo) : gmap string string :=
  {[ "name" := match cd.Labels id with
               | [] => cd.Name id
               | labels => cd.Name id +:+ "-" +:+ strings_Join ":" (map cd.label_Value labels)
               end;
     "server" := clientcmdapi.Server c;
     "config" := marshal (JObject [("tlsClientConfig", JObject [
       ("caData", bytes_json (clientcmdapi.CertificateAuthorityData c));
       ("certData", bytes_json (clientcmdapi.ClientCertificateData a));
       ("keyData", bytes_json (clientcmdapi.ClientKeyData a))])]) ]}.

(** C40 Registration and removal of a cluster are inverse: what was registered
    is found under its identifier, marked as a cluster and holding the address of
    its kubeconfig, its authority, client certificate and key, each in its own
    place; registering it again changes nothing, and deleting it leaves what there
    was before; deleting it once more is no error. *)
Theorem cluster_registration_roundtrip id cluster c a name s :
  IsNotFound notFound = true -> registrable cluster c a name s -> selected id s = [] ->
  let s1 := with_secrets (secrets s ++ [registered id c a name]) s in
  outcome serve (CreateOrUpdateCluster sha256_Sum256 id cluster) s = (s1, Returned None) /\
  outcome serve (GetClusterSecret sha256_Sum256 id) s1 = (s1, Ok (registered id c a name)) /\
  secret_Data (registered id c a name) = declared id c a /\
  secret_labels (registered id c a name) !! "argocd.argoproj.io/secret-type" = Some "cluster" /\
  outcome serve (CreateOrUpdateCluster sha256_Sum256 id cluster) s1 = (s1, Returned None) /\
  outcome serve (DeleteCluster sha256_Sum256 id) s1 = (s, None) /\
  outcome serve (DeleteCluster sha256_Sum256 id) s = (s, None).
Proof.
  intros Hnf Hreg Hsel s1.
  assert (selected id s1 = [registered id c a name]) as Hsel1.
  { unfold selected, s1. simpl. rewrite filter_app. fold (selected id s).
    rewrite Hsel, filter_cons_True by apply registered_selected. done. }
  split_and!.
  - by apply register_new.
  - by rewrite get_secret_outcome, Hsel1.
  - unfold declared. simpl. unfold clusterData, clusterName. by destruct (cd.Labels id).
  - change (clusterLabels sha256_Sum256 id !! "argocd.argoproj.io/secret-type" = Some "cluster").
    unfold clusterLabels. by rewrite lookup_insert_eq.
  - by apply register_again.
  - rewrite delete_cluster_outcome, Hsel1. unfold outcome, s1. simpl.
    rewrite bool_decide_true by (rewrite map_app; set_solver).
    simpl. rewrite filter_app, filter_other_names, filter_cons_False by (simpl; tauto || apply Hreg).
    simpl. rewrite app_nil_r. by destruct s.
  - by rewrite delete_cluster_outcome, Hsel.
Qed.

(** A cluster whose endpoint changed is registered under a second name with
    the same identifier: from then on looking it up and deleting it fail. *)
Theorem endpoint_change_wedges_delete id cluster1 c1 a1 name1 cluster2 c2 a2 name2 s :
  IsNotFound notFound = true -> name1 <> name2 ->
  registrable cluster1 c1 a1 name1 s -> registrable cluster2 c2 a2 name2 s ->
  let s2 := with_secrets (secrets s ++ [registered id c1 a1 name1; registered id c2 a2 name2]) s in
  outcome serve (_ ← CreateOrUpdateCluster sha256_Sum256 id cluster1;
                 CreateOrUpdateCluster sha256_Sum256 id cluster2) s = (s2, Returned None) /\
  (selected id s = [] -> outcome serve (DeleteCluster sha256_Sum256 id) s2 =
    (s2, Some (Sentinel argocd_ErrItemLengthMismatch))).
Proof.
  intros Hnf Hne H1 (Hr2 & Hn2 & Hf2) s2. split.
  - rewrite outcome_bind, (register_new _ _ _ _ _ _ Hnf H1).
    rewrite (register_new _ _ c2 a2 name2); [unfold with_secrets; simpl; by rewrite <-app_assoc|done|].
    split_and!; [done|done|]. simpl. rewrite map_app. simpl. rewrite registered_name. set_solver.
  - intros Hsel. rewrite delete_cluster_outcome. unfold selected, s2. simpl.
    rewrite filter_app. fold (selected id s).
    by rewrite Hsel, !filter_cons_True by apply registered_selected.
Qed.

End clusters.

Module witnesses.
Import sample.

Definition nginx : cd.ResourceIdentifier := {| cd.Name := "nginx"; cd.Labels := [] |}.

Definition nginx_acme : cd.ResourceIdentifier :=
  {| cd.Name := "nginx"; cd.Labels := [{| cd.label_Name := constants.OrganizationLabel; cd.label_Value := "acme" |}] |}.

(** The unscoped nginx is taken for the one of organization acme. *)
Lemma application_lookup_scope_witness :
  well_formed nginx /\ well_formed nginx_acme /\
  selects (applicationLabels nginx) (applicationLabels nginx_acme) = true.
Proof.
  assert (well_formed nginx) as H1 by (split; [apply NoDup_nil_2|apply not_elem_of_nil]).
  assert (well_formed nginx_acme) as H2 by (split; [apply NoDup_singleton|by apply not_elem_of_cons; split; [|apply not_elem_of_nil]]).
  split_and!; [exact H1|exact H2|].
  apply (application_lookup_scope nginx nginx_acme H1 H2). split; [reflexivity|]. intros x []%elem_of_nil.
Defined.

Definition chart : cd.HelmApplication string :=
  {| cd.Repo := "https://charts.example.com"; cd.Chart := "nginx"; cd.Branch := ""; cd.Path := "";
     cd.Version := "1.2.3"; cd.Release := ""; cd.Parameters := []; cd.Values := Some "replicas: 2";
     cd.app_Cluster := None; cd.Namespace := "web"; cd.CreateNamespace := true;
     cd.NamespaceMetadata := {| cd.la_Labels := None; cd.la_Annotations := None |};
     cd.IgnoreDifferences := []; cd.ServerSideApply := false; cd.AllowDegraded := false |}.

Definition required_nginx : argoprojv1.Application :=
  match generateApplication Ok nginx_acme chart with
  | Ok a => a
  | Err _ => {| argoprojv1.GenerateName := ""; argoprojv1.ObjectMeta := emptyMeta;
                argoprojv1.Spec := {|
                  argoprojv1.Project := "";
                  argoprojv1.Source := {| argoprojv1.RepoURL := ""; argoprojv1.Chart := ""; argoprojv1.Path := "";
                    argoprojv1.TargetRevision := ""; argoprojv1.Helm := None |};
                  argoprojv1.Destination := {| argoprojv1.dest_Name := ""; argoprojv1.dest_Namespace := "" |};
                  argoprojv1.SyncPolicy := {| argoprojv1.SyncOptions := []; argoprojv1.Automated := None;
                    argoprojv1.ManagedNamespaceMetadata := None |};
                  argoprojv1.IgnoreDifferences := [] |};
                argoprojv1.Status := {| argoprojv1.Health := None; argoprojv1.Sync := None |} |}
  end.

(** The application Argo CD runs, and the same one before its chart was bumped. *)
Definition running : argoprojv1.Application :=
  required_nginx <| argoprojv1.Status := {| argoprojv1.Health := Some "Healthy"; argoprojv1.Sync := Some "Synced" |} |>.

Definition drifted : argoprojv1.Application :=
  running <| argoprojv1.Spec := (argoprojv1.Spec running) <| argoprojv1.Project := "other" |> |>.

Definition update_trace : trace argoE :=
  [Ev (ListApplications namespace (applicationLabels nginx_acme)) (Ok [drifted]);
   Ev (PatchApplication drifted (replaceSpec required_nginx drifted)) (running, None)].

Lemma application_provisioned_ready_witness :
  exec (CreateOrUpdateHelmApplication Ok nginx_acme chart) update_trace None /\
  (calls is_write update_trace = [] /\ @None error <> None \/ exists a, is_ready chart a).
Proof.
  assert (exec (CreateOrUpdateHelmApplication Ok nginx_acme chart) update_trace None) as Hx by solve_exec.
  split; [exact Hx|].
  destruct (application_provisioned_ready Ok nginx_acme chart _ _ Hx) as [?|(rq & a & w & _ & _ & Hw)]; [by left|right].
  destruct w as [?|]; [discriminate|]. destruct Hw as [[_ Ha]|[? _]]; [by exists a|discriminate].
Defined.

Definition delete_trace : trace argoE :=
  [Ev (ListApplications namespace (applicationLabels nginx_acme)) (Ok [running]);
   Ev (PatchApplication running (finalize running)) (finalize running, None);
   Ev (DeleteApplication running) None].

Lemma application_deletion_witness :
  exec (DeleteHelmApplication nginx_acme false) delete_trace (Some provisioners.ErrYield) /\
  exists resource, metav1.DeletionTimestamp (argoprojv1.ObjectMeta resource) = None.
Proof.
  assert (exec (DeleteHelmApplication nginx_acme false) delete_trace (Some provisioners.ErrYield)) as Hx by solve_exec.
  split; [exact Hx|].
  destruct (application_deletion nginx_acme false _ _ Hx) as [(items & Hi & _)|(x & p & e & t & Hd & _)];
    [discriminate|by exists x].
Defined.

Definition cluster_server : apiserver := {| applications := [drifted]; secrets := []; generated := 5 |}.

Lemma application_converges_witness :
  exists s' a,
    outcome serve (CreateOrUpdateHelmApplication Ok nginx_acme chart) cluster_server = (s', None) /\
    matching nginx_acme s' = [a] /\ argoprojv1.Project (argoprojv1.Spec a) = "default".
Proof.
  destruct (application_converges Ok nginx_acme chart cluster_server required_nginx)
    as (s' & a & Hr & Hm & _ & _ & Hs & _); [reflexivity| |vm_compute; lia|].
  - split; [apply NoDup_singleton|]. vm_compute. intros Hin%list_elem_of_singleton. discriminate.
  - exists s', a. split_and!; [|exact Hm|by rewrite Hs].
    rewrite Hr. f_equal. vm_compute in Hr. apply (f_equal snd) in Hr. symmetry. exact Hr.
Defined.

(** A URL whose host is everything after its scheme. *)
Definition url_parse : UrlParse := {| url_Parse s := Ok {| Scheme := "https"; Host := string_drop 8 s |} |}.

#[local] Existing Instance url_parse.

Definition sum (s : string) : list ascii := repeat "k"%char 32.

Definition kubeconfig (server : string) : cd.Cluster :=
  {| cd.Config := {|
       clientcmdapi.CurrentContext := "admin";
       clientcmdapi.Contexts := {[ "admin" := {| clientcmdapi.Context_Cluster := "c"; clientcmdapi.Context_AuthInfo := "u" |} ]};
       clientcmdapi.Clusters := {[ "c" := {| clientcmdapi.Server := server; clientcmdapi.CertificateAuthorityData := Some "ca" |} ]};
       clientcmdapi.AuthInfos := {[ "u" := {| clientcmdapi.ClientCertificateData := Some "cert"; clientcmdapi.ClientKeyData := None |} ]} |};
     cd.Prefix := "" |}.

Definition empty_server : apiserver := {| applications := []; secrets := []; generated := 0 |}.

Definition admin (server : string) : clientcmdapi.Cluster :=
  {| clientcmdapi.Server := server; clientcmdapi.CertificateAuthorityData := Some "ca" |}.

Definition user : clientcmdapi.AuthInfo :=
  {| clientcmdapi.ClientCertificateData := Some "cert"; clientcmdapi.ClientKeyData := None |}.

Lemma kubeconfig_registrable server name :
  clusterSecretName server "" = Ok name ->
  registrable (kubeconfig server) (admin server) user name empty_server.
Proof. intros Hn. split_and!; [by eexists; split_and!|exact Hn|apply not_elem_of_nil]. Defined.

Lemma cluster_config_panics_witness :
  exec (CreateOrUpdateCluster sum nginx
    {| cd.Config := {| clientcmdapi.CurrentContext := "admin"; clientcmdapi.Contexts := ∅;
                       clientcmdapi.Clusters := ∅; clientcmdapi.AuthInfos := ∅ |}; cd.Prefix := "" |}) [] Panicked /\
  Panicked = Panicked.
Proof.
  match goal with |- ?X /\ _ => assert X as Hx by (split; reflexivity) end.
  split; [exact Hx|].
  apply (cluster_config_panics sum nginx _ _ _ Hx). intros x Hc. discriminate.
Defined.

(** A user with a certificate and another key. *)
Definition keyed : clientcmdapi.AuthInfo :=
  {| clientcmdapi.ClientCertificateData := Some "cert"; clientcmdapi.ClientKeyData := Some "key" |}.

Definition keyed_config (server : string) : cd.Cluster :=
  {| cd.Config := {| clientcmdapi.CurrentContext := clientcmdapi.CurrentContext (cd.Config (kubeconfig server));
                     clientcmdapi.Contexts := clientcmdapi.Contexts (cd.Config (kubeconfig server));
                     clientcmdapi.Clusters := clientcmdapi.Clusters (cd.Config (kubeconfig server));
                     clientcmdapi.AuthInfos := (fun _ => keyed) <$> clientcmdapi.AuthInfos (cd.Config (kubeconfig server)) |};
     cd.Prefix := "" |}.

Lemma cluster_registration_roundtrip_witness :
  exists name,
    let s1 := with_secrets [registered sum nginx (admin "https://10.0.0.1:6443") keyed name] empty_server in
    outcome serve (CreateOrUpdateCluster sum nginx (keyed_config "https://10.0.0.1:6443")) empty_server = (s1, Returned None) /\
    secret_Data (registered sum nginx (admin "https://10.0.0.1:6443") keyed name) !! "config" =
      Some (marshal (JObject [("tlsClientConfig", JObject [("caData", JString "Y2E=");
        ("certData", JString "Y2VydA=="); ("keyData", JString "a2V5")])])) /\
    outcome serve (DeleteCluster sum nginx) s1 = (empty_server, None).
Proof.
  assert (exists name, clusterSecretName "https://10.0.0.1:6443" "" = Ok name) as [name Hname]
    by (eexists; reflexivity).
  exists name.
  destruct (cluster_registration_roundtrip sum nginx (keyed_config "https://10.0.0.1:6443")
    (admin "https://10.0.0.1:6443") keyed name empty_server) as (Hc & _ & Hd & _ & _ & Hr & _).
  - reflexivity.
  - split_and!; [by eexists; split_and!|exact Hname|apply not_elem_of_nil].
  - reflexivity.
  - split_and!; [exact Hc|rewrite Hd; reflexivity|exact Hr].
Defined.

Lemma endpoint_change_wedges_delete_witness :
  exists s, outcome serve (DeleteCluster sum nginx) s = (s, Some (Sentinel argocd_ErrItemLengthMismatch)).
Proof.
  eexists.
  eapply (endpoint_change_wedges_delete sum nginx
    (kubeconfig "https://10.0.0.1:6443") (admin "https://10.0.0.1:6443") user _
    (kubeconfig "https://10.0.0.2:6443") (admin "https://10.0.0.2:6443") user _ empty_server).
  - reflexivity.
  - shelve.
  - apply kubeconfig_registrable; reflexivity.
  - apply kubeconfig_registrable; reflexivity.
  - reflexivity.
  Unshelve. vm_compute. discriminate.
Defined.

End witnesses.
