(* ===== verification/Application.v ===== *)
(** * Application: the provisioner of Helm applications

    Models pkg/provisioners/application/provisioner.go with the application
    data of pkg/apis/unikorn/v1alpha1 (helmapplication_types.go and its
    helpers).  The application getter, the generator's optional interfaces and
    the CD driver are calls; [Panic] is a call that is never answered. *)

From S2P Require Import Prelude Errors GoStrings Effects Kubernetes Conditions Provisioning Concurrency Combinators CD.

(** SemanticVersion, over github.com/Masterminds/semver. *)
Class Semver := {
  SemanticVersion : Type;
  semver_Equal : SemanticVersion -> SemanticVersion -> bool;
  semver_Original : SemanticVersion -> string;
  semver_String : SemanticVersion -> string;
}.

Module unikornv1.

Record HelmApplicationParameter := { param_Name : string; param_Value : string }.

(** Pointers are options; the fields about dependencies, which only a solver
    reads, are left out. *)
Record HelmApplicationVersion `{Semver} := {
  Repo : option string;
  Chart : option string;
  Branch : option string;
  Path : option string;
  Version : SemanticVersion;
  Release : option string;
  Parameters : list HelmApplicationParameter;
  Namespace : option string;
  CreateNamespace : option bool;
  ServerSideApply : option bool;
}.

Record HelmApplication `{Semver} := {
  app_ObjectMeta : metav1.ObjectMeta;
  app_Versions : list HelmApplicationVersion;
}.

Section versions.
Context `{Semver}.

(** strings.Compare of the names. *)
Definition CompareHelmApplication (a b : HelmApplication) : comparison :=
  String.compare (metav1.Name (app_ObjectMeta a)) (metav1.Name (app_ObjectMeta b)).

(** The iterator over versions, as the list it yields. *)
Definition Versions (a : HelmApplication) : list HelmApplicationVersion := app_Versions a.

Fixpoint findVersion (l : list HelmApplicationVersion) (version : SemanticVersion) : option HelmApplicationVersion :=
  match l with
  | [] => None
  | v :: l' => if semver_Equal (Version v) version then Some v else findVersion l' version
  end.

Definition GetVersion (a : HelmApplication) (version : SemanticVersion) : result HelmApplicationVersion :=
  match findVersion (Versions a) version with
  | Some v => Ok v
  | None => Err (Wrapped (Sentinel v1alpha1_ErrVersionNotFound) (semver_String version))
  end.

End versions.
End unikornv1.

(** The calls of an application provisioner; [V] is the type of values files. *)
Inductive appE `{Semver} (V : Type) : Type -> Type :=
| GetApplication : appE V (result (unikornv1.HelmApplication * SemanticVersion))
| GetReleaseName : appE V string
| GetParameters (version : SemanticVersion) : appE V (result (gmap string string))
| GetValues (version : SemanticVersion) : appE V (result (option V))
| GetNamespaceMetadata (version : SemanticVersion) :
    appE V (result (option (gmap string string) * option (gmap string string)))
| Customize (version : SemanticVersion) : appE V (result (list cd.HelmApplicationField))
| PostProvision : appE V (option error)
| PreDeprovision : appE V (option error)
| DriverCreateOrUpdate (id : cd.ResourceIdentifier) (application : cd.HelmApplication V) : appE V (option error)
| DriverDelete (id : cd.ResourceIdentifier) (background : bool) : appE V (option error)
| Panic : appE V Empty_set.

Arguments GetApplication {_ V}.
Arguments GetReleaseName {_ V}.
Arguments GetParameters {_ V} version.
Arguments GetValues {_ V} version.
Arguments GetNamespaceMetadata {_ V} version.
Arguments Customize {_ V} version.
Arguments PostProvision {_ V}.
Arguments PreDeprovision {_ V}.
Arguments DriverCreateOrUpdate {_ V} id application.
Arguments DriverDelete {_ V} id background.
Arguments Panic {_ V}.

Module application.

(** The optional interfaces a generator implements. *)
Record Generator := {
  isReleaseNamer : bool;
  isParamterizer : bool;
  isValuesGenerator : bool;
  isNamespaceLabeler : bool;
  isCustomizer : bool;
  isPostProvisionHook : bool;
  isPreDeprovisionHook : bool;
}.

(** Provisioner, before initialize gives it a name and a version. *)
Record Provisioner := {
  namespace : string;
  generator : option Generator;
  allowDegraded : bool;
}.

Definition New : Provisioner := {| namespace := ""; generator := None; allowDegraded := false |}.

Definition InNamespace (namespace : string) (p : Provisioner) : Provisioner :=
  {| namespace := namespace; generator := generator p; allowDegraded := allowDegraded p |}.

Definition WithGenerator (g : Generator) (p : Provisioner) : Provisioner :=
  {| namespace := namespace p; generator := Some g; allowDegraded := allowDegraded p |}.

Definition AllowDegraded (p : Provisioner) : Provisioner :=
  {| namespace := namespace p; generator := generator p; allowDegraded := true |}.

(** Does the generator, if there is one, implement an interface? *)
Definition implements (p : Provisioner) (interface : Generator -> bool) : bool :=
  match generator p with Some g => interface g | None => false end.

Section provisioner.
Context `{Semver} {V Cl O : Type} `{ManagableResource O} `{MapOrder}.

Abbreviation M := (prog (appE V)).

Definition panic {A : Type} : M A := Call Panic (fun x : Empty_set => match x with end).

(** The identifier for a resource with the labels [l]. *)
Definition resourceID (name : string) (l : gmap string string) : cd.ResourceIdentifier :=
  {| cd.Name := name;
     cd.Labels := map (fun key => {| cd.label_Name := key; cd.label_Value := default "" (l !! key) |})
                    (sort_strings (map_keys l)) |}.

Definition getResourceID (name : string) (ctx : Context Cl O) : M (result cd.ResourceIdentifier) :=
  match resourceKey ctx with
  | None => panic
  | Some resource =>
    match ResourceLabels resource with
    | Err err => mret (Err err)
    | Ok l => mret (Ok (resourceID name l))
    end
  end.

Definition getReleaseName (p : Provisioner) (v : unikornv1.HelmApplicationVersion) : M string :=
  let name := default "" (unikornv1.Release v) in
  if implements p isReleaseNamer then
    override ← call GetReleaseName;
    mret (if bool_decide (override <> "") then override else name)
  else mret name.

Definition getParameters (p : Provisioner) (v : unikornv1.HelmApplicationVersion) :
    M (result (list cd.HelmApplicationParameter)) :=
  let parameters := map (fun parameter =>
    {| cd.param_Name := unikornv1.param_Name parameter; cd.param_Value := unikornv1.param_Value parameter |})
    (unikornv1.Parameters v) in
  if implements p isParamterizer then
    attempt (call (GetParameters (unikornv1.Version v))) (fun m =>
      mret (Ok (parameters ++ map (fun '(name, value) =>
        {| cd.param_Name := name; cd.param_Value := value |}) (map_range m))))
  else mret (Ok parameters).

Definition getValues (p : Provisioner) (v : unikornv1.HelmApplicationVersion) : M (result (option V)) :=
  if implements p isValuesGenerator then call (GetValues (unikornv1.Version v)) else mret (Ok None).

Definition getNamespaceMetadata (p : Provisioner) (v : unikornv1.HelmApplicationVersion) :
    M (result (option (gmap string string) * option (gmap string string))) :=
  if implements p isNamespaceLabeler then call (GetNamespaceMetadata (unikornv1.Version v))
  else mret (Ok (None, None)).

Definition getClusterID (ctx : Context Cl O) : result (option cd.ResourceIdentifier) :=
  match ClusterFromContext ctx with
  | Err err => Err err
  | Ok clusterContext => Ok (ctx_ID clusterContext)
  end.

Definition getNamespace (p : Provisioner) (v : unikornv1.HelmApplicationVersion) : string :=
  if bool_decide (namespace p <> "") then namespace p else default "default" (unikornv1.Namespace v).

Definition getIgnoreDifferences (p : Provisioner) (v : unikornv1.HelmApplicationVersion) :
    M (result (list cd.HelmApplicationField)) :=
  if implements p isCustomizer then call (Customize (unikornv1.Version v)) else mret (Ok []).

Definition generateApplication (p : Provisioner) (v : unikornv1.HelmApplicationVersion) (ctx : Context Cl O) :
    M (result (cd.HelmApplication V)) :=
  attempt (getParameters p v) (fun parameters =>
  attempt (getValues p v) (fun values =>
  match getClusterID ctx with
  | Err err => mret (Err err)
  | Ok clusterID =>
    match unikornv1.Repo v with
    | None => panic
    | Some repo =>
      release ← getReleaseName p v;
      attempt (getNamespaceMetadata p v) (fun '(nsLabels, nsAnnotations) =>
      attempt (getIgnoreDifferences p v) (fun ignoredDifferences =>
        mret (Ok {|
          cd.Repo := repo;
          cd.Version := semver_Original (unikornv1.Version v);
          cd.Release := release;
          cd.Parameters := parameters;
          cd.Values := values;
          cd.app_Cluster := clusterID;
          cd.Namespace := getNamespace p v;
          cd.AllowDegraded := allowDegraded p;
          cd.Chart := default "" (unikornv1.Chart v);
          cd.Branch := default "" (unikornv1.Branch v);
          cd.Path := default "" (unikornv1.Path v);
          cd.CreateNamespace := default false (unikornv1.CreateNamespace v);
          cd.NamespaceMetadata := {| cd.la_Labels := nsLabels; cd.la_Annotations := nsAnnotations |};
          cd.ServerSideApply := default false (unikornv1.ServerSideApply v);
          cd.IgnoreDifferences := ignoredDifferences |})))
    end
  end)).

(** initialize: the application's name, and the version to provision. *)
Definition initialize : M (result (string * unikornv1.HelmApplicationVersion)) :=
  attempt (call GetApplication) (fun '(application, version) =>
    let name := default "" (metav1.Labels (unikornv1.app_ObjectMeta application) !! constants.NameLabel) in
    match unikornv1.GetVersion application version with
    | Err err => mret (Err err)
    | Ok applicationVersion => mret (Ok (name, applicationVersion))
    end).

Definition Provision (p : Provisioner) (ctx : Context Cl O) : M (option error) :=
  attempt_ initialize (fun '(name, v) =>
  attempt_ (getResourceID name ctx) (fun id =>
  attempt_ (generateApplication p v ctx) (fun application =>
  check (call (DriverCreateOrUpdate id application)) (
    if implements p isPostProvisionHook then call PostProvision else mret None)))).

Definition Deprovision (p : Provisioner) (ctx : Context Cl O) : M (option error) :=
  check (if implements p isPreDeprovisionHook then call PreDeprovision else mret None) (
  attempt_ initialize (fun '(name, _) =>
  attempt_ (getResourceID name ctx) (fun id =>
  call (DriverDelete id (BackgroundDeletionFromContext ctx))))).

(** As a provisioner the combinators compose, in a program with more calls. *)
Definition as_provisioner {E : Type -> Type} `{Subeffect (appE V) E} (name : string) (p : Provisioner) :
    Combinators.Provisioner E (Context Cl O) :=
  {| ProvisionerName := name;
     Combinators.Provision ctx := lift (Provision p ctx);
     Combinators.Deprovision ctx := lift (Deprovision p ctx) |}.

End provisioner.
End application.

(** ** Facts *)

Import application.

Create HintDb quiet.

(** Does a call reach the CD driver? *)
Definition is_driver `{Semver} {V} (ev : event (appE V)) : bool :=
  match ev with
  | Ev e _ => match e with DriverCreateOrUpdate _ _ | DriverDelete _ _ => true | _ => false end
  end.

Definition is_getter `{Semver} {V} (ev : event (appE V)) : bool :=
  match ev with Ev e _ => match e with GetApplication => true | _ => false end end.

(** The name of the application a getter answered. *)
Definition named `{Semver} {V} (ev : event (appE V)) : option string :=
  match ev with
  | Ev e x =>
    match e in appE _ X return X -> option string with
    | GetApplication => fun a =>
      match a with
      | Ok (app, _) => Some (default "" (metav1.Labels (unikornv1.app_ObjectMeta app) !! constants.NameLabel))
      | Err _ => None
      end
    | _ => fun _ => None
    end x
  end.

(** The identifiers the driver was given. *)
Definition driver_id `{Semver} {V} (ev : event (appE V)) : option cd.ResourceIdentifier :=
  match ev with
  | Ev e _ => match e with DriverCreateOrUpdate id _ | DriverDelete id _ => Some id | _ => None end
  end.

Lemma resourceID_labels `{MapOrder} name (l : gmap string string) k v :
  {| cd.label_Name := k; cd.label_Value := v |} ∈ cd.Labels (resourceID name l) <-> l !! k = Some v.
Proof.
  unfold resourceID. simpl. rewrite list_elem_of_fmap. unfold sort_strings.
  setoid_rewrite merge_sort_Permutation. setoid_rewrite elem_of_map_keys. split.
  - intros (k' & Heq & [v' Hv']). rewrite Hv' in Heq. by simplify_eq/=.
  - intros Hl. exists k. by rewrite Hl.
Qed.

Lemma resourceID_NoDup `{MapOrder} name (l : gmap string string) :
  NoDup (map cd.label_Name (cd.Labels (resourceID name l))).
Proof.
  unfold resourceID. simpl. rewrite map_map. simpl. rewrite map_id. unfold sort_strings.
  rewrite merge_sort_Permutation. apply NoDup_map_keys.
Qed.

(** The order in which maps are visited does not show in an identifier. *)
Lemma resourceID_deterministic (o1 o2 : MapOrder) name l : @resourceID o1 name l = @resourceID o2 name l.
Proof.
  unfold resourceID. do 2 f_equal. apply sort_strings_perm. by rewrite !map_keys_perm.
Qed.

Section facts.
Context `{Semver} {V Cl O : Type} `{ManagableResource O} `{MapOrder}.
Implicit Types (p : Provisioner) (ctx : Context Cl O) (t : trace (appE V)).

Lemma exec_panic {A} t (r : A) : ~ exec (panic (V := V)) t r.
Proof. unfold panic. simpl. by intros ([] & _). Qed.

(** The programs that make no call of a kind. *)
Definition quiet {A : Type} (P : event (appE V) -> bool) (m : prog (appE V) A) : Prop :=
  forall t r, exec m t r -> calls P t = [].

Lemma quiet_mret {A} P (a : A) : quiet P (mret a).
Proof. intros t r [-> _]%exec_mret. done. Qed.

Lemma quiet_panic {A} P : quiet P (panic (A := A)).
Proof. intros t r Hx. by apply exec_panic in Hx. Qed.

Lemma quiet_call {A} P (e : appE V A) : (forall x, P (Ev e x) = false) -> quiet P (call e).
Proof. intros He t r ->%exec_call. rewrite calls_cons, He. done. Qed.

Lemma quiet_bind {A B} P (m : prog (appE V) A) (k : A -> prog (appE V) B) :
  quiet P m -> (forall a, quiet P (k a)) -> quiet P (mbind k m).
Proof.
  intros Hm Hk t r (t1 & t2 & a & -> & Hx1 & Hx2)%exec_bind. by rewrite calls_app, (Hm _ _ Hx1), (Hk _ _ _ Hx2).
Qed.

Lemma quiet_attempt {A B} P (m : prog (appE V) (result A)) (k : A -> prog (appE V) (result B)) :
  quiet P m -> (forall a, quiet P (k a)) -> quiet P (attempt m k).
Proof. intros Hm Hk. apply quiet_bind; [done|]. intros [a|e]; [apply Hk|apply quiet_mret]. Qed.

Lemma quiet_if {A} P (b : bool) (m1 m2 : prog (appE V) A) : quiet P m1 -> quiet P m2 -> quiet P (if b then m1 else m2).
Proof. by destruct b. Qed.

#[local] Hint Resolve quiet_mret quiet_panic quiet_call quiet_bind quiet_attempt quiet_if : quiet.

(** Generating an application asks the generator only. *)
Lemma generate_quiet p v ctx :
  quiet is_driver (generateApplication p v ctx) /\ quiet is_getter (generateApplication p v ctx).
Proof.
  unfold generateApplication, getParameters, getValues, getReleaseName, getNamespaceMetadata, getIgnoreDifferences.
  split; (apply quiet_attempt; [by auto 6 with quiet|intros parameters]);
    (apply quiet_attempt; [by auto 6 with quiet|intros values]);
    (destruct (getClusterID ctx); [|by auto with quiet]);
    (destruct (unikornv1.Repo v); [|by auto with quiet]);
    (apply quiet_bind; [by auto 6 with quiet|intros release]);
    (apply quiet_attempt; [by auto 6 with quiet|intros [ls ans]]);
    apply quiet_attempt; by auto 6 with quiet.
Qed.

Lemma initialize_exec t name v :
  exec (initialize (V := V)) t (Ok (name, v)) ->
  exists a version, t = [Ev GetApplication (Ok (a, version))] /\
    name = default "" (metav1.Labels (unikornv1.app_ObjectMeta a) !! constants.NameLabel) /\
    unikornv1.GetVersion a version = Ok v.
Proof.
  unfold initialize. intros [(err & ? & _)|(t1 & t2 & [a version] & -> & Hc & Hx)]%exec_attempt; [done|].
  apply exec_call in Hc as ->. exists a, version.
  destruct (unikornv1.GetVersion a version); exec_inv. done.
Qed.

Lemma initialize_quiet : quiet is_driver (initialize (V := V)).
Proof.
  unfold initialize. apply quiet_attempt; [by apply quiet_call|]. intros [a v].
  destruct (unikornv1.GetVersion a v); by auto with quiet.
Qed.

(** The identifier made from a context's resource. *)
Lemma getResourceID_exec name ctx t r :
  exec (getResourceID (V := V) name ctx) t r ->
  t = [] /\ exists resource, resourceKey ctx = Some resource /\
    r = match ResourceLabels resource with Ok l => Ok (resourceID name l) | Err err => Err err end.
Proof.
  unfold getResourceID. destruct (resourceKey ctx) as [resource|]; [|by intros Hx%exec_panic].
  destruct (ResourceLabels resource) eqn:Hl; intros Hx; exec_inv; (split; [done|]); exists resource; by rewrite Hl.
Qed.

(** The static parameters of a version. *)
Definition static_parameters (v : unikornv1.HelmApplicationVersion) : list cd.HelmApplicationParameter :=
  map (fun q => {| cd.param_Name := unikornv1.param_Name q; cd.param_Value := unikornv1.param_Value q |})
    (unikornv1.Parameters v).

Lemma getParameters_exec p v t l :
  exec (getParameters (V := V) p v) t (Ok l) ->
  exists extra, l = static_parameters v ++ extra /\
    (extra = [] \/ exists m, Ev (GetParameters (unikornv1.Version v)) (Ok m) ∈ t /\
       extra ≡ₚ map (fun '(n, w) => {| cd.param_Name := n; cd.param_Value := w |}) (map_to_list m)).
Proof.
  unfold getParameters. intros Hx. destruct (implements p isParamterizer).
  - apply exec_attempt in Hx as [(err & ? & _)|(t1 & t2 & m & -> & Hc & Hx)]; [done|].
    apply exec_call in Hc as ->. exec_inv. eexists. split; [done|]. right. exists m.
    split; [by left|]. by rewrite map_range_perm.
  - exec_inv. exists []. rewrite app_nil_r. auto.
Qed.

(** The application handed to the driver is the one its version describes:
    source, version and flags of the version, the cluster of the context, the
    namespace of the provisioner before the version's, the release the generator
    insists on before the version's, and the version's parameters followed by
    the generator's, in some order. *)
Theorem application_as_specified p v ctx t app :
  exec (generateApplication p v ctx) t (Ok app) ->
  unikornv1.Repo v = Some (cd.Repo app) /\
  cd.Chart app = default "" (unikornv1.Chart v) /\ cd.Branch app = default "" (unikornv1.Branch v) /\
  cd.Version app = semver_Original (unikornv1.Version v) /\
  (exists c, ClusterFromContext ctx = Ok c /\ cd.app_Cluster app = ctx_ID c) /\
  cd.Namespace app = (if bool_decide (namespace p <> "") then namespace p
                      else default "default" (unikornv1.Namespace v)) /\
  cd.AllowDegraded app = allowDegraded p /\
  (cd.Release app = default "" (unikornv1.Release v) \/
   Ev GetReleaseName (cd.Release app) ∈ t /\ cd.Release app <> "") /\
  exists extra, cd.Parameters app = static_parameters v ++ extra /\
    (extra = [] \/ exists m, Ev (GetParameters (unikornv1.Version v)) (Ok m) ∈ t /\
       extra ≡ₚ map (fun '(n, w) => {| cd.param_Name := n; cd.param_Value := w |}) (map_to_list m)).
Proof.
  unfold generateApplication. intros Hx.
  apply exec_attempt in Hx as [(err & ? & _)|(tp & t' & parameters & -> & Hp & Hx)]; [done|].
  apply getParameters_exec in Hp as (extra & -> & He).
  apply exec_attempt in Hx as [(err & ? & _)|(tv & t'' & values & -> & _ & Hx)]; [done|].
  unfold getClusterID in Hx. destruct (ClusterFromContext ctx) as [c|]; [|by exec_inv].
  destruct (unikornv1.Repo v) as [repo|]; [|by apply exec_panic in Hx].
  apply exec_bind in Hx as (tr & t3 & release & -> & Hr & Hx).
  apply exec_attempt in Hx as [(err & ? & _)|(tn & t4 & [ls ans] & -> & _ & Hx)]; [done|].
  apply exec_attempt in Hx as [(err & ? & _)|(td & t5 & ds & -> & _ & Hx)]; [done|].
  exec_inv. split_and!; try done; [by eexists| |].
  - unfold getReleaseName in Hr. destruct (implements p isReleaseNamer); [|exec_inv; by left].
    apply exec_bind in Hr as (t1 & t2 & override & -> & Hc & Hr). apply exec_call in Hc as ->.
    case_bool_decide as Ho; exec_inv; [right; split; [|done]|by left].
    set_solver.
  - exists extra. split; [done|]. destruct He as [|(m & Hin & He)]; [by left|right].
    exists m. split; [|done]. rewrite elem_of_app. by left.
Qed.

(** What a provision does. *)
Lemma application_provision_exec p ctx t r :
  exec (Provision (V := V) p ctx) t r ->
  (calls is_driver t = [] /\ r <> None) \/
  exists name v resource l app t1 derr t2,
    resourceKey ctx = Some resource /\ ResourceLabels resource = Ok l /\
    (exists t0 tg, t1 = t0 ++ tg /\ exec initialize t0 (Ok (name, v)) /\ exec (generateApplication p v ctx) tg (Ok app)) /\
    t = t1 ++ Ev (DriverCreateOrUpdate (resourceID name l) app) derr :: t2 /\
    calls is_driver t1 = [] /\
    match derr with
    | Some err => t2 = [] /\ r = Some err
    | None => if implements p isPostProvisionHook then t2 = [Ev PostProvision r] else t2 = [] /\ r = None
    end.
Proof.
  unfold Provision. intros Hx.
  apply exec_attempt_ in Hx as [(err & -> & Hi)|(t0 & t' & [name v] & -> & Hi & Hx)];
    [left; by rewrite (initialize_quiet _ _ Hi)|].
  apply exec_attempt_ in Hx as [(err & -> & (-> & _)%getResourceID_exec)|(t1 & t'' & id & -> & Hid & Hx)];
    [left; by rewrite app_nil_r, (initialize_quiet _ _ Hi)|].
  apply getResourceID_exec in Hid as (-> & resource & Hk & Hr).
  destruct (ResourceLabels resource) as [l|] eqn:Hl; simplify_eq. cbn [app] in *.
  apply exec_attempt_ in Hx as [(err & -> & Hg)|(tg & t2 & app & -> & Hg & Hx)];
    [left; by rewrite calls_app, (initialize_quiet _ _ Hi), (proj1 (generate_quiet _ _ _) _ _ Hg)|].
  assert (calls is_driver (t0 ++ tg) = []) as Hq
    by (by rewrite calls_app, (initialize_quiet _ _ Hi), (proj1 (generate_quiet _ _ _) _ _ Hg)).
  right. apply exec_check in Hx as [(err & -> & Hc)|(tc & th & -> & Hc & Hh)]; apply exec_call in Hc as ->.
  - exists name, v, resource, l, app, (t0 ++ tg), (Some err), [].
    split_and!; try done; [by eexists _, _|]. by rewrite <-app_assoc.
  - exists name, v, resource, l, app, (t0 ++ tg), None, th.
    split_and!; try done; [by eexists _, _|by rewrite <-app_assoc|].
    destruct (implements p isPostProvisionHook); [by apply exec_call in Hh as ->|by exec_inv].
Qed.

(** An application reaches the driver at most once, under the identifier of
    its resource and as generated from the version its getter named, and only
    when every step before succeeded; the hook runs only after the driver
    reported it provisioned; and the provisioner succeeds only if both did. *)
Theorem application_provision_exact p ctx t r :
  exec (Provision (V := V) p ctx) t r ->
  (calls is_driver t = [] /\ r <> None) \/
  exists name v resource l app t1 derr t2,
    resourceKey ctx = Some resource /\ ResourceLabels resource = Ok l /\
    (exists t0 tg, t1 = t0 ++ tg /\ exec initialize t0 (Ok (name, v)) /\ exec (generateApplication p v ctx) tg (Ok app)) /\
    t = t1 ++ Ev (DriverCreateOrUpdate (resourceID name l) app) derr :: t2 /\
    calls is_driver t1 = [] /\
    match derr with
    | Some err => t2 = [] /\ r = Some err
    | None => if implements p isPostProvisionHook then t2 = [Ev PostProvision r] else t2 = [] /\ r = None
    end.
Proof. apply application_provision_exec. Qed.

(** What a deprovision does: the hook, then the lookup, then the deletion. *)
Lemma application_deprovision_exec p ctx t r :
  exec (Deprovision (V := V) p ctx) t r ->
  (calls is_driver t = [] /\ r <> None) \/
  exists name v resource l t0,
    resourceKey ctx = Some resource /\ ResourceLabels resource = Ok l /\
    exec (initialize (V := V)) t0 (Ok (name, v)) /\
    t = (if implements p isPreDeprovisionHook then [Ev PreDeprovision None] else []) ++
        t0 ++ [Ev (DriverDelete (resourceID name l) (BackgroundDeletionFromContext ctx)) r].
Proof.
  unfold Deprovision. intros Hx.
  assert (forall th rh, exec (if implements p isPreDeprovisionHook then call (PreDeprovision (V := V)) else mret None) th rh ->
    calls is_driver th = [] /\ (rh = None -> th = if implements p isPreDeprovisionHook then [Ev PreDeprovision None] else []))
    as Hhook.
  { intros th rh Hh. destruct (implements p isPreDeprovisionHook); [apply exec_call in Hh as ->|by exec_inv].
    split; [done|by intros ->]. }
  apply exec_check in Hx as [(err & -> & [Hh _]%Hhook)|(th & t' & -> & [Hh Hth]%Hhook & Hx)]; [by left|].
  rewrite (Hth eq_refl) in *. clear Hth.
  apply exec_attempt_ in Hx as [(err & -> & Hi)|(t0 & t'' & [name v] & -> & Hi & Hx)];
    [left; by rewrite calls_app, Hh, (initialize_quiet _ _ Hi)|].
  apply exec_attempt_ in Hx as [(err & -> & (-> & _)%getResourceID_exec)|(t1 & td & id & -> & Hid & Hx)];
    [left; by rewrite app_nil_r, calls_app, Hh, (initialize_quiet _ _ Hi)|].
  apply getResourceID_exec in Hid as (-> & resource & Hk & Hr).
  destruct (ResourceLabels resource) as [l|] eqn:Hl; simplify_eq. apply exec_call in Hx as ->.
  right. by exists name, v, resource, l, t0.
Qed.

Lemma omap_calls_nil {B} (P : event (appE V) -> bool) (f : event (appE V) -> option B) t :
  calls P t = [] -> (forall ev, P ev = false -> f ev = None) -> omap f t = [].
Proof.
  intros Hc Hf. induction t as [|ev t IH]; [done|]. rewrite calls_cons in Hc.
  destruct (P ev) eqn:Hp; [done|]. csimpl. rewrite (Hf _ Hp). auto.
Qed.

Lemma driver_id_nil t : calls is_driver t = [] -> omap driver_id t = [].
Proof. intros Hc. apply (omap_calls_nil is_driver); [done|]. intros [X e x]. by destruct e. Qed.

Lemma named_nil t : calls is_getter t = [] -> omap named t = [].
Proof. intros Hc. apply (omap_calls_nil is_getter); [done|]. intros [X e x]. by destruct e. Qed.

(** The identifier a provision or a deprovision gives the driver. *)
Lemma provision_id p ctx t r id :
  exec (Provision (V := V) p ctx) t r -> id ∈ omap driver_id t ->
  exists name resource l, resourceKey ctx = Some resource /\ ResourceLabels resource = Ok l /\
    omap named t = [name] /\ id = resourceID name l.
Proof.
  intros [[Hc _]|(name & v & resource & l & app & t1 & derr & t2 & Hk & Hl & (t0 & tg & -> & Hi & Hg) & -> & Hq & Ht2)]
    %application_provision_exec Hid; [by rewrite (driver_id_nil _ Hc) in Hid; apply elem_of_nil in Hid|].
  exists name, resource, l. split_and!; [done|done| |].
  - apply initialize_exec in Hi as (a & version & -> & -> & _).
    rewrite !omap_app, (named_nil tg (proj2 (generate_quiet _ _ _) _ _ Hg)). csimpl.
    assert (omap named t2 = []) as ->; [|done].
    destruct derr; [by destruct Ht2 as [-> _]|]. destruct (implements p isPostProvisionHook); [by subst|by destruct Ht2 as [-> _]].
  - rewrite omap_app, (driver_id_nil _ Hq) in Hid. csimpl in Hid.
    apply elem_of_cons in Hid as [->|Hid]; [done|].
    destruct derr; [by destruct Ht2 as [-> _]; apply elem_of_nil in Hid|].
    destruct (implements p isPostProvisionHook); [subst|destruct Ht2 as [-> _]]; by apply elem_of_nil in Hid.
Qed.

Lemma deprovision_id p ctx t r id :
  exec (Deprovision (V := V) p ctx) t r -> id ∈ omap driver_id t ->
  exists name resource l, resourceKey ctx = Some resource /\ ResourceLabels resource = Ok l /\
    omap named t = [name] /\ id = resourceID name l.
Proof.
  intros [[Hc _]|(name & v & resource & l & t0 & Hk & Hl & Hi & ->)]%application_deprovision_exec Hid;
    [by rewrite (driver_id_nil _ Hc) in Hid; apply elem_of_nil in Hid|].
  exists name, resource, l. apply initialize_exec in Hi as (a & version & -> & -> & _).
  split_and!; [done|done| |]; rewrite !omap_app in *; destruct (implements p isPreDeprovisionHook); csimpl in *; try done;
    by apply list_elem_of_singleton in Hid.
Qed.

End facts.

Section symmetry.
Context `{Semver} {V Cl O : Type} `{ManagableResource O}.

(** C27 What a deprovision deletes is what a provision made: for a resource with
    the same labels and a getter that names the same application, the driver is
    given the same identifier, in whatever order either run visits its maps, and
    it holds each label of the resource once. *)
Theorem application_symmetry (o1 o2 : MapOrder) p (ctx ctx' : Context Cl O) (t t' : trace (appE V)) r r' id id' :
  exec (@Provision _ _ _ _ _ _ _ o1 p ctx) t r -> exec (Deprovision (H3 := o2) p ctx') t' r' ->
  (ResourceLabels <$> resourceKey ctx) = (ResourceLabels <$> resourceKey ctx') ->
  omap named t = omap named t' ->
  id ∈ omap driver_id t -> id' ∈ omap driver_id t' ->
  id = id' /\ NoDup (map cd.label_Name (cd.Labels id)) /\
  exists l, (ResourceLabels <$> resourceKey ctx) = Some (Ok l) /\
    forall k v, {| cd.label_Name := k; cd.label_Value := v |} ∈ cd.Labels id <-> l !! k = Some v.
Proof.
  intros Hx Hx' Hl Hn Hid Hid'.
  destruct (provision_id _ _ _ _ _ Hx Hid) as (name & resource & l & Hk & Hrl & Hnm & ->).
  destruct (deprovision_id _ _ _ _ _ Hx' Hid') as (name' & resource' & l' & Hk' & Hrl' & Hnm' & ->).
  rewrite Hk, Hk' in Hl. simpl in Hl. rewrite Hrl, Hrl' in Hl. rewrite Hnm, Hnm' in Hn. simplify_eq.
  split_and!; [apply resourceID_deterministic|exact (@resourceID_NoDup o1 name' l')|].
  exists l'. rewrite Hk. simpl. rewrite Hrl. split; [done|]. intros k v.
  exact (@resourceID_labels o1 name' l' k v).
Qed.

End symmetry.

Module witnesses.
Import sample.

#[local] Existing Instance some_map_order.

(** Versions as strings. *)
#[local] Instance plain_semver : Semver :=
  {| SemanticVersion := string; semver_Equal a b := bool_decide (a = b); semver_Original v := v; semver_String v := v |}.

Definition nginx_version : unikornv1.HelmApplicationVersion :=
  {| unikornv1.Repo := Some "https://charts.example.com"; unikornv1.Chart := Some "nginx"; unikornv1.Branch := None;
     unikornv1.Path := None; unikornv1.Version := "1.2.3"; unikornv1.Release := None;
     unikornv1.Parameters := [{| unikornv1.param_Name := "replicas"; unikornv1.param_Value := "2" |}];
     unikornv1.Namespace := None; unikornv1.CreateNamespace := None; unikornv1.ServerSideApply := None |}.

Definition nginx_application : unikornv1.HelmApplication :=
  {| unikornv1.app_ObjectMeta := meta "a-1" [] None; unikornv1.app_Versions := [nginx_version] |}.

(** A generator that adds a parameter and has both hooks. *)
Definition hooks : Generator :=
  {| isReleaseNamer := false; isParamterizer := true; isValuesGenerator := false; isNamespaceLabeler := false;
     isCustomizer := false; isPostProvisionHook := true; isPreDeprovisionHook := true |}.

Definition prov : Provisioner := WithGenerator hooks New.

Definition ctx : Context unit fake.ManagedResource :=
  NewContextWithResource (NewContextWithCluster Background
    {| ctx_Client := tt; ctx_ID := None; ctx_Host := ""; ctx_Port := "" |}) (network [] None).

Definition nginx_id : cd.ResourceIdentifier := resourceID "prod-net" (GetLabels (network [] None)).

Definition generated : cd.HelmApplication string :=
  {| cd.Repo := "https://charts.example.com"; cd.Chart := "nginx"; cd.Branch := ""; cd.Path := "";
     cd.Version := "1.2.3"; cd.Release := "";
     cd.Parameters := [{| cd.param_Name := "replicas"; cd.param_Value := "2" |}; {| cd.param_Name := "host"; cd.param_Value := "h" |}];
     cd.Values := None; cd.app_Cluster := None; cd.Namespace := "default"; cd.CreateNamespace := false;
     cd.NamespaceMetadata := {| cd.la_Labels := None; cd.la_Annotations := None |};
     cd.IgnoreDifferences := []; cd.ServerSideApply := false; cd.AllowDegraded := false |}.

Definition up : trace (appE string) :=
  [Ev GetApplication (Ok (nginx_application, "1.2.3"));
   Ev (GetParameters "1.2.3") (Ok {[ "host" := "h" ]});
   Ev (DriverCreateOrUpdate nginx_id generated) None;
   Ev PostProvision None].

Definition down : trace (appE string) :=
  [Ev PreDeprovision None;
   Ev GetApplication (Ok (nginx_application, "1.2.3"));
   Ev (DriverDelete nginx_id false) (Some provisioners.ErrYield)].

Lemma up_exec : exec (Provision (V := string) prov ctx) up None.
Proof. solve_exec. Qed.

Lemma down_exec : exec (Deprovision (V := string) prov ctx) down (Some provisioners.ErrYield).
Proof. solve_exec. Qed.

Lemma application_provision_exact_witness :
  exec (Provision (V := string) prov ctx) up None /\
  (calls is_driver up = [] /\ @None error <> None \/
   exists name l, Ev (DriverCreateOrUpdate (resourceID name l) generated) None ∈ up).
Proof.
  split; [exact up_exec|].
  destruct (application_provision_exact prov ctx up None up_exec) as [Hn|_]; [by left|right].
  exists "prod-net", (GetLabels (network [] None)). right; right; left.
Defined.

Lemma application_symmetry_witness :
  exec (Provision (V := string) prov ctx) up None /\
  exec (Deprovision (V := string) prov ctx) down (Some provisioners.ErrYield) /\
  nginx_id = nginx_id.
Proof.
  split_and!; [exact up_exec|exact down_exec|].
  apply (application_symmetry _ _ prov ctx ctx up down _ _ nginx_id nginx_id up_exec down_exec);
    [reflexivity|reflexivity|left|left].
Defined.

Lemma application_as_specified_witness :
  exec (generateApplication (V := string) prov nginx_version ctx)
    [Ev (GetParameters "1.2.3") (Ok {[ "host" := "h" ]})] (Ok generated) /\
  cd.Namespace generated = "default".
Proof.
  assert (exec (generateApplication (V := string) prov nginx_version ctx)
    [Ev (GetParameters "1.2.3") (Ok {[ "host" := "h" ]})] (Ok generated)) as Hx by solve_exec.
  split; [exact Hx|]. apply (application_as_specified prov nginx_version ctx _ _ Hx).
Defined.

End witnesses.
