(* ===== verification/Stack.v ===== *)
(** * Stack: a controller, from the API object down to the CD driver

    Puts the components together the way a controller runs them: Reconcile of
    pkg/manager/reconcile.go (Manager) runs a root provisioner, in the context
    it prepares; the root is a tree of combinators (Combinators) whose leaves
    are application provisioners (Application) and any other provisioners; and
    an application provisioner reaches the Argo CD driver (ArgoCD) through the
    cd.Driver interface.  The calls left are those of the Kubernetes API, of
    each application's getter and generator, and of the other provisioners. *)

From S2P Require Import Prelude Errors Effects Kubernetes Conditions Provisioning ProvisioningLog References.
From S2P Require Import Manager Concurrency Combinators CD ArgoCD ArgoCDFacts Application Conversion.

(** What provisioners call: the getter and generator of the application named
    [leaf], the API on behalf of the driver, and [F] for everything else. *)
Inductive provisionE `{Semver} (V : Type) (F : Type -> Type) (X : Type) : Type :=
| AppCall (leaf : string) (e : appE V X)
| DriverCall (e : argoE X)
| OtherCall (e : F X).

Arguments AppCall {_ V F X} leaf e.
Arguments DriverCall {_ V F X} e.
Arguments OtherCall {_ V F X} e.

(** What a controller calls. *)
Inductive controllerE `{Semver} (O V : Type) (F : Type -> Type) (X : Type) : Type :=
| ManagerCall (e : managerE O X)
| ProvisionerCall (e : provisionE V F X).

Arguments ManagerCall {_ O V F X} e.
Arguments ProvisionerCall {_ O V F X} e.

#[export] Instance subeffect_driver `{Semver} V F : Subeffect argoE (provisionE V F).
Proof.
  by refine {| inject X e := DriverCall e; project X e := match e with DriverCall e' => Some e' | _ => None end |}.
Defined.

#[export] Instance subeffect_provisioner `{Semver} O V F : Subeffect (provisionE V F) (controllerE O V F).
Proof.
  by refine {| inject X e := ProvisionerCall e; project X e := match e with ProvisionerCall e' => Some e' | _ => None end |}.
Defined.

#[export] Instance subeffect_manager `{Semver} O V F : Subeffect (managerE O) (controllerE O V F).
Proof.
  by refine {| inject X e := ManagerCall e; project X e := match e with ManagerCall e' => Some e' | _ => None end |}.
Defined.

Section stack.
Context `{Semver} {V Cl O : Type} {F : Type -> Type} `{ManagableResource O} `{Kubernetes.Scheme O} `{ControllerUtil}
  `{ApiErrors} `{MapOrder}.

(** cd.Driver, as the Argo CD driver implements it, for the application [leaf]. *)
Definition app_handler (yaml_Marshal : V -> result string) (leaf : string) {X : Type} (e : appE V X) : prog (provisionE V F) X :=
  match e in appE _ Y return prog (provisionE V F) Y with
  | DriverCreateOrUpdate id app => translate (argocd.CreateOrUpdateHelmApplication yaml_Marshal id app)
  | DriverDelete id background => translate (argocd.DeleteHelmApplication id background)
  | e' => call (AppCall leaf e')
  end.

(** An application provisioner, over the driver. *)
Definition leaf (yaml_Marshal : V -> result string) (name : string) (p : application.Provisioner) :
    Combinators.Provisioner (provisionE V F) (Context Cl O) :=
  {| ProvisionerName := name;
     Combinators.Provision ctx := lift (interp (fun X => app_handler yaml_Marshal name) (application.Provision p ctx));
     Combinators.Deprovision ctx := lift (interp (fun X => app_handler yaml_Marshal name) (application.Deprovision p ctx)) |}.

(** The context Reconcile prepares, once the object was read. *)
Definition reconcile_context (namespace : string) (manager_client : Cl) (object : O) : Context Cl O :=
  let ctx := NewContextWithNamespace Background namespace in
  let ctx := NewContext ctx manager_client in
  let clusterContext := {| ctx_Client := manager_client; ctx_ID := None; ctx_Host := ""; ctx_Port := "" |} in
  let ctx := NewContextWithCluster ctx clusterContext in
  NewContextWithResource ctx object.

(** The root provisioner, under the manager's calls. *)
Definition manager_handler (root : Combinators.Provisioner (provisionE V F) (Context Cl O))
    (namespace : string) (manager_client : Cl) {X : Type} (e : managerE O X) : par (controllerE O V F) X :=
  match e in managerE _ Y return par (controllerE O V F) Y with
  | Manager.Provision o =>
    r ← embed (Combinators.Provision root (reconcile_context namespace manager_client o)); mret (o, r)
  | Manager.Deprovision o =>
    r ← embed (Combinators.Deprovision root (reconcile_context namespace manager_client o)); mret (o, r)
  | e' => pcall (ManagerCall e')
  end.

Definition controller (root : Combinators.Provisioner (provisionE V F) (Context Cl O))
    (namespace : string) (manager_client : Cl) (kind : string) (now : Z) : par (controllerE O V F) (Result * option error) :=
  pinterp (fun X => manager_handler root namespace manager_client) (Reconcile kind now).

End stack.

(** ** What it promises *)

Section specification.
Context `{Semver} {V O : Type} {F : Type -> Type} `{ManagableResource O} `{MapOrder}.
Implicit Types (t : trace (provisionE V F)).

(** The name an application resource carries. *)
Definition application_name (a : unikornv1.HelmApplication) : string :=
  default "" (metav1.Labels (unikornv1.app_ObjectMeta a) !! constants.NameLabel).

(** The getter of the application [name] answered [a] in [t], and the object's
    own labels are [l]: what the application is known by is [id]. *)
Definition identified (name : string) (o : O) t (a : unikornv1.HelmApplication) version (id : cd.ResourceIdentifier) : Prop :=
  exists l, ResourceLabels o = Ok l /\ Ev (AppCall name GetApplication) (Ok (a, version)) ∈ t /\
    id = application.resourceID (application_name a) l.

(** The API was asked for the application, and has none. *)
Definition gone (name : string) (o : O) t : Prop :=
  exists a version id items, identified name o t a version id /\
    Ev (DriverCall (ListApplications argocd.namespace (argocd.applicationLabels id))) items ∈ t /\ answers_none items.


Lemma identified_sublist name o t t' a version id :
  identified name o t a version id -> t ⊆ t' -> identified name o t' a version id.
Proof. intros (l & Hl & Hin & ->) Hs. exists l. auto. Qed.

Lemma gone_sublist name o t t' : gone name o t -> t ⊆ t' -> gone name o t'.
Proof. intros (a & version & id & items & Hi & Hin & Hn) Hs. exists a, version, id, items. eauto using identified_sublist. Qed.


End specification.

(** ** Leaves *)

Section leaves.
Context `{Semver} {V Cl O : Type} {F : Type -> Type} `{ManagableResource O} `{MapOrder}.
Context (yaml_Marshal : V -> result string).
Implicit Types (ctx : Context Cl O).

(** What each call of an application is answered by. *)
Abbreviation handled name t' ts :=
  (Forall2 (fun ev ti => match ev with Ev e x => exec (app_handler (F := F) yaml_Marshal name e) ti x end) t' ts).

Abbreviation interpreted name m := (interp (fun X => app_handler (F := F) yaml_Marshal name) m).

(** The calls of a leaf: those of the application, the driver's being the
    calls of the driver. *)
Lemma leaf_exec name (m : prog (appE V) (option error)) (t : trace (provisionE V F)) r :
  pexec (lift (interpreted name m)) t r <->
  exists t' ts, exec m t' r /\ t = concat ts /\ handled name t' ts.
Proof.
  rewrite pexec_lift. setoid_rewrite exec_interp. split.
  - intros (t0 & -> & Hx). by rewrite inject_event_refl.
  - intros Hx. exists t. by rewrite inject_event_refl.
Qed.

(** A call of the application is answered within the trace. *)
Lemma handled_elem name (t' : trace (appE V)) ts X (e : appE V X) x :
  handled name t' ts -> Ev e x ∈ t' -> exists ti, ti ⊆ concat ts /\ exec (app_handler yaml_Marshal name e) ti x.
Proof.
  intros Hf [i Hi]%list_elem_of_lookup. destruct (Forall2_lookup_l _ _ _ _ _ Hf Hi) as (ti & Hti & Hx).
  exists ti. split; [|done]. intros ev Hev. apply list_elem_of_In, in_concat. exists ti.
  split; apply list_elem_of_In; [by eapply list_elem_of_lookup_2|done].
Qed.

Lemma initialize_identified name (o : O) (t0 t' : trace (appE V)) ts n v l :
  handled name t' ts -> exec (application.initialize (V := V)) t0 (Ok (n, v)) -> t0 ⊆ t' -> ResourceLabels o = Ok l ->
  exists a version, identified name o (concat ts) a version (application.resourceID n l) /\
    unikornv1.GetVersion a version = Ok v.
Proof.
  intros Hf (a & version & -> & -> & Hv)%initialize_exec Hs Hl. exists a, version. split; [|done].
  exists l. split_and!; [done| |done].
  destruct (handled_elem name t' ts _ GetApplication (Ok (a, version)) Hf) as (ti & Hti & ->%exec_call); [set_solver|].
  apply Hti. by left.
Qed.

(** An application that was deprovisioned in the foreground is gone. *)
Lemma leaf_gone name p ctx o t :
  pexec (Combinators.Deprovision (leaf (F := F) yaml_Marshal name p) ctx) t None ->
  resourceKey ctx = Some o -> BackgroundDeletionFromContext ctx = false -> gone name o t.
Proof.
  intros (t' & ts & Hx & -> & Hf)%leaf_exec Hk Hb.
  apply application_deprovision_exec in Hx as [[_ ?]|(n & v & o' & l & t0 & Hk' & Hl & Hi & ->)]; [done|].
  rewrite Hb, Hk in *. simplify_eq.
  destruct (initialize_identified name o' t0 _ ts n v l Hf Hi) as (a & version & Hid & _); [set_solver|done|].
  destruct (handled_elem name _ ts _ (DriverDelete (application.resourceID n l) false) None Hf) as (ti & Hti & Hd);
    [set_solver|].
  apply exec_translate in Hd as (td & -> & Hd).
  apply delete_application_exec in Hd as [(items & -> & Hn)|(resource & patched & perr & td' & _ & -> & Hn)].
  - eexists a, version, _, items. split_and!; [done|apply Hti; by left|].
    destruct items as [[|r1 [|r2 l']]|err]; [done|by destruct Hn|done|]. simpl in *. by destruct (errors_is err cd_ErrNotFound).
  - exfalso. destruct perr; [naive_solver|]. destruct Hn as (derr & _ & Hn). by destruct derr.
Qed.


End leaves.

(** ** The controller *)

Section controller.
Context `{Semver} {V Cl O : Type} {F : Type -> Type} `{ManagableResource O} `{Kubernetes.Scheme O} `{ControllerUtil}
  `{ApiErrors} `{MapOrder}.
Context (yaml_Marshal : V -> result string) (root : Combinators.Provisioner (provisionE V F) (Context Cl O))
  (namespace : string) (manager_client : Cl).

Abbreviation handled t' ts :=
  (Forall2 (fun ev ti => match ev with Ev e x => pexec (manager_handler root namespace manager_client e) ti x end) t' ts).

(** The provisioners' part of a trace. *)
Definition provisioning (t : trace (controllerE O V F)) : trace (provisionE V F) := omap project_event t.

Lemma project_inject_event (t : trace (provisionE V F)) : omap project_event (map (inject_event (E := controllerE O V F)) t) = t.
Proof.
  induction t as [|[X e x] t IH]; [done|]. cbn [map omap list_omap]. cbn [inject_event].
  rewrite project_event_inject. by f_equal.
Qed.


Lemma deprovision_handled o o' r ti :
  pexec (manager_handler root namespace manager_client (Manager.Deprovision o)) ti (o', r) ->
  o' = o /\ pexec (Combinators.Deprovision root (reconcile_context namespace manager_client o)) (provisioning ti) r.
Proof.
  unfold manager_handler. intros (t1 & t2 & r' & -> & (t0 & -> & Hx)%pexec_embed & [-> ?])%pexec_bind. simplify_eq.
  split; [done|]. unfold provisioning. by rewrite app_nil_r, project_inject_event.
Qed.

(** A call of the manager's is where its own trace has it. *)
Lemma handled_split t' ts t1 X (e : managerE O X) x t2 :
  handled t' ts -> concat ts = t1 ++ Ev (ManagerCall e) x :: t2 ->
  exists s1 s2 ts1 ts2, t' = s1 ++ Ev e x :: s2 /\ handled s1 ts1 /\ handled s2 ts2 /\
    t1 = concat ts1 /\ t2 = concat ts2.
Proof.
  intros Hf. revert t1. induction Hf as [|[Y g y] ti t' ts Hx Hf IH]; intros t1 Heq; [by destruct t1|].
  simpl in Heq.
  assert (ti = [Ev (ManagerCall g) y] \/ forall ev, ev ∈ ti -> is_Some (project_event (F := provisionE V F) ev)) as [->|Hp].
  { destruct g; try (left; by apply pexec_pcall in Hx); right; intros ev Hev; destruct y as [o' r]; unfold manager_handler in Hx;
      apply pexec_bind in Hx as (? & ? & ? & -> & (t0 & -> & _)%pexec_embed & [-> _]);
      rewrite app_nil_r in Hev; apply list_elem_of_fmap in Hev as ([Z h z] & -> & _); cbn [inject_event];
      rewrite project_event_inject; eauto. }
  - destruct t1 as [|ev t1]; simpl in Heq.
    + pose proof (f_equal (fun l => head l ≫= project_event (F := managerE O)) Heq) as He.
      apply (f_equal tail) in Heq. simpl in He, Heq. apply Some_inj in He.
      exists [], t', [], ts. split_and!; [exact (f_equal (fun ev => ev :: t') He)|constructor|done..].
    + injection Heq as <- Heq. destruct (IH _ Heq) as (s1 & s2 & ts1 & ts2 & -> & Hs1 & Hs2 & -> & ->).
      exists (Ev g y :: s1), s2, ([Ev (ManagerCall g) y] :: ts1), ts2. split_and!; try done. by constructor.
  - assert (exists t1', t1 = ti ++ t1' /\ concat ts = t1' ++ Ev (ManagerCall e) x :: t2) as (t1' & -> & Heq').
    { apply app_eq_inv in Heq as [(k & -> & Heq)|(k & -> & Heq)]; [|eauto].
      destruct k as [|ev k]; [exists []; rewrite !app_nil_r; eauto|]. exfalso.
      simpl in Heq. injection Heq as <- _. destruct (Hp (Ev (ManagerCall e) x)) as [? ?]; [set_solver|done]. }
    destruct (IH _ Heq') as (s1 & s2 & ts1 & ts2 & -> & Hs1 & Hs2 & -> & ->).
    exists (Ev g y :: s1), s2, (ti :: ts1), ts2. split_and!; try done. by constructor.
Qed.



End controller.

Section guarantees.
Context `{Semver} {V Cl O : Type} {F : Type -> Type} `{ManagableResource O} `{Kubernetes.Scheme O} `{ControllerUtil}
  `{ApiErrors} `{MapOrder}.
Context (yaml_Marshal : V -> result string) (T : tree (provisionE V F) (Context Cl O))
  (namespace : string) (manager_client : Cl).
Implicit Types (t : trace (controllerE O V F)).

#[local] Existing Instance reader_self.

(** C1 A resource disappears only when its applications have: the update that takes
    the finalizer off is the last call of a reconcile, of an object that was
    found being deleted and unreferenced, and before it the API answered, for
    each application anywhere in the tree of provisioners, that no application
    is left under the identifier its name and the object's labels make. *)
Theorem release_means_gone kind now t1 o' a t2 res :
  pexec (controller (denote T) namespace manager_client kind now) (t1 ++ Ev (ManagerCall (UpdateObject o')) a :: t2) res ->
  constants.Finalizer ∉ GetFinalizers o' ->
  t2 = [] /\ exists o t, t1 = Ev (ManagerCall GetObject) (o, None) :: t /\
    GetDeletionTimestamp o <> None /\ GetResourceReferences o = [] /\
    forall name p, leaf yaml_Marshal name p ∈ leaves T -> gone name o (provisioning t).
Proof.
  intros (t' & ts & Hx & Heq & Hf)%pexec_pinterp Hn. symmetry in Heq.
  destruct (handled_split _ _ _ _ _ _ _ _ _ _ Hf Heq) as (s1 & s2 & ts1 & ts2 & -> & Hs1 & Hs2 & -> & ->).
  destruct (release_exec _ _ _ _ _ _ _ Hx Hn) as (-> & o & o1 & s3 & -> & Hd & Hr).
  inversion Hs2; subst. split; [done|].
  inversion Hs1 as [|? tg ? ts3 Hg Hs3]; subst. apply pexec_pcall in Hg as ->.
  inversion Hs3 as [|? td ? ts4 Hdep _]; subst.
  exists o, (concat (td :: ts4)). split_and!; [done..|]. intros name p Hp.
  apply deprovision_handled in Hdep as [_ Hdep].
  destruct (tree_deprovision_leaves _ _ _ _ Hdep Hp) as (t0 & Hs & Ht0).
  eapply gone_sublist; [by eapply leaf_gone|].
  intros ev Hev. simpl. unfold provisioning in *. rewrite omap_app, elem_of_app. left. by eapply elem_of_sublist.
Qed.


End guarantees.

(** ** Witnesses: a network with one application *)

Module witnesses.
Import sample Application.witnesses.

#[local] Existing Instance some_map_order.
#[local] Existing Instance plain_semver.
#[local] Existing Instance reader_self.

(** No other provisioners. *)
Definition noE (X : Type) : Type := Empty_set.

Definition marshal (v : string) : result string := Ok v.

Definition stack : tree (provisionE string noE) (Context unit fake.ManagedResource) :=
  Serial "stack" [Leaf (leaf marshal "nginx" application.New)].

Definition run : par (controllerE fake.ManagedResource string noE) (Result * option error) :=
  controller (denote stack) "default" tt DriverKindArgoCD 7.

Definition called {X} (e : appE string X) (x : X) : event (controllerE fake.ManagedResource string noE) :=
  Ev (ProvisionerCall (AppCall "nginx" e)) x.

Definition asked (items : list argoprojv1.Application) : event (controllerE fake.ManagedResource string noE) :=
  Ev (ProvisionerCall (DriverCall (ListApplications argocd.namespace (argocd.applicationLabels nginx_id)))) (Ok items).

Definition managed {X} (e : managerE fake.ManagedResource X) (x : X) : event (controllerE fake.ManagedResource string noE) :=
  Ev (ManagerCall e) x.

Definition deprovisioned : fake.ManagedResource :=
  network_with Manager.witnesses.finalized (Some 9%Z) "True" "Deprovisioned" "deprovisioned".

Definition released : fake.ManagedResource := network_with [] (Some 9%Z) "True" "Deprovisioned" "deprovisioned".

(** The last reconcile of a deletion. *)
Definition before_release : trace (controllerE fake.ManagedResource string noE) :=
  [managed GetObject (network Manager.witnesses.finalized (Some 9%Z), None);
   called GetApplication (Ok (nginx_application, "1.2.3"));
   asked [];
   managed (UpdateStatus deprovisioned) (deprovisioned, None);
   managed (EmitLog (provisioninglog.Emit (network Manager.witnesses.finalized None) "provisioning" "True"
     "Deprovisioned" "deprovisioned")) tt].

Lemma released_run :
  pexec run (before_release ++ [managed (UpdateObject released) (released, None)]) (done_result, None).
Proof. solve_exec. Qed.

Lemma release_means_gone_witness : gone "nginx" (network Manager.witnesses.finalized (Some 9%Z)) (provisioning (tail before_release)).
Proof.
  destruct (release_means_gone marshal stack "default" tt _ _ _ _ _ _ _ released_run)
    as (_ & o & t & Ht & _ & _ & Hg); [by apply not_elem_of_nil|].
  pose proof (f_equal tail Ht) as Htail. cbn [tail] in Htail. rewrite <-Htail in Hg. pose proof (f_equal (fun l => head l ≫= project_event (F := managerE fake.ManagedResource)) Ht) as He.
  simpl in He. apply Some_inj in He.
  pose proof (f_equal (fun ev => match ev with Ev e x => match e in managerE _ X return X -> _ with GetObject => fun a => Some a.1 | _ => fun _ => None end x end) He) as Ho.
  simpl in Ho. apply Some_inj in Ho as ->. apply (Hg "nginx" application.New). left.
Defined.







End witnesses.
