(* ===== verification/ResourceProvisioner.v ===== *)
(** * ResourceProvisioner: the provisioner of a single Kubernetes object

    Models pkg/provisioners/resource/resource.go; the client of the context's
    cluster and controllerutil's CreateOrUpdate are calls. *)

From S2P Require Import Prelude Errors Effects Kubernetes Provisioning Concurrency Combinators CD.

(** [mutate] is the function CreateOrUpdate applies to the live object. *)
Inductive resourceE (Cl R : Type) : Type -> Type :=
| CreateOrUpdate (client : Cl) (object : R) (mutate : R -> fallible error R) : resourceE Cl R (option error)
| DeleteObject (client : Cl) (object : R) : resourceE Cl R (option error).

Arguments CreateOrUpdate {Cl R} client object mutate.
Arguments DeleteObject {Cl R} client object.

Module resource.
Section resource.
Context {Cl O R : Type} `{ApiErrors}.

Abbreviation M := (prog (resourceE Cl R)).

(** Provisioner: the resource to provision. *)
Record Provisioner := { object : R }.

Definition New (object : R) : Provisioner := {| object := object |}.

(** mutate changes nothing. *)
Definition mutate (live : R) : fallible error R := Ok live.

Definition Provision (p : Provisioner) (ctx : Context Cl O) : M (option error) :=
  match ClusterFromContext ctx with
  | Err err => mret (Some err)
  | Ok clusterContext =>
    check (call (CreateOrUpdate (ctx_Client clusterContext) (object p) mutate)) (mret None)
  end.

Definition Deprovision (p : Provisioner) (ctx : Context Cl O) : M (option error) :=
  match ClusterFromContext ctx with
  | Err err => mret (Some err)
  | Ok clusterContext =>
    err ← call (DeleteObject (ctx_Client clusterContext) (object p));
    match err with
    | Some err => if IsNotFound err then mret None else mret (Some err)
    | None => mret (Some provisioners.ErrYield)
    end
  end.

(** As a provisioner the combinators compose. *)
Definition as_provisioner {E : Type -> Type} `{Subeffect (resourceE Cl R) E} (name : string) (p : Provisioner) :
    Combinators.Provisioner E (Context Cl O) :=
  {| ProvisionerName := name;
     Combinators.Provision ctx := lift (Provision p ctx);
     Combinators.Deprovision ctx := lift (Deprovision p ctx) |}.

(** A deletion is over only when the API no longer knows the object; one that
    was accepted is waited for. *)
Lemma resource_deprovision_exec p ctx t r :
  exec (Deprovision p ctx) t r ->
  (exists err, ClusterFromContext ctx = Err err /\ t = [] /\ r = Some err) \/
  exists c err, ClusterFromContext ctx = Ok c /\ t = [Ev (DeleteObject (ctx_Client c) (object p)) err] /\
    (r = None <-> exists e, err = Some e /\ IsNotFound e = true) /\
    (err = None -> r = Some provisioners.ErrYield).
Proof.
  unfold Deprovision. destruct (ClusterFromContext ctx) as [c|err]; intros Hx; [right|left; exec_inv; eauto].
  apply exec_bind in Hx as (t1 & t2 & x & -> & Hc & Hx). apply exec_call in Hc as ->. exists c, x.
  destruct x as [err|]; [destruct (IsNotFound err) eqn:Hn|]; exec_inv;
    (split_and!; [done|done|split; [intros ?|intros (e & ? & ?)]|intros ?]; simplify_eq; eauto).
  congruence.
Qed.

End resource.
End resource.
