(* ===== verification/ApiTypes.v ===== *)
(** * ApiTypes: the scalar types of the API and their JSON forms

    pkg/apis/unikorn/v1alpha1/types.go: semantic versions and constraints over
    github.com/Masterminds/semver, IPv4 addresses and prefixes over Go's net
    package, and the network settings made of them.  Pointer receivers that
    decode into their receiver return the decoded value, or an error that leaves
    it alone. *)

From S2P Require Import Prelude Errors GoStrings Json GoNet Application.

(** Masterminds/semver: what Application.v does not use of it.  A version keeps
    the text it was parsed from, which is what Original returns. *)
Class SemverText `{Semver} := {
  NewVersion : string -> result SemanticVersion;
  semver_Compare : SemanticVersion -> SemanticVersion -> comparison;
  Constraints : Type;
  NewConstraint : string -> result Constraints;
  Constraints_String : Constraints -> string;
  Constraints_Check : Constraints -> SemanticVersion -> bool;
  zero_Constraints : Constraints;
  NewVersion_Original s v : NewVersion s = Ok v -> semver_Original v = s;
}.

(** json.Unmarshal into a string: null leaves it empty. *)
Definition json_string (j : json) : result string :=
  match j with
  | JString s => Ok s
  | JNull => Ok ""
  | _ => Err (Foreign "json: cannot unmarshal value into Go value of type string")
  end.

Module v1alpha1.
Section versions.
Context `{SemverText}.

Definition SemanticVersion_Compare (v o : SemanticVersion) : comparison := semver_Compare v o.
Definition SemanticVersion_Equal (v o : SemanticVersion) : bool := semver_Equal v o.

Definition SemanticVersion_UnmarshalJSON (j : json) : result SemanticVersion :=
  match json_string j with Err err => Err err | Ok s => NewVersion s end.

Definition SemanticVersion_MarshalJSON (v : SemanticVersion) : json := JString (semver_Original v).
Definition SemanticVersion_ToUnstructured (v : SemanticVersion) : string := semver_Original v.

Definition Constraints_UnmarshalJSON (j : json) : result Constraints :=
  match json_string j with
  | Err err => Err err
  | Ok s => NewConstraint s
  end.

Definition Constraints_MarshalJSON (c : Constraints) : json := JString (Constraints_String c).
Definition Constraints_ToUnstructured (c : Constraints) : string := Constraints_String c.

Definition SemanticVersionConstraints_Check (c : Constraints) (v : SemanticVersion) : bool := Constraints_Check c v.
Definition SemanticVersionConstraints_String (c : Constraints) : string := Constraints_String c.

(** DeepCopy goes through the text form and drops both errors. *)
Definition Constraints_DeepCopy (c : Constraints) : Constraints :=
  match NewConstraint (Constraints_String c) with Ok out => out | Err _ => zero_Constraints end.

End versions.

(** IPv4Address embeds net.IP, IPv4Prefix net.IPNet. *)
Record IPv4Address := { address_IP : net.IP }.
Record IPv4Prefix := { prefix_IPNet : net.IPNet }.

Definition IPv4Address_UnmarshalJSON (j : json) : result IPv4Address :=
  match json_string j with
  | Err err => Err err
  | Ok str =>
    match net.ParseIP str with
    | None => Err (Wrapped (Sentinel v1alpha1_ErrJSONUnmarshal) ("not an IPv4 address '" +:+ str +:+ "'"))
    | Some ip => Ok {| address_IP := ip |}
    end
  end.

Definition IPv4Address_MarshalJSON (a : IPv4Address) : json := JString (net.IP_String (address_IP a)).
Definition IPv4Address_ToUnstructured (a : IPv4Address) : string := net.IP_String (address_IP a).

Definition IPv4Prefix_UnmarshalJSON (j : json) : result IPv4Prefix :=
  match json_string j with
  | Err err => Err err
  | Ok str =>
    match net.ParseCIDR str with
    | None => Err (Wrapped (Sentinel v1alpha1_ErrJSONUnmarshal) ("not an IPv4 prefix '" +:+ str +:+ "'"))
    | Some network => Ok {| prefix_IPNet := network |}
    end
  end.

Definition IPv4Prefix_MarshalJSON (p : IPv4Prefix) : json := JString (net.IPNet_String (prefix_IPNet p)).
Definition IPv4Prefix_ToUnstructured (p : IPv4Prefix) : string := net.IPNet_String (prefix_IPNet p).

(** What kube-openapi is told of the types. *)
Definition IPv4Address_OpenAPISchemaType : list string := ["string"].
Definition IPv4Address_OpenAPISchemaFormat : string := "".
Definition IPv4Prefix_OpenAPISchemaType : list string := ["string"].
Definition IPv4Prefix_OpenAPISchemaFormat : string := "".

(** make and a loop that sets each element. *)
Definition IPv4AddressSliceFromIPSlice (in_ : list net.IP) : list IPv4Address :=
  snd (fold_left (fun '(i, out) ip => (S i, <[ i := {| address_IP := ip |} ]> out)) in_
    (0, replicate (length in_) {| address_IP := [] |})).

Definition ApplicationReferenceKindHelm : string := "HelmApplication".

Record NetworkGeneric := {
  NodeNetwork : IPv4Prefix;
  DNSNameservers : list IPv4Address;
}.

(** json.Marshal and json.Unmarshal of the struct, through a pointer. *)
Definition NetworkGeneric_json (n : NetworkGeneric) : json :=
  JObject [("nodeNetwork", IPv4Prefix_MarshalJSON (NodeNetwork n));
           ("dnsNameservers", JArray (map IPv4Address_MarshalJSON (DNSNameservers n)))].

Fixpoint decode_list {A : Type} (decode : json -> result A) (l : list json) : result (list A) :=
  match l with
  | [] => Ok []
  | j :: l' =>
    match decode j with
    | Err err => Err err
    | Ok a => match decode_list decode l' with Err err => Err err | Ok as_ => Ok (a :: as_) end
    end
  end.

Fixpoint NetworkGeneric_fields (fields : list (string * json)) (n : NetworkGeneric) : result NetworkGeneric :=
  match fields with
  | [] => Ok n
  | (key, j) :: fields' =>
    if decide (key = "nodeNetwork") then
      match IPv4Prefix_UnmarshalJSON j with
      | Err err => Err err
      | Ok p => NetworkGeneric_fields fields' {| NodeNetwork := p; DNSNameservers := DNSNameservers n |}
      end
    else if decide (key = "dnsNameservers") then
      match j with
      | JArray l =>
        match decode_list IPv4Address_UnmarshalJSON l with
        | Err err => Err err
        | Ok addresses => NetworkGeneric_fields fields' {| NodeNetwork := NodeNetwork n; DNSNameservers := addresses |}
        end
      | JNull => NetworkGeneric_fields fields' {| NodeNetwork := NodeNetwork n; DNSNameservers := [] |}
      | _ => Err (Foreign "json: cannot unmarshal value into Go struct field of type []IPv4Address")
      end
    else NetworkGeneric_fields fields' n
  end.

(** The zero value that is decoded into. *)
Definition zero_NetworkGeneric : NetworkGeneric :=
  {| NodeNetwork := {| prefix_IPNet := {| net.IPNet_IP := []; net.Mask := [] |} |}; DNSNameservers := [] |}.

Definition NetworkGeneric_UnmarshalJSON (j : json) : result NetworkGeneric :=
  match j with
  | JObject fields => NetworkGeneric_fields fields zero_NetworkGeneric
  | JNull => Ok zero_NetworkGeneric
  | _ => Err (Foreign "json: cannot unmarshal value into Go value of type NetworkGeneric")
  end.

End v1alpha1.

Import v1alpha1.

(** ** The published schema and conversions *)

(** The name of a JSON value's type in a schema. *)
Definition json_type (j : json) : string :=
  match j with
  | JNull => "null" | JString _ => "string" | JArray _ => "array" | JObject _ => "object" | JBool _ => "boolean" | JNumber _ => "number"
  end.

(** Addresses and prefixes are encoded as the type their schema names, which is
    also what they are decoded from: any other value but null is an error. *)
Lemma schema_type_conforms (a : v1alpha1.IPv4Address) (p : v1alpha1.IPv4Prefix) :
  json_type (v1alpha1.IPv4Address_MarshalJSON a) ∈ v1alpha1.IPv4Address_OpenAPISchemaType /\
  json_type (v1alpha1.IPv4Prefix_MarshalJSON p) ∈ v1alpha1.IPv4Prefix_OpenAPISchemaType /\
  (forall j b, v1alpha1.IPv4Address_UnmarshalJSON j = Ok b ->
    j = JNull \/ json_type j ∈ v1alpha1.IPv4Address_OpenAPISchemaType) /\
  (forall j b, v1alpha1.IPv4Prefix_UnmarshalJSON j = Ok b ->
    j = JNull \/ json_type j ∈ v1alpha1.IPv4Prefix_OpenAPISchemaType).
Proof.
  split; [apply list_elem_of_here|]. split; [apply list_elem_of_here|].
  split; intros [] x Hx; try done; try (by left); right; apply list_elem_of_here.
Qed.

(** The loop that fills the slice makes an address of each IP, in order. *)
Lemma addresses_from_ips (in_ : list net.IP) :
  v1alpha1.IPv4AddressSliceFromIPSlice in_ = map v1alpha1.Build_IPv4Address in_.
Proof.
  unfold v1alpha1.IPv4AddressSliceFromIPSlice.
  assert (forall (done_ : list v1alpha1.IPv4Address) zero,
    snd (fold_left (fun '(i, out) ip => (S i, <[ i := {| v1alpha1.address_IP := ip |} ]> out)) in_
      (length done_, done_ ++ replicate (length in_) zero)) = done_ ++ map v1alpha1.Build_IPv4Address in_) as Hf.
  { induction in_ as [|ip in_ IH]; intros done_ zero; [done|]. simpl.
    rewrite insert_app_r_alt, Nat.sub_diag by done. simpl.
    specialize (IH (done_ ++ [v1alpha1.Build_IPv4Address ip]) zero). rewrite length_app in IH. simpl in IH.
    rewrite Nat.add_comm in IH. simpl in IH. rewrite <-!app_assoc in IH. exact IH. }
  exact (Hf [] {| v1alpha1.address_IP := [] |}).
Qed.

(** ** Round trips and bounds *)

(** Addresses of IPv4, in the sixteen-byte form, and IPv4 networks in canonical
    form: those whose host bits are zero. *)
Definition is_ipv4 (a : IPv4Address) : Prop :=
  length (address_IP a) = 16 /\ octets (address_IP a) /\ is_Some (net.To4 (address_IP a)).

Definition is_ipv4_network (p : IPv4Prefix) : Prop :=
  exists ip n, length ip = 4 /\ octets ip /\ (0 <= n <= 32)%Z /\ prefix_IPNet p = network ip n.

Lemma address_roundtrip a : is_ipv4 a -> IPv4Address_UnmarshalJSON (IPv4Address_MarshalJSON a) = Ok a.
Proof.
  intros (Hl & Ho & [p4 H4]). unfold IPv4Address_UnmarshalJSON, IPv4Address_MarshalJSON. simpl.
  rewrite (ParseIP_String _ p4) by done. by destruct a.
Qed.

Lemma prefix_roundtrip p : is_ipv4_network p -> IPv4Prefix_UnmarshalJSON (IPv4Prefix_MarshalJSON p) = Ok p.
Proof.
  intros (ip & n & Hl & Ho & Hn & Hp). unfold IPv4Prefix_UnmarshalJSON, IPv4Prefix_MarshalJSON. simpl.
  rewrite Hp, ParseCIDR_String by done. rewrite <-Hp. by destruct p.
Qed.

Lemma decode_list_map {A} (dec : json -> result A) (enc : A -> json) l :
  Forall (fun a => dec (enc a) = Ok a) l -> decode_list dec (map enc l) = Ok l.
Proof. induction 1 as [|a l Ha _ IH]; [done|]. simpl. by rewrite Ha, IH. Qed.

(** C36 Network settings survive their JSON form: settings whose nameservers are
    IPv4 addresses and whose network is an IPv4 one decode, from what they encode
    to, to themselves. *)
Theorem network_settings_roundtrip n :
  is_ipv4_network (NodeNetwork n) -> Forall is_ipv4 (DNSNameservers n) ->
  NetworkGeneric_UnmarshalJSON (NetworkGeneric_json n) = Ok n.
Proof.
  intros Hn Ha. unfold NetworkGeneric_UnmarshalJSON, NetworkGeneric_json.
  cbn -[IPv4Prefix_UnmarshalJSON IPv4Prefix_MarshalJSON IPv4Address_UnmarshalJSON IPv4Address_MarshalJSON].
  rewrite prefix_roundtrip by done. rewrite decode_list_map; [by destruct n|].
  eapply Forall_impl; [exact Ha|]. intros a. apply address_roundtrip.
Qed.

(** Whatever a document says, an address that is decoded has sixteen bytes,
    each within its eight bits, and a network of IPv4 that is decoded is
    canonical: a mask of at most 32 ones over four bytes, and no host bit; both
    then survive their JSON form. *)
Theorem decoded_addresses_bounded j :
  (forall a, IPv4Address_UnmarshalJSON j = Ok a ->
    length (address_IP a) = 16 /\ octets (address_IP a) /\
    (is_Some (net.To4 (address_IP a)) -> IPv4Address_UnmarshalJSON (IPv4Address_MarshalJSON a) = Ok a)) /\
  (forall p, IPv4Prefix_UnmarshalJSON j = Ok p -> length (net.Mask (prefix_IPNet p)) = 4 ->
    is_ipv4_network p /\ octets (net.IPNet_IP (prefix_IPNet p)) /\
    IPv4Prefix_UnmarshalJSON (IPv4Prefix_MarshalJSON p) = Ok p).
Proof.
  unfold IPv4Address_UnmarshalJSON at 1, IPv4Prefix_UnmarshalJSON at 1.
  destruct (json_string j) as [str|]; [|done]. split.
  - intros a. destruct (net.ParseIP str) as [ip|] eqn:Hp; [|done]. intros [= <-].
    apply ParseIP_octets in Hp as [Hl Ho]. split_and!; [done|done|]. intros H4. by apply address_roundtrip.
  - intros p. destruct (net.ParseCIDR str) as [nw|] eqn:Hp; [|done]. intros [= <-]. simpl. intros Hm.
    destruct (ParseCIDR_inv _ _ Hp Hm) as (ip & n & Hl & Ho & Hn & ->).
    assert (is_ipv4_network {| prefix_IPNet := network ip n |}) as Hnet by (by exists ip, n).
    split_and!; [done| |by apply prefix_roundtrip]. simpl. apply land_octets; [done|by apply mask_facts].
Qed.

(** An IPv6 address is accepted as an IPv4Address, and an IPv6 prefix as an
    IPv4Prefix. *)
Lemma ipv6_is_decoded :
  (exists a, IPv4Address_UnmarshalJSON (JString "2001:db8::1") = Ok a /\
    IPv4Address_MarshalJSON a = JString "2001:db8::1" /\ net.To4 (address_IP a) = None) /\
  (exists p, IPv4Prefix_UnmarshalJSON (JString "fd00::/8") = Ok p /\
    IPv4Prefix_MarshalJSON p = JString "fd00::/8").
Proof. split; eexists; repeat split; vm_compute; reflexivity. Qed.

Section versions.
Context `{SemverText}.

(** A version encodes to the text it was decoded from. *)
Lemma version_roundtrip s v :
  SemanticVersion_UnmarshalJSON (JString s) = Ok v ->
  SemanticVersion_MarshalJSON v = JString s /\
  SemanticVersion_UnmarshalJSON (SemanticVersion_MarshalJSON v) = Ok v.
Proof.
  unfold SemanticVersion_UnmarshalJSON, SemanticVersion_MarshalJSON. simpl. intros Hv.
  by rewrite (NewVersion_Original _ _ Hv).
Qed.

End versions.

(** ** Witnesses *)

Module witnesses.

Definition settings : NetworkGeneric :=
  {| NodeNetwork := {| prefix_IPNet := network [192; 168; 0; 17]%Z 24 |};
     DNSNameservers := [{| address_IP := net.As16 [8; 8; 8; 8]%Z |}; {| address_IP := net.As16 [1; 1; 1; 1]%Z |}] |}.

Lemma network_settings_roundtrip_witness :
  NetworkGeneric_UnmarshalJSON (NetworkGeneric_json settings) = Ok settings.
Proof.
  apply network_settings_roundtrip.
  - exists [192; 168; 0; 17]%Z, 24%Z. repeat split; try done. repeat constructor; done.
  - repeat constructor; try done; by eexists.
Defined.

Lemma decoded_addresses_bounded_witness :
  exists a, IPv4Address_UnmarshalJSON (JString "10.0.0.1") = Ok a /\ length (address_IP a) = 16.
Proof.
  eexists. split; [reflexivity|].
  refine (proj1 (proj1 (decoded_addresses_bounded (JString "10.0.0.1")) _ _)). reflexivity.
Defined.

End witnesses.
