(* ===== verification/HTTPClient.v ===== *)
(** * HTTPClient: TLS configuration, certificate rotation and signed payloads

    pkg/client/http.go.  A client's TLS configuration is built from secrets:
    the certificate authority that signs the server's certificate
    (ApplyTLSConfig) and the client's own certificate (ApplyTLSClientConfig).
    The latter is kept in a source that TLS handshakes query and that reloads it
    when a period has elapsed; the source's mutex makes a handshake one atomic
    step, so a session is a sequence of them.  Payloads are signed with the same
    certificate. *)

From S2P Require Import Prelude Errors Effects.

(** k8s.io/api/core/v1. *)
Module corev1.

Record Secret := { Type_ : string; Data : gmap string string }.

Definition SecretTypeTLS : string := "kubernetes.io/tls".
Definition TLSCertKey : string := "tls.crt".
Definition TLSPrivateKeyKey : string := "tls.key".

End corev1.

(** The calls of these functions: the API server's secrets, the clock, and the
    random bytes a signature is made with. *)
Inductive clientE : Type -> Type :=
| GetSecret (namespace name : string) : clientE (result corev1.Secret)
| ClientNow : clientE Z
| RandomBytes : clientE string.

(** The calls of a certificate source: its fields now and loader. *)
Inductive sourceE (Certificate : Type) : Type -> Type :=
| Now : sourceE Certificate Z
| Load : sourceE Certificate (result Certificate).

Arguments Now {Certificate}.
Arguments Load {Certificate}.

(** crypto/x509, crypto/tls and go-jose: certificates and signatures are
    opaque.  [rsa_private] and [rsa_public] are the type assertions that a key
    is an RSA key. *)
Class Crypto := {
  CertPool : Type;
  Certificate : Type;
  X509Certificate : Type;
  PrivateKey : Type;
  PublicKey : Type;
  Signer : Type;
  JWS : Type;
  AppendCertsFromPEM : string -> option CertPool;
  X509KeyPair : string -> string -> result Certificate;
  rsa_private : Certificate -> option PrivateKey;
  rsa_public : X509Certificate -> option PublicKey;
  NewSigner : PrivateKey -> result Signer;
  Sign : Signer -> string -> string -> result JWS;
  CompactSerialize : JWS -> result string;
  ParseSignedCompact : string -> result JWS;
  Verify : JWS -> PublicKey -> result string;
}.

(** [public_of k p]: [p] is the public half of [k].  What a signature is for:
    a serialized one parses, and verifies with the public key to the payload. *)
Class SignatureLaws `{Crypto} (public_of : PrivateKey -> PublicKey -> Prop) := {
  verify_signed k p signer random data jws text :
    public_of k p -> NewSigner k = Ok signer -> Sign signer random data = Ok jws -> CompactSerialize jws = Ok text ->
    exists jws', ParseSignedCompact text = Ok jws' /\ Verify jws' p = Ok data;
}.

(** encoding/json for the caller's type of payload. *)
Class JsonCodec (T : Type) := {
  json_Marshal : T -> result string;
  json_Unmarshal : string -> result T;
}.

Module client.

(** The fields of HTTPOptions that are read after the flags are parsed. *)
Record HTTPOptions := { ca_host : string; ca_secretNamespace : string; ca_secretName : string }.

Definition Host (o : HTTPOptions) : string := ca_host o.

Record HTTPClientOptions := {
  secretNamespace : string;
  secretName : string;
  reloadInterval : Z;
}.

Record tlsClientCertificateSource (Cert : Type) := {
  current : option Cert;
  nextCheck : Z;
  interval : Z;
}.

Arguments current {Cert} _.
Arguments nextCheck {Cert} _.
Arguments interval {Cert} _.

(** tls.VersionTLS13. *)
Definition VersionTLS13 : Z := 772.

Definition SecretFormatError (context : string) : error := Wrapped (Sentinel ErrSecretFormatError) context.

Section source.
Context {Cert : Type}.

(** The zero time.Time is 0. *)
Definition newTLSClientCertificateSource (interval : Z) :
    prog (sourceE Cert) (result (tlsClientCertificateSource Cert)) :=
  attempt (call Load) (fun certificate =>
    let source := {| current := Some certificate; nextCheck := 0; interval := interval |} in
    if decide (0 < interval)%Z then
      t ← call Now;
      mret (Ok {| current := Some certificate; nextCheck := t + interval; interval := interval |})
    else mret (Ok source)).

Definition GetClientCertificate (s : tlsClientCertificateSource Cert) :
    prog (sourceE Cert) (tlsClientCertificateSource Cert * result (option Cert)) :=
  if decide (interval s <= 0)%Z then mret (s, Ok (current s))
  else
    t ← call Now;
    if decide (t < nextCheck s)%Z then mret (s, Ok (current s))
    else
      certificate ← call Load;
      match certificate with
      | Err err =>
        match current s with
        | Some c => mret (s, Ok (Some c))
        | None => mret (s, Err err)
        end
      | Ok certificate =>
        t' ← call Now;
        let s' := {| current := Some certificate; nextCheck := t' + interval s; interval := interval s |} in
        mret (s', Ok (current s'))
      end.

End source.

Section config.
Context `{Crypto}.

(** The fields of tls.Config the code sets. *)
Record Config := {
  MinVersion : Z;
  RootCAs : option CertPool;
  ClientCertificate : option (tlsClientCertificateSource Certificate);
}.

Definition ApplyTLSConfig (o : HTTPOptions) (config : Config) : prog clientE (Config * option error) :=
  if decide (ca_secretName o = "") then mret (config, None)
  else
    r ← call (GetSecret (ca_secretNamespace o) (ca_secretName o));
    match r with
    | Err err => mret (config, Some err)
    | Ok secret =>
      if decide (corev1.Type_ secret = corev1.SecretTypeTLS) then
        match corev1.Data secret !! corev1.TLSCertKey with
        | None => mret (config, Some (SecretFormatError "issuer CA missing tls.crt"))
        | Some cert =>
          match AppendCertsFromPEM cert with
          | None => mret (config, Some (SecretFormatError "failed to load identity CA certificate"))
          | Some certPool =>
            mret ({| MinVersion := MinVersion config; RootCAs := Some certPool;
                     ClientCertificate := ClientCertificate config |}, None)
          end
        end
      else mret (config, Some (SecretFormatError "issuer CA not of type kubernetes.io/tls"))
    end.

Definition loadTLSCertificate (o : HTTPClientOptions) : prog clientE (result Certificate) :=
  attempt (call (GetSecret (secretNamespace o) (secretName o))) (fun secret =>
    if decide (corev1.Type_ secret = corev1.SecretTypeTLS) then
      match corev1.Data secret !! corev1.TLSCertKey with
      | None => mret (Err (SecretFormatError "certificate missing tls.crt"))
      | Some cert =>
        match corev1.Data secret !! corev1.TLSPrivateKeyKey with
        | None => mret (Err (SecretFormatError "certificate missing tls.key"))
        | Some key => mret (X509KeyPair cert key)
        end
      end
    else mret (Err (SecretFormatError "certificate not of type kubernetes.io/tls"))).

(** tlsClientCertificateReloader: the loader and the clock of a source. *)
Definition Reloader (o : HTTPClientOptions) : forall X, sourceE Certificate X -> prog clientE X :=
  fun X e => match e with Now => call ClientNow | Load => loadTLSCertificate o end.

Definition ApplyTLSClientConfig (o : HTTPClientOptions) (config : Config) : prog clientE (Config * option error) :=
  if decide (secretNamespace o = "" \/ secretName o = "") then mret (config, None)
  else
    r ← interp (Reloader o) (newTLSClientCertificateSource (reloadInterval o));
    match r with
    | Err err => mret (config, Some err)
    | Ok source =>
      mret ({| MinVersion := MinVersion config; RootCAs := RootCAs config;
               ClientCertificate := Some source |}, None)
    end.

Definition TLSClientConfig (options : HTTPOptions) (clientOptions : HTTPClientOptions) : prog clientE (result Config) :=
  let config := {| MinVersion := VersionTLS13; RootCAs := None; ClientCertificate := None |} in
  r ← ApplyTLSConfig options config;
  match r with
  | (_, Some err) => mret (Err err)
  | (config, None) =>
    r ← ApplyTLSClientConfig clientOptions config;
    match r with
    | (_, Some err) => mret (Err err)
    | (config, None) => mret (Ok config)
    end
  end.

Context {T : Type} `{JsonCodec T}.

Definition EncodeAndSign (o : HTTPClientOptions) (data : T) : prog clientE (result string) :=
  match json_Marshal data with
  | Err err => mret (Err err)
  | Ok dataJSON =>
    attempt (loadTLSCertificate o) (fun certificate =>
      match rsa_private certificate with
      | None => mret (Err (Sentinel ErrUnsupportedKeyType))
      | Some pkey =>
        match NewSigner pkey with
        | Err err => mret (Err err)
        | Ok signer =>
          random ← call RandomBytes;
          match Sign signer random dataJSON with
          | Err err => mret (Err err)
          | Ok signedData => mret (CompactSerialize signedData)
          end
        end
      end)
  end.

Definition VerifyAndDecode (payload : string) (certificate : X509Certificate) : result T :=
  match ParseSignedCompact payload with
  | Err err => Err err
  | Ok signedData =>
    match rsa_public certificate with
    | None => Err (Sentinel ErrUnsupportedKeyType)
    | Some key =>
      match Verify signedData key with
      | Err err => Err err
      | Ok verifiedData => json_Unmarshal verifiedData
      end
    end
  end.

End config.

End client.

(** ** Sessions: a source, and the handshakes it serves *)

Import client.

Section sessions.
Context {Cert : Type}.
Implicit Types (s : tlsClientCertificateSource Cert) (t : trace (sourceE Cert)).

(** The certificates that were loaded, and the times that were read. *)
Definition loaded t : list Cert :=
  omap (fun ev => match ev with Ev e x => match e in sourceE _ X return X -> option Cert with
    | Load => fun r => match r with Ok c => Some c | Err _ => None end
    | Now => fun _ => None
    end x end) t.

Definition clock t : list Z :=
  omap (fun ev => match ev with Ev e x => match e in sourceE _ X return X -> option Z with
    | Load => fun _ => None
    | Now => fun z => Some z
    end x end) t.

(** How often the loader was called. *)
Definition loads t : nat :=
  length (calls (fun ev => match ev with Ev e _ => match e with Load => true | Now => false end end) t).

(** A handshake: the calls it made and what it was given. *)
Record handshake := { calls_of : trace (sourceE Cert); given : result (option Cert) }.

Inductive session (s0 : tlsClientCertificateSource Cert) : list handshake -> tlsClientCertificateSource Cert -> Prop :=
| session_start : session s0 [] s0
| session_next hs s h s' :
  session s0 hs s ->
  exec (GetClientCertificate s) (calls_of h) (s', given h) ->
  session s0 (hs ++ [h]) s'.

Definition session_calls (hs : list handshake) : trace (sourceE Cert) := mjoin (calls_of <$> hs).

(** What a handshake can do. *)
Inductive served (s : tlsClientCertificateSource Cert) :
    trace (sourceE Cert) -> tlsClientCertificateSource Cert -> result (option Cert) -> Prop :=
| served_static : (interval s <= 0)%Z -> served s [] s (Ok (current s))
| served_early n :
  (0 < interval s)%Z -> (n < nextCheck s)%Z -> served s [Ev Now n] s (Ok (current s))
| served_stale n err :
  (0 < interval s)%Z -> (nextCheck s <= n)%Z ->
  served s [Ev Now n; Ev Load (Err err)] s
    (match current s with Some c => Ok (Some c) | None => Err err end)
| served_reloaded n c m :
  (0 < interval s)%Z -> (nextCheck s <= n)%Z ->
  served s [Ev Now n; Ev Load (Ok c); Ev Now m]
    {| current := Some c; nextCheck := m + interval s; interval := interval s |} (Ok (Some c)).

Lemma GetClientCertificate_served s t s' r : exec (GetClientCertificate s) t (s', r) <-> served s t s' r.
Proof.
  split.
  - unfold GetClientCertificate. intros Hx.
    destruct (decide (interval s <= 0)%Z) as [Hi|Hi]; [exec_inv; by constructor|].
    apply exec_bind in Hx as (t1 & t2 & n & -> & ->%exec_call & Hx).
    destruct (decide (n < nextCheck s)%Z) as [Hn|Hn]; [exec_inv; constructor; lia|].
    apply exec_bind in Hx as (t3 & t4 & [c|err] & -> & ->%exec_call & Hx).
    + exec_inv. constructor; lia.
    + pose proof (served_stale s n err) as Hs. destruct (current s); exec_inv; apply Hs; lia.
  - unfold GetClientCertificate. intros [Hi|n Hi Hn|n err Hi Hn|n c m Hi Hn].
    + by rewrite decide_True.
    + rewrite decide_False by lia. eexists _, _. split; [done|]. cbn. by rewrite decide_True by lia.
    + rewrite decide_False by lia. eexists _, _. split; [done|]. cbn. rewrite decide_False by lia.
      eexists _, _. split; [done|]. by destruct (current s).
    + rewrite decide_False by lia. eexists _, _. split; [done|]. cbn. rewrite decide_False by lia.
      eexists _, _. split; [done|]. eexists _, _. done.
Qed.

Lemma new_source t s d :
  exec (newTLSClientCertificateSource d) t (Ok s) ->
  interval s = d /\ exists c, current s = Some c /\
  ((d <= 0)%Z /\ t = [Ev Load (Ok c)] \/
   exists n, (0 < d)%Z /\ t = [Ev Load (Ok c); Ev Now n] /\ nextCheck s = (n + d)%Z).
Proof.
  unfold newTLSClientCertificateSource. intros Hx.
  exec_step; [done|]. case_decide; exec_inv; (split; [done|]); eexists; (split; [done|]); [right|left].
  - eexists. done.
  - split; [lia|done].
Qed.

Lemma session_snoc_inv s0 hs h s :
  session s0 (hs ++ [h]) s -> exists s1, session s0 hs s1 /\ served s1 (calls_of h) s (given h).
Proof.
  intros Hs. inversion Hs as [Heq|hs' s1 h' s' Hs1 Hx Heq]; simplify_list_eq; [by destruct hs|].
  exists s1. split; [done|]. by apply GetClientCertificate_served.
Qed.

Lemma session_calls_snoc hs h : session_calls (hs ++ [h]) = session_calls hs ++ calls_of h.
Proof. unfold session_calls. rewrite fmap_app, join_app. simpl. by rewrite app_nil_r. Qed.

Lemma served_interval s t s' r : served s t s' r -> interval s' = interval s.
Proof. by intros []. Qed.

(** The certificate a source holds: the last that was loaded, and its age. *)
Definition holds (all : trace (sourceE Cert)) s (c : Cert) : Prop :=
  current s = Some c /\ last (loaded all) = Some c /\
  ((0 < interval s)%Z -> exists a n b,
    all = a ++ Ev Load (Ok c) :: Ev Now n :: b /\ loaded b = [] /\ nextCheck s = (n + interval s)%Z).

Lemma loaded_app t1 t2 : loaded (t1 ++ t2) = loaded t1 ++ loaded t2.
Proof. apply omap_app. Qed.

(** A handshake that loads nothing leaves what is held alone. *)
Lemma holds_app all s c t : holds all s c -> loaded t = [] -> holds (all ++ t) s c.
Proof.
  intros (Hc & Hl & Hn) Ht. split_and!; [done|by rewrite loaded_app, Ht, app_nil_r|].
  intros (a & n & b & -> & Hb & Hs)%Hn. exists a, n, (b ++ t).
  split_and!; [by list_simplifier|by rewrite loaded_app, Hb, Ht|done].
Qed.

Lemma served_holds all s t s' r c :
  holds all s c -> served s t s' r -> exists c', holds (all ++ t) s' c' /\ r = Ok (Some c').
Proof.
  intros Hh Hs. destruct (Hh) as (Hc & _ & _). destruct Hs as [|n|n err|n c' m Hi Hn].
  1-3: exists c; split; [by apply holds_app|by rewrite Hc].
  exists c'. split; [|done]. split_and!; [done|by rewrite loaded_app, last_app|].
  intros _. exists (all ++ [Ev Now n]), m, []. by list_simplifier.
Qed.

Lemma session_holds d t0 s0 hs s :
  exec (newTLSClientCertificateSource d) t0 (Ok s0) -> session s0 hs s ->
  interval s = d /\ exists c, holds (t0 ++ session_calls hs) s c.
Proof.
  intros (Hd & c0 & Hc0 & Hn)%new_source Hs. induction Hs as [|hs s h s' Hs [IHi [c IH]] Hx].
  - split; [done|]. exists c0. rewrite app_nil_r. destruct Hn as [[Hle ->]|(n & Hlt & -> & Hn)].
    + split_and!; [done|done|lia].
    + split_and!; [done|done|]. intros _. exists [], n, []. by rewrite Hd.
  - apply GetClientCertificate_served in Hx. split; [by rewrite (served_interval _ _ _ _ Hx)|].
    destruct (served_holds _ _ _ _ _ _ IH Hx) as (c' & Hc' & _). exists c'.
    by rewrite session_calls_snoc, app_assoc.
Qed.

(** C15 Whatever its loader answers and however often handshakes ask, a
    certificate source that was constructed never refuses: it gives the last
    certificate that loaded, and, when periodic reload is enabled, one that was
    loaded less than the interval before, unless the attempt this handshake made
    to reload it failed. *)
Theorem handshake_certificate d t0 s0 hs h s :
  exec (newTLSClientCertificateSource d) t0 (Ok s0) ->
  session s0 (hs ++ [h]) s ->
  exists c, given h = Ok (Some c) /\ last (loaded (t0 ++ session_calls (hs ++ [h]))) = Some c /\
  ((d <= 0)%Z /\ calls_of h = [] \/
   exists a n b, t0 ++ session_calls (hs ++ [h]) = a ++ Ev Load (Ok c) :: Ev Now n :: b /\ loaded b = [] /\
   ((exists now, calls_of h = [Ev Now now] /\ now < n + d)%Z \/
    (exists now, calls_of h = [Ev Now now; Ev Load (Ok c); Ev Now n]) \/
    (exists now err, calls_of h = [Ev Now now; Ev Load (Err err)]))).
Proof.
  intros Hnew (s1 & Hs & Hx)%session_snoc_inv. destruct h as [ch gh]; simpl in *.
  destruct (session_holds _ _ _ _ _ Hnew Hs) as (Hi & c & Hh).
  destruct (served_holds _ _ _ _ _ _ Hh Hx) as (c' & Hh' & Hg).
  exists c'. rewrite session_calls_snoc, app_assoc. split_and!; [done|apply Hh'|].
  destruct Hh' as (_ & _ & Hn'). rewrite (served_interval _ _ _ _ Hx), Hi in Hn'.
  destruct Hx as [Hle|now Hlt Hnow|now err Hlt Hnow|now c2 m Hlt Hnow]; [left; split; [lia|done]|right..].
  all: destruct Hn' as (a & n & b & Heq & Hb & Hnc); [lia|].
  - exists a, n, b. split_and!; [done..|]. left. exists now. split; [done|lia].
  - exists a, n, b. split_and!; [done..|]. right; right. eauto.
  - assert (c2 = c') as -> by naive_solver.
    exists ((t0 ++ session_calls hs) ++ [Ev Now now]), m, [].
    split_and!; [by list_simplifier|done|]. right; left. eauto.
Qed.

Lemma session_next_check s0 hs s (lo hi : Z) :
  (0 < interval s0)%Z -> (lo + interval s0 <= nextCheck s0 <= hi + interval s0)%Z ->
  session s0 hs s -> Sorted Z.le (clock (session_calls hs)) ->
  Forall (fun n => n <= hi)%Z (clock (session_calls hs)) ->
  interval s = interval s0 /\
  (lo + interval s0 + Z.of_nat (length (loaded (session_calls hs))) * interval s0 <= nextCheck s <= hi + interval s0)%Z.
Proof.
  intros Hd Hb Hs. induction Hs as [|hs s h s' Hs IH Hx]; [simpl; lia|].
  apply GetClientCertificate_served in Hx. rewrite session_calls_snoc, loaded_app.
  unfold clock in *. rewrite omap_app. intros Hsort [Hh1 Hh2]%Forall_app.
  assert (Sorted Z.le (clock (session_calls hs))) as Hs1.
  { apply Sorted_StronglySorted in Hsort; [|intros x y z; lia]. apply StronglySorted_Sorted.
    by apply StronglySorted_app_1_l in Hsort. }
  destruct (IH Hs1 Hh1) as [Hi Hk]. rewrite length_app.
  destruct Hx as [Hle|now Hlt Hnow|now err Hlt Hnow|now c m Hlt Hnow]; simpl in *; try (split; lia).
  split; [done|]. rewrite Hi.
  assert (now <= m)%Z.
  { apply Sorted_StronglySorted in Hsort; [|intros x y z; lia]. apply StronglySorted_app_1_r in Hsort.
    apply StronglySorted_inv in Hsort as [_ Hf]. by inversion Hf. }
  inversion Hh2 as [|? ? ? Hh3]. inversion Hh3. lia.
Qed.

(** C35 However many handshakes there are, and as long as the clock does not go
    back, certificates are reloaded at most once an interval: [k] successful
    reloads take at least [k] intervals. *)
Theorem reloads_bounded d t0 s0 hs s (lo hi : Z) :
  (0 < d)%Z ->
  exec (newTLSClientCertificateSource d) t0 (Ok s0) ->
  session s0 hs s ->
  Sorted Z.le (clock (t0 ++ session_calls hs)) ->
  Forall (fun n => lo <= n <= hi)%Z (clock (t0 ++ session_calls hs)) ->
  (Z.of_nat (length (loaded (session_calls hs))) * d <= hi - lo)%Z.
Proof.
  intros Hd (Hi & c & _ & [[Hle _]|(n & _ & -> & Hn)])%new_source Hs Hsort Hf; [lia|].
  simpl in *. inversion Hf as [|? ? Hlo Hf']. apply Sorted_inv in Hsort as [Hsort _]. subst d.
  destruct (session_next_check s0 hs s lo hi) as [_ ?]; try done; try lia.
  eapply Forall_impl; [exact Hf'|]. simpl. lia.
Qed.

(** While reloading fails, nothing bounds it: once the check is due, every
    handshake calls the loader until one load succeeds. *)
Theorem failing_reload_every_handshake s0 hs s :
  (0 < interval s0)%Z -> session s0 hs s ->
  loaded (session_calls hs) = [] -> Forall (fun n => nextCheck s0 <= n)%Z (clock (session_calls hs)) ->
  loads (session_calls hs) = length hs /\ s = s0.
Proof.
  intros Hd Hs. induction Hs as [|hs s h s' Hs IH Hx]; [done|].
  apply GetClientCertificate_served in Hx. rewrite session_calls_snoc, loaded_app.
  intros [Hl1 Hl2]%app_nil. unfold clock, loads in *. rewrite omap_app, calls_app, !length_app.
  intros [Hf1 Hf2]%Forall_app. destruct (IH Hl1 Hf1) as [-> ->].
  destruct Hx as [Hle|now Hlt Hnow|now err Hlt Hnow|now c m Hlt Hnow]; simpl in *; try lia; try done.
  inversion Hf2. lia.
Qed.

End sessions.

(** ** Configuration and signatures *)

Section configuration.
Context `{Crypto}.

(** The pair a TLS secret holds. *)
Definition key_pair (secret : corev1.Secret) : option Certificate :=
  if decide (corev1.Type_ secret = corev1.SecretTypeTLS) then
    match corev1.Data secret !! corev1.TLSCertKey, corev1.Data secret !! corev1.TLSPrivateKeyKey with
    | Some cert, Some key => match X509KeyPair cert key with Ok c => Some c | Err _ => None end
    | _, _ => None
    end
  else None.

(** The authorities a TLS secret holds. *)
Definition authorities (secret : corev1.Secret) : option CertPool :=
  if decide (corev1.Type_ secret = corev1.SecretTypeTLS) then
    corev1.Data secret !! corev1.TLSCertKey ≫= AppendCertsFromPEM
  else None.

Lemma loadTLSCertificate_ok o t c :
  exec (loadTLSCertificate o) t (Ok c) ->
  exists secret, t = [Ev (GetSecret (secretNamespace o) (secretName o)) (Ok secret)] /\ key_pair secret = Some c.
Proof.
  unfold loadTLSCertificate. intros Hx.
  apply exec_attempt in Hx as [(? & ? & _)|(t1 & t2 & secret & -> & ->%exec_call & Hx)]; [done|].
  exists secret. unfold key_pair. exec_inv; split; try done; repeat case_match; congruence.
Qed.

Lemma ApplyTLSConfig_ok o config t config' :
  exec (ApplyTLSConfig o config) t (config', None) ->
  MinVersion config' = MinVersion config /\ ClientCertificate config' = ClientCertificate config /\
  (ca_secretName o = "" /\ RootCAs config' = RootCAs config \/
   exists secret pool, t = [Ev (GetSecret (ca_secretNamespace o) (ca_secretName o)) (Ok secret)] /\
     authorities secret = Some pool /\ RootCAs config' = Some pool).
Proof.
  unfold ApplyTLSConfig, authorities. intros Hx. exec_inv; split_and!; try done; [by left|].
  right. eexists _, _. split_and!; [done|by simplify_option_eq|done].
Qed.

Lemma interp_new_source o d t source :
  exec (interp (Reloader o) (newTLSClientCertificateSource d)) t (Ok source) ->
  exists secret c, Ev (GetSecret (secretNamespace o) (secretName o)) (Ok secret) ∈ t /\
    key_pair secret = Some c /\ current source = Some c /\ interval source = d.
Proof.
  unfold newTLSClientCertificateSource, attempt, call.
  cbn [interp mbind prog_mbind prog_bind Reloader]. intros Hx.
  apply exec_bind in Hx as (t1 & t2 & [c|err] & -> & Hl & Hx); [|by apply exec_ret in Hx as [_ ?]].
  apply loadTLSCertificate_ok in Hl as (secret & -> & Hk). exists secret, c.
  split; [set_solver|]. split; [done|]. case_decide; cbn in Hx; exec_inv; done.
Qed.

Lemma ApplyTLSClientConfig_ok o config t config' :
  exec (ApplyTLSClientConfig o config) t (config', None) ->
  MinVersion config' = MinVersion config /\ RootCAs config' = RootCAs config /\
  ((secretNamespace o = "" \/ secretName o = "") /\ ClientCertificate config' = ClientCertificate config \/
   exists secret c source, Ev (GetSecret (secretNamespace o) (secretName o)) (Ok secret) ∈ t /\
     key_pair secret = Some c /\ ClientCertificate config' = Some source /\
     current source = Some c /\ interval source = reloadInterval o).
Proof.
  unfold ApplyTLSClientConfig. intros Hx. case_decide; [exec_inv; auto|].
  apply exec_bind in Hx as (t1 & t2 & [source|err] & -> & Hs & [-> ?]%exec_mret); simplify_eq/=.
  apply interp_new_source in Hs as (secret & c & Hin & Hk & Hc & Hi).
  split_and!; [done..|]. right. exists secret, c, source. split_and!; try done. set_solver.
Qed.

(** A TLS configuration that is handed out is what the options ask for:
    TLS 1.3 at least; the system's authorities only when no authority secret is
    named, otherwise exactly those of that secret; and a client certificate
    exactly when a secret for it is named, which then is the pair it holds. *)
Theorem tls_config_as_asked o co t config :
  exec (TLSClientConfig o co) t (Ok config) ->
  MinVersion config = VersionTLS13 /\
  (ca_secretName o = "" /\ RootCAs config = None \/
   exists secret pool, Ev (GetSecret (ca_secretNamespace o) (ca_secretName o)) (Ok secret) ∈ t /\
     authorities secret = Some pool /\ RootCAs config = Some pool) /\
  ((secretNamespace co = "" \/ secretName co = "") /\ ClientCertificate config = None \/
   exists secret c source, Ev (GetSecret (secretNamespace co) (secretName co)) (Ok secret) ∈ t /\
     key_pair secret = Some c /\ ClientCertificate config = Some source /\
     current source = Some c /\ interval source = reloadInterval co).
Proof.
  unfold TLSClientConfig. intros Hx.
  apply exec_bind in Hx as (t1 & t2 & [c1 [err|]] & -> & Ha & Hx); [by apply exec_mret in Hx as [_ ?]|].
  apply exec_bind in Hx as (t3 & t4 & [c2 [err|]] & -> & Hc & [-> ?]%exec_mret); simplify_eq.
  apply ApplyTLSConfig_ok in Ha as (Hm1 & Hcc & Hca). apply ApplyTLSClientConfig_ok in Hc as (Hm2 & Hroot & Hcl).
  rewrite Hroot, Hm2, Hm1. split_and!; [done| |].
  - destruct Hca as [?|(secret & pool & -> & ?)]; [by left|right]. exists secret, pool. set_solver.
  - rewrite Hcc in Hcl. destruct Hcl as [?|(secret & c & source & Hin & ?)]; [by left|right].
    exists secret, c, source. set_solver.
Qed.

(** The secrets that were read. *)
Definition secrets_read (t : trace clientE) : list corev1.Secret :=
  omap (fun ev => match ev with Ev e x => match e in clientE X return X -> option corev1.Secret with
    | GetSecret _ _ => fun r => match r with Ok secret => Some secret | Err _ => None end
    | _ => fun _ => None
    end x end) t.

Context (public_of : PrivateKey -> PublicKey -> Prop) `{!SignatureLaws public_of} {T : Type} `{JsonCodec T}.

(** What one service signs another verifies: a payload encoded and signed
    with a certificate's key decodes, with the certificate's public key, to the
    data that was signed. *)
Theorem signed_payload_verifies o (data : T) t text secret c k certificate p :
  (forall (d : T) s, json_Marshal d = Ok s -> json_Unmarshal s = Ok d) ->
  exec (EncodeAndSign o data) t (Ok text) ->
  secrets_read t = [secret] -> key_pair secret = Some c -> rsa_private c = Some k ->
  rsa_public certificate = Some p -> public_of k p ->
  VerifyAndDecode text certificate = Ok data.
Proof.
  intros Hjson Hx Hsec Hk Hpriv Hpub Hof. unfold EncodeAndSign in Hx.
  destruct (json_Marshal data) as [dataJSON|] eqn:Hd; [|by exec_inv].
  apply exec_attempt in Hx as [(? & ? & _)|(t1 & t2 & c' & -> & Hl & Hx)]; [done|].
  apply loadTLSCertificate_ok in Hl as (secret' & -> & Hk'). simpl in Hsec. simplify_eq.
  rewrite Hpriv in Hx. destruct (NewSigner k) as [signer|] eqn:Hn; [|by exec_inv].
  exec_step. destruct (Sign signer _ dataJSON) as [jws|] eqn:Hs; exec_inv.
  match goal with Hc : Ok text = CompactSerialize _ |- _ => symmetry in Hc;
    destruct (verify_signed _ _ _ _ _ _ _ Hof Hn Hs Hc) as (jws' & Hp & Hv) end.
  unfold VerifyAndDecode. rewrite Hp, Hpub, Hv. by apply Hjson.
Qed.

End configuration.

(** ** Witnesses *)

Module witnesses.

(** A session with an interval of ten: the certificate is served from memory,
    a reload fails, and the next one succeeds. *)
Definition new_trace : trace (sourceE string) := [Ev Load (Ok "first"); Ev Now 100%Z].

Definition source (c : string) (next : Z) : tlsClientCertificateSource string :=
  {| current := Some c; nextCheck := next; interval := 10 |}.

Definition early : handshake := {| calls_of := [Ev Now 105%Z]; given := Ok (Some "first") |}.

Definition stale : handshake :=
  {| calls_of := [Ev Now 112%Z; Ev Load (Err (Foreign "timeout"))]; given := Ok (Some "first") |}.

Definition reloaded : handshake :=
  {| calls_of := [Ev Now 113%Z; Ev Load (Ok "second"); Ev Now 114%Z]; given := Ok (Some "second") |}.

Lemma new_ok : exec (newTLSClientCertificateSource 10) new_trace (Ok (source "first" 110)).
Proof. solve_exec. Qed.

Lemma session_stale : session (source "first" 110) [early; stale] (source "first" 110).
Proof.
  apply (session_next _ [early] (source "first" 110)); [|solve_exec].
  apply (session_next _ [] (source "first" 110)); [constructor|solve_exec].
Qed.

Lemma session_reloaded : session (source "first" 110) [early; stale; reloaded] (source "second" 124).
Proof. apply (session_next _ [early; stale] (source "first" 110)); [apply session_stale|solve_exec]. Qed.

Lemma handshake_certificate_witness :
  exists c, given stale = Ok (Some c) /\ last (loaded (new_trace ++ session_calls [early; stale])) = Some c.
Proof.
  destruct (handshake_certificate 10 new_trace (source "first" 110) [early] stale (source "first" 110)
    new_ok session_stale) as (c & Hg & Hl & _). by exists c.
Defined.

Lemma reloads_bounded_witness : (Z.of_nat (length (loaded (session_calls [early; stale; reloaded]))) * 10 <= 114 - 100)%Z.
Proof.
  apply (reloads_bounded 10 new_trace (source "first" 110) _ (source "second" 124)); [done|apply new_ok|apply session_reloaded|..].
  - cbn. repeat constructor; done.
  - cbn. repeat constructor; done.
Defined.

Lemma failing_reload_every_handshake_witness :
  loads (session_calls [stale; stale]) = 2 /\ source "first" 110 = source "first" 110.
Proof.
  apply (failing_reload_every_handshake (source "first" 110)); [done| |done|cbn; repeat constructor; done].
  apply (session_next _ [stale] (source "first" 110)); [|solve_exec].
  apply (session_next _ [] (source "first" 110)); [constructor|solve_exec].
Defined.

(** Keys and signatures that are text: what is signed is kept beside its key. *)
#[export] Instance text_crypto : Crypto := {|
  CertPool := string; Certificate := string * string; X509Certificate := string;
  PrivateKey := string; PublicKey := string; Signer := string; JWS := string * string;
  AppendCertsFromPEM pem := if decide (pem = "") then None else Some pem;
  X509KeyPair cert key := if decide (key = "") then Err (Foreign "no key") else Ok (cert, key);
  rsa_private := fun c : string * string => Some c.2;
  rsa_public := fun c : string => Some c;
  NewSigner := fun k : string => Ok k;
  Sign := fun (k _ data : string) => Ok (k, data);
  CompactSerialize := fun j : string * string => match j.1 with
    | String k EmptyString => Ok (String k j.2)
    | _ => Err (Foreign "not one byte")
    end;
  ParseSignedCompact text := match text with
    | String k data => Ok (String k EmptyString, data)
    | EmptyString => Err (Foreign "not a signature")
    end;
  Verify := fun (j : string * string) (p : string) =>
    if decide (j.1 = p) then Ok j.2 else Err (Foreign "verification failed");
|}.

Definition same_key : @PrivateKey text_crypto -> @PublicKey text_crypto -> Prop := fun k p : string => k = p.

#[export] Instance text_signatures : @SignatureLaws text_crypto same_key.
Proof.
  constructor. intros k p signer random data jws text <-. cbn. intros. simplify_eq. cbn in *.
  destruct signer as [|a [|b s]]; simplify_eq. eexists. split; [done|]. by rewrite decide_True.
Qed.

#[export] Instance text_codec : JsonCodec string := {| json_Marshal s := Ok s; json_Unmarshal s := Ok s |}.

Definition tls_secret : corev1.Secret :=
  {| corev1.Type_ := corev1.SecretTypeTLS; corev1.Data := {[ "tls.crt" := "k"; "tls.key" := "k" ]} |}.

Definition options : HTTPClientOptions :=
  {| secretNamespace := "system"; secretName := "client-cert"; reloadInterval := 10 |}.

Definition ca_options : HTTPOptions :=
  {| ca_host := "https://identity"; ca_secretNamespace := "system"; ca_secretName := "ca" |}.

Definition sign_trace : trace clientE :=
  [Ev (GetSecret "system" "client-cert") (Ok tls_secret); Ev RandomBytes "salt"].

Definition config_trace : trace clientE :=
  [Ev (GetSecret "system" "ca") (Ok tls_secret); Ev (GetSecret "system" "client-cert") (Ok tls_secret);
   Ev ClientNow 100%Z].

Definition config : Config :=
  {| MinVersion := VersionTLS13; RootCAs := Some "k";
     ClientCertificate := Some {| current := Some ("k", "k"); nextCheck := 110; interval := 10 |} |}.

Lemma signed_payload_verifies_witness : VerifyAndDecode (T := string) "kdata" "k" = Ok "data".
Proof.
  apply (signed_payload_verifies same_key options "data" sign_trace "kdata" tls_secret ("k", "k") "k" "k" "k");
    [|solve_exec|reflexivity|vm_compute; reflexivity|reflexivity|reflexivity|reflexivity].
  intros d s H. exact (eq_sym H).
Defined.

Lemma tls_config_as_asked_witness :
  MinVersion config = VersionTLS13 /\ RootCAs config <> None.
Proof.
  destruct (tls_config_as_asked ca_options options config_trace config) as (Hv & [[Hn _]|(? & ? & _ & _ & Hr)] & _);
    [solve_exec|discriminate Hn|]. split; [exact Hv|]. rewrite Hr. discriminate.
Defined.

End witnesses.
