(* ===== verification/Messaging.v ===== *)
(** * Messaging: resource lifecycle events, and deletions that cascade

    pkg/messaging.  A queue turns the reconciles of one type of resource into
    envelopes (kubernetes/messagequeue.go) and hands each to its consumers; the
    consumer of consumer/cascadingdelete.go answers the deletion of a resource
    by deleting the resources that belong to it.  A consumer is a function from
    envelopes to programs, so a queue and its consumers are one program. *)

From S2P Require Import Prelude Errors Effects Kubernetes.

Module messaging.

Record Envelope := {
  ResourceID : string;
  DeletionTimestamp : option Z;
}.

(** Consumer: its method Consume. *)
Definition Consumer (E : Type -> Type) : Type := Envelope -> prog E (option error).

End messaging.

(** metav1.DeletePropagationForeground. *)
Definition DeletePropagationForeground : string := "Foreground".

(** What the list of a kind holds: meta.EachListItem passes runtime.Objects,
    most of which are also client.Objects. *)
Inductive runtime_object (O : Type) : Type :=
| ClientObject (o : O)
| OtherObject.

Arguments ClientObject {O} o.
Arguments OtherObject {O}.

(** The calls of a consumer.  A list without a selector is not restricted, and
    nor is one of the empty namespace. *)
Inductive consumerE (O : Type) : Type -> Type :=
| ListObjects (namespace : string) (selector : option (gmap string string)) : consumerE O (result (list (runtime_object O)))
| DeleteItem (o : O) (propagation : string) : consumerE O (option error).

Arguments ListObjects {O} namespace selector.
Arguments DeleteItem {O} o propagation.

Module consumer.
Section consumer.
Context {O : Type} `{Object O} `{MetaList}.

Record CascadingDelete := {
  namespace : string;
  resourceLabel : string;
}.

Definition Option : Type := CascadingDelete -> CascadingDelete.

Definition WithNamespace (ns : string) : Option := fun c =>
  {| namespace := ns; resourceLabel := resourceLabel c |}.

Definition WithResourceLabel (label : string) : Option := fun c =>
  {| namespace := namespace c; resourceLabel := label |}.

Definition NewCascadingDelete (options : list Option) : CascadingDelete :=
  fold_left (fun c o => o c) options {| namespace := ""; resourceLabel := "" |}.

(** The selector of Consume's list options. *)
Definition labelSelector (c : CascadingDelete) (id : string) : option (gmap string string) :=
  if decide (resourceLabel c = "") then None else Some {[ resourceLabel c := id ]}.

Definition deleteItem (_ : unit) (object : runtime_object O) : prog (consumerE O) (unit * option error) :=
  match object with
  | OtherObject => mret (tt, Some (Wrapped (Sentinel ErrTypeConversion) "cannot convert from runtime object to client"))
  | ClientObject resource =>
    match GetDeletionTimestamp resource with
    | Some _ => mret (tt, None)
    | None => err ← call (DeleteItem resource DeletePropagationForeground); mret (tt, err)
    end
  end.

Definition Consume (c : CascadingDelete) : messaging.Consumer (consumerE O) := fun envelope =>
  match messaging.DeletionTimestamp envelope with
  | None => mret None
  | Some _ =>
    r ← call (ListObjects (namespace c) (labelSelector c (messaging.ResourceID envelope)));
    match r with
    | Err err => mret (Some err)
    | Ok resources => e ← EachListItem deleteItem tt resources; mret e.2
    end
  end.

End consumer.
End consumer.

(** The calls of the queue: its own objects, and the manager it runs in.
    [prototype]: what q.prototype.DeepCopyObject() is. *)
Inductive queueE (P : Type) : Type -> Type :=
| GetMessage (name : string) : queueE P (result P)
| NewManager (scheme : string) (leaderElection : bool) (leaderElectionID : string) : queueE P (option error)
| RegisterController : queueE P (option error)
| StartManager : queueE P (option error).

Arguments GetMessage {P} name.
Arguments NewManager {P} scheme leaderElection leaderElectionID.
Arguments RegisterController {P}.
Arguments StartManager {P}.

Module kubernetes.
Section queue.
Context {P : Type} `{Object P} `{ApiErrors} {E : Type -> Type} `{Subeffect (queueE P) E}.

(** MessageQueue: the client is set, with the consumers, by SetupWithManager. *)
Record MessageQueue := {
  scheme : string;
  prototype : runtime_object P;
  has_client : bool;
  consumers : list (messaging.Consumer E);
}.

Definition New (sch : string) (object : P) : MessageQueue :=
  {| scheme := sch; prototype := ClientObject object; has_client := false; consumers := [] |}.

Definition NewForManager (object : P) : MessageQueue :=
  {| scheme := ""; prototype := ClientObject object; has_client := false; consumers := [] |}.

Definition SetupWithManager (q : MessageQueue) (cs : list (messaging.Consumer E)) : prog E (MessageQueue * option error) :=
  let q := {| scheme := scheme q; prototype := prototype q; has_client := true; consumers := cs |} in
  err ← call (inject RegisterController);
  mret (q, err).

(** [program]: filepath.Base(os.Args[0]). *)
Definition Run (program : string) (q : MessageQueue) (cs : list (messaging.Consumer E)) : prog E (MessageQueue * option error) :=
  err ← call (inject (NewManager (scheme q) true program));
  match err with
  | Some err => mret (q, Some err)
  | None =>
    r ← SetupWithManager q cs;
    match r with
    | (q, Some err) => mret (q, Some err)
    | (q, None) => err ← call (inject StartManager); mret (q, err)
    end
  end.

(** The loop over the consumers. *)
Fixpoint deliver (cs : list (messaging.Consumer E)) (envelope : messaging.Envelope) : prog E (option error) :=
  match cs with
  | [] => mret None
  | consumer :: cs' => check (consumer envelope) (deliver cs' envelope)
  end.

Definition envelope_of (object : P) : messaging.Envelope :=
  {| messaging.ResourceID := GetName object; messaging.DeletionTimestamp := GetDeletionTimestamp object |}.

(** The reconcile.Result is always the zero one.  Calling the client before it
    is set dereferences a nil interface: [None]. *)
Definition Reconcile (q : MessageQueue) (name : string) : option (prog E (option error)) :=
  match prototype q with
  | OtherObject =>
    Some (mret (Some (Wrapped (Foreign "unsupported operation") "prototype copy could not be cast to client.Object")))
  | ClientObject _ =>
    if has_client q then
      Some (r ← call (inject (GetMessage name));
            match r with
            | Err err => if IsNotFound err then mret None else mret (Some err)
            | Ok object => deliver (consumers q) (envelope_of object)
            end)
    else None
  end.

End queue.
End kubernetes.

(** ** Deliveries *)

Import consumer kubernetes.

Section deliveries.
Context {P : Type} `{Object P} `{ApiErrors} {E : Type -> Type} `{Subeffect (queueE P) E}.

(** Consumers that accepted an envelope, in order. *)
Definition accepted (cs : list (messaging.Consumer E)) (envelope : messaging.Envelope) (t : trace E) : Prop :=
  exists ts, t = mjoin ts /\ Forall2 (fun c tc => exec (c envelope) tc None) cs ts.

Lemma exec_deliver cs envelope t r :
  exec (deliver cs envelope) t r ->
  match r with
  | None => accepted cs envelope t
  | Some err => exists cs1 c cs2 t1 t2, cs = cs1 ++ c :: cs2 /\ t = t1 ++ t2 /\
      accepted cs1 envelope t1 /\ exec (c envelope) t2 (Some err)
  end.
Proof.
  revert t. induction cs as [|c cs IH]; intros t Hx; simpl in Hx.
  { destruct Hx as [-> ->]. by exists []. }
  apply exec_check in Hx as [(err & -> & Hx)|(t1 & t2 & -> & Hok & Hx%IH)].
  - exists [], c, cs, [], t. split_and!; try done. by exists [].
  - destruct r as [err|].
    + destruct Hx as (cs1 & c' & cs2 & t3 & t4 & -> & -> & (ts & -> & Hts) & Hc).
      exists (c :: cs1), c', cs2, (t1 ++ mjoin ts), t4. split_and!; [done|by rewrite app_assoc| |done].
      exists (t1 :: ts). split; [done|by constructor].
    + destruct Hx as (ts & -> & Hts). exists (t1 :: ts). split; [done|by constructor].
Qed.

(** An event is acknowledged only when it no longer concerns anyone, its
    object being gone, or when every consumer accepted it, in order and in the
    state the object was read in.  Otherwise it is retried: the error is the
    first refusal's, and the consumers after it were not called. *)
Theorem delivery_acknowledged (q : MessageQueue (P := P) (E := E)) object name p t r :
  prototype q = ClientObject object -> Reconcile q name = Some p -> exec p t r ->
  exists answer t', t = Ev (inject (GetMessage name)) answer :: t' /\
  match answer with
  | Err err => t' = [] /\ r = (if IsNotFound err then None else Some err)
  | Ok o =>
    match r with
    | None => accepted (consumers q) (envelope_of o) t'
    | Some err => exists cs1 c cs2 t1 t2, consumers q = cs1 ++ c :: cs2 /\ t' = t1 ++ t2 /\
        accepted cs1 (envelope_of o) t1 /\ exec (c (envelope_of o)) t2 (Some err)
    end
  end.
Proof.
  unfold Reconcile. intros -> Hp Hx. destruct (has_client q); simplify_eq.
  apply exec_bind in Hx as (t1 & t' & answer & -> & ->%exec_call & Hx).
  exists answer, t'. split; [done|]. destruct answer as [o|err]; [by apply exec_deliver|].
  destruct (IsNotFound err); by destruct Hx.
Qed.

End deliveries.

(** ** What a deletion cascades to *)

Section cascade.
Context {O : Type} `{Object O} `{MetaList}.

(** The resources of a list that are not being deleted yet. *)
Definition live (items : list (runtime_object O)) : list O :=
  omap (fun i => match i with
    | ClientObject o => match GetDeletionTimestamp o with None => Some o | Some _ => None end
    | OtherObject => None
    end) items.

(** Deletions that were accepted. *)
Definition deletions (os : list O) : trace (consumerE O) :=
  map (fun o => Ev (DeleteItem o DeletePropagationForeground) None) os.

Lemma exec_each_item items t r :
  exec (EachListItem deleteItem tt items) t r ->
  match r.2 with
  | None => t = deletions (live items)
  | Some err => exists before i after, items = before ++ i :: after /\
    match i with
    | OtherObject => t = deletions (live before) /\ errors_is err ErrTypeConversion = true
    | ClientObject o => GetDeletionTimestamp o = None /\
      t = deletions (live before) ++ [Ev (DeleteItem o DeletePropagationForeground) (Some err)]
    end
  end.
Proof.
  revert t. induction items as [|i items IH]; intros t Hx.
  { rewrite EachListItem_nil in Hx. by destruct Hx as [-> ->]. }
  rewrite EachListItem_cons in Hx.
  apply exec_bind in Hx as (t1 & t2 & [[] [err|]] & -> & Hi & Hx); cbn [fst snd] in Hx.
  - apply exec_mret in Hx as [-> ->]. simpl. exists [], i, items. split; [done|]. rewrite app_nil_r.
    destruct i as [o|]; simpl in Hi; [|exec_inv; done].
    destruct (GetDeletionTimestamp o) eqn:Hd; exec_inv; done.
  - assert (t1 = deletions (live [i])) as ->.
    { destruct i as [o|]; simpl in *; [|by exec_inv]. destruct (GetDeletionTimestamp o); by exec_inv. }
    apply IH in Hx. unfold live, deletions in *.
    change (i :: items) with ([i] ++ items). rewrite omap_app, map_app.
    destruct (r.2) as [err|]; [|by rewrite Hx].
    destruct Hx as (before & j & after & -> & Hj). exists (i :: before), j, after. split; [done|].
    change (i :: before) with ([i] ++ before). rewrite omap_app, map_app.
    destruct j as [o|]; [destruct Hj as [? ->]|destruct Hj as [-> ?]]; by rewrite ?app_assoc.
Qed.

(** The deletion of a resource is propagated exactly: a live resource's event
    does nothing; otherwise the resources of the namespace that carry its
    identifier are listed once and those not being deleted already are deleted,
    in the foreground and in order; success means all of them were, and an error
    is that of the list, of the first deletion that was refused, or of an item
    that is no resource. *)
Theorem cascade_exact (c : CascadingDelete) envelope t r :
  exec (Consume c envelope) t r ->
  match messaging.DeletionTimestamp envelope with
  | None => t = [] /\ r = None
  | Some _ => exists answer t',
    t = Ev (ListObjects (namespace c) (labelSelector c (messaging.ResourceID envelope))) answer :: t' /\
    match answer, r with
    | Err err, _ => t' = [] /\ r = Some err
    | Ok items, None => t' = deletions (live items)
    | Ok items, Some err => exists before i after, items = before ++ i :: after /\
      match i with
      | OtherObject => t' = deletions (live before) /\ errors_is err ErrTypeConversion = true
      | ClientObject o => GetDeletionTimestamp o = None /\
        t' = deletions (live before) ++ [Ev (DeleteItem o DeletePropagationForeground) (Some err)]
      end
    end
  end.
Proof.
  unfold Consume. destruct (messaging.DeletionTimestamp envelope); intros Hx; [|by destruct Hx].
  apply exec_bind in Hx as (t1 & t' & [items|err] & -> & ->%exec_call & Hx);
    eexists _, t'; (split; [done|]); [|by destruct Hx].
  apply exec_bind in Hx as (t2 & t3 & [[] e] & -> & Hi & [-> ->]%exec_mret).
  apply exec_each_item in Hi. by rewrite app_nil_r.
Qed.

End cascade.

(** ** A queue, its consumer and an API server together *)

(** The calls of the whole. *)
Inductive systemE (P O : Type) : Type -> Type :=
| QueueCall X (e : queueE P X) : systemE P O X
| ConsumerCall X (e : consumerE O X) : systemE P O X.

Arguments QueueCall {P O X} e.
Arguments ConsumerCall {P O X} e.

#[export] Instance queue_system P O : Subeffect (queueE P) (systemE P O).
Proof.
  by refine {| inject X e := QueueCall e;
               project X e := match e with QueueCall f => Some f | ConsumerCall _ => None end |}.
Defined.

#[export] Instance consumer_system P O : Subeffect (consumerE O) (systemE P O).
Proof.
  by refine {| inject X e := ConsumerCall e;
               project X e := match e with ConsumerCall f => Some f | QueueCall _ => None end |}.
Defined.

Section server.
Context {P O : Type} `{Object P} `{Object O}.

(** The watched resources by name, the others by namespace and name. *)
Record server := {
  time : Z;
  watched : gmap string P;
  stored : gmap (string * string) O;
}.

Definition key (o : O) : string * string := (metav1.Namespace (object_meta o), GetName o).

(** Every object is stored under its own key. *)
Definition keyed (m : gmap (string * string) O) : Prop := forall k o, m !! k = Some o -> key o = k.

Definition belongs (ns : string) (selector : option (gmap string string)) (o : O) : bool :=
  (bool_decide (ns = "") || bool_decide (metav1.Namespace (object_meta o) = ns)) &&
  match selector with None => true | Some s => bool_decide (s ⊆ GetLabels o) end.

(** What a foreground deletion leaves: the object, marked, until the garbage
    collector has deleted its dependents. *)
Definition marked (now : Z) (o : O) : O :=
  let m := object_meta o in
  set_object_meta
    {| metav1.Name := metav1.Name m; metav1.Namespace := metav1.Namespace m;
       metav1.Generation := metav1.Generation m; metav1.CreationTimestamp := metav1.CreationTimestamp m;
       metav1.DeletionTimestamp := Some now; metav1.Labels := metav1.Labels m;
       metav1.Annotations := metav1.Annotations m;
       metav1.Finalizers := if decide (metav1.FinalizerDeleteDependents ∈ metav1.Finalizers m)
                            then metav1.Finalizers m
                            else metav1.Finalizers m ++ [metav1.FinalizerDeleteDependents] |} o.

(** A deletion; the only propagation this server knows is the foreground. *)
Definition delete_object (now : Z) (o : O) (propagation : string) (m : gmap (string * string) O) :
    gmap (string * string) O * option error :=
  if decide (propagation = DeletePropagationForeground) then
    match m !! key o with
    | None => (m, Some (Foreign "NotFound"))
    | Some cur =>
      match GetDeletionTimestamp cur with
      | Some _ => (m, None)
      | None => (<[key o := marked now cur]> m, None)
      end
    end
  else (m, Some (Foreign "BadRequest")).

Definition serve (X : Type) (e : systemE P O X) (s : server) : server * X :=
  match e in systemE _ _ X return server * X with
  | QueueCall e => match e in queueE _ X return server * X with
    | GetMessage name => (s, match watched s !! name with Some p => Ok p | None => Err (Foreign "NotFound") end)
    | NewManager _ _ _ => (s, None)
    | RegisterController => (s, None)
    | StartManager => (s, None)
    end
  | ConsumerCall e => match e in consumerE _ X return server * X with
    | ListObjects ns selector =>
      (s, Ok (ClientObject <$> base.filter (fun o => belongs ns selector o = true) (map_to_list (stored s)).*2))
    | DeleteItem o propagation =>
      let '(m, err) := delete_object (time s) o propagation (stored s) in
      ({| time := time s; watched := watched s; stored := m |}, err)
    end
  end.

Context `{MetaList}.

(** What the whole cascade leaves of an object. *)
Definition cascaded (now : Z) (ns : string) (selector : option (gmap string string)) (o : O) : O :=
  if belongs ns selector o then
    match GetDeletionTimestamp o with None => marked now o | Some _ => o end
  else o.

Lemma object_key_marked now o : key (marked now o) = key o.
Proof. unfold key, GetName, marked. by rewrite object_meta_set. Qed.

Lemma deleting_marked now o : GetDeletionTimestamp (marked now o) = Some now.
Proof. unfold GetDeletionTimestamp, marked. by rewrite object_meta_set. Qed.

(** Deleting the objects of a list, one by one: the store changes under exactly
    the keys of those that were not being deleted. *)
Lemma outcome_delete_items (os : list O) s :
  NoDup (key <$> os) -> (forall o, o ∈ os -> stored s !! key o = Some o) ->
  exists m, outcome (fun X f => serve X (ConsumerCall f)) (EachListItem deleteItem tt (ClientObject <$> os)) s =
    ({| time := time s; watched := watched s; stored := m |}, (tt, None)) /\
  forall k, m !! k = match stored s !! k with
    | Some o => Some (if decide (k ∈ key <$> os) then
                        match GetDeletionTimestamp o with None => marked (time s) o | Some _ => o end else o)
    | None => None
    end.
Proof.
  revert s. induction os as [|o os IH]; intros s Hnd Hin.
  { change (ClientObject <$> []) with (@nil (runtime_object O)). rewrite EachListItem_nil. exists (stored s). split; [by destruct s|].
    intros k. destruct (stored s !! k) as [o|]; [|done]. by rewrite decide_False by set_solver. }
  change (ClientObject <$> o :: os) with (ClientObject o :: (ClientObject <$> os)).
  rewrite EachListItem_cons, outcome_bind. apply NoDup_cons in Hnd as [Ho Hnd].
  assert (stored s !! key o = Some o) as Hso by (apply Hin; set_solver).
  destruct (GetDeletionTimestamp o) as [d|] eqn:Hd.
  - assert (outcome (fun X f => serve X (ConsumerCall f)) (deleteItem tt (ClientObject o)) s = (s, (tt, None))) as ->
      by (unfold deleteItem; by rewrite Hd).
    destruct (IH s Hnd) as (m & Hm & Hk); [set_solver|]. exists m. split; [done|].
    intros k. rewrite Hk. destruct (decide (k = key o)) as [->|Hne].
    + rewrite Hso, Hd. f_equal. by repeat case_decide.
    + destruct (stored s !! k); [|done]. f_equal. by apply decide_ext; set_solver.
  - set (s1 := {| time := time s; watched := watched s; stored := <[key o := marked (time s) o]> (stored s) |}).
    assert (outcome (fun X f => serve X (ConsumerCall f)) (deleteItem tt (ClientObject o)) s = (s1, (tt, None))) as ->.
    { unfold deleteItem. rewrite Hd, outcome_bind. unfold outcome at 1. simpl. unfold delete_object.
      rewrite decide_True by done. by rewrite Hso, Hd. }
    destruct (IH s1 Hnd) as (m & Hm & Hk).
    { intros o' Ho'. simpl. rewrite lookup_insert_ne; [apply Hin; set_solver|].
      intros Heq. apply Ho. rewrite Heq. by apply list_elem_of_fmap_2. }
    exists m. split; [done|]. intros k. rewrite Hk. simpl. destruct (decide (k = key o)) as [->|Hne].
    + rewrite lookup_insert_eq, Hso, Hd. rewrite decide_False by done. by rewrite decide_True by set_solver.
    + rewrite lookup_insert_ne by done. destruct (stored s !! k); [|done]. f_equal.
      by apply decide_ext; set_solver.
Qed.

(** The store after a cascade. *)
Definition after_cascade (c : CascadingDelete) (id : string) (s : server) : server :=
  {| time := time s; watched := watched s;
     stored := cascaded (time s) (namespace c) (labelSelector c id) <$> stored s |}.

Lemma belongs_marked ns selector now o : belongs ns selector (marked now o) = belongs ns selector o.
Proof. unfold belongs, marked, GetLabels. by rewrite object_meta_set. Qed.

Lemma cascaded_idemp now ns selector o :
  cascaded now ns selector (cascaded now ns selector o) = cascaded now ns selector o.
Proof.
  unfold cascaded. destruct (belongs ns selector o) eqn:Hb; [|by rewrite Hb].
  destruct (GetDeletionTimestamp o) eqn:Hd; [by rewrite Hb, Hd|]. by rewrite belongs_marked, Hb, deleting_marked.
Qed.

Lemma key_cascaded now ns selector o : key (cascaded now ns selector o) = key o.
Proof. unfold cascaded. repeat case_match; by rewrite ?object_key_marked. Qed.

Lemma outcome_Consume (c : CascadingDelete) envelope d s :
  messaging.DeletionTimestamp envelope = Some d -> keyed (stored s) ->
  outcome (fun X f => serve X (ConsumerCall f)) (Consume c envelope) s =
    (after_cascade c (messaging.ResourceID envelope) s, None).
Proof.
  intros Hd Hkeyed. unfold Consume. rewrite Hd, outcome_bind. unfold outcome at 1. simpl.
  set (selector := labelSelector c _).
  set (os := base.filter (fun o => belongs (namespace c) selector o = true) (map_to_list (stored s)).*2).
  assert (forall o, o ∈ os <-> stored s !! key o = Some o /\ belongs (namespace c) selector o = true) as Hos.
  { intros o. unfold os. rewrite list_elem_of_filter, list_elem_of_fmap. split.
    - intros (Hb & [k o'] & -> & Hin%elem_of_map_to_list). simpl in *. by rewrite (Hkeyed _ _ Hin).
    - intros [Hs Hb]. split; [done|]. exists (key o, o). split; [done|]. by apply elem_of_map_to_list. }
  destruct (outcome_delete_items os s) as (m & Hm & Hk).
  - assert (NoDup (key <$> (map_to_list (stored s)).*2)) as Hnd.
    { replace (key <$> _) with (map_to_list (stored s)).*1; [apply NoDup_fst_map_to_list|].
      rewrite <-list_fmap_compose. apply list_fmap_ext.
      intros i [k o] Hi%list_elem_of_lookup_2%elem_of_map_to_list. symmetry. by apply Hkeyed. }
    unfold os. revert Hnd. generalize ((map_to_list (stored s)).*2). intros l. induction l as [|o l IH]; [done|].
    rewrite fmap_cons, NoDup_cons. intros [Ho Hnd]. rewrite filter_cons. case_decide; [|auto].
    rewrite fmap_cons. apply NoDup_cons. split; [|auto]. contradict Ho.
    apply list_elem_of_fmap in Ho as (o' & -> & Ho'%list_elem_of_filter). apply list_elem_of_fmap_2. tauto.
  - intros o Ho. by apply Hos.
  - rewrite outcome_bind, Hm, outcome_ret. unfold after_cascade. f_equal. f_equal. apply map_eq. intros k.
    rewrite Hk, lookup_fmap. destruct (stored s !! k) as [o|] eqn:Hso; [|done]. simpl. f_equal.
    unfold cascaded. fold selector. pose proof (Hkeyed _ _ Hso) as Hko. destruct (belongs (namespace c) selector o) eqn:Hb.
    + rewrite decide_True; [done|]. rewrite <-Hko. apply list_elem_of_fmap_2, Hos. by rewrite Hko.
    + rewrite decide_False; [done|]. intros (o' & Heq & [Hs' Hb']%Hos)%list_elem_of_fmap. rewrite Heq in *. congruence.
Qed.

(** C11 On an API server the cascade is complete and safe to repeat: delivering
    the deletion of a watched resource leaves every resource that belongs to it
    being deleted, and nothing else changed; the event is acknowledged, and a
    redelivery changes nothing. *)
Theorem deletion_cascades `{ApiErrors} (q : MessageQueue (P := P) (E := systemE P O)) (c : CascadingDelete)
    object name parent d p s :
  prototype q = ClientObject object -> consumers q = [fun envelope => translate (Consume c envelope)] ->
  Reconcile q name = Some p ->
  watched s !! name = Some parent -> GetDeletionTimestamp parent = Some d -> keyed (stored s) ->
  let s' := after_cascade c (GetName parent) s in
  outcome serve p s = (s', None) /\ outcome serve p s' = (s', None) /\
  (forall k o, stored s' !! k = Some o -> belongs (namespace c) (labelSelector c (GetName parent)) o = true ->
    is_Some (GetDeletionTimestamp o)).
Proof.
  intros Hproto Hcs Hp Hw Hd Hkeyed s'. unfold Reconcile in Hp. rewrite Hproto in Hp.
  destruct (has_client q); [|done]. rewrite Hcs in Hp. simplify_eq.
  assert (forall s1, watched s1 = watched s -> keyed (stored s1) ->
    outcome serve (r ← call (inject (GetMessage name));
      match r with
      | Err err => if IsNotFound err then mret None else mret (Some err)
      | Ok object => deliver [fun envelope => translate (Consume c envelope)] (envelope_of object)
      end) s1 = (after_cascade c (GetName parent) s1, None)) as Hrun.
  { intros s1 Hw1 Hk1. rewrite outcome_bind. unfold outcome at 1. simpl. rewrite Hw1, Hw. simpl.
    unfold check. rewrite outcome_bind, outcome_translate. simpl.
    erewrite (outcome_Consume c (envelope_of parent) d s1); [|done..]. done. }
  split_and!.
  - by apply Hrun.
  - rewrite Hrun; [|done|].
    + unfold s', after_cascade. f_equal. simpl. f_equal. rewrite <-map_fmap_compose.
      apply map_fmap_ext. intros k o _. apply cascaded_idemp.
    + intros k o. simpl. rewrite lookup_fmap, fmap_Some. intros (o' & Ho' & ->). rewrite key_cascaded. by apply Hkeyed.
  - intros k o. simpl. rewrite lookup_fmap, fmap_Some. intros (o' & Ho' & ->). unfold cascaded.
    destruct (belongs _ _ o') eqn:Hb; [|by rewrite Hb]. destruct (GetDeletionTimestamp o') eqn:Ho; [by eauto|].
    rewrite deleting_marked. eauto.
Qed.

End server.

(** ** Witnesses *)

Module witnesses.

#[local] Existing Instances reference.api_errors reference.meta_list.

#[export] Instance meta_object : Object metav1.ObjectMeta.
Proof. by refine {| object_meta m := m; set_object_meta m _ := m |}. Defined.

Definition resource (name : string) (labels : gmap string string) (deletion : option Z) : metav1.ObjectMeta :=
  {| metav1.Name := name; metav1.Namespace := "system"; metav1.Generation := 1; metav1.CreationTimestamp := 1;
     metav1.DeletionTimestamp := deletion; metav1.Labels := labels; metav1.Annotations := ∅;
     metav1.Finalizers := ["unikorn"] |}.

Definition project : metav1.ObjectMeta := resource "project" ∅ (Some 5%Z).
Definition mine : metav1.ObjectMeta := resource "cluster-a" {[ "project" := "project" ]} None.
Definition other : metav1.ObjectMeta := resource "cluster-b" {[ "project" := "another" ]} None.

Definition cascade : CascadingDelete := NewCascadingDelete [WithNamespace "system"; WithResourceLabel "project"].

Definition queue : MessageQueue (P := metav1.ObjectMeta) (E := systemE metav1.ObjectMeta metav1.ObjectMeta) :=
  {| scheme := "scheme"; prototype := ClientObject project; has_client := true;
     consumers := [fun envelope => translate (Consume cascade envelope)] |}.

Definition state : server (P := metav1.ObjectMeta) (O := metav1.ObjectMeta) :=
  {| time := 9; watched := {[ "project" := project ]};
     stored := {[ ("system", "cluster-a") := mine; ("system", "cluster-b") := other ]} |}.

Lemma keyed_state : keyed (stored state).
Proof.
  unfold keyed, state. cbn [stored]. intros k o Hk%lookup_insert_Some. destruct Hk as [[<- <-]|[_ Hk]]; [done|].
  apply lookup_singleton_Some in Hk as [<- <-]. done.
Qed.

Definition delivery : prog (systemE metav1.ObjectMeta metav1.ObjectMeta) (option error) :=
  match Reconcile queue "project" with Some p => p | None => mret None end.

Lemma project_watched : watched state !! "project" = Some project.
Proof. reflexivity. Qed.

Lemma deletion_cascades_witness : outcome serve delivery state = (after_cascade cascade "project" state, None).
Proof.
  exact (proj1 (deletion_cascades queue cascade project "project" project 5 delivery state
    eq_refl eq_refl eq_refl project_watched eq_refl keyed_state)).
Defined.

Definition cascade_trace : trace (consumerE metav1.ObjectMeta) :=
  [Ev (ListObjects "system" (Some {[ "project" := "project" ]})) (Ok [ClientObject mine]);
   Ev (DeleteItem mine DeletePropagationForeground) None].

Lemma cascade_exact_witness :
  exists answer t', cascade_trace = Ev (ListObjects "system" (labelSelector cascade "project")) answer :: t'.
Proof.
  destruct (cascade_exact cascade (envelope_of project) cascade_trace None) as (answer & t' & Ht & _); [solve_exec|].
  exists answer, t'. exact Ht.
Defined.

Definition unreadable : trace (systemE metav1.ObjectMeta metav1.ObjectMeta) :=
  [Ev (QueueCall (GetMessage "project")) (Err (Foreign "timeout"))].

Lemma delivery_acknowledged_witness :
  exists answer t', unreadable = Ev (inject (GetMessage "project")) answer :: t'.
Proof.
  destruct (delivery_acknowledged queue project "project" delivery unreadable (Some (Foreign "timeout")))
    as (answer & t' & Ht & _); [reflexivity|reflexivity|solve_exec|]. exists answer, t'. exact Ht.
Defined.

End witnesses.
