(* ===== verification/Middleware.v ===== *)
(** * Middleware: the pipeline a request passes before its handler

    pkg/server/middleware and pkg/openapi/helpers.  A handler is a function from
    requests to programs; a middleware makes a handler from the next one, so a
    stack of them is composed as the servers do.  OpenTelemetry.v has the
    tracing middleware's attributes. *)

From S2P Require Import Prelude Errors GoStrings Json Effects Util ServerErrors.
From Stdlib Require Import Ascii.

(** The parts of net/http the middleware reads.  [route_info] and [deadline] are
    values of the request's context. *)
Module http.

Abbreviation Header := (gmap string (list string)).

Record URL := { Scheme : string; Host : string; Path : string; RawQuery : string; Fragment : string }.

Definition MethodOptions : string := "OPTIONS".
Definition StatusOK : Z := 200.
Definition StatusNoContent : Z := 204.

(** http.Header.Get: the first value of the canonical key. *)
Definition Header_Get (h : Header) (key : string) : string :=
  match h !! CanonicalMIMEHeaderKey key with Some (v :: _) => v | _ => "" end.

(** http.Header.Del. *)
Definition Header_Del (h : Header) (key : string) : Header := delete (CanonicalMIMEHeaderKey key) h.

End http.

(** github.com/getkin/kin-openapi and go-chi: the specification's paths, and the
    router's pattern and parameters for a method and path. *)
Class OpenAPI := {
  PathItem : Type;
  Operation : Type;
  Operations : PathItem -> gmap string Operation;
  GetOperation : PathItem -> string -> option Operation;
  Paths_Find : string -> option PathItem;
  Routes_Find : string -> string -> string * list (string * string);
  GetOperation_spec item method : GetOperation item method = Operations item !! method;
}.

(** A runtime panic: a call that is never answered. *)
Inductive panicE : Type -> Type :=
| Panic : panicE Empty_set.

Definition panic {E : Type -> Type} `{Subeffect panicE E} {A : Type} : prog E A :=
  Call (inject Panic) (fun x : Empty_set => match x with end).

Section requests.
Context `{OpenAPI}.

(** routers.Route. *)
Record Route := {
  Route_Path : string;
  Route_PathItem : PathItem;
  Route_Method : string;
  Route_Operation : Operation;
}.

Record RouteInfo := {
  Info_Route : Route;
  Info_Parameters : gmap string string;
}.

Record Request := {
  Method : string;
  Proto : string;
  Url : http.URL;
  Headers : http.Header;
  ContentLength : Z;
  RemoteAddr : string;
  route_info : option RouteInfo;
  deadline : option Z;
}.

Definition with_method (m : string) (r : Request) : Request :=
  {| Method := m; Proto := Proto r; Url := Url r; Headers := Headers r; ContentLength := ContentLength r;
     RemoteAddr := RemoteAddr r; route_info := route_info r; deadline := deadline r |}.

Definition with_route (i : RouteInfo) (r : Request) : Request :=
  {| Method := Method r; Proto := Proto r; Url := Url r; Headers := Headers r; ContentLength := ContentLength r;
     RemoteAddr := RemoteAddr r; route_info := Some i; deadline := deadline r |}.

Definition with_deadline (d : Z) (r : Request) : Request :=
  {| Method := Method r; Proto := Proto r; Url := Url r; Headers := Headers r; ContentLength := ContentLength r;
     RemoteAddr := RemoteAddr r; route_info := route_info r; deadline := Some d |}.

Definition Handler (E : Type -> Type) : Type := Request -> prog E unit.

End requests.

(** ** pkg/openapi/helpers *)

Module helpers.
Section helpers.
Context `{OpenAPI} (url_String : http.URL -> string).

Definition FindRoute (r : Request) : result (Route * gmap string string) :=
  let (routePath, params) := Routes_Find (Method r) (http.Path (Url r)) in
  if decide (routePath = "") then
    Err (servererrors.as_error (servererrors.WithValues ["path"; url_String (Url r)] servererrors.HTTPNotFound))
  else
    match Paths_Find routePath with
    | None => Err (servererrors.as_error (servererrors.WithValues ["path"; url_String (Url r)] servererrors.HTTPNotFound))
    | Some path =>
      match GetOperation path (Method r) with
      | None => Err (servererrors.as_error (servererrors.WithValues ["path"; url_String (Url r); "method"; Method r]
                  servererrors.HTTPMethodNotAllowed))
      | Some operation =>
        Ok ({| Route_Path := routePath; Route_PathItem := path; Route_Method := Method r;
               Route_Operation := operation |},
            fold_left (fun m '(k, v) => <[ k := v ]> m) params ∅)
      end
    end.

End helpers.
End helpers.

(** ** pkg/server/middleware/routeresolver *)

Module routeresolver.
Section routeresolver.
Context `{OpenAPI} `{MapOrder} (url_String : http.URL -> string) (error_text : error -> string) (trace_id : string).
Context {E : Type -> Type} `{Subeffect httpE E}.

Definition FromContext (r : Request) : result RouteInfo :=
  match route_info r with
  | Some v => Ok v
  | None => Err (Wrapped (Sentinel ErrKey) "route info not in context")
  end.

Definition missing_method : error :=
  servererrors.as_error (servererrors.OAuth2InvalidRequest [OString "OPTIONS missing Access-Control-Request-Method header"]).

Definition Middleware (next : Handler E) : Handler E := fun r =>
  let resolve routeRequest :=
    match helpers.FindRoute url_String routeRequest with
    | Err err => translate (servererrors.HandleError error_text trace_id err)
    | Ok (route, parameters) =>
      next (with_route {| Info_Route := route; Info_Parameters := parameters |} r)
    end in
  if decide (Method r = http.MethodOptions) then
    let method := http.Header_Get (Headers r) "Access-Control-Request-Method" in
    if decide (method = "") then translate (servererrors.HandleError error_text trace_id missing_method)
    else resolve (with_method method r)
  else resolve r.

End routeresolver.
End routeresolver.

(** ** pkg/server/middleware/cors *)

Module cors.
Section cors.
Context `{OpenAPI} `{MapOrder} (error_text : error -> string) (trace_id : string).
Context {E : Type -> Type} `{Subeffect httpE E} `{Subeffect panicE E}.

Record Options := { AllowedOrigins : list string; MaxAge : Z }.

Definition add_header (key value : string) : prog E unit := call (inject (HeaderAdd key value)).

Definition setAllowOrigin (o : Options) (r : Request) : prog E unit :=
  let origin := http.Header_Get (Headers r) "Origin" in
  if decide (origin <> "" /\ origin ∈ AllowedOrigins o) then add_header "Access-Control-Allow-Origin" origin
  else
    match AllowedOrigins o with
    | first :: _ => add_header "Access-Control-Allow-Origin" first
    | [] => panic
    end.

(** The methods a preflight allows: util.Keys of the path's operations. *)
Definition allowed_methods (i : RouteInfo) : list string :=
  util.Keys (Operations (Route_PathItem (Info_Route i))) ++ [http.MethodOptions].

Definition allowed_headers : list string := ["Authorization"; "Content-Type"; "traceparent"; "tracestate"].

Definition Middleware (o : Options) (next : Handler E) : Handler E := fun r =>
  _ ← setAllowOrigin o r;
  if decide (Method r <> http.MethodOptions) then next r
  else
    let method := http.Header_Get (Headers r) "Access-Control-Request-Method" in
    if decide (method = "") then
      translate (servererrors.HandleError error_text trace_id routeresolver.missing_method)
    else
      match routeresolver.FromContext r with
      | Err err => translate (servererrors.HandleError error_text trace_id err)
      | Ok route =>
        _ ← add_header "Access-Control-Allow-Methods" (strings_Join ", " (allowed_methods route));
        _ ← add_header "Access-Control-Allow-Headers" (strings_Join ", " allowed_headers);
        _ ← add_header "Access-Control-Max-Age" (itoa (MaxAge o));
        call (inject (WriteHeader http.StatusNoContent))
      end.

End cors.
End cors.

(** ** pkg/server/middleware/timeout *)

Module timeout.
Section timeout.
Context `{OpenAPI} {E : Type -> Type}.

(** context.WithTimeout at a time: the earlier of the parent's deadline and the
    new one. *)
Definition WithTimeout (now timeout : Z) (parent : option Z) : Z :=
  match parent with Some d => Z.min d (now + timeout) | None => now + timeout end.

(** [now]: the calls that read the clock. *)
Definition Middleware (clock : prog E Z) (timeout : Z) (next : Handler E) : Handler E := fun r =>
  now ← clock;
  next (with_deadline (WithTimeout now timeout (deadline r)) r).

End timeout.
End timeout.

(** ** pkg/server/middleware/logging *)

(** The calls of the logger, and what httpsnoop.CaptureMetrics and the response
    writer's headers are once the next handler returned. *)
Record Metrics := { Code : Z; Duration : Z; Written : Z }.

Record RequestLog := {
  log_Protocol : string; log_Scheme : string; log_Method : string; log_Path : string; log_Host : string;
  log_Query : string; log_Fragment : string; log_Length : Z; log_Address : string; log_Headers : http.Header;
}.

Record ResponseLog := {
  response_Code : Z; response_Length : Z; response_TimeNS : Z; response_Headers : http.Header;
}.

Inductive logE : Type -> Type :=
| DebugEnabled : logE bool
| LogRequest (request : RequestLog) : logE unit
| LogResponse (request : RequestLog) (response : ResponseLog) : logE unit
| CapturedMetrics : logE Metrics
| ResponseHeader : logE http.Header.

Module logging.
Section logging.
Context `{OpenAPI} {E : Type -> Type} `{Subeffect logE E}.

Definition blacklist : list string := ["Authorization"; "Cookie"; "User-Agent"; "Set-Cookie"; "X-Forwarded-For"].

(** headers works on a clone. *)
Definition headers (h : http.Header) : http.Header :=
  if decide (h = ∅) then ∅ else fold_left http.Header_Del blacklist h.

Definition request (r : Request) : RequestLog :=
  {| log_Protocol := Proto r; log_Scheme := http.Scheme (Url r); log_Method := Method r;
     log_Path := http.Path (Url r); log_Host := http.Host (Url r); log_Query := http.RawQuery (Url r);
     log_Fragment := http.Fragment (Url r); log_Length := ContentLength r; log_Address := RemoteAddr r;
     log_Headers := headers (Headers r) |}.

Definition response (header : http.Header) (metrics : Metrics) : ResponseLog :=
  {| response_Code := Code metrics; response_Length := Written metrics; response_TimeNS := Duration metrics;
     response_Headers := headers header |}.

Definition logRequest (r : Request) : prog E unit :=
  enabled ← call (inject DebugEnabled);
  if negb enabled then mret tt else call (inject (LogRequest (request r))).

Definition logResponse (r : Request) (metrics : Metrics) : prog E unit :=
  enabled ← call (inject DebugEnabled);
  if negb enabled && (Code metrics <? 400)%Z then mret tt
  else
    header ← call (inject ResponseHeader);
    call (inject (LogResponse (request r) (response header metrics))).

Definition Middleware (next : Handler E) : Handler E := fun r =>
  _ ← logRequest r;
  _ ← next r;
  metrics ← call (inject CapturedMetrics);
  logResponse r metrics.

End logging.
End logging.

(** ** pkg/server/middleware: response capture *)

(** The calls of a handler on its response writer, with what they answer: how
    many bytes of a write were accepted, and how many were read from a source. *)
Inductive writerE : Type -> Type :=
| RwWrite (p : string) : writerE (nat * option error)
| RwWriteHeader (statuscode : Z) : writerE unit
| RwReadFrom (src : string) : writerE (nat * (Z * option error)).

Module middleware.

Record Capture := { body : string; code : Z }.

Definition NewCapture : Capture := {| body := ""; code := http.StatusOK |}.

Definition StatusCode (c : Capture) : Z := code c.
Definition Body (c : Capture) : string := body c.

Definition take (n : nat) (s : string) : string := String.substring 0 n s.

(** What the hooks of Wrap do around each call of the handler [p]; the handler
    sees the answers of the writer below. *)
Fixpoint Wrap {A : Type} (p : prog writerE A) (c : Capture) : prog writerE (Capture * A) :=
  match p with
  | Ret a => Ret (c, a)
  | Call e k =>
    match e in writerE X return (X -> Capture -> prog writerE (Capture * A)) -> prog writerE (Capture * A) with
    | RwWrite p => fun continue =>
      n ← call (RwWrite p);
      continue n {| body := body c +:+ take n.1 p; code := code c |}
    | RwWriteHeader statuscode => fun continue =>
      x ← call (RwWriteHeader statuscode);
      continue x {| body := body c; code := statuscode |}
    | RwReadFrom src => fun continue =>
      n ← call (RwReadFrom src);
      continue n {| body := body c +:+ take n.1 src; code := code c |}
    end (fun x c' => Wrap (k x) c')
  end.

(** LoggingResponseWriter: a writer and the capture it is wrapped in. *)
Definition NewLoggingResponseWriter {A : Type} (p : prog writerE A) : prog writerE (Capture * A) := Wrap p NewCapture.

Definition CaptureResponse (next : prog writerE unit) : prog writerE Capture :=
  r ← Wrap next NewCapture; mret r.1.

End middleware.

(** ** What the pipeline does *)

Section pipeline.
Context `{OpenAPI} `{MapOrder} (url_String : http.URL -> string) (error_text : error -> string) (trace_id : string).
Context {E : Type -> Type} `{Subeffect httpE E} `{Subeffect panicE E}.

(** Route resolution, then CORS, then the handler: the order of the servers. *)
Definition pipeline (o : cors.Options) (next : Handler E) : Handler E :=
  routeresolver.Middleware url_String error_text trace_id (cors.Middleware error_text trace_id o next).

(** The route of a request, as its middleware and handlers see it. *)
Definition resolved (r : Request) : result RouteInfo :=
  match helpers.FindRoute url_String r with
  | Err err => Err err
  | Ok (route, parameters) => Ok {| Info_Route := route; Info_Parameters := parameters |}
  end.

(** A header that was added to the response. *)
Definition header_event (key value : string) : event E := Ev (inject (HeaderAdd key value)) tt.

(** A response that reports an error. *)
Definition reports (err : error) (t : trace E) : Prop :=
  exec (translate (servererrors.HandleError error_text trace_id err)) t tt.

(** The origin a response allows. *)
Definition allowed_origin (o : cors.Options) (r : Request) (origin : string) : Prop :=
  origin ∈ cors.AllowedOrigins o /\
  (http.Header_Get (Headers r) "Origin" <> "" -> http.Header_Get (Headers r) "Origin" ∈ cors.AllowedOrigins o ->
   origin = http.Header_Get (Headers r) "Origin").

Lemma setAllowOrigin_exec o r t u :
  exec (cors.setAllowOrigin (E := E) o r) t u ->
  exists origin, t = [header_event "Access-Control-Allow-Origin" origin] /\ allowed_origin o r origin.
Proof.
  unfold cors.setAllowOrigin, allowed_origin. set (origin := http.Header_Get _ _).
  intros Hx. case_decide as Ho.
  - apply exec_call in Hx as ->. destruct u. exists origin. split_and!; [done|apply Ho|done].
  - destruct (cors.AllowedOrigins o) as [|first rest] eqn:Ha.
    + destruct Hx as ([] & _).
    + apply exec_call in Hx as ->. destruct u. exists first. split_and!; [done|set_solver|].
      intros Hne Hin. by destruct Ho.
Qed.

(** The last of the parameters of a name is kept. *)
Lemma parameters_map (parameters : list (string * string)) :
  fold_left (fun m '(k, v) => <[ k := v ]> m) parameters ∅ = list_to_map (M := gmap string string) (reverse parameters).
Proof.
  induction parameters as [|[k v] l IH] using rev_ind; [done|].
  rewrite fold_left_app, reverse_app. simpl. by rewrite IH.
Qed.

(** A route that was found serves the method it was looked up for. *)
Lemma resolved_serves r info :
  resolved r = Ok info -> is_Some (Operations (Route_PathItem (Info_Route info)) !! Method r).
Proof.
  unfold resolved, helpers.FindRoute. destruct (Routes_Find _ _) as [routePath params]. case_decide; [done|].
  destruct (Paths_Find routePath) as [path|]; [|done]. rewrite GetOperation_spec.
  destruct (Operations path !! Method r) as [op|] eqn:Ho; [|done]. intros [= <-]. simpl. rewrite Ho. by eexists.
Qed.

(** The client is told this error, and nothing else is done. *)
Definition told (status : Z) (code description : string) (t : trace E) : Prop :=
  exists t0 answer, t = map inject_event t0 /\
    response t0 = sent trace_id {| pub_status := status; pub_code := code; pub_description := description; pub_header := ∅ |} answer.

Lemma reports_told err status code description values t :
  err = servererrors.as_error (servererrors.WithValues values (servererrors.newError status code [OString description])) ->
  reports err t -> told status code description t.
Proof.
  intros -> (t0 & -> & (answer & Hr)%HandleError_response)%exec_translate. exists t0, answer. split; [done|].
  rewrite Hr. unfold public, servererrors.asError, servererrors.as_error, servererrors.WithValues.
  cbn [errors_as_http http_status http_code http_description http_header]. by rewrite newError_description.
Qed.

(** C33 A request other than OPTIONS reaches the handler exactly when the router
    knows its path, the specification has that path and the path an operation
    for the method: then with that route and the router's parameters in its
    context, and one allowed origin already on the response.  A path unknown to
    either is answered 404 and a method the path lacks 405, and the handler is
    not called.  (OPTIONS requests are preflights: [preflight_answered].) *)
Theorem request_reaches_handler o next r t :
  Method r <> http.MethodOptions -> exec (pipeline o next r) t tt ->
  let (routePath, parameters) := Routes_Find (Method r) (http.Path (Url r)) in
  (routePath = "" \/ Paths_Find routePath = None -> told 404 "not_found" "resource not found" t) /\
  (forall item, routePath <> "" -> Paths_Find routePath = Some item ->
    match Operations item !! Method r with
    | None => told 405 "method_not_allowed" "the requested method was not allowed" t
    | Some operation =>
      exists origin t', t = header_event "Access-Control-Allow-Origin" origin :: t' /\ allowed_origin o r origin /\
        exec (next (with_route {|
          Info_Route := {| Route_Path := routePath; Route_PathItem := item; Route_Method := Method r; Route_Operation := operation |};
          Info_Parameters := list_to_map (reverse parameters) |} r)) t' tt
    end).
Proof.
  unfold pipeline, routeresolver.Middleware, helpers.FindRoute. intros Hm Hx. rewrite decide_False in Hx by done.
  destruct (Routes_Find _ _) as [routePath parameters].
  case_decide as Hp; [split; [intros _; exact (reports_told _ _ _ _ _ _ eq_refl Hx)|done]|].
  destruct (Paths_Find routePath) as [item|]; [|split; [intros _; exact (reports_told _ _ _ _ _ _ eq_refl Hx)|done]].
  split; [by intros []|]. intros ? _ [= <-]. rewrite GetOperation_spec in Hx.
  destruct (Operations item !! Method r) as [operation|]; [|exact (reports_told _ _ _ _ _ _ eq_refl Hx)].
  unfold cors.Middleware in Hx. apply exec_bind in Hx as (t1 & t2 & u & -> & Ho & Hx).
  apply setAllowOrigin_exec in Ho as (origin & -> & Ho). rewrite decide_True in Hx by done.
  exists origin, t2. split_and!; [done|apply Ho|]. rewrite <-parameters_map. exact Hx.
Qed.

(** A preflight never reaches the handler.  It is refused when it does not
    say which method it is for, or when that method has no route; otherwise the
    answer is 204 with one allowed origin and the methods of the path, the one
    it asked about among them. *)
Theorem preflight_answered o next r t :
  Method r = http.MethodOptions -> exec (pipeline o next r) t tt ->
  let method := http.Header_Get (Headers r) "Access-Control-Request-Method" in
  (method = "" /\ reports routeresolver.missing_method t) \/
  (method <> "" /\ exists err, resolved (with_method method r) = Err err /\ reports err t) \/
  (exists info origin, resolved (with_method method r) = Ok info /\ allowed_origin o r origin /\
    t = [header_event "Access-Control-Allow-Origin" origin;
         header_event "Access-Control-Allow-Methods" (strings_Join ", " (cors.allowed_methods info));
         header_event "Access-Control-Allow-Headers" (strings_Join ", " cors.allowed_headers);
         header_event "Access-Control-Max-Age" (itoa (cors.MaxAge o));
         Ev (inject (WriteHeader http.StatusNoContent)) tt] /\
    method ∈ cors.allowed_methods info).
Proof.
  intros Hm Hx method. unfold pipeline, routeresolver.Middleware in Hx. rewrite decide_True in Hx by done.
  fold method in Hx. destruct (decide (method = "")) as [Hme|Hme]; [by left|right].
  pose proof (resolved_serves (with_method method r)) as Hserves. unfold resolved in *.
  destruct (helpers.FindRoute url_String (with_method method r)) as [[route parameters]|err]; [right|left; by eauto].
  specialize (Hserves _ eq_refl). eexists. unfold cors.Middleware in Hx.
  apply exec_bind in Hx as (t1 & t2 & u & -> & Ho & Hx). apply setAllowOrigin_exec in Ho as (origin & -> & Ho).
  exists origin. split_and!; [done|apply Ho| |].
  - destruct (decide (Method (with_route _ r) <> http.MethodOptions)) as [Hne|_]; [by destruct (Hne Hm)|]. cbn [Headers with_route] in Hx. fold method in Hx.
    rewrite decide_False in Hx by done. simpl in Hx. unfold cors.add_header in Hx. exec_inv.
    repeat match goal with u : unit |- _ => destruct u end. done.
  - unfold cors.allowed_methods. rewrite Keys_map_keys, elem_of_app, elem_of_map_keys. left. apply Hserves.
Qed.

End pipeline.

(** ** What is logged *)

Section logged.
Context `{OpenAPI} {E : Type -> Type} `{Subeffect logE E}.

Lemma headers_lookup (h : http.Header) k :
  logging.headers h !! k = if decide (k ∈ logging.blacklist) then None else h !! k.
Proof.
  unfold logging.headers. case_decide as Hh; [subst; rewrite lookup_empty; by case_decide|].
  assert (CanonicalMIMEHeaderKey <$> logging.blacklist = logging.blacklist) as Hcanon by done.
  assert (forall keys, fold_left http.Header_Del keys h !! k =
    if decide (k ∈ CanonicalMIMEHeaderKey <$> keys) then None else h !! k) as Hdel; [|by rewrite Hdel, Hcanon].
  intros keys. clear. revert h. induction keys as [|key keys IH]; intros h; [by rewrite decide_False by set_solver|].
  simpl. rewrite IH. unfold http.Header_Del. destruct (decide (k = CanonicalMIMEHeaderKey key)) as [->|Hne].
  - rewrite lookup_delete_eq. rewrite (decide_True (P := _ ∈ _ :: _)) by set_solver. by case_decide.
  - rewrite lookup_delete_ne by done. apply decide_ext. set_solver.
Qed.

(** C34 The logging middleware hands the request on as it came and logs none of
    its sensitive headers, nor the response's: the other headers are logged as
    they are.  A response is logged when debugging or when it is an error. *)
Theorem logging_redacts (next : Handler E) r t :
  exec (logging.Middleware next r) t tt ->
  exists debug1 debug2 t1 t2 t3 metrics,
    t = t1 ++ t2 ++ Ev (inject CapturedMetrics) metrics :: t3 /\ exec (next r) t2 tt /\
    (t1 = [Ev (inject DebugEnabled) debug1] /\ debug1 = false \/
     t1 = [Ev (inject DebugEnabled) debug1; Ev (inject (LogRequest (logging.request r))) tt] /\ debug1 = true) /\
    (t3 = [Ev (inject DebugEnabled) debug2] /\ debug2 = false /\ (Code metrics < 400)%Z \/
     exists header, t3 = [Ev (inject DebugEnabled) debug2; Ev (inject ResponseHeader) header;
         Ev (inject (LogResponse (logging.request r) (logging.response header metrics))) tt] /\
       (debug2 = true \/ 400 <= Code metrics)%Z /\
       forall k, response_Headers (logging.response header metrics) !! k =
         if decide (k ∈ logging.blacklist) then None else header !! k) /\
    (forall k, log_Headers (logging.request r) !! k = if decide (k ∈ logging.blacklist) then None else Headers r !! k).
Proof.
  unfold logging.Middleware. intros Hx.
  apply exec_bind in Hx as (t1 & t' & [] & -> & Hreq & Hx).
  apply exec_bind in Hx as (t2 & t'' & [] & -> & Hnext & Hx).
  apply exec_bind in Hx as (t3 & t4 & metrics & -> & ->%exec_call & Hx).
  apply exec_bind in Hreq as (t5 & t6 & debug1 & -> & ->%exec_call & Hreq).
  apply exec_bind in Hx as (t7 & t8 & debug2 & -> & ->%exec_call & Hx).
  exists debug1, debug2. eexists _, t2, _, metrics. split_and!; [done|done| | |intros k; apply headers_lookup].
  - destruct debug1; simpl in Hreq; [right|left]; by exec_inv.
  - clear Hreq. destruct debug2; simpl in Hx.
    + right. exec_inv. eexists. split_and!; [done|by left|]. intros k. apply headers_lookup.
    + destruct (Z.ltb_spec (Code metrics) 400); [left; by exec_inv|right].
      exec_inv. eexists. split_and!; [done|by right|]. intros k. apply headers_lookup.
Qed.

End logged.

(** ** What is captured *)

Section captured.
Implicit Types (t : trace writerE).

(** The bytes the writer below took, and the code it was given last. *)
Definition accepted_bytes t : string :=
  foldr String.append "" (map (fun ev => match ev with Ev e x =>
    match e in writerE X return X -> string with
    | RwWrite p => fun n => middleware.take n.1 p
    | RwWriteHeader _ => fun _ => ""
    | RwReadFrom src => fun n => middleware.take n.1 src
    end x end) t).

Definition header_code (ev : event writerE) : option Z :=
  match ev with Ev e _ => match e with RwWriteHeader c => Some c | _ => None end end.

Definition last_code (default : Z) t : Z :=
  fold_left (fun c ev => match header_code ev with Some c' => c' | None => c end) t default.

(** net/http: the status is that of the first header that is not informational,
    or 200 when the body comes first. *)
Definition informational (c : Z) : bool := (100 <=? c)%Z && (c <=? 199)%Z && negb (c =? 101)%Z.

Fixpoint sent_status t : Z :=
  match t with
  | [] => http.StatusOK
  | ev :: t' =>
    match header_code ev with
    | Some c => if informational c then sent_status t' else c
    | None => http.StatusOK
    end
  end.

(** Handlers that set the status first, once. *)
Definition header_first t : Prop :=
  match t with
  | [] => True
  | ev :: t' => Forall (fun ev => header_code ev = None) t' /\
      match header_code ev with Some c => informational c = false | None => True end
  end.


Lemma exec_Wrap {A} (p : prog writerE A) c t c' r :
  exec (middleware.Wrap p c) t (c', r) ->
  exec p t r /\ middleware.body c' = middleware.body c +:+ accepted_bytes t /\
  middleware.code c' = last_code (middleware.code c) t.
Proof.
  revert c t. induction p as [a|X e k IH]; intros c t Hx; simpl in Hx.
  - destruct Hx as [-> ?]. simplify_eq. split_and!; [done| |done]. by rewrite string_append_nil_r.
  - destruct e as [p|code|src]; simpl in Hx;
      destruct Hx as (n & t' & -> & (Hp & Hb & Hc)%IH); (split_and!; [by exists n, t'| |done]);
      rewrite Hb; simpl; by rewrite <-?string_append_assoc.
Qed.

Lemma last_code_no_header d t : Forall (fun ev => header_code ev = None) t -> last_code d t = d.
Proof. unfold last_code. induction 1 as [|ev t Hev _ IH]; simpl; [done|]. by rewrite Hev. Qed.

(** Capturing a response changes nothing for the handler and the client, and
    records exactly the bytes the writer took; the status it records is the one
    the client got, for a handler that sets it first and once. *)
Theorem capture_faithful (p : prog writerE unit) t c :
  exec (middleware.CaptureResponse p) t c ->
  exec p t tt /\ middleware.Body c = accepted_bytes t /\
  (header_first t -> middleware.StatusCode c = sent_status t).
Proof.
  unfold middleware.CaptureResponse. intros Hx.
  apply exec_bind in Hx as (t1 & t2 & [c' []] & -> & Hx & [-> ->]%exec_mret). rewrite app_nil_r.
  apply exec_Wrap in Hx as (Hp & Hb & Hc). split_and!; [done|done|].
  unfold middleware.StatusCode. cbn [fst]. rewrite Hc. clear. destruct t1 as [|ev t]; [done|].
  intros [Ht Hev].
  change (last_code (match header_code ev with Some c => c | None => http.StatusOK end) t = sent_status (ev :: t)).
  rewrite last_code_no_header by done. simpl. destruct (header_code ev); [by rewrite Hev|done].
Qed.

End captured.

(** A second status, which net/http ignores, is what the capture records. *)
Lemma capture_superfluous_status :
  exists p t c, exec (middleware.CaptureResponse p) t c /\ sent_status t = 200%Z /\ middleware.StatusCode c = 500%Z.
Proof.
  exists (_ ← call (RwWriteHeader 200); _ ← call (RwWrite "partial"); call (RwWriteHeader 500)).
  exists [Ev (RwWriteHeader 200) tt; Ev (RwWrite "partial") (7, None); Ev (RwWriteHeader 500) tt].
  exists {| middleware.body := "partial"; middleware.code := 500 |}. split; [solve_exec|done].
Qed.

(** ** Witnesses *)

Module witnesses.

#[local] Existing Instance some_map_order.

(** One path, that can be read and deleted. *)
#[export] Instance one_path : OpenAPI.
Proof.
  refine {| PathItem := gmap string unit; Operation := unit; Operations p := p;
            GetOperation p method := p !! method;
            Paths_Find pattern := if decide (pattern = "/clusters/{id}")
              then Some {[ "GET" := tt; "DELETE" := tt ]} else None;
            Routes_Find method path := if decide (path = "/clusters/a") then ("/clusters/{id}", [("id", "a")]) else ("", []) |}.
  done.
Defined.

(** The calls of a server. *)
Inductive serverE : Type -> Type :=
| ServerHttp X (e : httpE X) : serverE X
| ServerPanic X (e : panicE X) : serverE X
| ServerLog X (e : logE X) : serverE X.

Arguments ServerHttp {X} e.
Arguments ServerPanic {X} e.
Arguments ServerLog {X} e.

#[export] Instance server_http : Subeffect httpE serverE.
Proof. by refine {| inject X e := ServerHttp e; project X e := match e with ServerHttp f => Some f | _ => None end |}. Defined.

#[export] Instance server_panic : Subeffect panicE serverE.
Proof. by refine {| inject X e := ServerPanic e; project X e := match e with ServerPanic f => Some f | _ => None end |}. Defined.

#[export] Instance server_log : Subeffect logE serverE.
Proof. by refine {| inject X e := ServerLog e; project X e := match e with ServerLog f => Some f | _ => None end |}. Defined.

Definition options : cors.Options := {| cors.AllowedOrigins := ["https://a"; "https://b"]; cors.MaxAge := 86400 |}.

Definition a_request (method : string) (header : http.Header) : Request :=
  {| Method := method; Proto := "HTTP/1.1";
     Url := {| http.Scheme := ""; http.Host := ""; http.Path := "/clusters/a"; http.RawQuery := ""; http.Fragment := "" |};
     Headers := header; ContentLength := 0; RemoteAddr := "10.0.0.1:4711"; route_info := None; deadline := None |}.

Definition get_request : Request := a_request "GET" {[ "Origin" := ["https://b"]; "Cookie" := ["secret"] ]}.

Definition preflight : Request :=
  a_request "OPTIONS" {[ "Origin" := ["https://c"]; "Access-Control-Request-Method" := ["DELETE"] ]}.

(** A handler that answers 200. *)
Definition handler : Handler serverE := fun _ => call (ServerHttp (WriteHeader 200)).

Definition stack : Handler serverE :=
  pipeline (fun u => http.Path u) (fun _ => "error") "trace" options handler.

Definition get_trace : trace serverE :=
  [Ev (ServerHttp (HeaderAdd "Access-Control-Allow-Origin" "https://b")) tt; Ev (ServerHttp (WriteHeader 200)) tt].

Definition preflight_trace : trace serverE :=
  [Ev (ServerHttp (HeaderAdd "Access-Control-Allow-Origin" "https://a")) tt;
   Ev (ServerHttp (HeaderAdd "Access-Control-Allow-Methods" "GET, DELETE, OPTIONS")) tt;
   Ev (ServerHttp (HeaderAdd "Access-Control-Allow-Headers" "Authorization, Content-Type, traceparent, tracestate")) tt;
   Ev (ServerHttp (HeaderAdd "Access-Control-Max-Age" "86400")) tt;
   Ev (ServerHttp (WriteHeader 204)) tt].

(** An update, which the path does not have. *)
Definition put_request : Request := a_request "PUT" ∅.

Definition put_trace : trace serverE :=
  [Ev (ServerHttp (LogInfo "error detail" ["detail"; "the requested method was not allowed"; "path"; "/clusters/a"; "method"; "PUT"])) tt;
   Ev (ServerHttp (HeaderAdd "Cache-Control" "no-cache")) tt; Ev (ServerHttp (HeaderAdd "Content-Type" "application/json")) tt;
   Ev (ServerHttp (WriteHeader 405)) tt;
   Ev (ServerHttp (WriteBody (marshal (openapi.Error_json {| openapi.Error_ := "method_not_allowed";
     openapi.ErrorDescription := "the requested method was not allowed"; openapi.TraceId := Some "trace" |})))) None].

Lemma request_reaches_handler_witness :
  (exists origin t', get_trace = header_event "Access-Control-Allow-Origin" origin :: t' /\ allowed_origin options get_request origin /\
    exec (handler (with_route {| Info_Route := {| Route_Path := "/clusters/{id}"; Route_PathItem := {[ "GET" := tt; "DELETE" := tt ]};
        Route_Method := "GET"; Route_Operation := tt |}; Info_Parameters := {[ "id" := "a" ]} |} get_request)) t' tt) /\
  told "trace" 405 "method_not_allowed" "the requested method was not allowed" put_trace.
Proof.
  split.
  - exact (proj2 (request_reaches_handler (fun u => http.Path u) (fun _ => "error") "trace" options handler get_request get_trace
      ltac:(discriminate) ltac:(solve_exec)) {[ "GET" := tt; "DELETE" := tt ]} ltac:(discriminate) eq_refl).
  - exact (proj2 (request_reaches_handler (fun u => http.Path u) (fun _ => "error") "trace" options handler put_request put_trace
      ltac:(discriminate) ltac:(solve_exec)) {[ "GET" := tt; "DELETE" := tt ]} ltac:(discriminate) eq_refl).
Defined.

Lemma preflight_answered_witness :
  exists info origin, resolved (fun u => http.Path u) (with_method "DELETE" preflight) = Ok info /\
    allowed_origin options preflight origin /\ "DELETE" ∈ cors.allowed_methods info.
Proof.
  destruct (preflight_answered (fun u => http.Path u) (fun _ => "error") "trace" options handler preflight preflight_trace)
    as [[Hm _]|[(_ & err & He & _)|(info & origin & Hr & Ho & _ & Hm)]];
    [reflexivity|solve_exec|discriminate Hm|discriminate He|].
  exists info, origin. split; [exact Hr|]. split; [exact Ho|exact Hm].
Defined.

Definition log_header : http.Header := {[ "Set-Cookie" := ["session"]; "Etag" := ["1"] ]}.

Definition log_trace : trace serverE :=
  [Ev (ServerLog DebugEnabled) false; Ev (ServerHttp (WriteHeader 200)) tt;
   Ev (ServerLog CapturedMetrics) {| Code := 503; Duration := 7; Written := 0 |};
   Ev (ServerLog DebugEnabled) false; Ev (ServerLog ResponseHeader) log_header;
   Ev (ServerLog (LogResponse (logging.request get_request)
     (logging.response log_header {| Code := 503; Duration := 7; Written := 0 |}))) tt].

Lemma logging_redacts_witness :
  is_Some (Headers get_request !! "Cookie") /\ log_Headers (logging.request get_request) !! "Cookie" = None /\
  log_Headers (logging.request get_request) !! "Origin" = Some ["https://b"].
Proof.
  destruct (logging_redacts handler get_request log_trace) as (? & ? & ? & ? & ? & ? & _ & _ & _ & _ & Hk); [solve_exec|].
  split; [by eexists|]. rewrite !Hk. split; reflexivity.
Defined.

Definition capture_trace : trace writerE :=
  [Ev (RwWriteHeader 404) tt; Ev (RwWrite "not found") (9, None)].

Lemma capture_faithful_witness :
  middleware.StatusCode {| middleware.body := "not found"; middleware.code := 404 |} = sent_status capture_trace.
Proof.
  destruct (capture_faithful (_ ← call (RwWriteHeader 404); _ ← call (RwWrite "not found"); mret tt) capture_trace
    {| middleware.body := "not found"; middleware.code := 404 |}) as (_ & _ & Hs); [solve_exec|].
  apply Hs. split; [repeat constructor|reflexivity].
Defined.

End witnesses.
