(* ===== verification/OpenTelemetry.v ===== *)
(** * OpenTelemetry: the attributes and the span of a request

    pkg/server/middleware/opentelemetry.  What is recorded about a request and
    its response, as the functions that compute it ([None] where indexing a
    slice out of range panics), and the middleware around them. *)

From S2P Require Import Prelude Errors GoStrings Effects ServerErrors Middleware.
From Stdlib Require Import Ascii.

(** go.opentelemetry.io/otel/attribute. *)
Inductive attribute_value : Type :=
| AString (s : string)
| AInt (z : Z)
| AStringSlice (l : list string).

Record KeyValue := { Key : string; Value : attribute_value }.

(** otel/codes. *)
Inductive otel_code : Type := codes_Ok | codes_Error.

(** trace.SpanContext, by the text of its identifiers. *)
Record SpanContext := { SpanID : string; TraceID : string }.

(** The calls on the tracer and the span. *)
Inductive otelE : Type -> Type :=
| Extract (header : http.Header) : otelE unit
| StartSpan (name : string) (attributes : list KeyValue) : otelE SpanContext
| LogWithValues (values : list string) : otelE unit
| SetAttributes (attributes : list KeyValue) : otelE unit
| SetStatus (code : otel_code) (description : string) : otelE unit
| EndSpan : otelE unit.

(** net/http.StatusText. *)
Definition status_texts : list (Z * string) :=
  [(100, "Continue"); (101, "Switching Protocols"); (102, "Processing"); (103, "Early Hints");
   (200, "OK"); (201, "Created"); (202, "Accepted"); (203, "Non-Authoritative Information"); (204, "No Content");
   (205, "Reset Content"); (206, "Partial Content"); (207, "Multi-Status"); (208, "Already Reported"); (226, "IM Used");
   (300, "Multiple Choices"); (301, "Moved Permanently"); (302, "Found"); (303, "See Other"); (304, "Not Modified");
   (305, "Use Proxy"); (307, "Temporary Redirect"); (308, "Permanent Redirect");
   (400, "Bad Request"); (401, "Unauthorized"); (402, "Payment Required"); (403, "Forbidden"); (404, "Not Found");
   (405, "Method Not Allowed"); (406, "Not Acceptable"); (407, "Proxy Authentication Required");
   (408, "Request Timeout"); (409, "Conflict"); (410, "Gone"); (411, "Length Required");
   (412, "Precondition Failed"); (413, "Request Entity Too Large"); (414, "Request URI Too Long");
   (415, "Unsupported Media Type"); (416, "Requested Range Not Satisfiable"); (417, "Expectation Failed");
   (418, "I'm a teapot"); (421, "Misdirected Request"); (422, "Unprocessable Entity"); (423, "Locked");
   (424, "Failed Dependency"); (425, "Too Early"); (426, "Upgrade Required"); (428, "Precondition Required");
   (429, "Too Many Requests"); (431, "Request Header Fields Too Large"); (451, "Unavailable For Legal Reasons");
   (500, "Internal Server Error"); (501, "Not Implemented"); (502, "Bad Gateway"); (503, "Service Unavailable");
   (504, "Gateway Timeout"); (505, "HTTP Version Not Supported"); (506, "Variant Also Negotiates");
   (507, "Insufficient Storage"); (508, "Loop Detected"); (510, "Not Extended");
   (511, "Network Authentication Required")]%Z.

Definition StatusText (code : Z) : string :=
  default "" (list_to_map (M := gmap Z string) status_texts !! code).

Module opentelemetry.
Section attributes.
Context `{OpenAPI} `{MapOrder}.

Definition attr_string (key value : string) : KeyValue := {| Key := key; Value := AString value |}.
Definition attr_int (key : string) (value : Z) : KeyValue := {| Key := key; Value := AInt value |}.

Definition logValuesFromSpanContext (name : string) (s : SpanContext) : list string :=
  ["spanName"; name; "spanID"; SpanID s; "traceID"; TraceID s].

Definition headerBlackList : list string := ["authorization"; "user-agent"].

Definition httpHeaderAttributes (header : http.Header) (prefix : string) : list KeyValue :=
  omap (fun '(key, values) =>
    let normalizedKey := strings_ToLower key in
    if contains headerBlackList normalizedKey then None
    else
      let key := prefix +:+ "." +:+ normalizedKey in
      Some {| Key := key;
              Value := match values with [value] => AString value | _ => AStringSlice values end |})
    (map_range header).

(** The methods with a semantic convention of their own. *)
Definition known_methods : list string :=
  ["CONNECT"; "DELETE"; "GET"; "HEAD"; "OPTIONS"; "PATCH"; "POST"; "PUT"; "TRACE"].

Definition method_attribute (method : string) : KeyValue :=
  attr_string "http.request.method" (if contains known_methods method then method else "_OTHER").

Definition protocol_attributes (r : Request) : option (list KeyValue) :=
  let protoVersion := strings_Split "/" (Proto r) in
  name ← protoVersion !! 0%nat; version ← protoVersion !! 1%nat;
  Some [attr_string "network.protocol.name" name; attr_string "network.protocol.version" version].

Definition url_attributes (r : Request) : list KeyValue :=
  let u := Url r in
  let scheme := if decide (http.Scheme u <> "") then http.Scheme u else "http" in
  [attr_string "url.scheme" scheme; attr_string "url.path" (http.Path u)] ++
  (if decide (http.RawQuery u <> "") then [attr_string "url.query" (http.RawQuery u)] else []) ++
  (if decide (http.Fragment u <> "") then [attr_string "url.fragment" (http.Fragment u)] else []).

Definition server_attributes (r : Request) : list KeyValue :=
  let serverHostPort := strings_Split ":" (http.Host (Url r)) in
  let serverPort := default 80%Z (serverHostPort !! 1%nat ≫= Atoi) in
  [attr_string "server.address" (default "" (serverHostPort !! 0%nat)); attr_int "server.port" serverPort].

Definition client_attributes (r : Request) : option (list KeyValue) :=
  let clientHostPort := strings_Split ":" (RemoteAddr r) in
  address ← clientHostPort !! 0%nat; port ← clientHostPort !! 1%nat;
  Some ([attr_string "client.address" address] ++
        match Atoi port with Some clientPort => [attr_int "client.port" clientPort] | None => [] end).

Definition httpRequestAttributes (r : Request) : option (list KeyValue) :=
  protocol ← protocol_attributes r;
  let userAgent := http.Header_Get (Headers r) "User-Agent" in
  client ← client_attributes r;
  Some (protocol ++
    [method_attribute (Method r)] ++
    [attr_int "http.request.body.size" (ContentLength r)] ++
    httpHeaderAttributes (Headers r) "http.request.header" ++
    (if decide (userAgent <> "") then [attr_string "user_agent.original" userAgent] else []) ++
    url_attributes r ++
    server_attributes r ++
    client).

Definition httpResponseAttributes (m : Metrics) (header : http.Header) : list KeyValue :=
  [attr_int "http.response.status_code" (Code m); attr_int "http.response.body.size" (Written m)] ++
  httpHeaderAttributes header "http.response.header".

Definition httpStatusToOtelCode (status : Z) : otel_code * string :=
  (if (400 <=? status)%Z then codes_Error else codes_Ok, StatusText status).

Record OpenTelemetry := { serviceName : string; version : string }.

Definition New (serviceName version : string) : OpenTelemetry :=
  {| serviceName := serviceName; version := version |}.

Context {E : Type -> Type} `{Subeffect otelE E} `{Subeffect logE E} `{Subeffect panicE E}.

(** [next] is given the context of the span, which the request's context holds. *)
Definition Middleware (o : OpenTelemetry) (next : SpanContext -> Handler E) : Handler E := fun r =>
  _ ← call (inject (Extract (Headers r)));
  match httpRequestAttributes r with
  | None => panic
  | Some attributes =>
    let attr := [attr_string "service.name" (serviceName o); attr_string "service.version" (version o)] ++ attributes in
    let name := http.Path (Url r) in
    span ← call (inject (StartSpan name attr));
    _ ← call (inject (LogWithValues (logValuesFromSpanContext name span)));
    _ ← next span r;
    metrics ← call (inject CapturedMetrics);
    header ← call (inject ResponseHeader);
    _ ← call (inject (SetAttributes (httpResponseAttributes metrics header)));
    let (code, description) := httpStatusToOtelCode (Code metrics) in
    _ ← call (inject (SetStatus code description));
    call (inject EndSpan)
  end.

End attributes.
End opentelemetry.

(** ** What is recorded *)

Import opentelemetry.

Section facts.
Context `{OpenAPI} `{MapOrder}.

(** Headers are traced exactly, but for the two that are blacklisted: no
    attribute is named after authorization or user-agent, whatever the case of
    the header, and every other header is an attribute with its values. *)
Theorem traced_headers_exact header prefix kv :
  kv ∈ httpHeaderAttributes header prefix <->
  exists key values, header !! key = Some values /\ strings_ToLower key ∉ headerBlackList /\
    Key kv = prefix +:+ "." +:+ strings_ToLower key /\
    Value kv = match values with [value] => AString value | _ => AStringSlice values end.
Proof.
  unfold httpHeaderAttributes. rewrite list_elem_of_omap. split.
  - intros ([key values] & Hin%elem_of_map_range & Hf). exists key, values.
    destruct (contains headerBlackList (strings_ToLower key)) eqn:Hc; [done|].
    apply contains_false in Hc. by simplify_eq.
  - intros (key & values & Hh & Hl & Hk & Hv). exists (key, values). rewrite elem_of_map_range. split; [done|].
    apply contains_false in Hl. rewrite Hl. destruct kv. simpl in *. by subst.
Qed.

Lemma request_attributes_some r :
  is_Some (httpRequestAttributes r) <-> has_byte "/" (Proto r) /\ has_byte ":" (RemoteAddr r).
Proof.
  rewrite <-!Split_second. unfold httpRequestAttributes, protocol_attributes, client_attributes.
  pose proof (strings_Split_nonempty "/" (Proto r)). pose proof (strings_Split_nonempty ":" (RemoteAddr r)).
  destruct (strings_Split "/" (Proto r)) as [|w1 [|w2 ws]], (strings_Split ":" (RemoteAddr r)) as [|c1 [|c2 cs]];
    try done; simpl; split; try (by intros [? [=]]); try (by intros [[? [=]] ?]); try (by intros [? [? [=]]]); eauto.
Qed.

(** The address of an IPv6 client is not recorded: for a peer
    [host:rest]:port, what is recorded is the text up to the first colon of the
    bracketed address, and the port only if that is where one happens to be. *)
Theorem ipv6_client_misread r host rest port attrs :
  RemoteAddr r = "[" +:+ host +:+ ":" +:+ rest +:+ "]:" +:+ port ->
  ~ has_byte ":" host -> httpRequestAttributes r = Some attrs ->
  attr_string "client.address" ("[" +:+ host) ∈ attrs.
Proof.
  intros Hr Hhost. unfold httpRequestAttributes.
  destruct (protocol_attributes r) as [protocol|]; [|done]. simpl.
  destruct (client_attributes r) as [client|] eqn:Hc; [|done]. intros [= <-].
  assert (attr_string "client.address" ("[" +:+ host) ∈ client) as Hin; [|set_solver].
  unfold client_attributes in Hc. rewrite Hr in Hc.
  change ("[" +:+ host +:+ ":" +:+ rest +:+ "]:" +:+ port) with
    (String "[" host +:+ String ":" (rest +:+ "]:" +:+ port)) in Hc.
  rewrite Split_first in Hc by (rewrite has_byte_cons; naive_solver). simpl in Hc.
  destruct (strings_Split ":" (rest +:+ "]:" +:+ port)) as [|p ps]; [done|]. simpl in Hc. simplify_eq.
  constructor.
Qed.

Context {E : Type -> Type} `{Subeffect otelE E} `{Subeffect logE E} `{Subeffect panicE E}.

(** A request that is served has one span: it is started with the service's
    and the request's attributes before the handler runs, which is given its
    context; it is ended last, after the response's attributes and a status that
    is an error exactly from 400 up.  A request whose protocol has no version or
    whose address no port is not served. *)
Theorem request_span (o : OpenTelemetry) (next : SpanContext -> Handler E) r t :
  exec (Middleware o next r) t tt ->
  has_byte "/" (Proto r) /\ has_byte ":" (RemoteAddr r) /\
  exists attributes span tn metrics header,
    httpRequestAttributes r = Some attributes /\ exec (next span r) tn tt /\
    t = [Ev (inject (Extract (Headers r))) tt;
         Ev (inject (StartSpan (http.Path (Url r)) ([attr_string "service.name" (serviceName o);
             attr_string "service.version" (version o)] ++ attributes))) span;
         Ev (inject (LogWithValues (logValuesFromSpanContext (http.Path (Url r)) span))) tt] ++
        tn ++
        [Ev (inject CapturedMetrics) metrics; Ev (inject ResponseHeader) header;
         Ev (inject (SetAttributes (httpResponseAttributes metrics header))) tt;
         Ev (inject (SetStatus (if decide (400 <= Code metrics)%Z then codes_Error else codes_Ok) (StatusText (Code metrics)))) tt;
         Ev (inject EndSpan) tt].
Proof.
  intros Hx. unfold Middleware in Hx.
  apply exec_bind in Hx as (t0 & t1 & [] & -> & ->%exec_call & Hx).
  destruct (httpRequestAttributes r) as [attributes|] eqn:Ha; [|by destruct Hx as ([] & _)].
  destruct (proj1 (request_attributes_some r)) as [Hproto Haddr]; [by rewrite Ha|].
  split; [done|]. split; [done|].
  apply exec_bind in Hx as (t2 & t3 & span & -> & ->%exec_call & Hx).
  apply exec_bind in Hx as (t4 & t5 & [] & -> & ->%exec_call & Hx).
  apply exec_bind in Hx as (tn & t6 & [] & -> & Hn & Hx).
  apply exec_bind in Hx as (t7 & t8 & metrics & -> & ->%exec_call & Hx).
  apply exec_bind in Hx as (t9 & ta & header & -> & ->%exec_call & Hx).
  apply exec_bind in Hx as (tb & tc & [] & -> & ->%exec_call & Hx). simpl in Hx.
  exists attributes, span, tn, metrics, header. split_and!; [done|done|].
  exec_inv. repeat match goal with u : unit |- _ => destruct u end.
  destruct (Z.leb_spec 400 (Code metrics)), (decide (400 <= Code metrics)%Z); try lia; done.
Qed.

(** Cookies are traced, unlike in the request log. *)
Lemma cookies_are_traced r attrs cookie :
  httpRequestAttributes r = Some attrs -> Headers r !! "Cookie" = Some [cookie] ->
  attr_string "http.request.header.cookie" cookie ∈ attrs.
Proof.
  unfold httpRequestAttributes. destruct (protocol_attributes r) as [protocol|]; [|done]. simpl.
  destruct (client_attributes r) as [client|]; [|done]. intros [= <-] Hc.
  assert (attr_string "http.request.header.cookie" cookie ∈ httpHeaderAttributes (Headers r) "http.request.header")
    as Hin; [|set_solver].
  unfold httpHeaderAttributes. apply list_elem_of_omap. exists ("Cookie", [cookie]).
  by rewrite elem_of_map_range.
Qed.

End facts.

(** ** Witnesses *)

Module witnesses.

#[local] Existing Instance some_map_order.
Import Middleware.witnesses.

(** The calls of a traced server. *)
Inductive tracedE : Type -> Type :=
| TracedOtel X (e : otelE X) : tracedE X
| TracedLog X (e : logE X) : tracedE X
| TracedPanic X (e : panicE X) : tracedE X.

Arguments TracedOtel {X} e.
Arguments TracedLog {X} e.
Arguments TracedPanic {X} e.

#[export] Instance traced_otel : Subeffect otelE tracedE.
Proof. by refine {| inject X e := TracedOtel e; project X e := match e with TracedOtel f => Some f | _ => None end |}. Defined.

#[export] Instance traced_log : Subeffect logE tracedE.
Proof.
  by refine {| inject X e := TracedLog e; project X e := match e with TracedLog f => Some f | _ => None end |}.
Defined.

#[export] Instance traced_panic : Subeffect panicE tracedE.
Proof.
  by refine {| inject X e := TracedPanic e; project X e := match e with TracedPanic f => Some f | _ => None end |}.
Defined.

Definition service : OpenTelemetry := {| serviceName := "core"; version := "1.0.0" |}.

Definition ipv6_request : Request :=
  {| Method := "GET"; Proto := "HTTP/1.1"; Url := Url get_request; Headers := ∅; ContentLength := 0;
     RemoteAddr := "[2001:db8::1]:4711"; route_info := None; deadline := None |}.

Definition attributes_of (r : Request) : list KeyValue := default [] (httpRequestAttributes r).

Definition span : SpanContext := {| SpanID := "1"; TraceID := "2" |}.

Definition answer : Handler tracedE := fun _ => mret tt.

Definition metrics : Metrics := {| Code := 200; Duration := 1; Written := 0 |}.

Definition span_trace : trace tracedE :=
  [Ev (TracedOtel (Extract (Headers get_request))) tt;
   Ev (TracedOtel (StartSpan "/clusters/a" ([attr_string "service.name" "core"; attr_string "service.version" "1.0.0"] ++
     attributes_of get_request))) span;
   Ev (TracedOtel (LogWithValues ["spanName"; "/clusters/a"; "spanID"; "1"; "traceID"; "2"])) tt;
   Ev (TracedLog CapturedMetrics) metrics; Ev (TracedLog ResponseHeader) ∅;
   Ev (TracedOtel (SetAttributes (httpResponseAttributes metrics ∅))) tt;
   Ev (TracedOtel (SetStatus codes_Ok "OK")) tt; Ev (TracedOtel EndSpan) tt].

Lemma request_span_witness : has_byte "/" (Proto get_request) /\ has_byte ":" (RemoteAddr get_request).
Proof.
  destruct (request_span service (fun _ => answer) get_request span_trace) as (Hp & Ha & _); [solve_exec|].
  split; [exact Hp|exact Ha].
Defined.

Lemma ipv6_client_misread_witness : attr_string "client.address" "[2001" ∈ attributes_of ipv6_request.
Proof.
  apply (ipv6_client_misread ipv6_request "2001" "db8::1" "4711"); [reflexivity| |reflexivity].
  intros ([|a0 [|a1 [|a2 [|a3 a]]]] & b & Heq); try discriminate Heq.
  destruct a; discriminate Heq.
Defined.

End witnesses.
