(* ===== verification/Bootstrap.v ===== *)
(** * Bootstrap: how a controller process starts

    pkg/client/client.go (the scheme, the caching client), the register.go of the
    API groups, pkg/options/options.go (tracing set-up), pkg/cd/flags.go and
    pkg/manager/manager.go: everything [Run] does before its manager runs, in
    order, with what each step is handed.  A step that fails ends the process. *)

From S2P Require Import Prelude Errors Effects Kubernetes CD.
From Stdlib Require Import QArith.
#[local] Open Scope nat_scope.

(** pkg/util/service_descriptor.go. *)
Record ServiceDescriptor := { Name : string; Version : string; Revision : string }.

(** controller-runtime and apimachinery: opaque values, and the scheme a type is
    registered in.  [knows s gvk]: the scheme maps the kind to a type. *)
Class ControllerRuntime := {
  RestConfig : Type;
  Manager : Type;
  Controller : Type;
  Reconciler : Type;
  Cache : Type;
  Client : Type;
  (** The flags a factory adds, once parsed. *)
  ControllerOptions : Type;
  runtime_Scheme : Type;
  NewRuntimeScheme : runtime_Scheme;
  knows : runtime_Scheme -> metav1.GroupVersionKind -> Prop;
  kubernetesscheme_AddToScheme : runtime_Scheme -> runtime_Scheme * option error;
  Builder_AddToScheme : string -> string -> list string -> runtime_Scheme -> runtime_Scheme * option error;
  Builder_registers group version kinds s s' : Builder_AddToScheme group version kinds s = (s', None) ->
    forall kind, kind ∈ kinds -> knows s' {| metav1.Group := group; metav1.Version := version; metav1.Kind := kind |};
  Builder_keeps group version kinds s s' : Builder_AddToScheme group version kinds s = (s', None) ->
    forall gvk, knows s gvk -> knows s' gvk;
}.

(** A float64, as far as it is compared here. *)
Inductive float64 : Type := NaN | Infinity (positive : bool) | Finite (q : Q).

Definition float_leb0 (x : float64) : bool :=
  match x with NaN => false | Infinity positive => negb positive | Finite q => Qle_bool q 0%Q end.
Definition float_geb1 (x : float64) : bool :=
  match x with NaN => false | Infinity positive => positive | Finite q => Qle_bool 1%Q q end.

(** go.opentelemetry.io/otel/sdk/trace: the options of a tracer provider. *)
Inductive sampler : Type :=
| NeverSample
| AlwaysSample
| ParentBased (ratio : float64).

Inductive tracer_option : Type :=
| WithBatcher (endpoint : string)
| WithSampler (s : sampler).

(** pkg/options and pkg/manager/options: the flags every controller has. *)
Record CoreOptions := { Namespace : string; OTLPEndpoint : string; TraceSampingRatio : float64 }.

Record Options := { core : CoreOptions; MaxConcurrentReconciles : Z; CDDriver : string }.

(** os.Exit ends the process; a Run that returns lets main return. *)
Inductive process : Type :=
| Returned
| Exited (status : Z).

Section programs.
Context `{ControllerRuntime}.

(** The calls of a process that starts.  [ParseFlags] answers what it leaves in
    the options; [StartCache] is the goroutine, whose result is dropped. *)
Inductive bootE : Type -> Type :=
| AddFlags (controller : bool) : bootE unit
| ParseFlags : bootE (Options * ControllerOptions)
| SetupLogging : bootE unit
| LogInfo (message : string) (values : list string) : bootE unit
| LogError (err : error) (message : string) : bootE unit
| SetupSignalHandler : bootE unit
| SetTextMapPropagator : bootE unit
| NewTraceExporter (endpoint : string) : bootE (option error)
| SetTracerProvider (options : list tracer_option) : bootE unit
| NewMetricExporter (endpoint : string) : bootE (option error)
| SetMeterProvider (endpoint : option string) : bootE unit
| InClusterConfig : bootE (result RestConfig)
| NewCache (config : RestConfig) (scheme : runtime_Scheme) : bootE (result Cache)
| StartCache (cache : Cache) : bootE unit
| NewWithWatch (config : RestConfig) (scheme : runtime_Scheme) (reader : Cache) (unstructured : bool) : bootE (result Client)
| GetConfig : bootE (result RestConfig)
| NewManager (config : RestConfig) (scheme : runtime_Scheme) (leaderElection : bool) (leaderElectionID : string) : bootE (result Manager)
| NewReconciler (o : Options) (co : option ControllerOptions) (m : Manager) : bootE Reconciler
| NewController (name : string) (m : Manager) (maxConcurrent : Z) (recoverPanic : bool) (r : Reconciler) : bootE (result Controller)
| Upgrade (client : Client) (o : Options) : bootE (option error)
| Initialize (m : Manager) (o : Options) : bootE (option error)
| RegisterWatches (m : Manager) (c : Controller) : bootE (option error)
| StartManager (m : Manager) : bootE (option error).

End programs.

(** cd.DriverKindFlag, a pflag.Value. *)
Module cd_flag.

Definition DriverKindFlag_Set (input : string) : result string :=
  let valid := [cd.DriverKindArgoCD] in
  if negb (contains valid input) then Err (Sentinel ErrParseFlag) else Ok input.

End cd_flag.

Module coreclient.
Section client.
Context `{ControllerRuntime}.

Definition SchemeAdder : Type := runtime_Scheme -> runtime_Scheme * option error.

(** The AddToScheme of the register.go of each API group. *)
Definition unikornv1_AddToScheme : SchemeAdder :=
  Builder_AddToScheme "unikorn-cloud.org" "v1alpha1" ["HelmApplication"; "HelmApplicationList"].

Definition unikornv1fake_AddToScheme : SchemeAdder :=
  Builder_AddToScheme "unikorn.unikorn-cloud.org" "v1alpha1" ["ManagedResource"; "ManagedResourceList"].

Definition argoprojv1_AddToScheme : SchemeAdder :=
  Builder_AddToScheme "argoproj.io" "v1alpha1" ["Application"; "ApplicationList"].

(** The loop over the adders, the same step by step as the calls before it. *)
Fixpoint add_all (adders : list SchemeAdder) (scheme : runtime_Scheme) : result runtime_Scheme :=
  match adders with
  | [] => Ok scheme
  | add :: adders' =>
    match add scheme with
    | (_, Some err) => Err err
    | (scheme, None) => add_all adders' scheme
    end
  end.

Definition NewScheme (schemes : list SchemeAdder) : result runtime_Scheme :=
  match add_all [kubernetesscheme_AddToScheme; unikornv1_AddToScheme; unikornv1fake_AddToScheme;
                 argoprojv1_AddToScheme] NewRuntimeScheme with
  | Err err => Err err
  | Ok scheme => add_all schemes scheme
  end.

Definition New (schemes : list SchemeAdder) : prog bootE (result Client) :=
  attempt (call InClusterConfig) (fun config =>
  attempt (mret (NewScheme schemes)) (fun scheme =>
  attempt (call (NewCache config scheme)) (fun cache =>
  _ ← call (StartCache cache);
  attempt (call (NewWithWatch config scheme cache true)) (fun c => mret (Ok c))))).

End client.
End coreclient.

Module options.
Section options.
Context `{ControllerRuntime}.

Definition sampler_of (ratio : float64) : sampler :=
  if float_leb0 ratio then NeverSample else if float_geb1 ratio then AlwaysSample else ParentBased ratio.

Definition SetupOpenTelemetry (o : CoreOptions) (opts : list tracer_option) : prog bootE (option error) :=
  _ ← call SetTextMapPropagator;
  attempt_ (if bool_decide (OTLPEndpoint o <> "") then
              err ← call (NewTraceExporter (OTLPEndpoint o));
              mret (match err with Some err => Err err | None => Ok (opts ++ [WithBatcher (OTLPEndpoint o)]) end)
            else mret (Ok opts)) (fun opts =>
  let opts := opts ++ [WithSampler (sampler_of (TraceSampingRatio o))] in
  _ ← call (SetTracerProvider opts);
  attempt_ (if bool_decide (OTLPEndpoint o <> "") then
              err ← call (NewMetricExporter (OTLPEndpoint o));
              mret (match err with Some err => Err err | None => Ok (Some (OTLPEndpoint o)) end)
            else mret (Ok None)) (fun meterOpts =>
  _ ← call (SetMeterProvider meterOpts);
  mret None)).

End options.
End options.

Module manager.
Section manager.
Context `{ControllerRuntime}.

(** ControllerFactory, with whether it implements the optional interfaces
    ControllerUpgrader and ControllerInitializer; its methods are calls. *)
Record ControllerFactory := {
  Metadata : ServiceDescriptor;
  has_options : bool;
  is_upgrader : bool;
  is_initializer : bool;
  Schemes : list coreclient.SchemeAdder;
}.

Definition getManager (f : ControllerFactory) : prog bootE (result Manager) :=
  attempt (call GetConfig) (fun config =>
  attempt (mret (coreclient.NewScheme (Schemes f))) (fun scheme =>
  let service := Metadata f in
  attempt (call (NewManager config scheme true (Name service))) (fun manager => mret (Ok manager)))).

Definition getController (o : Options) (controllerOptions : option ControllerOptions) (manager : Manager)
    (f : ControllerFactory) : prog bootE (result Controller) :=
  let recoverPanic := true in
  reconciler ← call (NewReconciler o controllerOptions manager);
  let service := Metadata f in
  attempt (call (NewController (Name service) manager (MaxConcurrentReconciles o) recoverPanic reconciler))
    (fun c => mret (Ok c)).

Definition doUpgrade (f : ControllerFactory) (options : Options) : prog bootE (option error) :=
  if is_upgrader f then
    attempt_ (coreclient.New (Schemes f)) (fun client =>
    check (call (Upgrade client options)) (mret None))
  else mret None.

Definition doInitialize (f : ControllerFactory) (mgr : Manager) (options : Options) : prog bootE (option error) :=
  if is_initializer f then check (call (Initialize mgr options)) (mret None) else mret None.

(** [if err := p; err != nil { logger.Error(err, message); os.Exit(1) }]. *)
Definition or_exit (message : string) (p : prog bootE (option error)) (k : prog bootE process) : prog bootE process :=
  err ← p;
  match err with
  | Some err => _ ← call (LogError err message); mret (Exited 1)
  | None => k
  end.

Definition value_or_exit {A : Type} (message : string) (p : prog bootE (result A)) (k : A -> prog bootE process) : prog bootE process :=
  r ← p;
  match r with
  | Err err => _ ← call (LogError err message); mret (Exited 1)
  | Ok a => k a
  end.

Definition Run (f : ControllerFactory) : prog bootE process :=
  _ ← call (AddFlags false);
  _ ← (if has_options f then call (AddFlags true) else mret tt);
  parsed ← call ParseFlags;
  let o := fst parsed in
  let controllerOptions := if has_options f then Some (snd parsed) else None in
  _ ← call SetupLogging;
  let service := Metadata f in
  _ ← call (LogInfo "service starting"
         ["application"; Name service; "version"; Version service; "revision"; Revision service]);
  _ ← call SetupSignalHandler;
  or_exit "open telemetry setup failed" (options.SetupOpenTelemetry (core o) []) (
  or_exit "resource upgrade failed" (doUpgrade f o) (
  value_or_exit "manager creation error" (getManager f) (fun manager =>
  or_exit "factory initialization failed" (doInitialize f manager o) (
  value_or_exit "controller creation error" (getController o controllerOptions manager f) (fun controller =>
  or_exit "watcher registration error" (call (RegisterWatches manager controller)) (
  or_exit "manager terminated" (call (StartManager manager)) (mret Returned))))))).

End manager.
End manager.

Import manager.

(** ** What a scheme knows *)

Section schemes.
Context `{ControllerRuntime}.

(** The kinds of the repository's own API groups. *)
Definition own_kinds : list metav1.GroupVersionKind :=
  [{| metav1.Group := "unikorn-cloud.org"; metav1.Version := "v1alpha1"; metav1.Kind := "HelmApplication" |};
   {| metav1.Group := "unikorn-cloud.org"; metav1.Version := "v1alpha1"; metav1.Kind := "HelmApplicationList" |};
   {| metav1.Group := "unikorn.unikorn-cloud.org"; metav1.Version := "v1alpha1"; metav1.Kind := "ManagedResource" |};
   {| metav1.Group := "unikorn.unikorn-cloud.org"; metav1.Version := "v1alpha1"; metav1.Kind := "ManagedResourceList" |};
   {| metav1.Group := "argoproj.io"; metav1.Version := "v1alpha1"; metav1.Kind := "Application" |};
   {| metav1.Group := "argoproj.io"; metav1.Version := "v1alpha1"; metav1.Kind := "ApplicationList" |}].

(** An adder that forgets no type. *)
Definition keeps (add : coreclient.SchemeAdder) : Prop :=
  forall s s', add s = (s', None) -> forall gvk, knows s gvk -> knows s' gvk.

Lemma add_all_keeps adders s s' gvk :
  Forall keeps adders -> coreclient.add_all adders s = Ok s' -> knows s gvk -> knows s' gvk.
Proof.
  intros Hkeeps. revert s. induction Hkeeps as [|add adders Hadd _ IH]; intros s; simpl; [by intros [= ->]|].
  destruct (add s) as [s1 [err|]] eqn:Hs; [done|]. intros Hall Hk. eapply IH; [done|]. by eapply Hadd.
Qed.

Lemma scheme_complete schemes scheme gvk :
  Forall keeps schemes -> coreclient.NewScheme schemes = Ok scheme -> gvk ∈ own_kinds -> knows scheme gvk.
Proof.
  intros Hkeeps Hnew Hown. unfold coreclient.NewScheme in Hnew.
  destruct (coreclient.add_all _ NewRuntimeScheme) as [s|err] eqn:Hs; [|done].
  eapply add_all_keeps; [done..|]. revert Hs. simpl.
  destruct (kubernetesscheme_AddToScheme _) as [s0 [|]]; [done|].
  unfold coreclient.unikornv1_AddToScheme, coreclient.unikornv1fake_AddToScheme, coreclient.argoprojv1_AddToScheme.
  destruct (Builder_AddToScheme "unikorn-cloud.org" _ _ s0) as [s1 [|]] eqn:H1; [done|].
  destruct (Builder_AddToScheme "unikorn.unikorn-cloud.org" _ _ s1) as [s2 [|]] eqn:H2; [done|].
  destruct (Builder_AddToScheme "argoproj.io" _ _ s2) as [s3 [|]] eqn:H3; [done|]. intros [= <-].
  unfold own_kinds in Hown. repeat (apply elem_of_cons in Hown as [->|Hown]); [..|by apply elem_of_nil in Hown];
    eauto 8 using Builder_registers, Builder_keeps, list_elem_of_here, list_elem_of_further.
Qed.

End schemes.

(** ** What starts, and when *)

Section starting.
Context `{ControllerRuntime}.
Implicit Type (f : ControllerFactory) (t : trace bootE).

Definition starts (ev : event bootE) : bool :=
  match ev with Ev e _ => match e with StartManager _ => true | _ => false end end.

(** Everything up to the end of flag parsing and logging set-up. *)
Definition preamble f (o : Options) (co : ControllerOptions) : trace bootE :=
  [Ev (AddFlags false) tt] ++ (if has_options f then [Ev (AddFlags true) tt] else []) ++
  [Ev ParseFlags (o, co); Ev SetupLogging tt;
   Ev (LogInfo "service starting" ["application"; Name (Metadata f); "version"; Version (Metadata f);
                                   "revision"; Revision (Metadata f)]) tt;
   Ev SetupSignalHandler tt].

(** An upgrade, where the factory has one, that succeeded with a client whose
    scheme is the factory's. *)
Definition upgraded f (o : Options) t : Prop :=
  if is_upgrader f then
    exists client t', exec (coreclient.New (Schemes f)) t' (Ok client) /\ t = t' ++ [Ev (Upgrade client o) None]
  else t = [].

Definition initialized f (m : Manager) (o : Options) t : Prop :=
  t = if is_initializer f then [Ev (Initialize m o) None] else [].

Definition failure_logged (message : string) t : Prop := exists err t', t = t' ++ [Ev (LogError err message) tt].

Local Ltac destruct_unit := match goal with u : unit |- _ => destruct u end.

Lemma exec_or_exit message p k t r :
  exec (or_exit message p k) t r <->
  (r = Exited 1 /\ exists err t', t = t' ++ [Ev (LogError err message) tt] /\ exec p t' (Some err)) \/
  (exists t1 t2, t = t1 ++ t2 /\ exec p t1 None /\ exec k t2 r).
Proof.
  unfold or_exit. rewrite exec_bind. split.
  - intros (t1 & t2 & [err|] & -> & H1 & H2).
    + exec_inv. left. split; [done|]. exists err, t1. repeat destruct_unit. done.
    + right. eauto 10.
  - intros [(-> & err & t' & -> & Hp)|(t1 & t2 & -> & H1 & H2)].
    + exists t', [Ev (LogError err message) tt], (Some err). split; [done|]. split; [done|]. simpl. eauto 10.
    + exists t1, t2, None. done.
Qed.

Lemma exec_value_or_exit {A} message (p : prog bootE (result A)) k t r :
  exec (value_or_exit message p k) t r <->
  (r = Exited 1 /\ exists err t', t = t' ++ [Ev (LogError err message) tt] /\ exec p t' (Err err)) \/
  (exists t1 t2 a, t = t1 ++ t2 /\ exec p t1 (Ok a) /\ exec (k a) t2 r).
Proof.
  unfold value_or_exit. rewrite exec_bind. split.
  - intros (t1 & t2 & [a|err] & -> & H1 & H2).
    + right. eauto 10.
    + exec_inv. left. split; [done|]. exists err, t1. repeat destruct_unit. done.
  - intros [(-> & err & t' & -> & Hp)|(t1 & t2 & a & -> & H1 & H2)].
    + exists t', [Ev (LogError err message) tt], (Err err). split; [done|]. split; [done|]. simpl. eauto 10.
    + exists t1, t2, (Ok a). done.
Qed.

(** The steps before the manager start nothing. *)
Lemma telemetry_starts_nothing o opts t r : exec (options.SetupOpenTelemetry o opts) t r -> existsb starts t = false.
Proof. unfold options.SetupOpenTelemetry. intros Hx. exec_inv; by rewrite ?existsb_app. Qed.

Lemma client_starts_nothing schemes t r : exec (coreclient.New schemes) t r -> existsb starts t = false.
Proof. unfold coreclient.New. intros Hx. exec_inv; by rewrite ?existsb_app. Qed.

Lemma exec_doUpgrade f o t r : exec (doUpgrade f o) t r ->
  existsb starts t = false /\ (r = None -> upgraded f o t).
Proof.
  unfold doUpgrade, upgraded. destruct (is_upgrader f); intros Hx.
  - apply exec_attempt_ in Hx as [(err & -> & Hnew)|(t1 & t2 & client & -> & Hnew & Hx)];
      pose proof (client_starts_nothing _ _ _ Hnew) as Hs; [by rewrite Hs|].
    rewrite existsb_app, Hs. apply exec_check in Hx as [(err & -> & Hx)|(t3 & t4 & -> & Hx & [-> ->])];
      apply exec_call in Hx as ->; (split; [done|]); [done|].
    intros _. exists client, t1. by rewrite app_nil_r.
  - by exec_inv.
Qed.

Lemma exec_doInitialize f m o t r : exec (doInitialize f m o) t r ->
  existsb starts t = false /\ (r = None -> initialized f m o t).
Proof. unfold doInitialize, initialized. destruct (is_initializer f); intros Hx; by exec_inv. Qed.

Lemma exec_getManager f t r : exec (getManager f) t r ->
  existsb starts t = false /\
  forall m, r = Ok m -> exists config scheme, coreclient.NewScheme (Schemes f) = Ok scheme /\
    t = [Ev GetConfig (Ok config); Ev (NewManager config scheme true (Name (Metadata f))) (Ok m)].
Proof.
  unfold getManager. intros Hx. exec_inv; (split; [done|]); intros m' Hm; simplify_eq. eauto.
Qed.

Lemma exec_getController f o co m t r : exec (getController o co m f) t r ->
  existsb starts t = false /\
  forall c, r = Ok c -> exists reconciler,
    t = [Ev (NewReconciler o co m) reconciler;
         Ev (NewController (Name (Metadata f)) m (MaxConcurrentReconciles o) true reconciler) (Ok c)].
Proof. unfold getController. intros Hx. exec_inv; (split; [done|]); intros c' Hc; simplify_eq. eauto. Qed.

(** Everything after the preamble. *)
Definition steps f (o : Options) (co : ControllerOptions) : prog bootE process :=
  or_exit "open telemetry setup failed" (options.SetupOpenTelemetry (core o) []) (
  or_exit "resource upgrade failed" (doUpgrade f o) (
  value_or_exit "manager creation error" (getManager f) (fun manager =>
  or_exit "factory initialization failed" (doInitialize f manager o) (
  value_or_exit "controller creation error" (getController o (if has_options f then Some co else None) manager f)
    (fun controller =>
  or_exit "watcher registration error" (call (RegisterWatches manager controller)) (
  or_exit "manager terminated" (call (StartManager manager)) (mret Returned))))))).

Lemma exec_Run f t r :
  exec (Run f) t r -> exists o co t', t = preamble f o co ++ t' /\ exec (steps f o co) t' r.
Proof.
  unfold Run, preamble. intros Hx.
  apply exec_bind in Hx as (? & ? & [] & -> & ->%exec_call & Hx).
  apply exec_bind in Hx as (ta & ? & [] & -> & Ha & Hx).
  apply exec_bind in Hx as (? & ? & [o co] & -> & ->%exec_call & Hx).
  do 3 (apply exec_bind in Hx as (? & ? & [] & -> & ->%exec_call & Hx)).
  exists o, co. eexists. split; [|exact Hx].
  destruct (has_options f); [apply exec_call in Ha as ->|destruct Ha as [-> _]]; done.
Qed.

Lemma preamble_starts_nothing f o co : existsb starts (preamble f o co) = false.
Proof. unfold preamble. by destruct (has_options f). Qed.

(** How a process ends: with an error logged, or after its manager ran. *)
Definition ended t (r : process) : Prop :=
  r = Exited 1 /\ (exists message, failure_logged message t) \/ r = Returned /\ existsb starts t = true.

Lemma ended_app t1 t2 r : ended t2 r -> ended (t1 ++ t2) r.
Proof.
  intros [(-> & message & err & t' & ->)|[-> Hs]]; [left|right].
  - split; [done|]. exists message, err, (t1 ++ t'). by rewrite app_assoc.
  - by rewrite existsb_app, Hs, orb_true_r.
Qed.

Lemma ended_failure err message t : ended (t ++ [Ev (LogError err message) tt]) (Exited 1).
Proof. left. split; [done|]. by exists message, err, t. Qed.

(** One more step of a process, which starts nothing. *)
Lemma exec_stage message p k t r (Q : trace bootE -> Prop) :
  exec (or_exit message p k) t r ->
  (forall t' e, exec p t' e -> existsb starts t' = false) ->
  (forall t1 t2, exec p t1 None -> exec k t2 r -> (existsb starts t2 = true -> Q (t1 ++ t2)) /\ ended t2 r) ->
  (existsb starts t = true -> Q t) /\ ended t r.
Proof.
  intros Hx Hp Hk. apply exec_or_exit in Hx as [(-> & err & t' & -> & Hx)|(t1 & t2 & -> & Hx & Hx')].
  - rewrite existsb_app, (Hp _ _ Hx). split; [done|apply ended_failure].
  - destruct (Hk _ _ Hx Hx') as [HQ He]. rewrite existsb_app, (Hp _ _ Hx). split; [done|by apply ended_app].
Qed.

Lemma exec_value_stage {A} message (p : prog bootE (result A)) k t r (Q : trace bootE -> Prop) :
  exec (value_or_exit message p k) t r ->
  (forall t' e, exec p t' e -> existsb starts t' = false) ->
  (forall t1 t2 a, exec p t1 (Ok a) -> exec (k a) t2 r -> (existsb starts t2 = true -> Q (t1 ++ t2)) /\ ended t2 r) ->
  (existsb starts t = true -> Q t) /\ ended t r.
Proof.
  intros Hx Hp Hk. apply exec_value_or_exit in Hx as [(-> & err & t' & -> & Hx)|(t1 & t2 & a & -> & Hx & Hx')].
  - rewrite existsb_app, (Hp _ _ Hx). split; [done|apply ended_failure].
  - destruct (Hk _ _ _ Hx Hx') as [HQ He]. rewrite existsb_app, (Hp _ _ Hx). split; [done|by apply ended_app].
Qed.

(** The last step. *)
Definition stopped (m : Manager) (stop : option error) : trace bootE :=
  match stop with
  | None => [Ev (StartManager m) None]
  | Some err => [Ev (StartManager m) (Some err); Ev (LogError err "manager terminated") tt]
  end.

Lemma exec_start m t r :
  exec (or_exit "manager terminated" (call (StartManager m)) (mret Returned)) t r ->
  exists stop, t = stopped m stop /\ (r = Returned <-> stop = None) /\ ended t r.
Proof.
  intros [(-> & err & t' & -> & ->%exec_call)|(t1 & t2 & -> & ->%exec_call & [-> ->])]%exec_or_exit.
  - exists (Some err). split_and!; [done..|]. apply (ended_failure _ _ [_]).
  - exists None. split_and!; [done..|]. by right.
Qed.

(** The trace, after the preamble, of a process whose manager started. *)
Definition started f (o : Options) (co : ControllerOptions) (r : process) t : Prop :=
  exists telemetry upgrade config scheme m initialize reconciler c stop,
    coreclient.NewScheme (Schemes f) = Ok scheme /\
    exec (options.SetupOpenTelemetry (core o) []) telemetry None /\
    upgraded f o upgrade /\ initialized f m o initialize /\
    t = telemetry ++ upgrade ++
      [Ev GetConfig (Ok config); Ev (NewManager config scheme true (Name (Metadata f))) (Ok m)] ++ initialize ++
      [Ev (NewReconciler o (if has_options f then Some co else None) m) reconciler;
       Ev (NewController (Name (Metadata f)) m (MaxConcurrentReconciles o) true reconciler) (Ok c);
       Ev (RegisterWatches m c) None] ++ stopped m stop /\
    (r = Returned <-> stop = None).

Lemma exec_steps f o co t r :
  exec (steps f o co) t r -> (existsb starts t = true -> started f o co r t) /\ ended t r.
Proof.
  unfold steps. intros Hx. eapply (exec_stage _ _ _ _ _ _ Hx); [intros; by eapply telemetry_starts_nothing|].
  clear Hx. intros te t1 Hte Hx.
  eapply (exec_stage _ _ _ _ _ (fun t => started f o co r (te ++ t)) Hx); [intros; by eapply exec_doUpgrade|].
  clear Hx. intros up t2 Hup Hx.
  eapply (exec_value_stage _ _ _ _ _ (fun t => started f o co r (te ++ up ++ t)) Hx); [intros; by eapply exec_getManager|].
  clear Hx. intros tm t3 m Hm Hx.
  eapply (exec_stage _ _ _ _ _ (fun t => started f o co r (te ++ up ++ tm ++ t)) Hx); [intros; by eapply exec_doInitialize|].
  clear Hx. intros init t4 Hi Hx.
  eapply (exec_value_stage _ _ _ _ _ (fun t => started f o co r (te ++ up ++ tm ++ init ++ t)) Hx);
    [intros; by eapply exec_getController|].
  clear Hx. intros tc t5 c Hc Hx.
  eapply (exec_stage _ _ _ _ _ (fun t => started f o co r (te ++ up ++ tm ++ init ++ tc ++ t)) Hx);
    [by intros ? ? ->%exec_call|].
  clear Hx. intros tw t6 ->%exec_call (stop & -> & Hr & He)%exec_start. split; [|done]. intros _.
  destruct (proj2 (exec_getController _ _ _ _ _ _ Hc) c eq_refl) as (rc & ->).
  destruct (proj2 (exec_getManager _ _ _ Hm) m eq_refl) as (config & scheme & Hs & ->).
  exists te, up, config, scheme, m, init, rc, c, stop. split_and!; try done.
  - by apply (exec_doUpgrade _ _ _ _ Hup).
  - by apply (exec_doInitialize _ _ _ _ _ Hi).
Qed.

(** C26 A controller's manager starts only at the end of a start-up in which every
    step before it succeeded, in this order: tracing was set up, an upgrade the
    factory has was made through a client of the factory's own scheme, the
    manager was created with that scheme and with leader election under the
    service's name, an initializer the factory has was handed that manager, the
    controller was created on it, recovering from panics, and its watches were
    registered.  The process ends with success exactly when its manager stopped
    without an error; otherwise it exits with 1, the last thing it did being to
    log an error. *)
Theorem controller_starts_prepared f t r :
  exec (Run f) t r ->
  (existsb starts t = true -> exists o co t', t = preamble f o co ++ t' /\ started f o co r t') /\
  ended t r.
Proof.
  intros (o & co & t' & -> & [Hs He]%exec_steps)%exec_Run. split; [|by apply ended_app].
  rewrite existsb_app, preamble_starts_nothing. intros Hst. exists o, co, t'. auto.
Qed.

End starting.

(** ** Instances *)

Module witnesses.

Definition add_kinds (group version : string) (kinds : list string) (s : list metav1.GroupVersionKind) :
    list metav1.GroupVersionKind * option error :=
  (map (fun kind => {| metav1.Group := group; metav1.Version := version; metav1.Kind := kind |}) kinds ++ s, None).

(** A scheme that lists its kinds. *)
#[export] Instance listed_runtime : ControllerRuntime.
Proof.
  refine {| RestConfig := unit; Manager := nat; Controller := nat; Reconciler := nat; Cache := nat; Client := nat;
            ControllerOptions := string; runtime_Scheme := list metav1.GroupVersionKind; NewRuntimeScheme := [];
            knows s gvk := gvk ∈ s; kubernetesscheme_AddToScheme s := (s, None);
            Builder_AddToScheme := add_kinds |}.
  - intros group version kinds s s' [= <-] kind Hk. apply elem_of_app. left.
    apply list_elem_of_fmap. by exists kind.
  - intros group version kinds s s' [= <-] gvk Hk. apply elem_of_app. by right.
Defined.

(** A controller with an upgrade, an initializer and options of its own. *)
Definition factory : ControllerFactory :=
  {| Metadata := {| Name := "network"; Version := "1.2.3"; Revision := "abc" |}; has_options := true;
     is_upgrader := true; is_initializer := true; Schemes := [add_kinds "network" "v1" ["Network"]] |}.

Definition parsed : Options :=
  {| core := {| Namespace := "system"; OTLPEndpoint := "otel:4318"; TraceSampingRatio := Finite (1 # 2)%Q |};
     MaxConcurrentReconciles := 8; CDDriver := "argocd" |}.

Definition its_scheme : list metav1.GroupVersionKind :=
  match coreclient.NewScheme (Schemes factory) with Ok s => s | Err _ => [] end.

Definition start_trace : trace bootE :=
  [Ev (AddFlags false) tt; Ev (AddFlags true) tt; Ev ParseFlags (parsed, "own"); Ev SetupLogging tt;
   Ev (LogInfo "service starting" ["application"; "network"; "version"; "1.2.3"; "revision"; "abc"]) tt;
   Ev SetupSignalHandler tt; Ev SetTextMapPropagator tt; Ev (NewTraceExporter "otel:4318") None;
   Ev (SetTracerProvider [WithBatcher "otel:4318"; WithSampler (ParentBased (Finite (1 # 2)%Q))]) tt;
   Ev (NewMetricExporter "otel:4318") None; Ev (SetMeterProvider (Some "otel:4318")) tt;
   Ev InClusterConfig (Ok tt); Ev (NewCache tt its_scheme) (Ok 1); Ev (StartCache 1) tt;
   Ev (NewWithWatch tt its_scheme 1 true) (Ok 2); Ev (Upgrade 2 parsed) None;
   Ev GetConfig (Ok tt); Ev (NewManager tt its_scheme true "network") (Ok 3); Ev (Initialize 3 parsed) None;
   Ev (NewReconciler parsed (Some "own") 3) 4; Ev (NewController "network" 3 8 true 4) (Ok 5);
   Ev (RegisterWatches 3 5) None; Ev (StartManager 3) None].

Lemma controller_starts_prepared_witness :
  exec (Run factory) start_trace Returned /\ ended start_trace Returned /\
  exists o co t', start_trace = preamble factory o co ++ t' /\ started factory o co Returned t'.
Proof.
  assert (exec (Run factory) start_trace Returned) as Hx by solve_exec.
  split; [exact Hx|]. split; [exact (proj2 (controller_starts_prepared _ _ _ Hx))|].
  exact (proj1 (controller_starts_prepared _ _ _ Hx) eq_refl).
Defined.

End witnesses.
