(* ===== verification/ProvisionerUtil.v ===== *)
(** * ProvisionerUtil: small helpers of provisioners and services

    pkg/provisioners/util (the namespace of a resource, the hash of a
    configuration, scheduling values) and the network helpers of pkg/util/util.go
    (the memoized address behind which the platform is seen, and the test that a
    cluster's API can be reached). *)

From S2P Require Import Prelude Errors GoStrings Hex Json Effects Kubernetes CD.
From Stdlib Require Import Ascii.

(** ** pkg/provisioners/util *)

(** The one call: a list of the namespaces that match a set of labels. *)
Inductive namespaceE (Cl N : Type) : Type -> Type :=
| ListNamespaces (client : Cl) (selector : gmap string string) : namespaceE Cl N (result (list N)).

Arguments ListNamespaces {Cl N} client selector.

(** encoding/json.Marshal of a configuration, and crypto/sha256.Sum256. *)
Class Marshaler (T : Type) := { json_Marshal : T -> result string }.
Class SHA256 := {
  Sum256 : string -> string;
  Sum256_length data : String.length (Sum256 data) = 32;
}.

Module provisioners_util.
Section namespaces.
Context {Cl O N : Type}.

(** [labels_String]: how a labels.Set is printed. *)
Definition GetResourceNamespace (labels_String : gmap string string -> string) (ctx : Context Cl O)
    (l : gmap string string) : prog (namespaceE Cl N) (result N) :=
  attempt (mret (FromContext ctx)) (fun c =>
  attempt (call (ListNamespaces c l)) (fun items =>
  match items with
  | [item] => mret (Ok item)
  | _ => mret (Err (Wrapped (Sentinel util_ErrNamespaceLookup) ("labels " +:+ labels_String l)))
  end)).

End namespaces.

Definition GetConfigurationHash {T : Type} `{Marshaler T, SHA256} (config : T) : result string :=
  match json_Marshal config with
  | Err err => Err err
  | Ok configJSON => let configHash := Sum256 configJSON in Ok (hex_bytes configHash)
  end.

Definition ControlPlaneTolerations : list (gmap string string) :=
  [{[ "key" := "node-role.kubernetes.io/control-plane"; "effect" := "NoSchedule" ]}].

Definition ControlPlaneNodeSelector : gmap string string :=
  {[ "node-role.kubernetes.io/control-plane" := "" ]}.

Definition ControlPlaneInitTolerations : list (gmap string string) :=
  [{[ "key" := "node.cloudprovider.kubernetes.io/uninitialized"; "effect" := "NoSchedule"; "value" := "true" ]};
   {[ "key" := "node.cilium.io/agent-not-ready"; "effect" := "NoSchedule"; "value" := "true" ]}].

End provisioners_util.

Import provisioners_util.

(** ** pkg/util/util.go *)

(** The calls of GetNATPrefix; [DoRequest] answers the error of client.Do. *)
Inductive natE : Type -> Type :=
| NewRequest (method url : string) : natE (option error)
| DoRequest : natE (option error)
| ReadAll : natE (result string)
| CloseBody : natE unit.

(** encoding/json's parser. *)
Class JsonParser := { json_parse : string -> result json }.

(** The calls of Connect: the client's configuration and construction, and the
    read of a service. *)
Inductive connectE : Type -> Type :=
| ClientConfig : connectE (option error)
| NewClient : connectE (option error)
| GetService (namespace name : string) : connectE (option error).

Module netutil.

(** The struct with the one field [ip], filled from an object: keys match in
    either case, and a value of another type is an error reported at the end,
    after the rest of the object. *)
Fixpoint decode_ip (fields : list (string * json)) (ip : string) : string * option error :=
  match fields with
  | [] => (ip, None)
  | (key, v) :: fields' =>
    if bool_decide (strings_ToLower key = "ip") then
      match v with
      | JString s => decode_ip fields' s
      | JNull => decode_ip fields' ip
      | _ => let '(ip, _) := decode_ip fields' ip in (ip, Some (Foreign "json: cannot unmarshal into .ip of type string"))
      end
    else decode_ip fields' ip
  end.

Definition natAddress `{JsonParser} (body : string) : result string :=
  match json_parse body with
  | Err err => Err err
  | Ok (JObject fields) => match decode_ip fields "" with (_, Some err) => Err err | (ip, None) => Ok ip end
  | Ok JNull => Ok ""
  | Ok _ => Err (Foreign "json: cannot unmarshal into Go value of type struct")
  end.

(** GetNATPrefix: the package variable before, and the one after with the answer. *)
Definition GetNATPrefix `{JsonParser} (natPrefix : string) : prog natE (string * result string) :=
  if bool_decide (natPrefix <> "") then mret (natPrefix, Ok natPrefix)
  else
    err ← call (NewRequest "GET" "https://api.ipify.org?format=json");
    match err with
    | Some err => mret (natPrefix, Err err)
    | None =>
      err ← call DoRequest;
      match err with
      | Some err => mret (natPrefix, Err err)
      | None =>
        body ← call ReadAll;
        let '(natPrefix, r) :=
          match body with
          | Err err => (natPrefix, Err err)
          | Ok body =>
            match natAddress body with
            | Err err => (natPrefix, Err err)
            | Ok ip => let natPrefix := ip +:+ "/32" in (natPrefix, Ok natPrefix)
            end
          end in
        _ ← call CloseBody;
        mret (natPrefix, r)
      end
    end.

(** DefaultK8SAPITester.Connect. *)
Definition Connect : prog connectE (option error) :=
  check (call ClientConfig) (
  check (call NewClient) (
  err ← call (GetService "default" "kubernetes");
  match err with
  | Some _ => mret (Some (Sentinel util_ErrK8SConnectionError))
  | None => mret None
  end)).

End netutil.

Import netutil.

(** ** Namespaces and hashes *)

Section facts.
Context {Cl O N : Type} `{Object N} (labels_String : gmap string string -> string).

(** An API server that holds these namespaces. *)
Definition serve_namespaces (held : list N) (X : Type) (e : namespaceE Cl N X) (s : unit) : unit * X :=
  match e with
  | ListNamespaces _ selector => (tt, Ok (base.filter (fun n => selector ⊆ GetLabels n) held))
  end.

(** A namespace is found under a set of labels exactly when it is the only one
    that has all of them; otherwise the answer is the lookup error, or that the
    context has no client, and never some namespace among several. *)
Theorem namespace_lookup_exact (ctx : Context Cl O) (l : gmap string string) (held : list N) :
  let r := (outcome (serve_namespaces held) (GetResourceNamespace labels_String ctx l) tt).2 in
  (forall n, r = Ok n <->
     is_Some (provisionerClientKey ctx) /\
     exists before after, held = before ++ n :: after /\ l ⊆ GetLabels n /\
       forall n', n' ∈ before ++ after -> ~ l ⊆ GetLabels n') /\
  (forall err, r = Err err ->
     err = Sentinel ErrInvalidContext /\ provisionerClientKey ctx = None \/ errors_is err util_ErrNamespaceLookup = true).
Proof.
  unfold GetResourceNamespace, attempt. autorewrite with go. unfold FromContext.
  destruct (provisionerClientKey ctx) as [c|]; [|split; [|naive_solver]].
  2: { intros n. split; [done|]. by intros [[? [=]] _]. }
  autorewrite with go. cbn. split.
  - intros n. transitivity (base.filter (fun n => l ⊆ GetLabels n) held = [n]).
    { destruct (base.filter _ held) as [|n0 [|n1 rest]]; cbn; split; intros [=]; by subst. }
    split.
    + intros (Hl & l1 & l2 & -> & H1 & H2)%filter_singleton_split. split; [by eexists|].
      exists l1, l2. split_and!; [done..|]. intros n' Hin Hsub.
      assert (n' ∈ base.filter (fun n => l ⊆ GetLabels n) (l1 ++ l2)) as Hbad by (by apply list_elem_of_filter).
      rewrite filter_app, H1, H2 in Hbad. by apply elem_of_nil in Hbad.
    + intros (_ & before & after & -> & Hn & Hno). by apply filter_singleton_intro.
  - intros err. destruct (base.filter _ held) as [|n0 [|n1 rest]]; cbn; intros [= <-]; right; cbn; by rewrite bool_decide_true.
Qed.

Context {T : Type} `{Marshaler T, SHA256}.

(** The hash of a configuration is 64 lower-case hexadecimal digits, which any
    label or annotation takes, and two configurations have the same one exactly
    when the digests of their documents are the same: nothing is lost on the way,
    so a changed configuration changes the hash. *)
Theorem configuration_hash_exact (c1 c2 : T) h1 h2 d1 d2 :
  json_Marshal c1 = Ok d1 -> json_Marshal c2 = Ok d2 ->
  GetConfigurationHash c1 = Ok h1 -> GetConfigurationHash c2 = Ok h2 ->
  String.length h1 = 64 /\ (forall c, c ∈ String.list_ascii_of_string h1 -> lower_hex c = true) /\
  (h1 = h2 <-> Sum256 d1 = Sum256 d2).
Proof.
  unfold GetConfigurationHash. intros -> -> [= <-] [= <-]. split_and!.
  - by rewrite hex_bytes_length, Sum256_length.
  - apply hex_bytes_form.
  - split; [apply hex_bytes_inj|by intros ->].
Qed.

End facts.

(** ** The memoized address *)

Section nat.
Context `{JsonParser}.

Lemma prefix_not_empty ip : ip +:+ "/32" <> "".
Proof. by destruct ip. Qed.

Definition opened (ev : event natE) : bool :=
  match ev with Ev e x => match e in natE X return X -> bool with DoRequest => fun err => bool_decide (err = None) | _ => fun _ => false end x end.

Definition closed (ev : event natE) : bool :=
  match ev with Ev e _ => match e with CloseBody => true | _ => false end end.

Lemma memoized_no_request natPrefix t s :
  natPrefix <> "" -> exec (GetNATPrefix natPrefix) t s <-> t = [] /\ s = (natPrefix, Ok natPrefix).
Proof. intros Hp. unfold GetNATPrefix. by rewrite bool_decide_true. Qed.

Lemma exec_fetch t natPrefix r :
  exec (GetNATPrefix "") t (natPrefix, r) ->
  (existsb opened t = true -> existsb closed t = true) /\
  match r with
  | Ok v => natPrefix = v /\ exists body ip, Ev ReadAll (Ok body) ∈ t /\ natAddress body = Ok ip /\ v = ip +:+ "/32"
  | Err _ => natPrefix = ""
  end.
Proof.
  unfold GetNATPrefix. rewrite bool_decide_false by naive_solver. intros Hx.
  exec_inv; (split; [done|]); try done;
    match goal with r : result string |- _ => destruct r as [body|]; simplify_eq; [|done] end.
  destruct (natAddress body) as [ip|] eqn:Hip; simplify_eq; [|done]. split; [done|]. exists body, ip.
  split; [|done]. by eauto using list_elem_of_here, list_elem_of_further.
Qed.

(** The first prefix found is the answer from then on: no later call makes a
    request.  It is the address the service answered with "/32" after it, a call
    that fails leaves the next one to try again, and a response that was opened
    is closed either way. *)
Theorem nat_prefix_memoized natPrefix t natPrefix' r :
  exec (GetNATPrefix natPrefix) t (natPrefix', r) ->
  (forall v, r = Ok v ->
     natPrefix' = v /\ (forall t' s, exec (GetNATPrefix natPrefix') t' s <-> t' = [] /\ s = (v, Ok v)) /\
     (natPrefix = "" -> exists body ip, Ev ReadAll (Ok body) ∈ t /\ natAddress body = Ok ip /\ v = ip +:+ "/32")) /\
  (forall err, r = Err err -> natPrefix = "" /\ natPrefix' = "") /\
  (existsb opened t = true -> existsb closed t = true).
Proof.
  intros Hx. destruct (decide (natPrefix = "")) as [->|Hp].
  - apply exec_fetch in Hx as [Hc Hr]. split_and!; [|by intros err ->|done].
    intros v ->. destruct Hr as (-> & body & ip & Hin & Hip & ->). split_and!; [done| |eauto].
    intros. apply memoized_no_request, prefix_not_empty.
  - apply memoized_no_request in Hx as [-> [= -> ->]]; [|done]. split_and!; [|done..].
    intros v [= <-]. split_and!; [done| |done]. intros. by apply memoized_no_request.
Qed.

(** A service that answers without an address has its answer kept as well. *)
Lemma missing_address_memoized body :
  json_parse body = Ok (JObject []) ->
  exec (GetNATPrefix "")
    [Ev (NewRequest "GET" "https://api.ipify.org?format=json") None; Ev DoRequest None; Ev ReadAll (Ok body);
     Ev CloseBody tt] ("/32", Ok "/32").
Proof.
  intros Hb. assert (natAddress body = Ok "") as Hip by (unfold natAddress; by rewrite Hb).
  unfold GetNATPrefix. rewrite bool_decide_false by naive_solver.
  do 3 (eexists _, _; split; [reflexivity|]). cbn. rewrite Hip. by solve_exec.
Qed.

End nat.

(** ** Instances *)

Module witnesses.

(** A document's first bytes, padded: a digest for documents shorter than 32 bytes. *)
Fixpoint pad (n : nat) (s : string) : string :=
  match n, s with
  | 0, _ => EmptyString
  | S n, EmptyString => String zero (pad n EmptyString)
  | S n, String c s => String c (pad n s)
  end.

Lemma pad_length n s : String.length (pad n s) = n.
Proof. revert s. induction n as [|n IH]; intros [|c s]; simpl; auto. Qed.

#[export] Instance padded_digest : SHA256 := {| Sum256 := pad 32; Sum256_length := pad_length 32 |}.
#[export] Instance text_marshaler : Marshaler string := {| json_Marshal s := Ok (dquote +:+ s +:+ dquote) |}.

Definition hash_of (s : string) : string := match GetConfigurationHash s with Ok h => h | Err _ => "" end.

Lemma configuration_hash_exact_witness : hash_of "replicas: 1" <> hash_of "replicas: 2".
Proof.
  intros Heq. pose proof (configuration_hash_exact "replicas: 1" "replicas: 2" _ _ _ _ eq_refl eq_refl eq_refl eq_refl)
    as (_ & _ & Hh). apply Hh in Heq. vm_compute in Heq. discriminate.
Defined.

#[export] Instance namespace_object : Object metav1.ObjectMeta.
Proof. by refine {| object_meta m := m; set_object_meta m _ := m |}. Defined.

Definition namespace (name project : string) : metav1.ObjectMeta :=
  {| metav1.Name := name; metav1.Namespace := ""; metav1.Generation := 1; metav1.CreationTimestamp := 1;
     metav1.DeletionTimestamp := None; metav1.Labels := {[ "project" := project ]}; metav1.Annotations := ∅;
     metav1.Finalizers := [] |}.

Definition lookup (project : string) (held : list metav1.ObjectMeta) : result metav1.ObjectMeta :=
  let ctx : Context unit unit := NewContext Background tt in
  (outcome (serve_namespaces held) (GetResourceNamespace (fun _ => "") ctx {[ "project" := project ]}) tt).2.

Lemma namespace_lookup_exact_witness :
  lookup "a" [namespace "one" "a"; namespace "two" "b"] = Ok (namespace "one" "a").
Proof.
  apply (proj1 (namespace_lookup_exact (fun _ => "") (NewContext Background tt : Context unit unit)
    {[ "project" := "a" ]} [namespace "one" "a"; namespace "two" "b"])).
  split; [by eexists|]. exists [], [namespace "two" "b"]. split_and!; [done|apply reflexivity|].
  intros n Hn%list_elem_of_singleton Hsub. subst n.
  assert (metav1.Labels (namespace "two" "b") !! "project" = Some "a") as Hl; [|vm_compute in Hl; discriminate].
  by eapply (lookup_weaken {[ "project" := "a" ]}).
Defined.

(** A parser of one document. *)
#[export] Instance one_document : JsonParser :=
  {| json_parse s := if bool_decide (s = "{ip}") then Ok (JObject [("ip", JString "192.0.2.1")]) else Err (Foreign "syntax") |}.

Definition fetch_trace : trace natE :=
  [Ev (NewRequest "GET" "https://api.ipify.org?format=json") None; Ev DoRequest None; Ev ReadAll (Ok "{ip}");
   Ev CloseBody tt].

Lemma nat_prefix_memoized_witness :
  exec (GetNATPrefix "") fetch_trace ("192.0.2.1/32", Ok "192.0.2.1/32") /\
  exec (GetNATPrefix "192.0.2.1/32") [] ("192.0.2.1/32", Ok "192.0.2.1/32").
Proof.
  assert (exec (GetNATPrefix "") fetch_trace ("192.0.2.1/32", Ok "192.0.2.1/32")) as Hx by solve_exec.
  split; [exact Hx|]. apply (proj1 (nat_prefix_memoized _ _ _ _ Hx) _ eq_refl). done.
Defined.

End witnesses.
