(* ===== verification/TestClient.v ===== *)
(** * TestClient: the API client that tests of services share

    pkg/testing/client: requests with a trace context and a bearer token
    (client.go), trace identifiers (trace.go) and list responses (response.go). *)

From S2P Require Import Prelude Errors GoStrings Hex Effects.
From Stdlib Require Import Ascii.

(** The bytes a buffer of length [n] holds after crypto/rand.Read. *)
Definition buffer (n : nat) : Type := { s : string | String.length s = n }.

(** net/http, as far as the client uses it.  A body is what a reader yields;
    [None] is a nil reader. *)
Record Request := { Method : string; URL : string; Header : gmap string string; ReqBody : option string }.

Record Response := { StatusCode : Z }.

(** The arguments of a Printf. *)
Inductive log_arg : Type :=
| AString (s : string)
| AInt (z : Z)
| ADuration (d : Z)
| AError (e : error).

Inductive clientE : Type -> Type :=
| RandRead (n : nat) : clientE (buffer n)
| NewRequest (method url : string) (body : option string) : clientE (option error)
| Now : clientE Z
| Do (req : Request) : clientE (result Response)
| ReadAll : clientE (result string)
| CloseBody : clientE unit
| Printf (format : string) (args : list log_arg) : clientE unit.

Module client.

(** ** trace.go *)

Definition generateTraceID : prog clientE string := bytes ← call (RandRead 16); mret (hex_bytes (`bytes)).
Definition generateSpanID : prog clientE string := bytes ← call (RandRead 8); mret (hex_bytes (`bytes)).

Definition CreateTraceParent : prog clientE string :=
  traceID ← generateTraceID;
  spanID ← generateSpanID;
  mret ("00-" +:+ traceID +:+ "-" +:+ spanID +:+ "-01").

Definition ExtractTraceID (traceParent : string) : string :=
  let parts := strings_Split "-"%char traceParent in
  if decide (2 <= length parts) then nth 1 parts "" else traceParent.

Definition ExtractSpanID (traceParent : string) : string :=
  let parts := strings_Split "-"%char traceParent in
  if decide (3 <= length parts) then nth 2 parts "" else "".

Definition FormatTraceContext (traceParent : string) : string :=
  "traceID=" +:+ ExtractTraceID traceParent +:+ " spanID=" +:+ ExtractSpanID traceParent.

(** ** client.go *)

Record Config := { BaseURL : string; RequestTimeout : Z; LogRequests : bool; LogResponses : bool }.

(** The http.Client is its timeout; [logger]: whether there is one. *)
Record APIClient := {
  baseURL : string;
  timeout : Z;
  authToken : string;
  config : Config;
  logger : bool;
}.

(** strings.TrimSuffix. *)
Definition TrimSuffix (s suffix : string) : string :=
  if HasSuffix s suffix then String.substring 0 (String.length s - String.length suffix) s else s.

Definition NewAPIClientWithConfig (config : Config) (authToken : string) (logger : bool) : APIClient :=
  {| baseURL := TrimSuffix (BaseURL config) "/"; timeout := RequestTimeout config; authToken := authToken;
     config := config; logger := logger |}.

Definition NewAPIClient (baseURL authToken : string) (timeout : Z) (logger : bool) : APIClient :=
  NewAPIClientWithConfig
    {| BaseURL := baseURL; RequestTimeout := timeout; LogRequests := false; LogResponses := false |} authToken logger.

Definition SetAuthToken (token : string) (c : APIClient) : APIClient :=
  {| baseURL := baseURL c; timeout := timeout c; authToken := token; config := config c; logger := logger c |}.

Definition with_config (f : Config -> Config) (c : APIClient) : APIClient :=
  {| baseURL := baseURL c; timeout := timeout c; authToken := authToken c; config := f (config c); logger := logger c |}.

Definition SetLogRequests (enabled : bool) : APIClient -> APIClient := with_config (fun g =>
  {| BaseURL := BaseURL g; RequestTimeout := RequestTimeout g; LogRequests := enabled; LogResponses := LogResponses g |}).

Definition SetLogResponses (enabled : bool) : APIClient -> APIClient := with_config (fun g =>
  {| BaseURL := BaseURL g; RequestTimeout := RequestTimeout g; LogRequests := LogRequests g; LogResponses := enabled |}).

Definition logTraceContext (c : APIClient) (traceParent : string) : prog clientE unit :=
  if logger c then
    call (Printf ("TRACE CONTEXT: Use %s to search logs for this request" +:+ newline) [AString (FormatTraceContext traceParent)])
  else mret tt.

Definition logError (c : APIClient) (method path : string) (duration : Z) (traceParent : string) (err : error) (context : string) : prog clientE unit :=
  if logger c then
    _ ← call (Printf ("[%s %s] ERROR %s duration=%s %s error=%v" +:+ newline)
      [AString method; AString path; AString context; ADuration duration; AString (FormatTraceContext traceParent); AError err]);
    logTraceContext c traceParent
  else mret tt.

Definition logErrorWithStatus (c : APIClient) (method path : string) (duration statusCode : Z) (traceParent : string) (err : error) (context : string) : prog clientE unit :=
  if logger c then
    _ ← call (Printf ("[%s %s] ERROR %s duration=%s status=%d %s error=%v" +:+ newline)
      [AString method; AString path; AString context; ADuration duration; AInt statusCode;
       AString (FormatTraceContext traceParent); AError err]);
    logTraceContext c traceParent
  else mret tt.

Definition logUnexpectedStatus (c : APIClient) (method path : string) (expectedStatus actualStatus : Z) (body traceParent : string) : prog clientE unit :=
  if logger c then
    _ ← call (Printf ("[%s %s] UNEXPECTED STATUS expected=%d got=%d body=%s %s" +:+ newline)
      [AString method; AString path; AInt expectedStatus; AInt actualStatus; AString body; AString (FormatTraceContext traceParent)]);
    logTraceContext c traceParent
  else mret tt.

(** The headers that are set, in order. *)
Definition headers (c : APIClient) (traceParent : string) (body : option string) : gmap string string :=
  let h := <["Tracestate" := "test-automation=true"]> (<["Traceparent" := traceParent]> ∅) in
  let h := match body with Some _ => <["Content-Type" := "application/json"]> h | None => h end in
  if decide (authToken c <> "") then <["Authorization" := "Bearer " +:+ authToken c]> h else h.

Definition buildHTTPRequest (c : APIClient) (method fullURL : string) (body : option string) : prog clientE (result (Request * string)) :=
  err ← call (NewRequest method fullURL body);
  match err with
  | Some err => mret (Err (Wrapped err "creating request"))
  | None =>
    traceParent ← CreateTraceParent;
    mret (Ok ({| Method := method; URL := fullURL; Header := headers c traceParent body; ReqBody := body |}, traceParent))
  end.

Definition executeHTTPRequest (c : APIClient) (req : Request) (method path traceParent : string) : prog clientE (result (Response * Z)) :=
  start ← call Now;
  resp ← call (Do req);
  now ← call Now;
  let duration := (now - start)%Z in
  match resp with
  | Err err =>
    _ ← logError c method path duration traceParent err "http request failed";
    mret (Err (Wrapped err "http request failed"))
  | Ok resp => mret (Ok (resp, duration))
  end.

Definition readResponseBody (c : APIClient) (resp : Response) (method path traceParent : string) (duration : Z) : prog clientE (result string) :=
  respBody ← call ReadAll;
  match respBody with
  | Err err =>
    _ ← logErrorWithStatus c method path duration (StatusCode resp) traceParent err "reading response body";
    mret (Err (Wrapped err "reading response body"))
  | Ok respBody => mret (Ok respBody)
  end.

Definition logRequestResponse (c : APIClient) (method path : string) (statusCode duration : Z) (traceParent respBody : string) : prog clientE unit :=
  _ ← (if LogRequests (config c) && logger c then
         call (Printf ("[%s %s] status=%d duration=%s traceparent=%s" +:+ newline)
           [AString method; AString path; AInt statusCode; ADuration duration; AString traceParent])
       else mret tt);
  if LogResponses (config c) && (0 <? String.length respBody) && logger c then
    call (Printf ("[%s %s] response body: %s" +:+ newline) [AString method; AString path; AString respBody])
  else mret tt.

Definition validateStatusCode (c : APIClient) (method path : string) (expectedStatus actualStatus : Z) (respBody traceParent : string) : prog clientE (option error) :=
  if (0 <? expectedStatus)%Z && negb (actualStatus =? expectedStatus)%Z then
    _ ← logUnexpectedStatus c method path expectedStatus actualStatus respBody traceParent;
    mret (Some (Wrapped (Sentinel client_ErrUnexpectedStatusCode)
      ("expected " +:+ itoa expectedStatus +:+ ", got " +:+ itoa actualStatus +:+ ", body: " +:+ respBody +:+
       " (" +:+ FormatTraceContext traceParent +:+ ")")))
  else mret None.

(** The body of DoRequest once there is a response; its Close is deferred. *)
Definition handleResponse (c : APIClient) (resp : Response) (duration : Z) (method path traceParent : string) (expectedStatus : Z) :
    prog clientE (option Response * option string * option error) :=
  respBody ← readResponseBody c resp method path traceParent duration;
  match respBody with
  | Err err => mret (Some resp, None, Some err)
  | Ok respBody =>
    _ ← logRequestResponse c method path (StatusCode resp) duration traceParent respBody;
    err ← validateStatusCode c method path expectedStatus (StatusCode resp) respBody traceParent;
    mret (Some resp, Some respBody, err)
  end.

Definition DoRequest (c : APIClient) (method path : string) (body : option string) (expectedStatus : Z) :
    prog clientE (option Response * option string * option error) :=
  let fullURL := baseURL c +:+ path in
  built ← buildHTTPRequest c method fullURL body;
  match built with
  | Err err => mret (None, None, Some err)
  | Ok (req, traceParent) =>
    done ← executeHTTPRequest c req method path traceParent;
    match done with
    | Err err => mret (None, None, Some err)
    | Ok (resp, duration) =>
      r ← handleResponse c resp duration method path traceParent expectedStatus;
      _ ← call CloseBody;
      mret r
    end
  end.

(** ** response.go *)

Record ResponseHandlerConfig := {
  ResourceType : string;
  ResourceID : string;
  ResourceIDType : string;
  AllowForbidden : bool;
  AllowNotFound : bool;
}.

(** [unmarshal]: json.Unmarshal into a list of the element type. *)
Definition HandleResourceListResponse {T : Type} (unmarshal : string -> result (list T)) (status : Z) (respBody : string)
    (config : ResponseHandlerConfig) : result (list T) :=
  let about := ResourceIDType config +:+ " '" +:+ ResourceID config +:+ "' (status: " +:+ itoa status +:+ ")" in
  if (status =? 200)%Z then
    match unmarshal respBody with
    | Err err => Err (Wrapped err ("unmarshaling " +:+ ResourceType config +:+ " response"))
    | Ok resources => Ok resources
    end
  else if (status =? 404)%Z then
    if AllowNotFound config then Err (Wrapped (Sentinel client_ErrResourceNotFound) about)
    else Err (Wrapped (Sentinel client_ErrResourceNotFound) about)
  else if (status =? 403)%Z then
    if AllowForbidden config then Err (Wrapped (Sentinel client_ErrAccessDenied) about)
    else Err (Wrapped (Sentinel client_ErrAccessDenied) about)
  else if (status =? 500)%Z then
    Err (Wrapped (Sentinel client_ErrServerError)
      ("reading " +:+ ResourceType config +:+ " for " +:+ about +:+ ": " +:+ respBody))
  else Err (Wrapped (Sentinel client_ErrUnexpectedStatus) ("status code " +:+ itoa status)).

(** ListResource.  An answer without an error has a response and a body. *)
Definition ListResource {T : Type} (unmarshal : string -> result (list T)) (c : APIClient) (path : string)
    (config : ResponseHandlerConfig) : prog clientE (result (list T)) :=
  r ← DoRequest c "GET" path None 0;
  match r with
  | (_, _, Some err) => mret (Err (Wrapped err ("listing " +:+ ResourceType config)))
  | (Some resp, Some respBody, None) => mret (HandleResourceListResponse unmarshal (StatusCode resp) respBody config)
  | _ => mret (Err (Foreign "nil response"))
  end.

End client.

(** pkg/testing/config. *)
Module config.

(** ValidateRequiredFields; the error names the missing fields. *)
Definition ValidateRequiredFields `{MapOrder} (required : gmap string string) : option string :=
  let missing := fold_left (fun missing '(envVar, value) =>
    if decide (value = "") then missing ++ [envVar] else missing) (map_range required) [] in
  if decide (0 < length missing) then Some (strings_Join ", " missing) else None.

(** An int64, wrapped around. *)
Definition int64 (z : Z) : Z := ((z + 2 ^ 63) mod 2 ^ 64 - 2 ^ 63)%Z.

(** GetDurationFromViper, of what viper reads the key as; nanoseconds. *)
Definition GetDurationFromViper (getDuration getInt defaultValue : Z) : Z :=
  if (getDuration <? 1000000)%Z && (0 <? getInt)%Z then int64 (getInt * 1000000000)
  else if (0 <? getDuration)%Z then getDuration else defaultValue.

Record BaseConfig := {
  config_BaseURL : string;
  AuthToken : string;
  config_RequestTimeout : Z;
  TestTimeout : Z;
  SkipIntegration : bool;
  DebugLogging : bool;
  config_LogRequests : bool;
  config_LogResponses : bool;
}.

Definition NewBaseConfig : BaseConfig :=
  {| config_BaseURL := ""; AuthToken := ""; config_RequestTimeout := 30000000000; TestTimeout := 1200000000000;
     SkipIntegration := false; DebugLogging := false; config_LogRequests := false; config_LogResponses := false |}.

End config.

Import client.

(** Nothing is missing exactly when every required field has a value. *)
Lemma required_fields_exact `{MapOrder} required :
  config.ValidateRequiredFields required = None <-> forall k v, required !! k = Some v -> v <> "".
Proof.
  unfold config.ValidateRequiredFields.
  assert (forall l acc, fold_left (fun missing '(envVar, value) =>
      if decide (value = "") then missing ++ [envVar] else missing) l acc =
    acc ++ (base.filter (fun kv : string * string => kv.2 = "") l).*1) as Hf.
  { induction l as [|[k v] l IH]; intros acc; simpl; [by rewrite app_nil_r|]. rewrite IH.
    destruct (decide (v = "")) as [->|Hv]; [rewrite filter_cons_True by done; by rewrite <- app_assoc|].
    by rewrite filter_cons_False. }
  rewrite Hf. cbn [app]. rewrite length_fmap. destruct (decide _) as [Hl|Hl]; (split; [|]).
  - done.
  - intros Hall. destruct (base.filter _ _) as [|[k v] l] eqn:Hm; [simpl in Hl; lia|].
    assert ((k, v) ∈ base.filter (fun kv : string * string => kv.2 = "") (map_range required)) as Hin
      by (rewrite Hm; apply list_elem_of_here).
    apply list_elem_of_filter in Hin as [Hv Hin%elem_of_map_range]. by apply Hall in Hin.
  - intros _ k v Hk ->. destruct (base.filter _ _) as [|kv l] eqn:Hm; [|simpl in Hl; lia].
    assert ((k, "") ∈ base.filter (fun kv : string * string => kv.2 = "") (map_range required)) as Hin.
    { apply list_elem_of_filter. split; [done|]. by apply elem_of_map_range. }
    rewrite Hm in Hin. by apply elem_of_nil in Hin.
  - done.
Qed.

(** ** Trace identifiers *)

Lemma hex_no_hyphen s : ~ has_byte "-"%char (hex_bytes s).
Proof.
  intros (a & b & Heq). assert ("-"%char ∈ String.list_ascii_of_string (hex_bytes s)) as Hin.
  { rewrite Heq. clear. induction a as [|c a IH]; [apply list_elem_of_here|by apply list_elem_of_further]. }
  by apply hex_bytes_form in Hin.
Qed.

Lemma Split_trace_parent tid sid :
  ~ has_byte "-"%char tid -> ~ has_byte "-"%char sid ->
  strings_Split "-"%char ("00-" +:+ tid +:+ "-" +:+ sid +:+ "-01") = ["00"; tid; sid; "01"].
Proof.
  intros Ht Hs. change ("00-" +:+ ?x) with ("00" +:+ String "-"%char x).
  rewrite Split_first by by intros ([|? [|? [|? ?]]] & ? & [=]).
  change ("-" +:+ ?x) with (String "-"%char x). rewrite Split_first by done.
  change ("-01") with (String "-"%char "01"). by rewrite Split_first.
Qed.

Lemma exec_CreateTraceParent t traceParent :
  exec CreateTraceParent t traceParent ->
  exists (trace : buffer 16) (span : buffer 8),
    t = [Ev (RandRead 16) trace; Ev (RandRead 8) span] /\
    ExtractTraceID traceParent = hex_bytes (`trace) /\ ExtractSpanID traceParent = hex_bytes (`span).
Proof.
  unfold CreateTraceParent, generateTraceID, generateSpanID. intros Hx.
  apply exec_bind in Hx as (t1 & t2 & tid & -> & H1 & Hx). apply exec_bind in Hx as (t3 & t4 & sid & -> & H2 & [-> ->]).
  apply exec_bind in H1 as (? & ? & trace & -> & ->%exec_call & [-> ->]).
  apply exec_bind in H2 as (? & ? & span & -> & ->%exec_call & [-> ->]).
  exists trace, span. unfold ExtractTraceID, ExtractSpanID.
  rewrite (Split_trace_parent (hex_bytes (`trace)) (hex_bytes (`span))) by apply hex_no_hyphen.
  cbn [nth length]. by rewrite !decide_True by lia.
Qed.

Lemma trace_parent_length t tp :
  exec CreateTraceParent t tp ->
  String.length (ExtractTraceID tp) = 32 /\ String.length (ExtractSpanID tp) = 16.
Proof.
  intros (tr & sp & _ & -> & ->)%exec_CreateTraceParent. rewrite !hex_bytes_length.
  destruct tr as [s1 ?], sp as [s2 ?]. simpl. lia.
Qed.

(** The identifiers of a trace context are those a log line is searched by: a
    trace parent carries sixteen random bytes and eight, in lower-case
    hexadecimal, and they are extracted from it, and printed, as they were made. *)
Theorem trace_context_roundtrip t traceParent :
  exec CreateTraceParent t traceParent ->
  exists (trace : buffer 16) (span : buffer 8),
    t = [Ev (RandRead 16) trace; Ev (RandRead 8) span] /\
    ExtractTraceID traceParent = hex_bytes (`trace) /\ ExtractSpanID traceParent = hex_bytes (`span) /\
    String.length (ExtractTraceID traceParent) = 32 /\ String.length (ExtractSpanID traceParent) = 16 /\
    FormatTraceContext traceParent = "traceID=" +:+ hex_bytes (`trace) +:+ " spanID=" +:+ hex_bytes (`span).
Proof.
  intros Hx. destruct (trace_parent_length _ _ Hx). destruct (exec_CreateTraceParent _ _ Hx) as (tr & sp & -> & H1 & H2).
  exists tr, sp. unfold FormatTraceContext. rewrite H1, H2 in *. split_and!; done.
Qed.

(** ** Requests *)

Section requests.
Implicit Type (c : APIClient) (t : trace clientE).

Definition request_of (ev : event clientE) : option Request :=
  match ev with Ev e _ => match e with Do req => Some req | _ => None end end.

Definition requests t : list Request := omap request_of t.

Definition responded (ev : event clientE) : bool :=
  match ev with Ev e x => match e in clientE X return X -> bool with Do _ => is_ok | _ => fun _ => false end x end.

Definition closed (ev : event clientE) : bool :=
  match ev with Ev e _ => match e with CloseBody => true | _ => false end end.

(** Programs that send nothing. *)
Definition sends_nothing {A : Type} (p : prog clientE A) : Prop :=
  forall t r, exec p t r -> Forall (fun ev => request_of ev = None) t.

Local Ltac quiet := intros t r Hx; exec_inv; repeat constructor.

Lemma create_sends_nothing : sends_nothing CreateTraceParent.
Proof. unfold CreateTraceParent, generateTraceID, generateSpanID. quiet. Qed.

Lemma logError_sends_nothing c m p d tp err x : sends_nothing (logError c m p d tp err x).
Proof. unfold logError, logTraceContext. destruct (logger c); quiet. Qed.

Lemma handle_sends_nothing c s d m p tp expected : sends_nothing (handleResponse c s d m p tp expected).
Proof.
  intros t r Hx. unfold handleResponse, readResponseBody in Hx.
  apply exec_bind in Hx as (t1 & t2 & body & -> & H1 & Hx). apply Forall_app. split.
  - apply exec_bind in H1 as (t3 & t4 & [b|err] & -> & ->%exec_call & H1); [destruct H1 as [-> _]; by repeat constructor|].
    unfold logErrorWithStatus, logTraceContext in H1. destruct (logger c); exec_inv; repeat constructor.
  - destruct body as [b|err]; [|by destruct Hx as [-> _]].
    apply exec_bind in Hx as (t3 & t4 & [] & -> & H2 & Hx). apply exec_bind in Hx as (t5 & t6 & e & -> & H3 & [-> ->]).
    rewrite app_nil_r. apply Forall_app. split.
    + unfold logRequestResponse in H2. apply exec_bind in H2 as (? & ? & [] & -> & H4 & H5). apply Forall_app.
      split; [clear H5; destruct (_ && _) in H4|clear H4; destruct (_ && _) in H5]; exec_inv; repeat constructor.
    + unfold validateStatusCode, logUnexpectedStatus, logTraceContext in H3.
      destruct (_ && _), (logger c) in H3; exec_inv; repeat constructor.
Qed.

(** What a response is turned into. *)
Lemma exec_handleResponse c s d m p tp expected t resp rbody err :
  exec (handleResponse c s d m p tp expected) t (resp, rbody, err) ->
  resp = Some s /\
  match err with
  | None => is_Some rbody /\ (expected <= 0 \/ StatusCode s = expected)%Z
  | Some e => rbody = None /\ (exists re, e = Wrapped re "reading response body") \/
              is_Some rbody /\ (0 < expected)%Z /\ StatusCode s <> expected /\
              errors_is e client_ErrUnexpectedStatusCode = true
  end.
Proof.
  unfold handleResponse, readResponseBody. intros Hx.
  apply exec_bind in Hx as (t1 & t2 & body & -> & H1 & Hx). destruct body as [b|e].
  - apply exec_bind in Hx as (t3 & t4 & u & -> & _ & Hx). apply exec_bind in Hx as (t5 & t6 & e & -> & H3 & [-> [= -> -> ->]]).
    split; [done|]. unfold validateStatusCode in H3.
    destruct (_ && _) eqn:Hv in H3; [apply andb_true_iff in Hv as [?%Z.ltb_lt ?%negb_true_iff%Z.eqb_neq]|].
    + apply exec_bind in H3 as (? & ? & ? & -> & _ & [-> ->]). right. split_and!; [by eexists|done..|].
      cbn. by rewrite bool_decide_true.
    + destruct H3 as [-> ->]. split; [by eexists|]. apply andb_false_iff in Hv as [?%Z.ltb_ge|?%negb_false_iff%Z.eqb_eq]; auto.
  - apply exec_bind in H1 as (? & ? & [b|e'] & -> & _ & H1); [by destruct H1|].
    apply exec_bind in H1 as (? & ? & ? & -> & _ & [-> [= ->]]). destruct Hx as [-> [= -> -> ->]].
    split; [done|]. left. split; [done|]. by eexists.
Qed.

Lemma requests_nothing t : Forall (fun ev => request_of ev = None) t -> requests t = [].
Proof. induction 1 as [|ev t Hev _ IH]; [done|]. unfold requests in *. csimpl. by rewrite Hev. Qed.

Lemma requests_app t1 t2 : requests (t1 ++ t2) = requests t1 ++ requests t2.
Proof. apply omap_app. Qed.

(** How a request goes: refused, failed, or answered. *)
Lemma exec_DoRequest c m p body expected t r :
  exec (DoRequest c m p body expected) t r ->
  let url := baseURL c +:+ p in
  (exists err, t = [Ev (NewRequest m url body) (Some err)] /\ r = (None, None, Some (Wrapped err "creating request"))) \/
  (exists tr tp t1 t2 resp, exec CreateTraceParent tr tp /\
     let req := {| Method := m; URL := url; Header := headers c tp body; ReqBody := body |} in
     t = Ev (NewRequest m url body) None :: tr ++ t1 ++ Ev (Do req) resp :: t2 /\
     (exists start, t1 = [Ev Now start]) /\ Forall (fun ev => request_of ev = None) t2 /\
     match resp with
     | Err err => r = (None, None, Some (Wrapped err "http request failed"))
     | Ok s => exists d t3 start, t2 = Ev Now start :: t3 ++ [Ev CloseBody tt] /\
                 exec (handleResponse c s d m p tp expected) t3 r
     end).
Proof.
  unfold DoRequest, buildHTTPRequest. intros Hx. apply exec_bind in Hx as (ta & tb & built & -> & Ha & Hx).
  apply exec_bind in Ha as (? & ? & [err|] & -> & ->%exec_call & Ha).
  - destruct Ha as [-> ->], Hx as [-> ->]. left. eauto.
  - apply exec_bind in Ha as (tr & ? & tp & -> & Htr & [-> ->]). right.
    apply exec_bind in Hx as (tc & td & done & -> & Hc & Hx). unfold executeHTTPRequest in Hc.
    apply exec_bind in Hc as (? & ? & start & -> & ->%exec_call & Hc).
    apply exec_bind in Hc as (? & ? & resp & -> & ->%exec_call & Hc).
    apply exec_bind in Hc as (? & ? & now & -> & ->%exec_call & Hc).
    exists tr, tp, [Ev Now start]. destruct resp as [s|err].
    + destruct Hc as [-> ->]. apply exec_bind in Hx as (t3 & ? & r' & -> & Hr & Hx).
      apply exec_bind in Hx as (? & ? & [] & -> & ->%exec_call & [-> ->]).
      exists (Ev Now now :: t3 ++ [Ev CloseBody tt]), (Ok s). split; [done|]. cbv zeta. split_and!; [|by exists start| |exists (now - start)%Z, t3, now; split; [done|exact Hr]].
      * by rewrite app_nil_r.
      * constructor; [done|]. apply Forall_app. split; [by eapply handle_sends_nothing|by repeat constructor].
    + apply exec_bind in Hc as (tl & ? & ? & -> & Hl & [-> ->]). destruct Hx as [-> ->].
      exists (Ev Now now :: tl), (Err err). split; [done|]. simpl. split_and!; [|eauto| |done].
      * by rewrite !app_nil_r.
      * constructor; [done|]. by eapply logError_sends_nothing.
Qed.

Lemma request_headers c tp body :
  headers c tp body !! "Traceparent" = Some tp /\
  headers c tp body !! "Content-Type" = (fun _ => "application/json") <$> body /\
  headers c tp body !! "Authorization" = if decide (authToken c = "") then None else Some ("Bearer " +:+ authToken c).
Proof. unfold headers. destruct body, (decide (authToken c = "")) as [Ht|Ht]; rewrite ?Ht; split_and!; reflexivity || by simplify_map_eq. Qed.

Lemma existsb_nothing t : Forall (fun ev => request_of ev = None) t -> existsb responded t = false.
Proof. induction 1 as [|[X e x] t Hev _ IH]; [done|]. simpl. rewrite IH. by destruct e. Qed.

(** A call of the API client makes at most one request, of the method, path and
    body it was given, carrying its trace parent and its token where there is
    one; it succeeds exactly when it has a response and its body, of the status
    that was expected if any was, and a response is closed whatever becomes of it. *)
Theorem api_request_exact c m p body expected t resp rbody err :
  exec (DoRequest c m p body expected) t (resp, rbody, err) ->
  (requests t = [] \/ exists req tp, requests t = [req] /\ Method req = m /\ URL req = baseURL c +:+ p /\
     ReqBody req = body /\ Header req !! "Traceparent" = Some tp /\ String.length (ExtractTraceID tp) = 32 /\
     Header req !! "Content-Type" = (fun _ => "application/json") <$> body /\
     Header req !! "Authorization" = if decide (authToken c = "") then None else Some ("Bearer " +:+ authToken c)) /\
  (err = None <-> exists s b, resp = Some s /\ rbody = Some b /\ (expected <= 0 \/ StatusCode s = expected)%Z) /\
  (existsb responded t = true -> existsb closed t = true).
Proof.
  intros [(e & -> & [= -> -> ->])|(tr & tp & t1 & t2 & a & Htr & -> & (start & ->) & Ht2 & Ha)]%exec_DoRequest.
  { split_and!; [by left|naive_solver|done]. }
  pose proof (create_sends_nothing _ _ Htr) as Hq. destruct (trace_parent_length _ _ Htr) as [Hlen _].
  split_and!.
  - right. eexists _, tp. split.
    { change (?x :: ?y ++ ?z) with ([x] ++ y ++ z). rewrite !requests_app, (requests_nothing tr Hq).
      change (requests (?x :: t2)) with (requests ([x] ++ t2)). rewrite requests_app, (requests_nothing t2 Ht2). reflexivity. }
    cbn. destruct (request_headers c tp body) as (H1 & H2 & H3). by rewrite H1, H2, H3.
  - destruct a as [s|e]; [|injection Ha as -> -> ->; naive_solver].
    destruct Ha as (d & t3 & now & _ & [-> Hr]%exec_handleResponse). destruct err as [e|].
    + split; [done|]. intros (s' & b & [= <-] & -> & Hs). destruct Hr as [[? _]|(_ & ? & ? & _)]; [done|lia].
    + split; [|done]. intros _. destruct Hr as [[b ->] Hs]. eauto.
  - change (?x :: ?y ++ ?z) with ([x] ++ y ++ z). rewrite !existsb_app, (existsb_nothing tr Hq).
    destruct a as [s|e]; [|cbn; by rewrite (existsb_nothing t2 Ht2)].
    intros _. destruct Ha as (d & t3 & now & -> & _). cbn. rewrite !existsb_app. cbn. by rewrite !orb_true_r.
Qed.

(** ** The token *)

(** The same request, and the same trace, with another token. *)
Definition with_token (token : string) (req : Request) : Request :=
  {| Method := Method req; URL := URL req; ReqBody := ReqBody req;
     Header := let h := delete "Authorization" (Header req) in
               if decide (token = "") then h else <["Authorization" := "Bearer " +:+ token]> h |}.

Definition retoken (token : string) (ev : event clientE) : event clientE :=
  match ev with
  | Ev e x => match e in clientE X return X -> event clientE with
              | Do req => fun x => Ev (Do (with_token token req)) x
              | e => fun x => Ev e x
              end x
  end.

Lemma retoken_nothing token t : Forall (fun ev => request_of ev = None) t -> map (retoken token) t = t.
Proof. induction 1 as [|[X e x] t Hev _ IH]; [done|]. simpl. rewrite IH. by destruct e. Qed.

Lemma headers_retoken c token tp body :
  (let h := delete "Authorization" (headers c tp body) in
   if decide (token = "") then h else <["Authorization" := "Bearer " +:+ token]> h) =
  headers (SetAuthToken token c) tp body.
Proof.
  cbv zeta. unfold headers. cbn [authToken SetAuthToken]. apply map_eq. intros k.
  repeat case_decide; try (by exfalso; auto); destruct body, (decide (k = "Authorization")) as [->|Hk]; by simplify_map_eq.
Qed.

Lemma build_retoken c token m url body t built :
  exec (buildHTTPRequest c m url body) t built ->
  Forall (fun ev => request_of ev = None) t /\
  exec (buildHTTPRequest (SetAuthToken token c) m url body) t
    match built with Ok (req, tp) => Ok (with_token token req, tp) | Err err => Err err end.
Proof.
  unfold buildHTTPRequest. intros Hx. apply exec_bind in Hx as (? & tb & [err|] & -> & ->%exec_call & Hx).
  - destruct Hx as [-> ->]. split; [by repeat constructor|]. apply exec_bind. eexists [_], [], (Some err).
    split; [done|]. split; [by apply exec_call|done].
  - apply exec_bind in Hx as (tc & ? & tp & -> & Htp & [-> ->]). split.
    + apply Forall_app. split; [by repeat constructor|]. rewrite app_nil_r. by eapply create_sends_nothing.
    + apply exec_bind. eexists [_], _, None. split; [done|]. split; [by apply exec_call|].
      apply exec_bind. exists tc, [], tp. split; [done|]. split; [done|]. split; [done|].
      unfold with_token. cbn [Header Method URL ReqBody]. by rewrite headers_retoken.
Qed.

Lemma execute_retoken c token req m p tp t r :
  exec (executeHTTPRequest c req m p tp) t r ->
  exec (executeHTTPRequest (SetAuthToken token c) (with_token token req) m p tp) (map (retoken token) t) r.
Proof.
  unfold executeHTTPRequest. intros Hx. apply exec_bind in Hx as (? & ? & start & -> & ->%exec_call & Hx).
  apply exec_bind in Hx as (? & ? & resp & -> & ->%exec_call & Hx).
  apply exec_bind in Hx as (? & tl & now & -> & ->%exec_call & Hx).
  assert (map (retoken token) tl = tl) as Htl.
  { destruct resp as [s|e]; [by destruct Hx as [-> _]|]. apply exec_bind in Hx as (t1 & ? & ? & -> & Hl & [-> _]).
    rewrite app_nil_r. by eapply retoken_nothing, logError_sends_nothing. }
  cbn [app map retoken]. rewrite Htl.
  eexists _, _. split; [done|]. eexists _, _. split; [done|]. eexists _, _. split; [done|]. exact Hx.
Qed.

(** The token of an API client goes into the Authorization header of its
    requests and nowhere else: with another token, every call, log line, result
    and error is the same but for that header. *)
Theorem token_confined c token m p body expected t r :
  exec (DoRequest c m p body expected) t r ->
  exec (DoRequest (SetAuthToken token c) m p body expected) (map (retoken token) t) r.
Proof.
  unfold DoRequest. intros Hx. apply exec_bind in Hx as (ta & tb & built & -> & Ha & Hx).
  destruct (build_retoken _ token _ _ _ _ _ Ha) as [Hq Hb]. rewrite map_app, (retoken_nothing _ _ Hq).
  apply exec_bind. eexists ta, _, _. split; [done|]. split; [exact Hb|]. destruct built as [[req tp]|err]; [|by destruct Hx as [-> ->]].
  apply exec_bind in Hx as (tc & td & answer & -> & Hc & Hx). rewrite map_app. apply exec_bind.
  eexists _, _, answer. split; [done|]. split; [by apply execute_retoken|].
  destruct answer as [[resp d]|err]; [|by destruct Hx as [-> ->]].
  apply exec_bind in Hx as (te & tf & r' & -> & He & Hx). rewrite map_app. apply exec_bind.
  rewrite (retoken_nothing _ te) by (by eapply handle_sends_nothing). eexists te, _, r'. split; [done|]. split; [exact He|].
  apply exec_bind in Hx as (? & ? & [] & -> & ->%exec_call & [-> ->]). apply exec_bind.
  eexists [_], [], tt. split; [done|]. split; [by apply exec_call|done].
Qed.

End requests.

(** ** Lists of resources *)

(** What a test is told of a list request, by the status of its answer. *)
Lemma list_response_errors {T} (unmarshal : string -> result (list T)) status body config err :
  HandleResourceListResponse unmarshal status body config = Err err ->
  (status = 200%Z /\ exists e, unmarshal body = Err e) \/
  errors_is err (if (status =? 404)%Z then client_ErrResourceNotFound else if (status =? 403)%Z then client_ErrAccessDenied
    else if (status =? 500)%Z then client_ErrServerError else client_ErrUnexpectedStatus) = true.
Proof.
  unfold HandleResourceListResponse. destruct (Z.eqb_spec status 200) as [->|Hs].
  - destruct (unmarshal body); intros [= <-]. left. eauto.
  - right. destruct (status =? 404)%Z, (AllowNotFound config), (status =? 403)%Z, (AllowForbidden config), (status =? 500)%Z;
      simplify_eq/=; cbn; by rewrite ?bool_decide_true.
Qed.

(** The two options that allow a status change nothing. *)
Lemma allowed_statuses_ignored {T} (unmarshal : string -> result (list T)) status body config forbidden notFound :
  HandleResourceListResponse unmarshal status body
    {| ResourceType := ResourceType config; ResourceID := ResourceID config; ResourceIDType := ResourceIDType config;
       AllowForbidden := forbidden; AllowNotFound := notFound |} =
  HandleResourceListResponse unmarshal status body config.
Proof. unfold HandleResourceListResponse. by destruct forbidden, notFound, (AllowForbidden config), (AllowNotFound config). Qed.

(** ** Witnesses *)

Module witnesses.

Definition bytes16 : buffer 16 := exist _ "0123456789abcdef" eq_refl.
Definition bytes8 : buffer 8 := exist _ "01234567" eq_refl.

Definition api : APIClient := NewAPIClient "https://api/" "secret" 30 true.

Definition parent : string := "00-" +:+ hex_bytes (`bytes16) +:+ "-" +:+ hex_bytes (`bytes8) +:+ "-01".

Definition sent (token : string) : Request :=
  {| Method := "GET"; URL := "https://api/clusters"; Header := headers (SetAuthToken token api) parent None; ReqBody := None |}.

Definition get_trace (token : string) : trace clientE :=
  [Ev (NewRequest "GET" "https://api/clusters" None) None; Ev (RandRead 16) bytes16; Ev (RandRead 8) bytes8;
   Ev Now 5%Z; Ev (Do (sent token)) (Ok {| StatusCode := 200 |}); Ev Now 9%Z; Ev ReadAll (Ok "[]"); Ev CloseBody tt].

Lemma trace_context_roundtrip_witness :
  exec CreateTraceParent [Ev (RandRead 16) bytes16; Ev (RandRead 8) bytes8] parent /\
  String.length (ExtractTraceID parent) = 32.
Proof.
  assert (exec CreateTraceParent [Ev (RandRead 16) bytes16; Ev (RandRead 8) bytes8] parent) as Hx by solve_exec.
  split; [exact Hx|]. destruct (trace_context_roundtrip _ _ Hx) as (? & ? & _ & _ & _ & Hl & _). exact Hl.
Defined.

Lemma get_runs : exec (DoRequest api "GET" "/clusters" None 200) (get_trace "secret")
  (Some {| StatusCode := 200 |}, Some "[]", None).
Proof. solve_exec. Qed.

Lemma api_request_exact_witness :
  existsb closed (get_trace "secret") = true.
Proof. apply (proj2 (proj2 (api_request_exact _ _ _ _ _ _ _ _ _ get_runs))). reflexivity. Defined.

Lemma token_confined_witness :
  exec (DoRequest (SetAuthToken "other" api) "GET" "/clusters" None 200) (map (retoken "other") (get_trace "secret"))
    (Some {| StatusCode := 200 |}, Some "[]", None).
Proof. exact (token_confined api "other" _ _ _ _ _ _ get_runs). Defined.

End witnesses.
