(* ===== verification/ValidateOpenAPI.v ===== *)
(** * ValidateOpenAPI: the policy checker for API specifications

    hack/validate_openapi, the tool that fails a build whose OpenAPI
    specification breaks the platform's rules.  kin-openapi's document types are
    records with the fields it reads, resolved references among them.  A
    validator returns [None] where it dereferences a nil pointer and panics.
    Loading a document and kin-openapi's own validation of it are calls. *)

From S2P Require Import Prelude Errors GoStrings Json Effects.

(** ** github.com/getkin/kin-openapi/openapi3 *)

Record MediaType := { has_schema : bool }.

Record RequestBody := { body_Content : gmap string MediaType }.
Record Response := { response_Content : option (gmap string MediaType) }.

(** A reference and what the loader resolved it to. *)
Record Ref (V : Type) := { ref_Ref : string; ref_Value : option V }.

Arguments ref_Ref {V} _.
Arguments ref_Value {V} _.

Record ParameterRef := { param_In : string; param_Name : string }.

(** [Status] is Responses.Status. *)
Record Operation := {
  Extensions : gmap string json;
  Summary : string;
  Tags : list string;
  Security : option (list (gmap string (list string)));
  op_Parameters : list ParameterRef;
  op_RequestBody : option (Ref RequestBody);
  Status : Z -> option (Ref Response);
}.

Record PathItem := {
  path_Parameters : list ParameterRef;
  path_Operations : gmap string Operation;
}.

(** The paths, in the order InMatchingOrder gives. *)
Record Spec := {
  paths : list (string * PathItem);
  RequestBodies : gmap string (Ref RequestBody);
  Responses : gmap string (Ref Response);
}.

Module validate_openapi.

Definition extensionHidden : string := "x-hidden".
Definition extensionNoSecurityRequirements : string := "x-no-security-requirements".
Definition extensionNoAuthorization : string := "x-no-authorization".
Definition extensionNoBody : string := "x-no-body".

Definition escape : string := String (Ascii.ascii_of_N 27) EmptyString.
Definition bold (s : string) : string := escape +:+ "[1m" +:+ s +:+ escape +:+ "[0m".
Definition red (s : string) : string := escape +:+ "[1;31m" +:+ s +:+ escape +:+ "[0m".

Record validationContext := {
  spec : Spec;
  method : string;
  path : PathItem;
  operation : Operation;
  pathName : string;
  failed : bool;
  failures : list string;
}.

Definition notify (v : list operand) (c : validationContext) : validationContext :=
  {| spec := spec c; method := method c; path := path c; operation := operation c; pathName := pathName c;
     failed := true; failures := failures c ++ [fmt_Sprintln v] |}.

Definition mustIncludeStatusCode (code : Z) (c : validationContext) : validationContext :=
  match Status (operation c) code with
  | None => notify [OString "status code"; OOther (itoa code); OString "should be defined"] c
  | Some _ => c
  end.

(** What report prints: the lines of a failed endpoint. *)
Definition report (c : validationContext) : list string :=
  [bold (fmt_Sprint [OString "Validation failure for endpoint "; OString (method c); OString " "; OString (pathName c)])] ++
  map (fun f => fmt_Sprint [OString (red "*"); OString " "; OString f]) (failures c) ++ [""].

Definition validationFunc : Type := validationContext -> option validationContext.

(** A non-nil extension. *)
Definition extension_set (key : string) (o : Operation) : bool :=
  match Extensions o !! key with Some JNull | None => false | Some _ => true end.

Definition has_extension (key : string) (o : Operation) : bool := bool_decide (is_Some (Extensions o !! key)).

Definition validateOperationDocumentation : validationFunc := fun c =>
  if extension_set extensionHidden (operation c) then Some c
  else
    let c1 := if decide (Summary (operation c) = "") then notify [OString "no documentation summary provided"] c else c in
    Some (if decide (Tags (operation c) = []) then notify [OString "no documentation tag grouping provided"] c1 else c1).

Definition validateOperationSecurity : validationFunc := fun c =>
  if has_extension extensionNoSecurityRequirements (operation c) then Some c
  else
    match Security (operation c) with
    | None => Some (notify [OString "no security requirements set"] c)
    | Some security =>
      let c1 := if decide (length security <> 1)
        then notify [OString "security requirements must have only one security requirement"] c else c in
      let c2 := mustIncludeStatusCode 401 c1 in
      Some (if has_extension extensionNoAuthorization (operation c) then c2 else mustIncludeStatusCode 403 c2)
    end.

Definition non404 : list string := ["organizationID"; "projectID"].

(** The path parameters that are not about RBAC. *)
Definition identifying (parameters : list ParameterRef) : list ParameterRef :=
  delete_func (fun p => negb (bool_decide (param_In p = "path")) || contains non404 (param_Name p)) parameters.

Definition validateOperationFoundness : validationFunc := fun c =>
  let parameters := identifying (path_Parameters (path c) ++ op_Parameters (operation c)) in
  Some (if decide (0 < length parameters) then mustIncludeStatusCode 404 c else c).

Section validators.
Context `{MapOrder}.

(** The loop over the content of a request. *)
Definition check_request_content (content : gmap string MediaType) (c : validationContext) : validationContext :=
  fold_left (fun c '(mimeType, mediaType) =>
    if has_schema mediaType then c
    else notify [OString "no request schema set for mime type"; OString mimeType] c) (map_range content) c.

Definition validateRequestValidation : validationFunc := fun c =>
  if decide (method c <> "POST" /\ method c <> "PUT") then Some c
  else if has_extension extensionNoBody (operation c) then Some c
  else
    let c1 := match op_RequestBody (operation c) with None => notify [OString "no request body set"] c | Some _ => c end in
    (* RequestBody.Value is read even when RequestBody is nil *)
    requestBody ← op_RequestBody (operation c);
    body ← match ref_Value requestBody with
           | Some body => Some body
           | None => r ← RequestBodies (spec c) !! ref_Ref requestBody; ref_Value r
           end;
    Some (check_request_content (body_Content body) c1).

Definition check_response_content (code : Z) (content : option (gmap string MediaType)) (c : validationContext) :
    validationContext :=
  let c1 := match content with
    | None => notify [OString "no content type set for"; OOther (itoa code); OString "response"] c
    | Some _ => c
    end in
  fold_left (fun c '(mimeType, mediaType) =>
    if bool_decide (mimeType = "application/json") && negb (has_schema mediaType)
    then notify [OString "no schema set for"; OString mimeType; OOther (itoa code); OString "response"] c
    else c) (map_range (default ∅ content)) c1.

(** One iteration of the loop over the status codes. *)
Definition validate_response (code : Z) : validationFunc := fun c =>
  match Status (operation c) code with
  | None => Some c
  | Some responseRef =>
    if decide (code <> 200)%Z then Some c
    else
      response ← match ref_Value responseRef with
                 | Some response => Some response
                 | None => r ← Responses (spec c) !! ref_Ref responseRef; ref_Value r
                 end;
      Some (check_response_content code (response_Content response) c)
  end.

Definition validateResponseValidation : validationFunc := fun c =>
  if decide (method c <> "GET") then Some c
  else fold_left (fun oc code => c ← oc; validate_response (Z.of_nat code) c) (seq 100 500) (Some c).

Definition validators : list validationFunc :=
  [validateOperationDocumentation; validateOperationSecurity; validateOperationFoundness;
   validateRequestValidation; validateResponseValidation].

Definition new_context (s : Spec) (name : string) (p : PathItem) (m : string) (o : Operation) : validationContext :=
  {| spec := s; method := m; path := p; operation := o; pathName := name; failed := false; failures := [] |}.

(** The state of validate's loops: what was printed, and whether it failed. *)
Definition validate_operation (s : Spec) (name : string) (p : PathItem) (m : string) (o : Operation)
    (st : option (list string * bool)) : option (list string * bool) :=
  fold_left (fun st (validator : validationFunc) =>
    '(out, failed') ← st;
    c ← validator (new_context s name p m o);
    Some (if failed c then (out ++ report c, true) else (out, failed'))) validators st.

(** validate prints the failures and, when there are any, exits with 1. *)
Definition validate (s : Spec) : option (list string * bool) :=
  fold_left (fun st '(name, p) =>
    fold_left (fun st '(m, o) => validate_operation s name p m o st) (map_range (path_Operations p)) st)
    (paths s) (Some ([], false)).

(** The calls of main: the loader, the document's own validation, and printing. *)
Inductive toolE : Type -> Type :=
| LoadFromFile (path : string) : toolE (result Spec)
| spec_Validate (s : Spec) : toolE (option error)
| PrintlnError (context : string) (err : error) : toolE unit
| Println (line : string) : toolE unit.

Fixpoint print (lines : list string) : prog toolE unit :=
  match lines with
  | [] => mret tt
  | line :: lines' => _ ← call (Println line); print lines'
  end.

(** main, of the value of its flag, to its exit status; [None] is a panic, before
    which reports may have been printed that are not kept here. *)
Definition main (path : string) : prog toolE (option Z) :=
  spec ← call (LoadFromFile path);
  match spec with
  | Err err => _ ← call (PrintlnError "failed to lead schema" err); mret (Some 1%Z)
  | Ok spec =>
    err ← call (spec_Validate spec);
    match err with
    | Some err => _ ← call (PrintlnError "failed to validate spec" err); mret (Some 1%Z)
    | None =>
      match validate spec with
      | None => mret None
      | Some (out, failed) => _ ← print out; mret (Some (if (failed : bool) then 1 else 0)%Z)
      end
    end
  end.

End validators.
End validate_openapi.

(** ** What passes *)

Import validate_openapi.

Section policy.
Context `{MapOrder}.

Definition defined (code : Z) (o : Operation) : Prop := is_Some (Status o code).

(** The rules, for one operation.  A hidden operation needs no documentation. *)
Definition documented (o : Operation) : Prop :=
  extension_set extensionHidden o = true \/ (Summary o <> "" /\ Tags o <> []).

(** One security requirement and the answers 401 and 403, unless opted out of. *)
Definition secured (o : Operation) : Prop :=
  has_extension extensionNoSecurityRequirements o = true \/
  exists requirement, Security o = Some [requirement] /\ defined 401 o /\
    (has_extension extensionNoAuthorization o = true \/ defined 403 o).

(** A path that identifies something has the answer 404. *)
Definition missable (p : PathItem) (o : Operation) : Prop :=
  identifying (path_Parameters p ++ op_Parameters o) = [] \/ defined 404 o.

Definition resolve {V : Type} (components : gmap string (Ref V)) (r : Ref V) : option V :=
  match ref_Value r with Some v => Some v | None => r' ← components !! ref_Ref r; ref_Value r' end.

(** The body of a POST or PUT is defined, and every media type it lists has a
    schema; it may list none. *)
Definition request_described (s : Spec) (m : string) (o : Operation) : Prop :=
  (m <> "POST" /\ m <> "PUT") \/ has_extension extensionNoBody o = true \/
  exists r body, op_RequestBody o = Some r /\ resolve (RequestBodies s) r = Some body /\
    forall mimeType mediaType, body_Content body !! mimeType = Some mediaType -> has_schema mediaType = true.

(** The answer 200 of a GET, if it has one, has content, which can be empty; JSON
    among it has a schema.  No other answer or media type is looked at. *)
Definition response_described (s : Spec) (m : string) (o : Operation) : Prop :=
  m <> "GET" \/ Status o 200 = None \/
  exists r response content, Status o 200 = Some r /\ resolve (Responses s) r = Some response /\
    response_Content response = Some content /\
    forall mediaType, content !! "application/json" = Some mediaType -> has_schema mediaType = true.

Definition complies (s : Spec) (p : PathItem) (m : string) (o : Operation) : Prop :=
  documented o /\ secured o /\ missable p o /\ request_described s m o /\ response_described s m o.

(** A validator that neither panics nor complains. *)
Definition passes (v : validationFunc) (c : validationContext) : Prop :=
  exists c', v c = Some c' /\ failed c' = false.

Lemma failed_status code c :
  failed (mustIncludeStatusCode code c) = false <-> failed c = false /\ defined code (operation c).
Proof.
  unfold mustIncludeStatusCode, defined. destruct (Status (operation c) code); simpl; split; naive_solver.
Qed.

Lemma operation_status code c : operation (mustIncludeStatusCode code c) = operation c.
Proof. unfold mustIncludeStatusCode. by destruct (Status _ _). Qed.

Lemma documentation_passes c : failed c = false -> passes validateOperationDocumentation c <-> documented (operation c).
Proof.
  intros Hc. unfold passes, validateOperationDocumentation, documented.
  destruct (extension_set extensionHidden (operation c)).
  - split; [by left|]. intros _. by exists c.
  - split.
    + intros (c' & [= <-] & Hf). right. revert Hf. repeat case_decide; simpl; done.
    + intros [?|[Hs Ht]]; [done|]. eexists. split; [done|]. by repeat case_decide.
Qed.

Lemma security_passes c : failed c = false -> passes validateOperationSecurity c <-> secured (operation c).
Proof.
  intros Hc. unfold passes, validateOperationSecurity, secured.
  destruct (has_extension extensionNoSecurityRequirements (operation c)).
  { split; [by left|]. intros _. by exists c. }
  destruct (Security (operation c)) as [security|].
  2: { split; [by intros (c' & [= <-] & ?)|]. intros [?|(? & ? & _)]; done. }
  set (c1 := if decide (length security <> 1) then _ else c).
  assert (failed c1 = false <-> length security = 1) as Hf1 by (unfold c1; case_decide; simpl; naive_solver lia).
  assert (operation c1 = operation c) as Ho1 by (unfold c1; by case_decide).
  transitivity (length security = 1 /\ defined 401 (operation c) /\
    (has_extension extensionNoAuthorization (operation c) = true \/ defined 403 (operation c))).
  - rewrite <-Hf1. destruct (has_extension extensionNoAuthorization (operation c)).
    + split; [intros (c' & [= <-] & [? ?]%failed_status)|intros (? & ? & _); eexists; split; [done|apply failed_status]];
        rewrite Ho1 in *; auto.
    + split; [intros (c' & [= <-] & [[? ?]%failed_status ?]%failed_status)|
        intros (? & ? & [?|?]); [done|]; eexists; split; [done|rewrite !failed_status]];
        rewrite ?operation_status, ?Ho1 in *; auto.
  - split; [intros (Hl & ? & ?); right|intros [?|(r & [= ->] & ? & ?)]; done].
    destruct security as [|r [|]]; [done| |done]. by exists r.
Qed.

Lemma foundness_passes c :
  failed c = false -> passes validateOperationFoundness c <-> missable (path c) (operation c).
Proof.
  intros Hc. unfold passes, validateOperationFoundness, missable.
  destruct (identifying _) as [|x l]; simpl.
  - split; [by left|]. intros _. by exists c.
  - split.
    + intros (c' & [= <-] & [_ ?]%failed_status). by right.
    + intros [?|?]; [done|]. eexists. split; [done|]. by apply failed_status.
Qed.

(** A loop over media types complains when one of them is bad. *)
Lemma failed_content_loop (bad : string * MediaType -> bool) (msg : string * MediaType -> list operand) l c :
  failed (fold_left (fun c x => if bad x then notify (msg x) c else c) l c) = failed c || existsb bad l.
Proof.
  revert c. induction l as [|x l IH]; intros c; simpl; [by rewrite orb_false_r|].
  rewrite IH. destruct (bad x); simpl; [by rewrite orb_true_r|done].
Qed.

Lemma existsb_range {V} (bad : string * V -> bool) (m : gmap string V) :
  existsb bad (map_range m) = false <-> forall k v, m !! k = Some v -> bad (k, v) = false.
Proof.
  rewrite <-not_true_iff_false, existsb_exists. split.
  - intros Hn k v Hk. apply not_true_iff_false. intros Hb. apply Hn. exists (k, v). split; [|done].
    apply list_elem_of_In. by apply elem_of_map_range.
  - intros Hb ([k v] & Hin%list_elem_of_In%elem_of_map_range & Ht). rewrite Hb in Ht; done.
Qed.

Lemma request_passes c :
  failed c = false -> passes validateRequestValidation c <-> request_described (spec c) (method c) (operation c).
Proof.
  intros Hc. unfold passes, validateRequestValidation, request_described.
  case_decide as Hm; [split; [by left|by exists c]|].
  destruct (has_extension extensionNoBody (operation c)); [split; [by right; left|by exists c]|].
  destruct (op_RequestBody (operation c)) as [r|]; simpl.
  2: { split; [by intros (c' & ? & _)|]. intros [?|[?|(r & body & ? & _)]]; done. }
  fold (resolve (RequestBodies (spec c)) r).
  destruct (resolve (RequestBodies (spec c)) r) as [body|] eqn:Hr; simpl.
  2: { split; [by intros (c' & ? & _)|]. intros [?|[?|(r' & body & [= <-] & ? & _)]]; congruence. }
  assert (failed (check_request_content (body_Content body) c) = false <->
    forall mimeType mediaType, body_Content body !! mimeType = Some mediaType -> has_schema mediaType = true) as Hloop.
  { unfold check_request_content. rewrite (fold_left_ext _ (fun c x => if negb (has_schema x.2) then
      notify [OString "no request schema set for mime type"; OString x.1] c else c))
      by (intros c0 [k v] _; simpl; by destruct (has_schema v)).
    rewrite (failed_content_loop (fun x => negb (has_schema x.2))
      (fun x => [OString "no request schema set for mime type"; OString x.1])), Hc. simpl. rewrite existsb_range. simpl.
    split; intros Hb k v Hk; specialize (Hb k v Hk); by destruct (has_schema v). }
  split.
  - intros (c' & [= <-] & Hf). right; right. exists r, body. by rewrite <-Hloop.
  - intros [?|[?|(r' & body' & [= <-] & Hb & Hs)]]; [done..|]. eexists. split; [done|]. apply Hloop. by simplify_eq.
Qed.

(** The loop over the status codes acts on one of them. *)
Lemma response_loop c :
  fold_left (fun oc code => c ← oc; validate_response (Z.of_nat code) c) (seq 100 500) (Some c) =
  validate_response 200 c.
Proof.
  assert (forall l c, 200 ∉ l ->
    fold_left (fun oc code => c ← oc; validate_response (Z.of_nat code) c) l (Some c) = Some c) as Hskip.
  { intros l. induction l as [|code l IH]; intros c0 Hl; [done|]. apply not_elem_of_cons in Hl as [Hcode Hl]. simpl.
    assert (validate_response (Z.of_nat code) c0 = Some c0) as ->; [|by apply IH].
    unfold validate_response. destruct (Status _ _); [|done]. rewrite decide_True; [done|lia]. }
  change (seq 100 500) with (seq 100 100 ++ 200 :: seq 201 399).
  assert (200 ∉ seq 100 100) as Hbefore by (rewrite elem_of_seq; lia).
  assert (200 ∉ seq 201 399) as Hafter by (rewrite elem_of_seq; lia). revert Hbefore Hafter.
  generalize (seq 100 100) (seq 201 399). intros l1 l2 Hbefore Hafter.
  rewrite fold_left_app, Hskip by done. cbn [fold_left mbind option_bind].
  change (Z.of_nat 200) with 200%Z. destruct (validate_response 200 c) as [c'|]; [by apply Hskip|].
  clear Hskip Hafter. by induction l2.
Qed.

Lemma response_passes c :
  failed c = false -> passes validateResponseValidation c <-> response_described (spec c) (method c) (operation c).
Proof.
  intros Hc. unfold passes, validateResponseValidation, response_described.
  case_decide as Hm; [split; [by left|by exists c]|].
  rewrite response_loop. unfold validate_response. destruct (Status (operation c) 200) as [r|].
  2: { split; [by right; left|by exists c]. }
  rewrite decide_False by lia. fold (resolve (Responses (spec c)) r).
  destruct (resolve (Responses (spec c)) r) as [response|] eqn:Hr; simpl.
  2: { split; [by intros (c' & ? & _)|]. intros [?|[?|(r' & resp & content & [= <-] & ? & _)]]; congruence. }
  assert (failed (check_response_content 200 (response_Content response) c) = false <->
    exists content, response_Content response = Some content /\
      forall mediaType, content !! "application/json" = Some mediaType -> has_schema mediaType = true) as Hloop.
  { unfold check_response_content. rewrite (fold_left_ext _ (fun c x =>
      if bool_decide (x.1 = "application/json") && negb (has_schema x.2) then
      notify [OString "no schema set for"; OString x.1; OOther (itoa 200); OString "response"] c else c))
      by (by intros c0 [k v] _).
    rewrite (failed_content_loop (fun x => bool_decide (x.1 = "application/json") && negb (has_schema x.2))
      (fun x => [OString "no schema set for"; OString x.1; OOther (itoa 200); OString "response"])), orb_false_iff.
    rewrite existsb_range. destruct (response_Content response) as [content|]; simpl.
    - rewrite Hc. split.
      + intros [_ Hb]. exists content. split; [done|]. intros mt Hk. specialize (Hb _ _ Hk). simpl in Hb.
        by destruct (has_schema mt).
      + intros (content' & [= <-] & Hs). split; [done|]. intros k v Hk.
        destruct (bool_decide_reflect (k = "application/json")) as [->|]; [|done]. by rewrite (Hs _ Hk).
    - split; [by intros [? _]|]. by intros (content & ? & _). }
  split.
  - intros (c' & [= <-] & (content & Hco & Hs)%Hloop). right; right. exists r, response, content. done.
  - intros [?|[?|(r' & response' & content & [= <-] & Hb & Hco & Hs)]]; [done..|].
    eexists. split; [done|]. apply Hloop. simplify_eq. eauto.
Qed.

(** Loops that fail when one of their iterations does. *)
Lemma fold_pass {A} (g : option (list string * bool) -> A -> option (list string * bool)) (P : A -> Prop) l st out :
  (forall st x out, g st x = Some (out, false) <-> st = Some (out, false) /\ P x) ->
  fold_left g l st = Some (out, false) <-> st = Some (out, false) /\ Forall P l.
Proof.
  intros Hg. revert st. induction l as [|x l IH]; intros st; simpl.
  - split; [by intros ->|by intros [-> _]].
  - rewrite IH, Hg, Forall_cons. tauto.
Qed.

Lemma validate_operation_pass s name p m o st out :
  validate_operation s name p m o st = Some (out, false) <-> st = Some (out, false) /\ complies s p m o.
Proof.
  unfold validate_operation. rewrite (fold_pass _ (fun v => passes v (new_context s name p m o))).
  - unfold validators. rewrite !Forall_cons, documentation_passes, security_passes, foundness_passes,
      request_passes, response_passes, Forall_nil by done. simpl. unfold complies. tauto.
  - intros st' v out'. destruct st' as [[out1 f1]|]; simpl; [|naive_solver].
    unfold passes. destruct (v (new_context s name p m o)) as [c'|]; simpl.
    2: { split; [done|]. by intros [_ (c' & ? & _)]. }
    destruct (failed c') eqn:Hf; simpl.
    + split; [done|]. intros [_ (c2 & [= <-] & ?)]. congruence.
    + split; [|by intros [-> _]]. intros ->. split; [done|]. by exists c'.
Qed.

Lemma validate_pass s out :
  validate s = Some (out, false) <->
  out = [] /\ forall name p m o, (name, p) ∈ paths s -> path_Operations p !! m = Some o -> complies s p m o.
Proof.
  unfold validate. rewrite (fold_pass _ (fun '(name, p) => forall m o, path_Operations p !! m = Some o -> complies s p m o)).
  - rewrite Forall_forall. split.
    + intros [[= <-] Hall]. split; [done|]. intros name p m o Hin. by apply (Hall (name, p)).
    + intros [-> Hall]. split; [done|]. intros [name p] Hin m o. by apply (Hall name p m o).
  - intros st [name p] out'. rewrite (fold_pass _ (fun '(m, o) => complies s p m o)).
    + rewrite Forall_forall. split; intros [-> Hall]; (split; [done|]).
      * intros m o Hm. by apply (Hall (m, o)), elem_of_map_range.
      * intros [m o] Hin%elem_of_map_range. eauto.
    + intros st' [m o] out2. apply validate_operation_pass.
Qed.

(** C24 The checker exits with success exactly when the document loads, is valid
    OpenAPI, and every operation of every path complies with the five rules as
    the code applies them, and then it prints nothing; otherwise it exits with 1,
    or panics.  The rules on bodies are laxer than the source describes them:
    [lax_bodies_accepted]. *)
Theorem validate_exact path t :
  exec (main path) t (Some 0%Z) <->
  exists s, t = [Ev (LoadFromFile path) (Ok s); Ev (spec_Validate s) None] /\
    forall name p m o, (name, p) ∈ paths s -> path_Operations p !! m = Some o -> complies s p m o.
Proof.
  unfold main. split.
  - intros Hx. apply exec_bind in Hx as (t1 & t2 & [s|err] & -> & ->%exec_call & Hx); [|by exec_inv].
    apply exec_bind in Hx as (t3 & t4 & [err|] & -> & ->%exec_call & Hx); [by exec_inv|].
    destruct (validate s) as [[out [|]]|] eqn:Hv; [by exec_inv| |by exec_inv].
    apply validate_pass in Hv as [-> Hall]. simpl in Hx. exec_inv. by exists s.
  - intros (s & -> & Hall). assert (validate s = Some ([], false)) as Hv by (by apply validate_pass).
    apply exec_bind. eexists [_], [_], (Ok s). split; [done|]. split; [by apply exec_call|].
    apply exec_bind. eexists [_], [], None. split; [done|]. split; [by apply exec_call|]. by rewrite Hv.
Qed.

(** A POST or a PUT without a request body is not reported but crashes the
    checker, which reads the body it has just found to be missing. *)
Theorem missing_request_body_panics s name p m o :
  (m = "POST" \/ m = "PUT") -> op_RequestBody o = None -> has_extension extensionNoBody o = false ->
  validateRequestValidation (new_context s name p m o) = None.
Proof.
  intros Hm Hb He. unfold validateRequestValidation. simpl. rewrite decide_False by naive_solver.
  by rewrite He, Hb.
Qed.

End policy.

(** ** Witnesses *)

Module witnesses.

#[local] Existing Instance some_map_order.

Definition answered : Ref Response :=
  {| ref_Ref := ""; ref_Value := Some {| response_Content := Some {[ "application/json" := {| has_schema := true |} ]} |} |}.

Definition list_clusters : Operation :=
  {| Extensions := ∅; Summary := "List clusters"; Tags := ["clusters"]; Security := Some [{[ "oauth2" := [] ]}];
     op_Parameters := [{| param_In := "path"; param_Name := "projectID" |}]; op_RequestBody := None;
     Status code := if existsb (Z.eqb code) [200; 401; 403]%Z then Some answered else None |}.

Definition clusters : PathItem := {| path_Parameters := []; path_Operations := {[ "GET" := list_clusters ]} |}.

Definition good_spec : Spec :=
  {| paths := [("/clusters", clusters)]; RequestBodies := ∅; Responses := ∅ |}.

Lemma good_spec_passes : validate good_spec = Some ([], false).
Proof. vm_compute. reflexivity. Qed.

(** The document an event loaded. *)
Definition loaded (ev : event toolE) : option Spec :=
  match ev with
  | Ev e x => match e in toolE X return X -> option Spec with
              | LoadFromFile _ => fun r => match r with Ok s => Some s | Err _ => None end
              | _ => fun _ => None
              end x
  end.

Lemma validate_exact_witness :
  exec (main "server.spec.yaml") [Ev (LoadFromFile "server.spec.yaml") (Ok good_spec); Ev (spec_Validate good_spec) None] (Some 0%Z) /\
  complies good_spec clusters "GET" list_clusters.
Proof.
  match goal with |- ?X /\ _ => assert X as Hx end.
  { unfold main. apply exec_bind. eexists [_], [_], (Ok good_spec). split; [done|]. split; [by apply exec_call|].
    apply exec_bind. eexists [_], [], None. split; [done|]. split; [by apply exec_call|].
    rewrite good_spec_passes. by apply exec_mret. }
  split; [exact Hx|].
  destruct (proj1 (validate_exact "server.spec.yaml" _) Hx) as (s & Ht & Hall).
  apply (f_equal (fun t => head t ≫= loaded)) in Ht. injection Ht as <-. apply (Hall "/clusters" clusters); [constructor|reflexivity].
Defined.

(** What the source says all POST and PUT requests and all GET responses must have,
    and these do not: a POST whose body lists no media type; a GET whose only
    answers are errors without content; one whose answer is text without a schema. *)
Definition no_media : Ref RequestBody := {| ref_Ref := ""; ref_Value := Some {| body_Content := ∅ |} |}.

Definition bare : Ref Response := {| ref_Ref := ""; ref_Value := Some {| response_Content := None |} |}.

Definition plain : Ref Response :=
  {| ref_Ref := ""; ref_Value := Some {| response_Content := Some {[ "text/plain" := {| has_schema := false |} ]} |} |}.

Definition operation_with (body : option (Ref RequestBody)) (status : Z -> option (Ref Response)) : Operation :=
  {| Extensions := ∅; Summary := "Clusters"; Tags := ["clusters"]; Security := Some [{[ "oauth2" := [] ]}];
     op_Parameters := []; op_RequestBody := body; Status := status |}.

Definition errors_only (code : Z) : option (Ref Response) := if existsb (Z.eqb code) [401; 403]%Z then Some bare else None.

Definition lax_spec : Spec :=
  {| paths := [("/create", {| path_Parameters := []; path_Operations := {[ "POST" := operation_with (Some no_media) errors_only ]} |});
               ("/errors", {| path_Parameters := []; path_Operations := {[ "GET" := operation_with None errors_only ]} |});
               ("/text", {| path_Parameters := []; path_Operations := {[ "GET" := operation_with None
                  (fun code => if decide (code = 200%Z) then Some plain else errors_only code) ]} |})];
     RequestBodies := ∅; Responses := ∅ |}.

Lemma lax_bodies_accepted : validate lax_spec = Some ([], false).
Proof. vm_compute. reflexivity. Qed.

(** The same operation as a POST has no body, and no extension that says so. *)
Lemma missing_request_body_panics_witness :
  validateRequestValidation (new_context good_spec "/clusters" clusters "POST" list_clusters) = None /\
  validate {| paths := [("/clusters", {| path_Parameters := []; path_Operations := {[ "POST" := list_clusters ]} |})];
              RequestBodies := ∅; Responses := ∅ |} = None.
Proof.
  split; [|vm_compute; reflexivity].
  apply missing_request_body_panics; [by left|reflexivity|reflexivity].
Defined.

End witnesses.
