(* ===== verification/CheckLicense.v ===== *)
(** * CheckLicense: the license checker

    hack/check_license, the tool that fails a build whose Go files lack a
    license.  The file system, the Go parser (which gives the texts of a file's
    comments, by group) and the clock are calls; a slice or index out of range,
    where the tool panics, is [None]. *)

From S2P Require Import Prelude Errors GoStrings Effects.
From Stdlib Require Import Ascii.

(** The errors the tool reports, and the text after them. *)
Inductive license_error : Type :=
| errFail
| errNoComments (path : string)
| errFirstCommentNotLicense (context : string)
| errOther (err : error).

#[export] Instance license_error_eq : EqDecision error -> EqDecision license_error.
Proof. intros He. solve_decision. Defined.

(** The calls: the walk of the working directory lists files and directories. *)
Inductive fileE : Type -> Type :=
| Walk : fileE (result (list (string * bool)))
| ReadFile (path : string) : fileE (result string)
| ParseFile (path : string) : fileE (result (list (list string)))
| CurrentYear : fileE Z
| Print (path : string) (err : license_error) : fileE unit.

Module check_license.

Definition quote_mark : string := String (ascii_of_N 34) EmptyString.

(** apache2LicenseHeader. *)
Definition apache2LicenseHeader : string :=
  strings_Join newline
    ["Licensed under the Apache License, Version 2.0 (the " +:+ quote_mark +:+ "License" +:+ quote_mark +:+ ");";
     "you may not use this file except in compliance with the License.";
     "You may obtain a copy of the License at";
     "";
     "    http://www.apache.org/licenses/LICENSE-2.0";
     "";
     "Unless required by applicable law or agreed to in writing, software";
     "distributed under the License is distributed on an " +:+ quote_mark +:+ "AS IS" +:+ quote_mark +:+ " BASIS,";
     "WITHOUT WARRANTIES OR CONDITIONS OF ANY KIND, either express or implied.";
     "See the License for the specific language governing permissions and";
     "limitations under the License."].

(** filepath.Ext: from the last dot, if no slash follows it. *)
Fixpoint filepath_Ext (s : string) : string :=
  match s with
  | EmptyString => ""
  | String c s' =>
    if Ascii.eqb c "."%char && string_forallb (fun c => negb (Ascii.eqb c "."%char || Ascii.eqb c "/"%char)) s' then s
    else filepath_Ext s'
  end.

(** The files of the walk that have an extension. *)
Definition glob (extension : string) : prog fileE (result (list string)) :=
  attempt (call Walk) (fun entries : list (string * bool) =>
    Ret (Ok (omap (fun '(path, isDir) =>
      if (isDir : bool) then None else if decide (filepath_Ext path <> extension) then None else Some path) entries))).

Definition commentIsGoBuild (comment : string) : bool := HasPrefix comment "//go:build".

(** The white space strings.TrimSpace trims, in UTF-8: U+0009 to U+000D, space,
    U+0085, U+00A0, U+1680, U+2000 to U+200A, U+2028, U+2029, U+202F, U+205F and
    U+3000.  UTF-8 being self-synchronising, the first or last rune of a string is
    one of these exactly when the string starts or ends with its bytes. *)
Definition bytes (l : list N) : string := String.string_of_list_ascii (map ascii_of_N l).

Definition spaces : list string :=
  map bytes ([[9]; [10]; [11]; [12]; [13]; [32]; [194; 133]; [194; 160]; [225; 154; 128]] ++
    map (fun n => [226; 128; 128 + n]) [0; 1; 2; 3; 4; 5; 6; 7; 8; 9; 10; 40; 41; 47] ++
    [[226; 129; 159]; [227; 128; 128]])%N.

Definition leading_space (s : string) : option string :=
  snd <$> list_find (fun x => HasPrefix s x = true) spaces.

(** The runes a string starts with that are white space; [n] bounds their number. *)
Fixpoint TrimLeft (n : nat) (s : string) : string :=
  match n, leading_space s with
  | S n', Some x => TrimLeft n' (String.substring (String.length x) (String.length s - String.length x) s)
  | _, _ => s
  end.

(** And those it ends with: it is white space from some byte on. *)
Fixpoint TrimRight (s : string) : string :=
  if decide (TrimLeft (String.length s) s = "") then ""
  else match s with EmptyString => EmptyString | String c s' => String c (TrimRight s') end.

Definition TrimSpace (s : string) : string := TrimRight (TrimLeft (String.length s) s).

(** The submatches of ^Copyright (\d{4})(?:-(\d{4}))? (.* )$ in one line. *)
Definition year_digits (s : string) : option (string * string) :=
  match s with
  | String a (String b (String c (String d s'))) =>
    if is_digit a && is_digit b && is_digit c && is_digit d
    then Some (String a (String b (String c (String d EmptyString))), s') else None
  | _ => None
  end.

Fixpoint strip_prefix (prefix s : string) : option string :=
  match prefix, s with
  | EmptyString, _ => Some s
  | String c p, String c' s' => if Ascii.eqb c c' then strip_prefix p s' else None
  | _, EmptyString => None
  end.

Definition FindStringSubmatch (line : string) : option (string * string * string) :=
  rest ← strip_prefix "Copyright " line;
  '(from, rest) ← year_digits rest;
  match strip_prefix "-" rest ≫= year_digits with
  | Some (to, String " " holder) => Some (from, to, holder)
  | _ => match rest with String " " holder => Some (from, "", holder) | _ => None end
  end.

Definition not_license (context : string) : option license_error := Some (errFirstCommentNotLicense context).

(** The copyright lines of a license: all well formed, the last of this year and
    this organisation. *)
Definition check_copyrights (now : Z) (copyrights : list string) : option license_error :=
  match base.filter (fun line => FindStringSubmatch line = None) copyrights with
  | line :: _ => not_license ("copyright not correctly formatted '" +:+ line +:+ "'")
  | [] =>
    match last copyrights ≫= FindStringSubmatch with
    | None => None
    | Some (from, to, holder) =>
      let yearString := if decide (to <> "") then to else from in
      match Atoi yearString with
      | None => not_license ("copyright doesn't contain a valid year '" +:+ yearString +:+ "'")
      | Some year =>
        if decide (year <> now) then not_license ("copyright doesn't contain this year " +:+ itoa year)
        else if decide (holder <> "Nscale.")
        then not_license ("copyright isn't for the right organization '" +:+ holder +:+ "'")
        else None
      end
    end
  end.

(** checkLicense: the outer option is a panic, the inner one the error. *)
Definition checkLicense (now : Z) (comment : string) : option (option license_error) :=
  if negb (HasPrefix comment "/*") then Some (not_license "first comment doesn't start with a C style comment")
  else if decide (String.length comment < 4) then None
  else
    let text := TrimSpace (String.substring 2 (String.length comment - 4) comment) in
    if negb (HasSuffix text apache2LicenseHeader) then Some (not_license "first comment doesn't end with a license")
    else
      let header := strings_TrimSuffix text apache2LicenseHeader in
      let headerLines := strings_Split (ascii_of_N 10) header in
      if decide (length headerLines < 3) then
        Some (not_license "first comment must have a copyright and space before the license")
      else
        let lastHeaderLineIndex := length headerLines - 2 in
        if decide (headerLines !! lastHeaderLineIndex <> Some "") then
          Some (not_license "first comment doesn't have a space between copyrights and license")
        else Some (check_copyrights now (take lastHeaderLineIndex headerLines)).

(** checkGoLicenseInComments; groups of comments are not empty. *)
Definition checkGoLicenseInComments (now : Z) (path : string) (comments : list (list string)) :
    option (option license_error) :=
  match comments with
  | [] => Some (Some (errNoComments path))
  | group :: _ =>
    first ← head group;
    let index := if commentIsGoBuild first then 1 else 0 in
    group ← comments !! index;
    comment ← head group;
    checkLicense now comment
  end.

Definition checkGoLicenseFile (path : string) : prog fileE (option (option license_error)) :=
  file ← call (ParseFile path);
  match file with
  | Err err => mret (Some (Some (errOther err)))
  | Ok comments => now ← call CurrentYear; mret (checkGoLicenseInComments now path comments)
  end.

Definition ignoreFile (path : string) : prog fileE (result bool) :=
  attempt (call (ReadFile path)) (fun data =>
    Ret (Ok (existsb (fun line => existsb (strings_Contains line) ["Code generated by"])
      (strings_Split (ascii_of_N 10) data)))).

(** The loop over the files; [hasErrors] is its variable. *)
Fixpoint check_files (paths : list string) (hasErrors : bool) : prog fileE (option bool) :=
  match paths with
  | [] => mret (Some hasErrors)
  | path :: paths' =>
    let check hasErrors :=
      r ← checkGoLicenseFile path;
      match r with
      | None => mret None
      | Some (Some err) => _ ← call (Print path err); check_files paths' true
      | Some None => check_files paths' hasErrors
      end in
    ok ← ignoreFile path;
    match ok with
    | Err err => _ ← call (Print path (errOther err)); check true
    | Ok true => check_files paths' hasErrors
    | Ok false => check hasErrors
    end
  end.

Definition checkGoLicense : prog fileE (option (option license_error)) :=
  paths ← glob ".go";
  match paths with
  | Err err => mret (Some (Some (errOther err)))
  | Ok paths =>
    hasErrors ← check_files paths false;
    match hasErrors with
    | None => mret None
    | Some hasErrors => mret (Some (if (hasErrors : bool) then Some errFail else None))
    end
  end.

End check_license.

(** ** What is accepted *)

Import check_license.

Definition nl : ascii := ascii_of_N 10.

(** Lines without a line break are what their text splits into. *)
Lemma Split_Join (l : list string) :
  l <> [] -> Forall (fun s => ~ has_byte nl s) l -> strings_Split nl (strings_Join newline l) = l.
Proof.
  induction l as [|s l IH]; [done|]. intros _ Hl. apply Forall_cons in Hl as [Hs Hl].
  destruct l as [|s' l].
  - simpl. pose proof (Split_second nl s) as Hsec. pose proof (strings_Join_Split nl s) as Hj.
    pose proof (strings_Split_nonempty nl s). destruct (strings_Split nl s) as [|w [|w' ws]]; [done|by simpl in Hj; subst|].
    destruct Hs. apply Hsec. by eexists.
  - change (strings_Join newline (s :: s' :: l)) with (s +:+ String nl (strings_Join newline (s' :: l))).
    rewrite Split_first by done. f_equal. by apply IH.
Qed.

Lemma Split_lines s : Forall (fun w => ~ has_byte nl w) (strings_Split nl s).
Proof.
  induction s as [|c s IH]; simpl; [repeat constructor; intros ([|? ?] & b & Heq); discriminate Heq|].
  destruct (Ascii.eqb_spec c nl) as [->|Hne].
  - constructor; [intros ([|? ?] & b & Heq); discriminate Heq|done].
  - destruct (strings_Split nl s) as [|w ws]; [repeat constructor|].
    + rewrite has_byte_cons. intros [->|([|? ?] & b & Heq)]; done.
    + apply Forall_cons in IH as [Hw Hws]. constructor; [|done]. rewrite has_byte_cons. naive_solver.
Qed.

(** Copyright lines that are accepted in a year. *)
Definition good_copyrights (now : Z) (copyrights : list string) : Prop :=
  Forall (fun line => is_Some (FindStringSubmatch line)) copyrights /\
  exists line from to, last copyrights = Some line /\ FindStringSubmatch line = Some (from, to, "Nscale.") /\
    Atoi (if decide (to <> "") then to else from) = Some now.

Lemma check_copyrights_ok now copyrights :
  copyrights <> [] -> check_copyrights now copyrights = None <-> good_copyrights now copyrights.
Proof.
  intros Hne. unfold check_copyrights, good_copyrights, not_license.
  destruct (base.filter (fun line => FindStringSubmatch line = None) copyrights) as [|line ls] eqn:Hf.
  - assert (Forall (fun line => is_Some (FindStringSubmatch line)) copyrights) as Hall.
    { apply Forall_forall. intros line Hin. destruct (FindStringSubmatch line) eqn:Hm; [by eexists|].
      assert (line ∈ base.filter (fun line => FindStringSubmatch line = None) copyrights) as Hl
        by (by apply list_elem_of_filter). rewrite Hf in Hl. by apply elem_of_nil in Hl. }
    destruct (last copyrights) as [line|] eqn:Hl; [|by apply last_None in Hl]. simpl.
    assert (is_Some (FindStringSubmatch line)) as [[[from to] holder] Hm].
    { rewrite Forall_forall in Hall. by apply Hall, last_Some_elem_of. }
    rewrite Hm. destruct (Atoi _) as [year|] eqn:Ha.
    + destruct (decide (year <> now)) as [Hy|Hy%dec_stable]; [|destruct (decide (holder <> "Nscale.")) as [Hh|Hh%dec_stable]].
      * split; [discriminate|]. intros (_ & line' & from' & to' & [= <-] & Hm' & Ha'). rewrite Hm in Hm'. by simplify_eq.
      * split; [discriminate|]. intros (_ & line' & from' & to' & [= <-] & Hm' & Ha'). rewrite Hm in Hm'. by simplify_eq.
      * split; [|done]. intros _. split; [done|]. exists line, from, to. by subst.
    + split; [discriminate|]. intros (_ & line' & from' & to' & [= <-] & Hm' & Ha'). rewrite Hm in Hm'. by simplify_eq.
  - split; [done|]. intros [Hall _]. assert (line ∈ base.filter (fun line => FindStringSubmatch line = None) copyrights)
      as [Hm Hin]%list_elem_of_filter by (rewrite Hf; constructor).
    rewrite Forall_forall in Hall. destruct (Hall _ Hin). congruence.
Qed.

(** The text of a comment, without its marks and the white space around it. *)
Definition comment_text (comment : string) : string :=
  TrimSpace (String.substring 2 (String.length comment - 4) comment).

(** White space is not only that of ASCII: a no-break space and an ideographic one
    are trimmed, and one inside the text is kept. *)
Lemma TrimSpace_unicode :
  TrimSpace (bytes [10; 194; 160; 97; 227; 128; 128; 98; 32; 227; 128; 128]%N) = bytes [97; 227; 128; 128; 98]%N.
Proof. reflexivity. Qed.

(** C25 A comment passes the license check exactly when it is a C comment whose
    text is copyright lines, an empty line and a line that the license ends, with
    whatever text before it: every copyright line is well formed, and the last one
    is this year's and of this organisation.  The source means there to be nothing
    before the license, which the check does not enforce:
    [license_line_prefix_accepted]. *)
Theorem license_exact now comment :
  checkLicense now comment = Some None <->
  HasPrefix comment "/*" = true /\ 4 <= String.length comment /\
  exists copyrights rest, copyrights <> [] /\
    comment_text comment = strings_Join newline (copyrights ++ [""; rest]) +:+ apache2LicenseHeader /\
    Forall (fun line => ~ has_byte nl line) (copyrights ++ [""; rest]) /\ good_copyrights now copyrights.
Proof.
  unfold checkLicense. fold (comment_text comment). destruct (HasPrefix comment "/*"); cbn [negb]; [|naive_solver].
  case_decide as Hlen; [naive_solver lia|]. transitivity (exists copyrights rest, copyrights <> [] /\
    comment_text comment = strings_Join newline (copyrights ++ [""; rest]) +:+ apache2LicenseHeader /\
    Forall (fun line => ~ has_byte nl line) (copyrights ++ [""; rest]) /\ good_copyrights now copyrights);
    [|naive_solver lia].
  destruct (HasSuffix (comment_text comment) apache2LicenseHeader) eqn:Hs; cbn [negb].
  2: { split; [done|]. intros (cs & rest & _ & Ht & _). apply not_true_iff_false in Hs. destruct Hs.
       apply HasSuffix_true. eauto. }
  apply HasSuffix_true in Hs as [header Hh]. rewrite Hh, strings_TrimSuffix_app. fold nl.
  set (lines := strings_Split nl header).
  assert (header = strings_Join newline lines) as Hj by (symmetry; apply strings_Join_Split). split.
  - case_decide as H3; [done|]. case_decide as Hb; [done|]. intros [= Hc].
    pose proof (take_drop_middle _ _ _ Hb) as Hsplit.
    destruct (drop (S (length lines - 2)) lines) as [|rest [|r rs]] eqn:Hd.
    1, 3: apply (f_equal length) in Hd; rewrite length_drop in Hd; simpl in Hd; lia.
    exists (take (length lines - 2) lines), rest.
    assert (take (length lines - 2) lines <> []) as Hne.
    { intros Hnil. apply (f_equal length) in Hnil. rewrite length_take in Hnil. simpl in Hnil. lia. }
    rewrite Hsplit. split_and!; [done|by rewrite Hj at 1|apply Split_lines|by apply check_copyrights_ok].
  - intros (cs & rest & Hne & Ht & Hl & Hg). apply string_append_inj_r in Ht.
    assert (lines = cs ++ [""; rest]) as ->.
    { unfold lines. rewrite Ht. apply Split_Join; [by destruct cs|done]. }
    rewrite length_app. simpl. assert (0 < length cs) by (destruct cs; simpl; [done|lia]).
    rewrite decide_False by lia. replace (length cs + 2 - 2) with (length cs) by lia.
    rewrite decide_False; [|intros Hx; apply Hx; by rewrite lookup_app_r, Nat.sub_diag by lia].
    f_equal. rewrite take_app_length. by apply check_copyrights_ok.
Qed.

(** ** The tool *)

(** What ignoreFile looks for. *)
Definition generated (data : string) : bool :=
  existsb (fun line => existsb (strings_Contains line) ["Code generated by"]) (strings_Split (ascii_of_N 10) data).

(** What the tool saw of a file, on a trace. *)
Definition read_as (path : string) (data : string) (t : trace fileE) : Prop := Ev (ReadFile path) (Ok data) ∈ t.
Definition parsed_as (path : string) (comments : list (list string)) (t : trace fileE) : Prop :=
  Ev (ParseFile path) (Ok comments) ∈ t.

(** A file the tool has no complaint about. *)
Definition licensed (t : trace fileE) (path : string) : Prop :=
  (exists data, read_as path data t /\ generated data = true) \/
  (exists data comments now, read_as path data t /\ parsed_as path comments t /\ Ev CurrentYear now ∈ t /\
    checkGoLicenseInComments now path comments = Some None).

Lemma licensed_mono t1 t2 t path : t1 ⊆ t -> t2 ⊆ t -> licensed (t1 ++ t2) path -> licensed t path.
Proof.
  intros H1 H2. assert (t1 ++ t2 ⊆ t) as Hsub by (apply list_subseteq_app_iff_l; done || set_solver).
  unfold licensed, read_as, parsed_as. intros [(d & ? & ?)|(d & c & now & ? & ? & ? & ?)].
  - left. exists d. auto.
  - right. exists d, c, now. auto.
Qed.

Lemma check_files_true paths t r : exec (check_files paths true) t (Some r) -> r = true.
Proof.
  revert t. induction paths as [|path paths IH]; intros t Hx; cbn [check_files] in Hx; [by exec_inv|].
  apply exec_bind in Hx as (t1 & t2 & [[|]|err] & -> & _ & Hx); [by eapply IH| |].
  - apply exec_bind in Hx as (t3 & t4 & [[err|]|] & -> & _ & Hx); [| by eapply IH|by exec_inv].
    apply exec_bind in Hx as (t5 & t6 & u & -> & _ & Hx). by eapply IH.
  - apply exec_bind in Hx as (t5 & t6 & u & -> & _ & Hx).
    apply exec_bind in Hx as (t3 & t4 & [[err'|]|] & -> & _ & Hx); [| by eapply IH|by exec_inv].
    apply exec_bind in Hx as (t7 & t8 & u' & -> & _ & Hx). by eapply IH.
Qed.

Lemma ignoreFile_ok path t b :
  exec (ignoreFile path) t (Ok b) -> exists data, t = [Ev (ReadFile path) (Ok data)] /\ generated data = b.
Proof.
  unfold ignoreFile. intros Hx. apply exec_attempt in Hx as [(? & ? & _)|(t1 & t2 & data & -> & ->%exec_call & Hx)]; [done|].
  destruct Hx as [-> [= ->]]. by exists data.
Qed.

Lemma checkGoLicenseFile_ok path t :
  exec (checkGoLicenseFile path) t (Some None) ->
  exists comments now, t = [Ev (ParseFile path) (Ok comments); Ev CurrentYear now] /\
    checkGoLicenseInComments now path comments = Some None.
Proof.
  unfold checkGoLicenseFile. intros Hx. apply exec_bind in Hx as (t1 & t2 & [comments|err] & -> & ->%exec_call & Hx).
  - apply exec_bind in Hx as (t3 & t4 & now & -> & ->%exec_call & [-> Hr]%exec_mret). by exists comments, now.
  - by exec_inv.
Qed.

Lemma check_files_licensed paths t :
  exec (check_files paths false) t (Some false) -> Forall (licensed t) paths.
Proof.
  revert t. induction paths as [|path paths IH]; intros t Hx; [constructor|]. cbn [check_files] in Hx.
  apply exec_bind in Hx as (t1 & t2 & [[|]|err] & -> & Hi & Hx).
  - apply ignoreFile_ok in Hi as (data & -> & Hg). constructor; [left; exists data; unfold read_as; set_solver|].
    eapply Forall_impl; [by apply IH|]. intros p. apply (licensed_mono [] t2); set_solver.
  - apply ignoreFile_ok in Hi as (data & -> & Hg).
    apply exec_bind in Hx as (t3 & t4 & [[err|]|] & -> & Hc & Hx); [|shelve|by exec_inv].
    apply exec_bind in Hx as (t5 & t6 & u & -> & _ & Hx). by apply check_files_true in Hx.
    Unshelve. apply checkGoLicenseFile_ok in Hc as (comments & now & -> & Hc). constructor.
    + right. exists data, comments, now. unfold read_as, parsed_as. set_solver.
    + eapply Forall_impl; [by apply IH|]. intros p. apply (licensed_mono [] t4); set_solver.
  - apply exec_bind in Hx as (t5 & t6 & u & -> & _ & Hx).
    apply exec_bind in Hx as (t3 & t4 & [[err'|]|] & -> & _ & Hx); [|by apply check_files_true in Hx|by exec_inv].
    apply exec_bind in Hx as (t7 & t8 & u' & -> & _ & Hx). by apply check_files_true in Hx.
Qed.

(** The tool succeeds only when every Go file of the tree is generated or was
    parsed to comments that pass: no file is skipped because it could not be
    read or parsed. *)
Theorem license_check_sound t :
  exec checkGoLicense t (Some None) ->
  exists entries, Ev Walk (Ok entries) ∈ t /\
  forall path, (path, false) ∈ entries -> filepath_Ext path = ".go" -> licensed t path.
Proof.
  unfold checkGoLicense, glob. intros Hx. apply exec_bind in Hx as (t1 & t2 & [paths|err] & -> & Hg & Hx); [|by exec_inv].
  apply exec_attempt in Hg as [(? & ? & _)|(t3 & t4 & entries & -> & ->%exec_call & [-> [= ->]])]; [done|].
  exists entries. split; [set_solver|]. intros path Hin Hext.
  apply exec_bind in Hx as (t5 & t6 & [hasErrors|] & -> & Hc & Hx); [|by exec_inv].
  destruct hasErrors; [by exec_inv|]. exec_inv. apply check_files_licensed in Hc. rewrite Forall_forall in Hc.
  apply (licensed_mono [] t5); [set_solver|set_solver|]. apply Hc. apply list_elem_of_omap. exists (path, false).
  split; [done|]. by rewrite decide_False by naive_solver.
Qed.

(** A file whose only comment is a build constraint makes the tool panic. *)
Lemma build_constraint_only_panics now path : checkGoLicenseInComments now path [["//go:build linux"]] = None.
Proof. reflexivity. Qed.

Module witnesses.

Definition comment (rest : string) : string :=
  "/*" +:+ newline +:+ "Copyright 2024-2025 the Unikorn Authors." +:+ newline +:+ "Copyright 2026 Nscale." +:+ newline +:+
  newline +:+ rest +:+ apache2LicenseHeader +:+ newline +:+ "*/".

(** What precedes the license on its line is not looked at. *)
Lemma license_line_prefix_accepted : checkLicense 2026 (comment "Not ") = Some None.
Proof. vm_compute. reflexivity. Qed.

Lemma license_exact_witness :
  checkLicense 2026 (comment "") = Some None /\
  exists copyrights rest, copyrights <> [] /\
    comment_text (comment "") = strings_Join newline (copyrights ++ [""; rest]) +:+ apache2LicenseHeader.
Proof.
  assert (checkLicense 2026 (comment "") = Some None) as Hc by (vm_compute; reflexivity). split; [exact Hc|].
  destruct (proj1 (license_exact 2026 (comment "")) Hc) as (_ & _ & cs & rest & Hne & Ht & _).
  exists cs, rest. split; [exact Hne|exact Ht].
Defined.

Definition tool_trace : trace fileE :=
  [Ev Walk (Ok [("/src", true); ("/src/a.go", false); ("/src/b.md", false)]);
   Ev (ReadFile "/src/a.go") (Ok "package a"); Ev (ParseFile "/src/a.go") (Ok [[comment ""]]); Ev CurrentYear 2026%Z].

(** A tree with one Go file. *)
Definition tree (X : Type) (e : fileE X) (s : unit) : unit * X :=
  match e in fileE X return unit * X with
  | Walk => (tt, Ok [("/src", true); ("/src/a.go", false); ("/src/b.md", false)])
  | ReadFile _ => (tt, Ok "package a")
  | ParseFile _ => (tt, Ok [[comment ""]])
  | CurrentYear => (tt, 2026%Z)
  | Print _ _ => (tt, tt)
  end.

Lemma tool_succeeds : exec checkGoLicense tool_trace (Some None).
Proof.
  assert (run tree checkGoLicense tt = (tt, tool_trace, Some None)) as Hr by (vm_compute; reflexivity).
  pose proof (run_exec tree checkGoLicense tt) as Hx. by rewrite Hr in Hx.
Qed.

Lemma license_check_sound_witness :
  exists entries, Ev Walk (Ok entries) ∈ tool_trace /\
  forall path, (path, false) ∈ entries -> filepath_Ext path = ".go" -> licensed tool_trace path.
Proof. exact (license_check_sound tool_trace tool_succeeds). Defined.

End witnesses.
