(* ===== verification/DeepCopy.v ===== *)
(** * DeepCopy: the deep copies of the API types

    Models the types of pkg/apis/unikorn/v1alpha1 (types.go,
    helmapplication_types.go) and of its fake package (types.go) as they lie in
    memory, and their deep-copy methods: the generated zz_generated.deepcopy.go
    and those types.go writes out by hand.  Each type is a record over the type
    of references (see Memory).  The metadata types of k8s.io/apimachinery, its
    quantities and the constraints of github.com/Masterminds/semver are
    parameters, with deep copies of their own. *)

From S2P Require Import Prelude Errors Conditions Memory.

(** The third-party types that occur in the API types. *)
Class MetaTypes := {
  ObjectMeta : (Type -> Type) -> Type;
  ListMeta : (Type -> Type) -> Type;
  metav1_Condition : (Type -> Type) -> Type;
  Quantity : (Type -> Type) -> Type;
  Constraints : (Type -> Type) -> Type;
  semver_Version : Type;
}.

(** metav1.TypeMeta. *)
Record TypeMeta := { Kind : string; APIVersion : string }.

Module unikorn.

Section types.
Context `{MetaTypes} (P : Type -> Type).

Record SemanticVersion := { Version : semver_Version }.

Record SemanticVersionConstraints := { Constraints_embedded : Constraints P }.

Record IPv4Address := { address_IP : P (list Z) }.

Record IPv4Prefix := { prefix_IP : P (list Z); prefix_Mask : P (list Z) }.

Record MachineGeneric := {
  ImageID : string;
  FlavorID : string;
  DiskSize : P (Quantity P);
  Replicas : Z;
}.

Record NetworkGeneric := {
  NodeNetwork : IPv4Prefix;
  DNSNameservers : P (list IPv4Address);
}.

Record ApplicationReference := {
  ref_Kind : P string;
  ref_Name : P string;
  ref_Version : SemanticVersion;
}.

Record ApplicationNamedReference := {
  named_Name : P string;
  named_Reference : P ApplicationReference;
}.

Record HelmApplicationParameter := { param_Name : string; param_Value : string }.

Record HelmApplicationDependency := {
  dep_Name : string;
  dep_Constraints : P SemanticVersionConstraints;
}.

Record HelmApplicationRecommendation := { rec_Name : string }.

Record HelmApplicationVersion := {
  Repo : P string;
  Chart : P string;
  Branch : P string;
  Path : P string;
  app_Version : SemanticVersion;
  Release : P string;
  Parameters : P (list HelmApplicationParameter);
  Namespace : P string;
  CreateNamespace : P bool;
  ServerSideApply : P bool;
  Dependencies : P (list HelmApplicationDependency);
  Recommends : P (list HelmApplicationRecommendation);
}.

Record HelmApplicationSpec := {
  Tags : P TagList;
  Documentation : P string;
  License : P string;
  Icon : P (list Z);
  Versions : P (list HelmApplicationVersion);
}.

Record HelmApplicationStatus := {}.

Record HelmApplication := {
  app_TypeMeta : TypeMeta;
  app_ObjectMeta : ObjectMeta P;
  app_Spec : HelmApplicationSpec;
  app_Status : HelmApplicationStatus;
}.

Record HelmApplicationList := {
  list_TypeMeta : TypeMeta;
  list_ListMeta : ListMeta P;
  list_Items : P (list HelmApplication);
}.

End types.
End unikorn.

Module fake.

Section types.
Context `{MetaTypes} (P : Type -> Type).

Record ManagedResourceStatus := { Conditions : P (list (metav1_Condition P)) }.

Record ManagedResource := {
  res_TypeMeta : TypeMeta;
  res_ObjectMeta : ObjectMeta P;
  res_Status : ManagedResourceStatus;
}.

Record ManagedResourceList := {
  reslist_TypeMeta : TypeMeta;
  reslist_ListMeta : ListMeta P;
  reslist_Items : P (list ManagedResource);
}.

End types.
End fake.

(** What the third-party types offer: zero values, and copies that are deep.
    Constraints are copied through their text, which must parse back. *)
Class ThirdParty (C : Type) `{MetaTypes} := {
  zero_ObjectMeta : ObjectMeta Ref;
  zero_ListMeta : ListMeta Ref;
  zero_Condition : metav1_Condition Ref;
  zero_Constraints : Constraints Ref;
  zero_Version : semver_Version;
  ObjectMeta_copier :: Copier C (ObjectMeta Ref) (ObjectMeta option);
  ListMeta_copier :: Copier C (ListMeta Ref) (ListMeta option);
  Condition_copier :: Copier C (metav1_Condition Ref) (metav1_Condition option);
  Quantity_snapshot :: Snapshot C (Quantity Ref) (Quantity option);
  Quantity_DeepCopy : Quantity Ref -> mem C (Quantity Ref);
  Quantity_copies : copies (fun q _ => Quantity_DeepCopy q);
  Constraints_snapshot :: Snapshot C (Constraints Ref) (Constraints option);
  MarshalText : Constraints Ref -> mem C (result string);
  UnmarshalText : Constraints Ref -> string -> mem C (Constraints Ref * option error);
  text_roundtrip h (c out : Constraints Ref) v : snapshot h c = Some v ->
    exists t, MarshalText c h = Some (Ok t, h) /\
      adds h h (UnmarshalText out t) (fun a hn => snapshot hn a.1 = Some v);
}.

#[export] Instance snapshot_string C : Snapshot C string string := snapshot_plain string.
#[export] Instance snapshot_bool C : Snapshot C bool bool := snapshot_plain bool.
#[export] Instance snapshot_Z C : Snapshot C Z Z := snapshot_plain Z.
#[export] Instance snapshot_string_map C : Snapshot C (gmap string string) (gmap string string) := snapshot_plain _.
#[export] Instance snapshot_Tag C : Snapshot C Tag Tag := snapshot_plain Tag.

(** *** Reading the structs *)

Section snapshots.
Context {C : Type} `{ThirdParty C} `{!Storable C string} `{!Storable C bool} `{!Storable C (list Z)} `{!Storable C TagList}
  `{!Storable C (list unikorn.HelmApplicationParameter)} `{!Storable C (list unikorn.HelmApplicationRecommendation)}
  `{!Storable C (Quantity Ref)} `{!Storable C (unikorn.SemanticVersionConstraints Ref)}
  `{!Storable C (list (unikorn.IPv4Address Ref))} `{!Storable C (unikorn.ApplicationReference Ref)}
  `{!Storable C (list (unikorn.HelmApplicationDependency Ref))} `{!Storable C (list (unikorn.HelmApplicationVersion Ref))}
  `{!Storable C (list (unikorn.HelmApplication Ref))}
  `{!Storable C (list (metav1_Condition Ref))} `{!Storable C (list (fake.ManagedResource Ref))}.

#[export] Instance snapshot_SemanticVersion : Snapshot C unikorn.SemanticVersion unikorn.SemanticVersion :=
  snapshot_plain unikorn.SemanticVersion.
#[export] Instance snapshot_HelmApplicationParameter : Snapshot C unikorn.HelmApplicationParameter unikorn.HelmApplicationParameter :=
  snapshot_plain unikorn.HelmApplicationParameter.
#[export] Instance snapshot_HelmApplicationRecommendation :
  Snapshot C unikorn.HelmApplicationRecommendation unikorn.HelmApplicationRecommendation :=
  snapshot_plain unikorn.HelmApplicationRecommendation.

#[export] Instance snapshot_SemanticVersionConstraints : Snapshot C (unikorn.SemanticVersionConstraints Ref) (unikorn.SemanticVersionConstraints option).
Proof.
  refine {| snapshot h m :=
    x0 ← snapshot h (unikorn.Constraints_embedded _ m);
    Some {| unikorn.Constraints_embedded := x0 |} |}.
  mono_fields.
Defined.

#[export] Instance snapshot_IPv4Address : Snapshot C (unikorn.IPv4Address Ref) (unikorn.IPv4Address option).
Proof.
  refine {| snapshot h m :=
    x0 ← snapshot h (unikorn.address_IP _ m);
    Some {| unikorn.address_IP := x0 |} |}.
  mono_fields.
Defined.

#[export] Instance snapshot_IPv4Prefix : Snapshot C (unikorn.IPv4Prefix Ref) (unikorn.IPv4Prefix option).
Proof.
  refine {| snapshot h m :=
    x0 ← snapshot h (unikorn.prefix_IP _ m); x1 ← snapshot h (unikorn.prefix_Mask _ m);
    Some {| unikorn.prefix_IP := x0; unikorn.prefix_Mask := x1 |} |}.
  mono_fields.
Defined.

#[export] Instance snapshot_MachineGeneric : Snapshot C (unikorn.MachineGeneric Ref) (unikorn.MachineGeneric option).
Proof.
  refine {| snapshot h m :=
    x2 ← snapshot h (unikorn.DiskSize _ m);
    Some {| unikorn.ImageID := unikorn.ImageID _ m; unikorn.FlavorID := unikorn.FlavorID _ m; unikorn.DiskSize := x2;
       unikorn.Replicas := unikorn.Replicas _ m |} |}.
  mono_fields.
Defined.

#[export] Instance snapshot_NetworkGeneric : Snapshot C (unikorn.NetworkGeneric Ref) (unikorn.NetworkGeneric option).
Proof.
  refine {| snapshot h m :=
    x0 ← snapshot h (unikorn.NodeNetwork _ m); x1 ← snapshot h (unikorn.DNSNameservers _ m);
    Some {| unikorn.NodeNetwork := x0; unikorn.DNSNameservers := x1 |} |}.
  mono_fields.
Defined.

#[export] Instance snapshot_ApplicationReference : Snapshot C (unikorn.ApplicationReference Ref) (unikorn.ApplicationReference option).
Proof.
  refine {| snapshot h m :=
    x0 ← snapshot h (unikorn.ref_Kind _ m); x1 ← snapshot h (unikorn.ref_Name _ m);
    Some {| unikorn.ref_Kind := x0; unikorn.ref_Name := x1; unikorn.ref_Version := unikorn.ref_Version _ m |} |}.
  mono_fields.
Defined.

#[export] Instance snapshot_ApplicationNamedReference : Snapshot C (unikorn.ApplicationNamedReference Ref) (unikorn.ApplicationNamedReference option).
Proof.
  refine {| snapshot h m :=
    x0 ← snapshot h (unikorn.named_Name _ m); x1 ← snapshot h (unikorn.named_Reference _ m);
    Some {| unikorn.named_Name := x0; unikorn.named_Reference := x1 |} |}.
  mono_fields.
Defined.

#[export] Instance snapshot_HelmApplicationDependency : Snapshot C (unikorn.HelmApplicationDependency Ref) (unikorn.HelmApplicationDependency option).
Proof.
  refine {| snapshot h m :=
    x1 ← snapshot h (unikorn.dep_Constraints _ m);
    Some {| unikorn.dep_Name := unikorn.dep_Name _ m; unikorn.dep_Constraints := x1 |} |}.
  mono_fields.
Defined.

#[export] Instance snapshot_HelmApplicationVersion : Snapshot C (unikorn.HelmApplicationVersion Ref) (unikorn.HelmApplicationVersion option).
Proof.
  refine {| snapshot h m :=
    x0 ← snapshot h (unikorn.Repo _ m); x1 ← snapshot h (unikorn.Chart _ m);
    x2 ← snapshot h (unikorn.Branch _ m); x3 ← snapshot h (unikorn.Path _ m);
    x5 ← snapshot h (unikorn.Release _ m); x6 ← snapshot h (unikorn.Parameters _ m);
    x7 ← snapshot h (unikorn.Namespace _ m); x8 ← snapshot h (unikorn.CreateNamespace _ m);
    x9 ← snapshot h (unikorn.ServerSideApply _ m); x10 ← snapshot h (unikorn.Dependencies _ m);
    x11 ← snapshot h (unikorn.Recommends _ m);
    Some {| unikorn.Repo := x0; unikorn.Chart := x1; unikorn.Branch := x2; unikorn.Path := x3;
       unikorn.app_Version := unikorn.app_Version _ m; unikorn.Release := x5; unikorn.Parameters := x6;
       unikorn.Namespace := x7; unikorn.CreateNamespace := x8; unikorn.ServerSideApply := x9;
       unikorn.Dependencies := x10; unikorn.Recommends := x11 |} |}.
  mono_fields.
Defined.

#[export] Instance snapshot_HelmApplicationSpec : Snapshot C (unikorn.HelmApplicationSpec Ref) (unikorn.HelmApplicationSpec option).
Proof.
  refine {| snapshot h m :=
    x0 ← snapshot h (unikorn.Tags _ m); x1 ← snapshot h (unikorn.Documentation _ m);
    x2 ← snapshot h (unikorn.License _ m); x3 ← snapshot h (unikorn.Icon _ m);
    x4 ← snapshot h (unikorn.Versions _ m);
    Some {| unikorn.Tags := x0; unikorn.Documentation := x1; unikorn.License := x2; unikorn.Icon := x3;
       unikorn.Versions := x4 |} |}.
  mono_fields.
Defined.

#[export] Instance snapshot_HelmApplication : Snapshot C (unikorn.HelmApplication Ref) (unikorn.HelmApplication option).
Proof.
  refine {| snapshot h m :=
    x1 ← snapshot h (unikorn.app_ObjectMeta _ m); x2 ← snapshot h (unikorn.app_Spec _ m);
    Some {| unikorn.app_TypeMeta := unikorn.app_TypeMeta _ m; unikorn.app_ObjectMeta := x1; unikorn.app_Spec := x2;
       unikorn.app_Status := unikorn.app_Status _ m |} |}.
  mono_fields.
Defined.

#[export] Instance snapshot_HelmApplicationList : Snapshot C (unikorn.HelmApplicationList Ref) (unikorn.HelmApplicationList option).
Proof.
  refine {| snapshot h m :=
    x1 ← snapshot h (unikorn.list_ListMeta _ m); x2 ← snapshot h (unikorn.list_Items _ m);
    Some {| unikorn.list_TypeMeta := unikorn.list_TypeMeta _ m; unikorn.list_ListMeta := x1; unikorn.list_Items := x2 |} |}.
  mono_fields.
Defined.

#[export] Instance snapshot_ManagedResourceStatus : Snapshot C (fake.ManagedResourceStatus Ref) (fake.ManagedResourceStatus option).
Proof.
  refine {| snapshot h m :=
    x0 ← snapshot h (fake.Conditions _ m);
    Some {| fake.Conditions := x0 |} |}.
  mono_fields.
Defined.

#[export] Instance snapshot_ManagedResource : Snapshot C (fake.ManagedResource Ref) (fake.ManagedResource option).
Proof.
  refine {| snapshot h m :=
    x1 ← snapshot h (fake.res_ObjectMeta _ m); x2 ← snapshot h (fake.res_Status _ m);
    Some {| fake.res_TypeMeta := fake.res_TypeMeta _ m; fake.res_ObjectMeta := x1; fake.res_Status := x2 |} |}.
  mono_fields.
Defined.

#[export] Instance snapshot_ManagedResourceList : Snapshot C (fake.ManagedResourceList Ref) (fake.ManagedResourceList option).
Proof.
  refine {| snapshot h m :=
    x1 ← snapshot h (fake.reslist_ListMeta _ m); x2 ← snapshot h (fake.reslist_Items _ m);
    Some {| fake.reslist_TypeMeta := fake.reslist_TypeMeta _ m; fake.reslist_ListMeta := x1; fake.reslist_Items := x2 |} |}.
  mono_fields.
Defined.

End snapshots.

(** *** The copies, as the code makes them *)

(** [out] is what the target held: [*out = *in], then each field with references
    is replaced.  A field copied in place is given what [*out = *in] left there. *)

Module copies.
Section copies.
Context {C : Type} `{ThirdParty C} `{!Storable C string} `{!Storable C bool} `{!Storable C (list Z)} `{!Storable C TagList}
  `{!Storable C (list unikorn.HelmApplicationParameter)} `{!Storable C (list unikorn.HelmApplicationRecommendation)}
  `{!Storable C (Quantity Ref)} `{!Storable C (unikorn.SemanticVersionConstraints Ref)}
  `{!Storable C (list (unikorn.IPv4Address Ref))} `{!Storable C (unikorn.ApplicationReference Ref)}
  `{!Storable C (list (unikorn.HelmApplicationDependency Ref))} `{!Storable C (list (unikorn.HelmApplicationVersion Ref))}
  `{!Storable C (list (unikorn.HelmApplication Ref))}
  `{!Storable C (list (metav1_Condition Ref))} `{!Storable C (list (fake.ManagedResource Ref))}.
Import unikorn fake.

Definition Tag_DeepCopyInto (m out : Tag) : mem C Tag := assign m out.

Definition zero_Tag : Tag := {| tag_Name := ""; tag_Value := "" |}.

Definition Tag_DeepCopy `{!Storable C Tag} : Ref Tag -> mem C (Ref Tag) := deep_copy zero_Tag Tag_DeepCopyInto.

(** Unlike the others it makes a list even of a nil one. *)
Definition TagList_DeepCopyInto (m out : Ref TagList) : mem C (Ref TagList) :=
  match m with
  | None => l ← alloc ([] : TagList); mret (Some l)
  | Some _ => copy_values zero_Tag m
  end.

Definition TagList_DeepCopy (m : Ref TagList) : mem C (Ref TagList) :=
  match m with None => mret None | Some _ => TagList_DeepCopyInto m nil end.

Definition SemanticVersion_DeepCopyInto (m out : SemanticVersion) : mem C SemanticVersion :=
  mret {| Version := Version m |}.

Definition zero_SemanticVersion : SemanticVersion := {| Version := zero_Version |}.

Definition SemanticVersion_DeepCopy `{!Storable C SemanticVersion} : Ref SemanticVersion -> mem C (Ref SemanticVersion) :=
  deep_copy zero_SemanticVersion SemanticVersion_DeepCopyInto.

(** Through the text, its errors ignored. *)
Definition SemanticVersionConstraints_DeepCopyInto (m out : SemanticVersionConstraints Ref) :
    mem C (SemanticVersionConstraints Ref) :=
  t ← MarshalText (Constraints_embedded _ m);
  r ← UnmarshalText (Constraints_embedded _ out) (match t with Ok t => t | Err _ => "" end);
  mret {| Constraints_embedded := r.1 |}.

Definition zero_SemanticVersionConstraints : SemanticVersionConstraints Ref := {| Constraints_embedded := zero_Constraints |}.

(** There is no nil check: a nil receiver panics. *)
Definition SemanticVersionConstraints_DeepCopy (m : Ref (SemanticVersionConstraints Ref)) :
    mem C (Ref (SemanticVersionConstraints Ref)) :=
  match m with
  | None => fun _ => None
  | Some l => copy_cell (fun _ => zero_SemanticVersionConstraints) SemanticVersionConstraints_DeepCopyInto l
  end.

Definition IPv4Address_DeepCopyInto (m out : IPv4Address Ref) : mem C (IPv4Address Ref) :=
  ip ← copy_values 0%Z (address_IP _ m);
  mret {| address_IP := ip |}.

Definition zero_IPv4Address : IPv4Address Ref := {| address_IP := nil |}.

Definition IPv4Address_DeepCopy `{!Storable C (IPv4Address Ref)} : Ref (IPv4Address Ref) -> mem C (Ref (IPv4Address Ref)) :=
  deep_copy zero_IPv4Address IPv4Address_DeepCopyInto.

(** Written by hand, without [*out = *in]: what is nil stays as it was. *)
Definition IPv4Prefix_DeepCopyInto (m out : IPv4Prefix Ref) : mem C (IPv4Prefix Ref) :=
  ip ← (match prefix_IP _ m with None => mret (prefix_IP _ out) | Some _ => copy_values 0%Z (prefix_IP _ m) end);
  mask ← (match prefix_Mask _ m with None => mret (prefix_Mask _ out) | Some _ => copy_values 0%Z (prefix_Mask _ m) end);
  mret {| prefix_IP := ip; prefix_Mask := mask |}.

Definition zero_IPv4Prefix : IPv4Prefix Ref := {| prefix_IP := nil; prefix_Mask := nil |}.

Definition IPv4Prefix_DeepCopy `{!Storable C (IPv4Prefix Ref)} : Ref (IPv4Prefix Ref) -> mem C (Ref (IPv4Prefix Ref)) :=
  deep_copy zero_IPv4Prefix IPv4Prefix_DeepCopyInto.

Definition MachineGeneric_DeepCopyInto (m out : MachineGeneric Ref) : mem C (MachineGeneric Ref) :=
  d ← copy_boxed Quantity_DeepCopy (DiskSize _ m);
  mret {| ImageID := ImageID _ m; FlavorID := FlavorID _ m; DiskSize := d; Replicas := Replicas _ m |}.

Definition zero_MachineGeneric : MachineGeneric Ref := {| ImageID := ""; FlavorID := ""; DiskSize := nil; Replicas := 0 |}.

Definition MachineGeneric_DeepCopy `{!Storable C (MachineGeneric Ref)} : Ref (MachineGeneric Ref) -> mem C (Ref (MachineGeneric Ref)) :=
  deep_copy zero_MachineGeneric MachineGeneric_DeepCopyInto.

Definition NetworkGeneric_DeepCopyInto (m out : NetworkGeneric Ref) : mem C (NetworkGeneric Ref) :=
  network ← IPv4Prefix_DeepCopyInto (NodeNetwork _ m) (NodeNetwork _ m);
  nameservers ← copy_slice zero_IPv4Address IPv4Address_DeepCopyInto (DNSNameservers _ m);
  mret {| NodeNetwork := network; DNSNameservers := nameservers |}.

Definition zero_NetworkGeneric : NetworkGeneric Ref := {| NodeNetwork := zero_IPv4Prefix; DNSNameservers := nil |}.

Definition NetworkGeneric_DeepCopy `{!Storable C (NetworkGeneric Ref)} : Ref (NetworkGeneric Ref) -> mem C (Ref (NetworkGeneric Ref)) :=
  deep_copy zero_NetworkGeneric NetworkGeneric_DeepCopyInto.

Definition ApplicationReference_DeepCopyInto (m out : ApplicationReference Ref) : mem C (ApplicationReference Ref) :=
  kind ← copy_new "" (ref_Kind _ m);
  name ← copy_new "" (ref_Name _ m);
  mret {| ref_Kind := kind; ref_Name := name; ref_Version := ref_Version _ m |}.

Definition zero_ApplicationReference : ApplicationReference Ref :=
  {| ref_Kind := nil; ref_Name := nil; ref_Version := zero_SemanticVersion |}.

Definition ApplicationReference_DeepCopy : Ref (ApplicationReference Ref) -> mem C (Ref (ApplicationReference Ref)) :=
  deep_copy zero_ApplicationReference ApplicationReference_DeepCopyInto.

Definition ApplicationNamedReference_DeepCopyInto (m out : ApplicationNamedReference Ref) : mem C (ApplicationNamedReference Ref) :=
  name ← copy_new "" (named_Name _ m);
  reference ← copy_ref (fun _ => zero_ApplicationReference) ApplicationReference_DeepCopyInto (named_Reference _ m);
  mret {| named_Name := name; named_Reference := reference |}.

Definition zero_ApplicationNamedReference : ApplicationNamedReference Ref := {| named_Name := nil; named_Reference := nil |}.

Definition ApplicationNamedReference_DeepCopy `{!Storable C (ApplicationNamedReference Ref)} :
    Ref (ApplicationNamedReference Ref) -> mem C (Ref (ApplicationNamedReference Ref)) :=
  deep_copy zero_ApplicationNamedReference ApplicationNamedReference_DeepCopyInto.

Definition HelmApplicationParameter_DeepCopyInto (m out : HelmApplicationParameter) : mem C HelmApplicationParameter := assign m out.

Definition zero_HelmApplicationParameter : HelmApplicationParameter := {| param_Name := ""; param_Value := "" |}.

Definition HelmApplicationParameter_DeepCopy `{!Storable C HelmApplicationParameter} :
    Ref HelmApplicationParameter -> mem C (Ref HelmApplicationParameter) :=
  deep_copy zero_HelmApplicationParameter HelmApplicationParameter_DeepCopyInto.

Definition HelmApplicationRecommendation_DeepCopyInto (m out : HelmApplicationRecommendation) : mem C HelmApplicationRecommendation :=
  assign m out.

Definition zero_HelmApplicationRecommendation : HelmApplicationRecommendation := {| rec_Name := "" |}.

Definition HelmApplicationRecommendation_DeepCopy `{!Storable C HelmApplicationRecommendation} :
    Ref HelmApplicationRecommendation -> mem C (Ref HelmApplicationRecommendation) :=
  deep_copy zero_HelmApplicationRecommendation HelmApplicationRecommendation_DeepCopyInto.

Definition HelmApplicationDependency_DeepCopyInto (m out : HelmApplicationDependency Ref) : mem C (HelmApplicationDependency Ref) :=
  constraints ← (match dep_Constraints _ m with
                 | None => mret None
                 | Some l => SemanticVersionConstraints_DeepCopy (Some l)
                 end);
  mret {| dep_Name := dep_Name _ m; dep_Constraints := constraints |}.

Definition zero_HelmApplicationDependency : HelmApplicationDependency Ref := {| dep_Name := ""; dep_Constraints := nil |}.

Definition HelmApplicationDependency_DeepCopy `{!Storable C (HelmApplicationDependency Ref)} :
    Ref (HelmApplicationDependency Ref) -> mem C (Ref (HelmApplicationDependency Ref)) :=
  deep_copy zero_HelmApplicationDependency HelmApplicationDependency_DeepCopyInto.

Definition HelmApplicationVersion_DeepCopyInto (m out : HelmApplicationVersion Ref) : mem C (HelmApplicationVersion Ref) :=
  repo ← copy_new "" (Repo _ m);
  chart ← copy_new "" (Chart _ m);
  branch ← copy_new "" (Branch _ m);
  path ← copy_new "" (Path _ m);
  release ← copy_new "" (Release _ m);
  parameters ← copy_values zero_HelmApplicationParameter (Parameters _ m);
  namespace ← copy_new "" (Namespace _ m);
  createNamespace ← copy_new false (CreateNamespace _ m);
  serverSideApply ← copy_new false (ServerSideApply _ m);
  dependencies ← copy_slice zero_HelmApplicationDependency HelmApplicationDependency_DeepCopyInto (Dependencies _ m);
  recommends ← copy_values zero_HelmApplicationRecommendation (Recommends _ m);
  mret {| Repo := repo; Chart := chart; Branch := branch; Path := path; app_Version := app_Version _ m;
          Release := release; Parameters := parameters; Namespace := namespace; CreateNamespace := createNamespace;
          ServerSideApply := serverSideApply; Dependencies := dependencies; Recommends := recommends |}.

Definition zero_HelmApplicationVersion : HelmApplicationVersion Ref :=
  {| Repo := nil; Chart := nil; Branch := nil; Path := nil; app_Version := zero_SemanticVersion; Release := nil;
     Parameters := nil; Namespace := nil; CreateNamespace := nil; ServerSideApply := nil; Dependencies := nil;
     Recommends := nil |}.

Definition HelmApplicationVersion_DeepCopy `{!Storable C (HelmApplicationVersion Ref)} :
    Ref (HelmApplicationVersion Ref) -> mem C (Ref (HelmApplicationVersion Ref)) :=
  deep_copy zero_HelmApplicationVersion HelmApplicationVersion_DeepCopyInto.

Definition HelmApplicationSpec_DeepCopyInto (m out : HelmApplicationSpec Ref) : mem C (HelmApplicationSpec Ref) :=
  tags ← copy_values zero_Tag (Tags _ m);
  documentation ← copy_new "" (Documentation _ m);
  license ← copy_new "" (License _ m);
  icon ← copy_values 0%Z (Icon _ m);
  versions ← copy_slice zero_HelmApplicationVersion HelmApplicationVersion_DeepCopyInto (Versions _ m);
  mret {| Tags := tags; Documentation := documentation; License := license; Icon := icon; Versions := versions |}.

Definition zero_HelmApplicationSpec : HelmApplicationSpec Ref :=
  {| Tags := nil; Documentation := nil; License := nil; Icon := nil; Versions := nil |}.

Definition HelmApplicationSpec_DeepCopy `{!Storable C (HelmApplicationSpec Ref)} :
    Ref (HelmApplicationSpec Ref) -> mem C (Ref (HelmApplicationSpec Ref)) :=
  deep_copy zero_HelmApplicationSpec HelmApplicationSpec_DeepCopyInto.

Definition HelmApplicationStatus_DeepCopyInto (m out : HelmApplicationStatus) : mem C HelmApplicationStatus := assign m out.

Definition HelmApplicationStatus_DeepCopy `{!Storable C HelmApplicationStatus} :
    Ref HelmApplicationStatus -> mem C (Ref HelmApplicationStatus) :=
  deep_copy Build_HelmApplicationStatus HelmApplicationStatus_DeepCopyInto.

Definition HelmApplication_DeepCopyInto (m out : HelmApplication Ref) : mem C (HelmApplication Ref) :=
  meta ← DeepCopyInto (app_ObjectMeta _ m) (app_ObjectMeta _ m);
  spec ← HelmApplicationSpec_DeepCopyInto (app_Spec _ m) (app_Spec _ m);
  mret {| app_TypeMeta := app_TypeMeta _ m; app_ObjectMeta := meta; app_Spec := spec; app_Status := app_Status _ m |}.

Definition zero_TypeMeta : TypeMeta := {| Kind := ""; APIVersion := "" |}.

Definition zero_HelmApplication : HelmApplication Ref :=
  {| app_TypeMeta := zero_TypeMeta; app_ObjectMeta := zero_ObjectMeta; app_Spec := zero_HelmApplicationSpec;
     app_Status := Build_HelmApplicationStatus |}.

Definition HelmApplication_DeepCopy `{!Storable C (HelmApplication Ref)} :
    Ref (HelmApplication Ref) -> mem C (Ref (HelmApplication Ref)) :=
  deep_copy zero_HelmApplication HelmApplication_DeepCopyInto.

Definition HelmApplicationList_DeepCopyInto (m out : HelmApplicationList Ref) : mem C (HelmApplicationList Ref) :=
  meta ← DeepCopyInto (list_ListMeta _ m) (list_ListMeta _ m);
  items ← copy_slice zero_HelmApplication HelmApplication_DeepCopyInto (list_Items _ m);
  mret {| list_TypeMeta := list_TypeMeta _ m; list_ListMeta := meta; list_Items := items |}.

Definition zero_HelmApplicationList : HelmApplicationList Ref :=
  {| list_TypeMeta := zero_TypeMeta; list_ListMeta := zero_ListMeta; list_Items := nil |}.

Definition HelmApplicationList_DeepCopy `{!Storable C (HelmApplicationList Ref)} :
    Ref (HelmApplicationList Ref) -> mem C (Ref (HelmApplicationList Ref)) :=
  deep_copy zero_HelmApplicationList HelmApplicationList_DeepCopyInto.

(** A runtime.Object, an interface: nil, or a pointer to a [M]. *)
Definition DeepCopyObject {M : Type} (copy : Ref M -> mem C (Ref M)) (m : Ref M) : mem C (option (Ref M)) :=
  c ← copy m;
  match c with Some _ => mret (Some c) | None => mret None end.

Definition HelmApplication_DeepCopyObject `{!Storable C (HelmApplication Ref)} := DeepCopyObject HelmApplication_DeepCopy.

Definition HelmApplicationList_DeepCopyObject `{!Storable C (HelmApplicationList Ref)} := DeepCopyObject HelmApplicationList_DeepCopy.

Definition ManagedResourceStatus_DeepCopyInto (m out : ManagedResourceStatus Ref) : mem C (ManagedResourceStatus Ref) :=
  conditions ← copy_slice zero_Condition DeepCopyInto (Conditions _ m);
  mret {| Conditions := conditions |}.

Definition zero_ManagedResourceStatus : ManagedResourceStatus Ref := {| Conditions := nil |}.

Definition ManagedResourceStatus_DeepCopy `{!Storable C (ManagedResourceStatus Ref)} :
    Ref (ManagedResourceStatus Ref) -> mem C (Ref (ManagedResourceStatus Ref)) :=
  deep_copy zero_ManagedResourceStatus ManagedResourceStatus_DeepCopyInto.

Definition ManagedResource_DeepCopyInto (m out : ManagedResource Ref) : mem C (ManagedResource Ref) :=
  meta ← DeepCopyInto (res_ObjectMeta _ m) (res_ObjectMeta _ m);
  status ← ManagedResourceStatus_DeepCopyInto (res_Status _ m) (res_Status _ m);
  mret {| res_TypeMeta := res_TypeMeta _ m; res_ObjectMeta := meta; res_Status := status |}.

Definition zero_ManagedResource : ManagedResource Ref :=
  {| res_TypeMeta := zero_TypeMeta; res_ObjectMeta := zero_ObjectMeta; res_Status := zero_ManagedResourceStatus |}.

Definition ManagedResource_DeepCopy `{!Storable C (ManagedResource Ref)} :
    Ref (ManagedResource Ref) -> mem C (Ref (ManagedResource Ref)) :=
  deep_copy zero_ManagedResource ManagedResource_DeepCopyInto.

Definition ManagedResourceList_DeepCopyInto (m out : ManagedResourceList Ref) : mem C (ManagedResourceList Ref) :=
  meta ← DeepCopyInto (reslist_ListMeta _ m) (reslist_ListMeta _ m);
  items ← copy_slice zero_ManagedResource ManagedResource_DeepCopyInto (reslist_Items _ m);
  mret {| reslist_TypeMeta := reslist_TypeMeta _ m; reslist_ListMeta := meta; reslist_Items := items |}.

Definition zero_ManagedResourceList : ManagedResourceList Ref :=
  {| reslist_TypeMeta := zero_TypeMeta; reslist_ListMeta := zero_ListMeta; reslist_Items := nil |}.

Definition ManagedResourceList_DeepCopy `{!Storable C (ManagedResourceList Ref)} :
    Ref (ManagedResourceList Ref) -> mem C (Ref (ManagedResourceList Ref)) :=
  deep_copy zero_ManagedResourceList ManagedResourceList_DeepCopyInto.

Definition ManagedResource_DeepCopyObject `{!Storable C (ManagedResource Ref)} := DeepCopyObject ManagedResource_DeepCopy.

Definition ManagedResourceList_DeepCopyObject `{!Storable C (ManagedResourceList Ref)} := DeepCopyObject ManagedResourceList_DeepCopy.

End copies.
End copies.

(** ** The copies are deep *)

Section facts.
Context {C : Type} `{ThirdParty C} `{!Storable C string} `{!Storable C bool} `{!Storable C (list Z)} `{!Storable C TagList}
  `{!Storable C (list unikorn.HelmApplicationParameter)} `{!Storable C (list unikorn.HelmApplicationRecommendation)}
  `{!Storable C (Quantity Ref)} `{!Storable C (unikorn.SemanticVersionConstraints Ref)}
  `{!Storable C (list (unikorn.IPv4Address Ref))} `{!Storable C (unikorn.ApplicationReference Ref)}
  `{!Storable C (list (unikorn.HelmApplicationDependency Ref))} `{!Storable C (list (unikorn.HelmApplicationVersion Ref))}
  `{!Storable C (list (unikorn.HelmApplication Ref))}
  `{!Storable C (list (metav1_Condition Ref))} `{!Storable C (list (fake.ManagedResource Ref))}.
Import copies.

#[local] Hint Resolve Quantity_copies : copies.

Lemma copies_SemanticVersionConstraints : copies SemanticVersionConstraints_DeepCopyInto.
Proof.
  intros h m out v Hv. cbv delta [snapshot_SemanticVersionConstraints] in Hv |- *. split_fields Hv.
  destruct (text_roundtrip h _ (unikorn.Constraints_embedded _ out) _ E) as (t & Ht & [c' err] & h' & Hu & Hs & Hc).
  exists {| unikorn.Constraints_embedded := c' |}, h'.
  unfold SemanticVersionConstraints_DeepCopyInto, mbind, mem_bind. rewrite Ht, Hu. split_and!; [done|done|].
  simpl in *. by rewrite Hc.
Qed.

Lemma copies_IPv4Address : copies IPv4Address_DeepCopyInto.
Proof. copy_struct snapshot_IPv4Address IPv4Address_DeepCopyInto. Qed.

(** A prefix is copied into one that is nil where it is. *)
Lemma copies_IPv4Prefix h m out v :
  (unikorn.prefix_IP _ m = None -> unikorn.prefix_IP _ out = None) ->
  (unikorn.prefix_Mask _ m = None -> unikorn.prefix_Mask _ out = None) ->
  snapshot h m = Some v -> adds h h (IPv4Prefix_DeepCopyInto m out) (fun m' hn => snapshot hn m' = Some v).
Proof.
  intros Hip Hmask Hv. cbv delta [snapshot_IPv4Prefix] in Hv |- *. split_fields Hv. unfold IPv4Prefix_DeepCopyInto.
  assert (forall h h0 (r o : Ref (list Z)) v, h0 ⊆ h -> (r = None -> o = None) -> snapshot h0 r = Some v ->
    adds h0 h (match r with None => mret o | Some _ => copy_values 0%Z r end) (fun r' hn => snapshot hn r' = Some v)) as Hfield.
  { clear. intros h h0 [l|] o v Hs Ho Hr; [by apply copies_values|]. rewrite Ho by done. by apply adds_ret. }
  eapply adds_bind; [eapply Hfield; [subheap|exact Hip|eassumption]|]. intros ip h1 Hs1 Hip1. cbn beta in *.
  eapply adds_bind; [eapply Hfield; [subheap|exact Hmask|eassumption]|]. intros mask h2 Hs2 Hmask1. cbn beta in *.
  copied_fields. done.
Qed.

Lemma copies_IPv4Prefix_self : copies (fun m _ => IPv4Prefix_DeepCopyInto m m).
Proof. intros h m out v. by apply copies_IPv4Prefix. Qed.

Lemma copies_IPv4Prefix_zero : copies (fun m _ => IPv4Prefix_DeepCopyInto m zero_IPv4Prefix).
Proof. intros h m out v. by apply copies_IPv4Prefix. Qed.

#[local] Hint Resolve copies_SemanticVersionConstraints copies_IPv4Address copies_IPv4Prefix_self : copies.

Lemma copies_MachineGeneric : copies MachineGeneric_DeepCopyInto.
Proof. copy_struct snapshot_MachineGeneric MachineGeneric_DeepCopyInto. Qed.

Lemma copies_NetworkGeneric : copies NetworkGeneric_DeepCopyInto.
Proof.
  intros h m out v Hv. cbv delta [snapshot_NetworkGeneric] in Hv |- *. split_fields Hv. unfold NetworkGeneric_DeepCopyInto.
  eapply adds_bind; [by eapply (copies_adds (fun m _ => IPv4Prefix_DeepCopyInto m m) h h _ (unikorn.NodeNetwork _ m)); [eauto with copies|..]|].
  intros network h1 Hs1 Hn. cbn beta in *. copy_field. copied_fields. done.
Qed.

Lemma copies_ApplicationReference : copies ApplicationReference_DeepCopyInto.
Proof. copy_struct snapshot_ApplicationReference ApplicationReference_DeepCopyInto. Qed.

#[local] Hint Resolve copies_ApplicationReference : copies.

Lemma copies_ApplicationNamedReference : copies ApplicationNamedReference_DeepCopyInto.
Proof. copy_struct snapshot_ApplicationNamedReference ApplicationNamedReference_DeepCopyInto. Qed.

Lemma copies_HelmApplicationDependency : copies HelmApplicationDependency_DeepCopyInto.
Proof.
  intros h m out v Hv. cbv delta [snapshot_HelmApplicationDependency] in Hv |- *. split_fields Hv. unfold HelmApplicationDependency_DeepCopyInto.
  eapply adds_bind.
  { change (match unikorn.dep_Constraints Ref m with None => mret None | Some l => SemanticVersionConstraints_DeepCopy (Some l) end)
      with (copy_ref (fun _ => zero_SemanticVersionConstraints) SemanticVersionConstraints_DeepCopyInto (unikorn.dep_Constraints Ref m)).
    eapply copies_ref; [eauto with copies|subheap|eassumption]. }
  intros c h1 Hs1 Hc. cbn beta in *. copied_fields. done.
Qed.

#[local] Hint Resolve copies_HelmApplicationDependency : copies.

Lemma copies_HelmApplicationVersion : copies HelmApplicationVersion_DeepCopyInto.
Proof. copy_struct snapshot_HelmApplicationVersion HelmApplicationVersion_DeepCopyInto. Qed.

#[local] Hint Resolve copies_HelmApplicationVersion : copies.

Lemma copies_HelmApplicationSpec : copies HelmApplicationSpec_DeepCopyInto.
Proof. copy_struct snapshot_HelmApplicationSpec HelmApplicationSpec_DeepCopyInto. Qed.

#[local] Hint Resolve copies_HelmApplicationSpec : copies.

Lemma copies_HelmApplication : copies HelmApplication_DeepCopyInto.
Proof. copy_struct snapshot_HelmApplication HelmApplication_DeepCopyInto. Qed.

#[local] Hint Resolve copies_HelmApplication : copies.

Lemma copies_HelmApplicationList : copies HelmApplicationList_DeepCopyInto.
Proof. copy_struct snapshot_HelmApplicationList HelmApplicationList_DeepCopyInto. Qed.

Lemma copies_ManagedResourceStatus : copies ManagedResourceStatus_DeepCopyInto.
Proof. copy_struct snapshot_ManagedResourceStatus ManagedResourceStatus_DeepCopyInto. Qed.

#[local] Hint Resolve copies_ManagedResourceStatus : copies.

Lemma copies_ManagedResource : copies ManagedResource_DeepCopyInto.
Proof. copy_struct snapshot_ManagedResource ManagedResource_DeepCopyInto. Qed.

#[local] Hint Resolve copies_ManagedResource : copies.

Lemma copies_ManagedResourceList : copies ManagedResourceList_DeepCopyInto.
Proof. copy_struct snapshot_ManagedResourceList ManagedResourceList_DeepCopyInto. Qed.

(** A pointer that is not nil is copied to one that is not nil. *)
Lemma object_independent {M V} `{!Storable C M} `{!Snapshot C M V} zero (into : M -> M -> mem C M) h l (v : V) :
  copies into -> snapshot h (Some l : Ref M) = Some (Some v) ->
  exists q h', DeepCopyObject (deep_copy zero into) (Some l) h = Some (Some (Some q), h') /\
    independent h h' (Some l) (Some q : Ref M) (Some v).
Proof.
  intros Hc Hl. destruct (deep_copy_independent zero into h (Some l) (Some v) Hc Hl) as (q & h' & Hq & Hi).
  destruct q as [q|].
  - exists q, h'. split; [|done]. unfold DeepCopyObject, mbind, mem_bind. by rewrite Hq.
  - destruct Hi as (_ & Hn & _). simpl in Hn. by simplify_eq.
Qed.

(** C8 An application, or a list of them, shares nothing with its copy: the copy is
    made without a panic, reads the same through every pointer, slice and map,
    and goes on doing so whatever is written to the memory there was before, as
    the original does whatever is written to the copy's; the interface it is
    answered in is never a nil pointer. *)
Theorem helm_application_isolated `{!Storable C (unikorn.HelmApplication Ref)} `{!Storable C (unikorn.HelmApplicationList Ref)} h l :
  (forall v, snapshot h (Some l : Ref (unikorn.HelmApplication Ref)) = Some (Some v) ->
    exists q h', HelmApplication_DeepCopyObject (Some l) h = Some (Some (Some q), h') /\
      independent h h' (Some l) (Some q : Ref (unikorn.HelmApplication Ref)) (Some v)) /\
  (forall v, snapshot h (Some l : Ref (unikorn.HelmApplicationList Ref)) = Some (Some v) ->
    exists q h', HelmApplicationList_DeepCopyObject (Some l) h = Some (Some (Some q), h') /\
      independent h h' (Some l) (Some q : Ref (unikorn.HelmApplicationList Ref)) (Some v)).
Proof.
  split; intros v Hv; apply object_independent; try done; [apply copies_HelmApplication|apply copies_HelmApplicationList].
Qed.

(** Every copy is deep, whatever its target held before: what it leaves reads as
    the receiver does and is made of cells allocated meanwhile. *)
Theorem api_copies_deep :
  copies SemanticVersionConstraints_DeepCopyInto /\ copies IPv4Address_DeepCopyInto /\
  copies MachineGeneric_DeepCopyInto /\ copies NetworkGeneric_DeepCopyInto /\
  copies ApplicationReference_DeepCopyInto /\ copies ApplicationNamedReference_DeepCopyInto /\
  copies HelmApplicationDependency_DeepCopyInto /\ copies HelmApplicationVersion_DeepCopyInto /\
  copies HelmApplicationSpec_DeepCopyInto /\ copies HelmApplication_DeepCopyInto /\
  copies HelmApplicationList_DeepCopyInto /\ copies ManagedResourceStatus_DeepCopyInto /\
  copies ManagedResource_DeepCopyInto /\ copies ManagedResourceList_DeepCopyInto.
Proof.
  split_and!; auto using copies_MachineGeneric, copies_NetworkGeneric, copies_ApplicationNamedReference,
    copies_HelmApplicationList, copies_ManagedResourceList with copies.
Qed.

(** The exception is the one written by hand: a prefix that is nil leaves its
    target as it was, sharing included. *)
Theorem prefix_copy_leaves_target (out : unikorn.IPv4Prefix Ref) (h : heap C) :
  IPv4Prefix_DeepCopyInto zero_IPv4Prefix out h = Some (out, h) /\
  copies (fun m _ => IPv4Prefix_DeepCopyInto m zero_IPv4Prefix).
Proof. split; [by destruct out|apply copies_IPv4Prefix_zero]. Qed.

(** A list of tags that is nil is copied to one that is empty, but for DeepCopy. *)
Lemma nil_tags_copied (out : Ref TagList) (h : heap C) :
  (exists l h', TagList_DeepCopyInto nil out h = Some (Some l, h') /\ snapshot h' (Some l : Ref TagList) = Some (Some [])) /\
  TagList_DeepCopy nil h = Some (nil, h).
Proof.
  split; [|done]. exists (next h), (<[ next h := to_cell ([] : TagList) ]> h). split; [done|].
  simpl. rewrite lookup_insert_eq. simpl. by rewrite of_to_cell.
Qed.

End facts.

(** ** Witnesses: a heap with one application in it *)

Module witnesses.

Record Meta (P : Type -> Type) := {
  meta_Name : string;
  meta_Labels : P (gmap string string);
}.

(** Constraints are the text they were parsed from. *)
#[export] Instance simple_types : MetaTypes := {|
  ObjectMeta := Meta;
  ListMeta := fun _ => string;
  metav1_Condition := fun _ => string;
  Quantity := fun _ => Z;
  Constraints := fun _ => string;
  semver_Version := string;
|}.

Section third_party.
Context {C : Type} `{!Storable C (gmap string string)}.

#[local] Existing Instance some_map_order.

#[export] Instance snapshot_Meta : Snapshot C (Meta Ref) (Meta option).
Proof.
  refine {| snapshot h m := l ← snapshot h (meta_Labels _ m); Some {| meta_Name := meta_Name _ m; meta_Labels := l |} |}.
  mono_fields.
Defined.

Definition Meta_DeepCopyInto (m out : Meta Ref) : mem C (Meta Ref) :=
  labels ← copy_map (meta_Labels _ m);
  mret {| meta_Name := meta_Name _ m; meta_Labels := labels |}.

Lemma copies_Meta : copies Meta_DeepCopyInto.
Proof. copy_struct snapshot_Meta Meta_DeepCopyInto. Qed.

#[export] Instance simple_third_party : ThirdParty C.
Proof.
  refine {|
    zero_ObjectMeta := {| meta_Name := ""; meta_Labels := nil |} : Meta Ref;
    zero_ListMeta := ""; zero_Condition := ""; zero_Constraints := ""; zero_Version := "";
    ObjectMeta_copier := {| DeepCopyInto := Meta_DeepCopyInto; deep_copies := copies_Meta |};
    ListMeta_copier := {| copier_snapshot := snapshot_plain string; DeepCopyInto := assign; deep_copies := copies_assign |};
    Condition_copier := {| copier_snapshot := snapshot_plain string; DeepCopyInto := assign; deep_copies := copies_assign |};
    Quantity_snapshot := snapshot_plain Z;
    Quantity_DeepCopy := fun q => mret q;
    Constraints_snapshot := snapshot_plain string;
    MarshalText := fun c => mret (Ok c);
    UnmarshalText := fun _ t => mret (t, None) |}.
  - intros h m out v Hv. by apply adds_ret.
  - intros h c out v Hv. exists c. split; [done|]. by apply adds_ret.
Defined.

End third_party.

#[local] Existing Instance some_map_order.

Inductive cell :=
| CString (x : string)
| CBool (x : bool)
| CBytes (x : list Z)
| CTags (x : TagList)
| CLabels (x : gmap string string)
| CParameters (x : list unikorn.HelmApplicationParameter)
| CRecommendations (x : list unikorn.HelmApplicationRecommendation)
| CQuantity (x : Quantity Ref)
| CConstraints (x : unikorn.SemanticVersionConstraints Ref)
| CAddresses (x : list (unikorn.IPv4Address Ref))
| CReference (x : unikorn.ApplicationReference Ref)
| CDependencies (x : list (unikorn.HelmApplicationDependency Ref))
| CVersions (x : list (unikorn.HelmApplicationVersion Ref))
| CApplication (x : unikorn.HelmApplication Ref)
| CApplications (x : list (unikorn.HelmApplication Ref))
| CApplicationList (x : unikorn.HelmApplicationList Ref)
| CConditions (x : list (metav1_Condition Ref))
| CResources (x : list (fake.ManagedResource Ref)).

#[export] Instance store_String : Storable cell string :=
  {| to_cell := CString; of_cell x := match x with CString y => Some y | _ => None end; of_to_cell _ := eq_refl |}.
#[export] Instance store_Bool : Storable cell bool :=
  {| to_cell := CBool; of_cell x := match x with CBool y => Some y | _ => None end; of_to_cell _ := eq_refl |}.
#[export] Instance store_Bytes : Storable cell (list Z) :=
  {| to_cell := CBytes; of_cell x := match x with CBytes y => Some y | _ => None end; of_to_cell _ := eq_refl |}.
#[export] Instance store_Tags : Storable cell TagList :=
  {| to_cell := CTags; of_cell x := match x with CTags y => Some y | _ => None end; of_to_cell _ := eq_refl |}.
#[export] Instance store_Labels : Storable cell (gmap string string) :=
  {| to_cell := CLabels; of_cell x := match x with CLabels y => Some y | _ => None end; of_to_cell _ := eq_refl |}.
#[export] Instance store_Parameters : Storable cell (list unikorn.HelmApplicationParameter) :=
  {| to_cell := CParameters; of_cell x := match x with CParameters y => Some y | _ => None end; of_to_cell _ := eq_refl |}.
#[export] Instance store_Recommendations : Storable cell (list unikorn.HelmApplicationRecommendation) :=
  {| to_cell := CRecommendations; of_cell x := match x with CRecommendations y => Some y | _ => None end; of_to_cell _ := eq_refl |}.
#[export] Instance store_Constraints : Storable cell (unikorn.SemanticVersionConstraints Ref) :=
  {| to_cell := CConstraints; of_cell x := match x with CConstraints y => Some y | _ => None end; of_to_cell _ := eq_refl |}.
#[export] Instance store_Addresses : Storable cell (list (unikorn.IPv4Address Ref)) :=
  {| to_cell := CAddresses; of_cell x := match x with CAddresses y => Some y | _ => None end; of_to_cell _ := eq_refl |}.
#[export] Instance store_Quantity : Storable cell (Quantity Ref) :=
  {| to_cell := CQuantity; of_cell x := match x with CQuantity y => Some y | _ => None end; of_to_cell _ := eq_refl |}.
#[export] Instance store_Reference : Storable cell (unikorn.ApplicationReference Ref) :=
  {| to_cell := CReference; of_cell x := match x with CReference y => Some y | _ => None end; of_to_cell _ := eq_refl |}.
#[export] Instance store_Dependencies : Storable cell (list (unikorn.HelmApplicationDependency Ref)) :=
  {| to_cell := CDependencies; of_cell x := match x with CDependencies y => Some y | _ => None end; of_to_cell _ := eq_refl |}.
#[export] Instance store_Versions : Storable cell (list (unikorn.HelmApplicationVersion Ref)) :=
  {| to_cell := CVersions; of_cell x := match x with CVersions y => Some y | _ => None end; of_to_cell _ := eq_refl |}.
#[export] Instance store_Application : Storable cell (unikorn.HelmApplication Ref) :=
  {| to_cell := CApplication; of_cell x := match x with CApplication y => Some y | _ => None end; of_to_cell _ := eq_refl |}.
#[export] Instance store_Applications : Storable cell (list (unikorn.HelmApplication Ref)) :=
  {| to_cell := CApplications; of_cell x := match x with CApplications y => Some y | _ => None end; of_to_cell _ := eq_refl |}.
#[export] Instance store_ApplicationList : Storable cell (unikorn.HelmApplicationList Ref) :=
  {| to_cell := CApplicationList; of_cell x := match x with CApplicationList y => Some y | _ => None end; of_to_cell _ := eq_refl |}.
#[export] Instance store_Conditions : Storable cell (list (metav1_Condition Ref)) :=
  {| to_cell := CConditions; of_cell x := match x with CConditions y => Some y | _ => None end; of_to_cell _ := eq_refl |}.
#[export] Instance store_Resources : Storable cell (list (fake.ManagedResource Ref)) :=
  {| to_cell := CResources; of_cell x := match x with CResources y => Some y | _ => None end; of_to_cell _ := eq_refl |}.

(** A list of one application, with one version that depends on another. *)
Definition memory : heap cell :=
  list_to_map [
    (1%positive, CApplicationList {| unikorn.list_TypeMeta := {| Kind := "HelmApplicationList"; APIVersion := "v1alpha1" |};
       unikorn.list_ListMeta := "42"; unikorn.list_Items := Some 2%positive |});
    (2%positive, CApplications [{| unikorn.app_TypeMeta := {| Kind := "HelmApplication"; APIVersion := "v1alpha1" |};
       unikorn.app_ObjectMeta := {| meta_Name := "nginx"; meta_Labels := Some 3%positive |} : Meta Ref;
       unikorn.app_Spec := {| unikorn.Tags := nil; unikorn.Documentation := nil; unikorn.License := Some 4%positive;
         unikorn.Icon := Some 5%positive; unikorn.Versions := Some 6%positive |};
       unikorn.app_Status := unikorn.Build_HelmApplicationStatus |}]);
    (3%positive, CLabels {[ "app" := "nginx" ]});
    (4%positive, CString "Apache-2.0");
    (5%positive, CBytes [137; 80]%Z);
    (6%positive, CVersions [{| unikorn.Repo := Some 4%positive; unikorn.Chart := nil; unikorn.Branch := nil;
       unikorn.Path := nil; unikorn.app_Version := {| unikorn.Version := "1.2.3" |}; unikorn.Release := nil;
       unikorn.Parameters := nil; unikorn.Namespace := nil; unikorn.CreateNamespace := nil;
       unikorn.ServerSideApply := nil; unikorn.Dependencies := Some 7%positive; unikorn.Recommends := nil |}]);
    (7%positive, CDependencies [{| unikorn.dep_Name := "openssl"; unikorn.dep_Constraints := Some 8%positive |}]);
    (8%positive, CConstraints {| unikorn.Constraints_embedded := ">= 3.0" |})].

Definition application_value : unikorn.HelmApplication option :=
  {| unikorn.app_TypeMeta := {| Kind := "HelmApplication"; APIVersion := "v1alpha1" |};
     unikorn.app_ObjectMeta := {| meta_Name := "nginx"; meta_Labels := Some {[ "app" := "nginx" ]} |} : Meta option;
     unikorn.app_Spec := {| unikorn.Tags := None; unikorn.Documentation := None; unikorn.License := Some "Apache-2.0";
       unikorn.Icon := Some [137; 80]%Z;
       unikorn.Versions := Some [{| unikorn.Repo := Some "Apache-2.0"; unikorn.Chart := None; unikorn.Branch := None;
         unikorn.Path := None; unikorn.app_Version := {| unikorn.Version := "1.2.3" |}; unikorn.Release := None;
         unikorn.Parameters := None; unikorn.Namespace := None; unikorn.CreateNamespace := None;
         unikorn.ServerSideApply := None;
         unikorn.Dependencies := Some [{| unikorn.dep_Name := "openssl";
           unikorn.dep_Constraints := Some {| unikorn.Constraints_embedded := ">= 3.0" |} |}];
         unikorn.Recommends := None |}] |};
     unikorn.app_Status := unikorn.Build_HelmApplicationStatus |}.

Definition list_value : unikorn.HelmApplicationList option :=
  {| unikorn.list_TypeMeta := {| Kind := "HelmApplicationList"; APIVersion := "v1alpha1" |};
     unikorn.list_ListMeta := "42"; unikorn.list_Items := Some [application_value] |}.

Definition list_at (l : loc) : Ref (unikorn.HelmApplicationList Ref) := Some l.

Example memory_reads : snapshot memory (list_at 1) = Some (Some list_value).
Proof. vm_compute. reflexivity. Qed.

(** The copy survives the loss of every cell there was. *)
Lemma helm_application_isolated_witness :
  exists q h', copies.HelmApplicationList_DeepCopyObject (list_at 1) memory = Some (Some (list_at q), h') /\
    snapshot h' (list_at q) = Some (Some list_value) /\
    snapshot (h' ∖ memory) (list_at q) = Some (Some list_value).
Proof.
  destruct (proj2 (helm_application_isolated memory 1) list_value memory_reads) as (q & h' & Hq & _ & Hv & Hi & _).
  exists q, h'. split_and!; [exact Hq|exact Hv|]. apply Hi. intros l Hl.
  rewrite lookup_difference, Hl. reflexivity.
Defined.

(** The same by running it: the string that two fields share is copied twice. *)
Example copy_runs :
  match copies.HelmApplicationList_DeepCopyObject (list_at 1) memory with
  | Some (Some q, h') => size h' = 17 /\ snapshot (h' ∖ memory) q = Some (Some list_value)
  | _ => False
  end.
Proof. vm_compute. split; reflexivity. Qed.

End witnesses.
