(* ===== verification/DeepCopyArgo.v ===== *)
(** * DeepCopyArgo: the deep copies of the Argo CD types

    Models the types of pkg/apis/argoproj/v1alpha1/types.go as they lie in
    memory, and the deep-copy methods generated for them, as DeepCopy does for
    the API's own types. *)

From S2P Require Import Prelude Memory DeepCopy.

Module argoproj.

Record HelmParameter := { param_Name : string; param_Value : string }.

Record ApplicationDestination := { dest_Name : string; dest_Namespace : string }.

Record ApplicationSyncAutomation := { SelfHeal : bool; Prune : bool }.

Record ApplicationHealth := { health_Status : string }.

Record ApplicationSync := { sync_Status : string }.

Section types.
Context `{MetaTypes} (P : Type -> Type).

Record ApplicationSourceHelm := {
  ReleaseName : string;
  Values : string;
  Parameters : P (list HelmParameter);
}.

Record ApplicationSource := {
  RepoURL : string;
  Chart : string;
  Path : string;
  TargetRevision : string;
  Helm : P ApplicationSourceHelm;
}.

Record NamespaceMetadata := {
  Labels : P (gmap string string);
  Annotations : P (gmap string string);
}.

Record ApplicationSyncPolicy := {
  SyncOptions : P (list string);
  Automated : P ApplicationSyncAutomation;
  ManagedNamespaceMetadata : P NamespaceMetadata;
}.

Record ApplicationIgnoreDifference := {
  Group : string;
  diff_Kind : string;
  JSONPointers : P (list string);
}.

Record ApplicationSpec := {
  Project : string;
  Source : ApplicationSource;
  Destination : ApplicationDestination;
  SyncPolicy : ApplicationSyncPolicy;
  IgnoreDifferences : P (list ApplicationIgnoreDifference);
}.

Record ApplicationStatus := {
  Health : P ApplicationHealth;
  Sync : P ApplicationSync;
}.

Record Application := {
  app_TypeMeta : TypeMeta;
  app_ObjectMeta : ObjectMeta P;
  Spec : ApplicationSpec;
  Status : ApplicationStatus;
}.

Record ApplicationList := {
  list_TypeMeta : TypeMeta;
  list_ListMeta : ListMeta P;
  Items : P (list Application);
}.

End types.
End argoproj.

(** *** Reading the structs *)

Section snapshots.
Context {C : Type} `{ThirdParty C} `{!Storable C (list string)} `{!Storable C (gmap string string)}
  `{!Storable C (list argoproj.HelmParameter)} `{!Storable C argoproj.ApplicationSyncAutomation}
  `{!Storable C argoproj.ApplicationHealth} `{!Storable C argoproj.ApplicationSync}
  `{!Storable C (argoproj.ApplicationSourceHelm Ref)} `{!Storable C (argoproj.NamespaceMetadata Ref)}
  `{!Storable C (list (argoproj.ApplicationIgnoreDifference Ref))} `{!Storable C (list (argoproj.Application Ref))}.

#[export] Instance snapshot_HelmParameter : Snapshot C argoproj.HelmParameter argoproj.HelmParameter := snapshot_plain _.
#[export] Instance snapshot_ApplicationDestination : Snapshot C argoproj.ApplicationDestination argoproj.ApplicationDestination := snapshot_plain _.
#[export] Instance snapshot_ApplicationSyncAutomation : Snapshot C argoproj.ApplicationSyncAutomation argoproj.ApplicationSyncAutomation := snapshot_plain _.
#[export] Instance snapshot_ApplicationHealth : Snapshot C argoproj.ApplicationHealth argoproj.ApplicationHealth := snapshot_plain _.
#[export] Instance snapshot_ApplicationSync : Snapshot C argoproj.ApplicationSync argoproj.ApplicationSync := snapshot_plain _.

#[export] Instance snapshot_ApplicationSourceHelm : Snapshot C (argoproj.ApplicationSourceHelm Ref) (argoproj.ApplicationSourceHelm option).
Proof.
  refine {| snapshot h m :=
    x2 ← snapshot h (argoproj.Parameters _ m);
    Some {| argoproj.ReleaseName := argoproj.ReleaseName _ m; argoproj.Values := argoproj.Values _ m;
       argoproj.Parameters := x2 |} |}.
  mono_fields.
Defined.

#[export] Instance snapshot_ApplicationSource : Snapshot C (argoproj.ApplicationSource Ref) (argoproj.ApplicationSource option).
Proof.
  refine {| snapshot h m :=
    x4 ← snapshot h (argoproj.Helm _ m);
    Some {| argoproj.RepoURL := argoproj.RepoURL _ m; argoproj.Chart := argoproj.Chart _ m;
       argoproj.Path := argoproj.Path _ m; argoproj.TargetRevision := argoproj.TargetRevision _ m;
       argoproj.Helm := x4 |} |}.
  mono_fields.
Defined.

#[export] Instance snapshot_NamespaceMetadata : Snapshot C (argoproj.NamespaceMetadata Ref) (argoproj.NamespaceMetadata option).
Proof.
  refine {| snapshot h m :=
    x0 ← snapshot h (argoproj.Labels _ m); x1 ← snapshot h (argoproj.Annotations _ m);
    Some {| argoproj.Labels := x0; argoproj.Annotations := x1 |} |}.
  mono_fields.
Defined.

#[export] Instance snapshot_ApplicationSyncPolicy : Snapshot C (argoproj.ApplicationSyncPolicy Ref) (argoproj.ApplicationSyncPolicy option).
Proof.
  refine {| snapshot h m :=
    x0 ← snapshot h (argoproj.SyncOptions _ m); x1 ← snapshot h (argoproj.Automated _ m);
    x2 ← snapshot h (argoproj.ManagedNamespaceMetadata _ m);
    Some {| argoproj.SyncOptions := x0; argoproj.Automated := x1; argoproj.ManagedNamespaceMetadata := x2 |} |}.
  mono_fields.
Defined.

#[export] Instance snapshot_ApplicationIgnoreDifference : Snapshot C (argoproj.ApplicationIgnoreDifference Ref) (argoproj.ApplicationIgnoreDifference option).
Proof.
  refine {| snapshot h m :=
    x2 ← snapshot h (argoproj.JSONPointers _ m);
    Some {| argoproj.Group := argoproj.Group _ m; argoproj.diff_Kind := argoproj.diff_Kind _ m;
       argoproj.JSONPointers := x2 |} |}.
  mono_fields.
Defined.

#[export] Instance snapshot_ApplicationSpec : Snapshot C (argoproj.ApplicationSpec Ref) (argoproj.ApplicationSpec option).
Proof.
  refine {| snapshot h m :=
    x1 ← snapshot h (argoproj.Source _ m); x3 ← snapshot h (argoproj.SyncPolicy _ m);
    x4 ← snapshot h (argoproj.IgnoreDifferences _ m);
    Some {| argoproj.Project := argoproj.Project _ m; argoproj.Source := x1;
       argoproj.Destination := argoproj.Destination _ m; argoproj.SyncPolicy := x3;
       argoproj.IgnoreDifferences := x4 |} |}.
  mono_fields.
Defined.

#[export] Instance snapshot_ApplicationStatus : Snapshot C (argoproj.ApplicationStatus Ref) (argoproj.ApplicationStatus option).
Proof.
  refine {| snapshot h m :=
    x0 ← snapshot h (argoproj.Health _ m); x1 ← snapshot h (argoproj.Sync _ m);
    Some {| argoproj.Health := x0; argoproj.Sync := x1 |} |}.
  mono_fields.
Defined.

#[export] Instance snapshot_Application : Snapshot C (argoproj.Application Ref) (argoproj.Application option).
Proof.
  refine {| snapshot h m :=
    x1 ← snapshot h (argoproj.app_ObjectMeta _ m); x2 ← snapshot h (argoproj.Spec _ m);
    x3 ← snapshot h (argoproj.Status _ m);
    Some {| argoproj.app_TypeMeta := argoproj.app_TypeMeta _ m; argoproj.app_ObjectMeta := x1; argoproj.Spec := x2;
       argoproj.Status := x3 |} |}.
  mono_fields.
Defined.

#[export] Instance snapshot_ApplicationList : Snapshot C (argoproj.ApplicationList Ref) (argoproj.ApplicationList option).
Proof.
  refine {| snapshot h m :=
    x1 ← snapshot h (argoproj.list_ListMeta _ m); x2 ← snapshot h (argoproj.Items _ m);
    Some {| argoproj.list_TypeMeta := argoproj.list_TypeMeta _ m; argoproj.list_ListMeta := x1; argoproj.Items := x2 |} |}.
  mono_fields.
Defined.

End snapshots.

(** *** The copies, as the code makes them *)

Module copies.
Section copies.
Context {C : Type} `{ThirdParty C} `{!Storable C (list string)} `{!Storable C (gmap string string)}
  `{!Storable C (list argoproj.HelmParameter)} `{!Storable C argoproj.ApplicationSyncAutomation}
  `{!Storable C argoproj.ApplicationHealth} `{!Storable C argoproj.ApplicationSync}
  `{!Storable C (argoproj.ApplicationSourceHelm Ref)} `{!Storable C (argoproj.NamespaceMetadata Ref)}
  `{!Storable C (list (argoproj.ApplicationIgnoreDifference Ref))} `{!Storable C (list (argoproj.Application Ref))} `{MapOrder}.
Import argoproj.

Definition HelmParameter_DeepCopyInto (m out : HelmParameter) : mem C HelmParameter := assign m out.

Definition zero_HelmParameter : HelmParameter := {| param_Name := ""; param_Value := "" |}.

Definition HelmParameter_DeepCopy `{!Storable C HelmParameter} : Ref HelmParameter -> mem C (Ref HelmParameter) := deep_copy zero_HelmParameter HelmParameter_DeepCopyInto.

Definition ApplicationDestination_DeepCopyInto (m out : ApplicationDestination) : mem C ApplicationDestination := assign m out.

Definition zero_ApplicationDestination : ApplicationDestination := {| dest_Name := ""; dest_Namespace := "" |}.

Definition ApplicationDestination_DeepCopy `{!Storable C ApplicationDestination} : Ref ApplicationDestination -> mem C (Ref ApplicationDestination) := deep_copy zero_ApplicationDestination ApplicationDestination_DeepCopyInto.

Definition ApplicationSyncAutomation_DeepCopyInto (m out : ApplicationSyncAutomation) : mem C ApplicationSyncAutomation := assign m out.

Definition zero_ApplicationSyncAutomation : ApplicationSyncAutomation := {| SelfHeal := false; Prune := false |}.

Definition ApplicationSyncAutomation_DeepCopy `{!Storable C ApplicationSyncAutomation} : Ref ApplicationSyncAutomation -> mem C (Ref ApplicationSyncAutomation) := deep_copy zero_ApplicationSyncAutomation ApplicationSyncAutomation_DeepCopyInto.

Definition ApplicationHealth_DeepCopyInto (m out : ApplicationHealth) : mem C ApplicationHealth := assign m out.

Definition zero_ApplicationHealth : ApplicationHealth := {| health_Status := "" |}.

Definition ApplicationHealth_DeepCopy `{!Storable C ApplicationHealth} : Ref ApplicationHealth -> mem C (Ref ApplicationHealth) := deep_copy zero_ApplicationHealth ApplicationHealth_DeepCopyInto.

Definition ApplicationSync_DeepCopyInto (m out : ApplicationSync) : mem C ApplicationSync := assign m out.

Definition zero_ApplicationSync : ApplicationSync := {| sync_Status := "" |}.

Definition ApplicationSync_DeepCopy `{!Storable C ApplicationSync} : Ref ApplicationSync -> mem C (Ref ApplicationSync) := deep_copy zero_ApplicationSync ApplicationSync_DeepCopyInto.

Definition ApplicationSourceHelm_DeepCopyInto (m out : ApplicationSourceHelm Ref) : mem C (ApplicationSourceHelm Ref) :=
  parameters ← copy_values zero_HelmParameter (Parameters _ m);
  mret {| ReleaseName := ReleaseName _ m; Values := Values _ m; Parameters := parameters |}.

Definition zero_ApplicationSourceHelm : ApplicationSourceHelm Ref :=
  {| ReleaseName := ""; Values := ""; Parameters := nil |}.

Definition ApplicationSourceHelm_DeepCopy : Ref (ApplicationSourceHelm Ref) -> mem C (Ref (ApplicationSourceHelm Ref)) :=
  deep_copy zero_ApplicationSourceHelm ApplicationSourceHelm_DeepCopyInto.

Definition ApplicationSource_DeepCopyInto (m out : ApplicationSource Ref) : mem C (ApplicationSource Ref) :=
  helm ← copy_ref (fun _ => zero_ApplicationSourceHelm) ApplicationSourceHelm_DeepCopyInto (Helm _ m);
  mret {| RepoURL := RepoURL _ m; Chart := Chart _ m; Path := Path _ m; TargetRevision := TargetRevision _ m;
          Helm := helm |}.

Definition zero_ApplicationSource : ApplicationSource Ref :=
  {| RepoURL := ""; Chart := ""; Path := ""; TargetRevision := ""; Helm := nil |}.

Definition ApplicationSource_DeepCopy `{!Storable C (ApplicationSource Ref)} : Ref (ApplicationSource Ref) -> mem C (Ref (ApplicationSource Ref)) :=
  deep_copy zero_ApplicationSource ApplicationSource_DeepCopyInto.

Definition NamespaceMetadata_DeepCopyInto (m out : NamespaceMetadata Ref) : mem C (NamespaceMetadata Ref) :=
  labels ← copy_map (Labels _ m);
  annotations ← copy_map (Annotations _ m);
  mret {| Labels := labels; Annotations := annotations |}.

Definition zero_NamespaceMetadata : NamespaceMetadata Ref :=
  {| Labels := nil; Annotations := nil |}.

Definition NamespaceMetadata_DeepCopy : Ref (NamespaceMetadata Ref) -> mem C (Ref (NamespaceMetadata Ref)) :=
  deep_copy zero_NamespaceMetadata NamespaceMetadata_DeepCopyInto.

Definition ApplicationSyncPolicy_DeepCopyInto (m out : ApplicationSyncPolicy Ref) : mem C (ApplicationSyncPolicy Ref) :=
  options ← copy_values "" (SyncOptions _ m);
  automated ← copy_new zero_ApplicationSyncAutomation (Automated _ m);
  metadata ← copy_ref (fun _ => zero_NamespaceMetadata) NamespaceMetadata_DeepCopyInto (ManagedNamespaceMetadata _ m);
  mret {| SyncOptions := options; Automated := automated; ManagedNamespaceMetadata := metadata |}.

Definition zero_ApplicationSyncPolicy : ApplicationSyncPolicy Ref :=
  {| SyncOptions := nil; Automated := nil; ManagedNamespaceMetadata := nil |}.

Definition ApplicationSyncPolicy_DeepCopy `{!Storable C (ApplicationSyncPolicy Ref)} : Ref (ApplicationSyncPolicy Ref) -> mem C (Ref (ApplicationSyncPolicy Ref)) :=
  deep_copy zero_ApplicationSyncPolicy ApplicationSyncPolicy_DeepCopyInto.

Definition ApplicationIgnoreDifference_DeepCopyInto (m out : ApplicationIgnoreDifference Ref) : mem C (ApplicationIgnoreDifference Ref) :=
  pointers ← copy_values "" (JSONPointers _ m);
  mret {| Group := Group _ m; diff_Kind := diff_Kind _ m; JSONPointers := pointers |}.

Definition zero_ApplicationIgnoreDifference : ApplicationIgnoreDifference Ref :=
  {| Group := ""; diff_Kind := ""; JSONPointers := nil |}.

Definition ApplicationIgnoreDifference_DeepCopy `{!Storable C (ApplicationIgnoreDifference Ref)} : Ref (ApplicationIgnoreDifference Ref) -> mem C (Ref (ApplicationIgnoreDifference Ref)) :=
  deep_copy zero_ApplicationIgnoreDifference ApplicationIgnoreDifference_DeepCopyInto.

Definition ApplicationSpec_DeepCopyInto (m out : ApplicationSpec Ref) : mem C (ApplicationSpec Ref) :=
  source ← ApplicationSource_DeepCopyInto (Source _ m) (Source _ m);
  policy ← ApplicationSyncPolicy_DeepCopyInto (SyncPolicy _ m) (SyncPolicy _ m);
  differences ← copy_slice zero_ApplicationIgnoreDifference ApplicationIgnoreDifference_DeepCopyInto (IgnoreDifferences _ m);
  mret {| Project := Project _ m; Source := source; Destination := Destination _ m; SyncPolicy := policy;
          IgnoreDifferences := differences |}.

Definition zero_ApplicationSpec : ApplicationSpec Ref :=
  {| Project := ""; Source := zero_ApplicationSource; Destination := zero_ApplicationDestination;
     SyncPolicy := zero_ApplicationSyncPolicy; IgnoreDifferences := nil |}.

Definition ApplicationSpec_DeepCopy `{!Storable C (ApplicationSpec Ref)} : Ref (ApplicationSpec Ref) -> mem C (Ref (ApplicationSpec Ref)) :=
  deep_copy zero_ApplicationSpec ApplicationSpec_DeepCopyInto.

Definition ApplicationStatus_DeepCopyInto (m out : ApplicationStatus Ref) : mem C (ApplicationStatus Ref) :=
  health ← copy_new zero_ApplicationHealth (Health _ m);
  sync ← copy_new zero_ApplicationSync (Sync _ m);
  mret {| Health := health; Sync := sync |}.

Definition zero_ApplicationStatus : ApplicationStatus Ref :=
  {| Health := nil; Sync := nil |}.

Definition ApplicationStatus_DeepCopy `{!Storable C (ApplicationStatus Ref)} : Ref (ApplicationStatus Ref) -> mem C (Ref (ApplicationStatus Ref)) :=
  deep_copy zero_ApplicationStatus ApplicationStatus_DeepCopyInto.

Definition Application_DeepCopyInto (m out : Application Ref) : mem C (Application Ref) :=
  meta ← DeepCopyInto (app_ObjectMeta _ m) (app_ObjectMeta _ m);
  spec ← ApplicationSpec_DeepCopyInto (Spec _ m) (Spec _ m);
  status ← ApplicationStatus_DeepCopyInto (Status _ m) (Status _ m);
  mret {| app_TypeMeta := app_TypeMeta _ m; app_ObjectMeta := meta; Spec := spec; Status := status |}.

Definition zero_Application : Application Ref :=
  {| app_TypeMeta := copies.zero_TypeMeta; app_ObjectMeta := zero_ObjectMeta; Spec := zero_ApplicationSpec;
     Status := zero_ApplicationStatus |}.

Definition Application_DeepCopy `{!Storable C (Application Ref)} : Ref (Application Ref) -> mem C (Ref (Application Ref)) :=
  deep_copy zero_Application Application_DeepCopyInto.

Definition ApplicationList_DeepCopyInto (m out : ApplicationList Ref) : mem C (ApplicationList Ref) :=
  meta ← DeepCopyInto (list_ListMeta _ m) (list_ListMeta _ m);
  items ← copy_slice zero_Application Application_DeepCopyInto (Items _ m);
  mret {| list_TypeMeta := list_TypeMeta _ m; list_ListMeta := meta; Items := items |}.

Definition zero_ApplicationList : ApplicationList Ref :=
  {| list_TypeMeta := copies.zero_TypeMeta; list_ListMeta := zero_ListMeta; Items := nil |}.

Definition ApplicationList_DeepCopy `{!Storable C (ApplicationList Ref)} : Ref (ApplicationList Ref) -> mem C (Ref (ApplicationList Ref)) :=
  deep_copy zero_ApplicationList ApplicationList_DeepCopyInto.

Definition Application_DeepCopyObject `{!Storable C (Application Ref)} := copies.DeepCopyObject Application_DeepCopy.

Definition ApplicationList_DeepCopyObject `{!Storable C (ApplicationList Ref)} := copies.DeepCopyObject ApplicationList_DeepCopy.

End copies.
End copies.

(** ** The copies are deep *)

Section facts.
Context {C : Type} `{ThirdParty C} `{!Storable C (list string)} `{!Storable C (gmap string string)}
  `{!Storable C (list argoproj.HelmParameter)} `{!Storable C argoproj.ApplicationSyncAutomation}
  `{!Storable C argoproj.ApplicationHealth} `{!Storable C argoproj.ApplicationSync}
  `{!Storable C (argoproj.ApplicationSourceHelm Ref)} `{!Storable C (argoproj.NamespaceMetadata Ref)}
  `{!Storable C (list (argoproj.ApplicationIgnoreDifference Ref))} `{!Storable C (list (argoproj.Application Ref))} `{MapOrder}.
Import copies.

Lemma copies_ApplicationSourceHelm : copies ApplicationSourceHelm_DeepCopyInto.
Proof. copy_struct snapshot_ApplicationSourceHelm ApplicationSourceHelm_DeepCopyInto. Qed.

#[local] Hint Resolve copies_ApplicationSourceHelm : copies.

Lemma copies_ApplicationSource : copies ApplicationSource_DeepCopyInto.
Proof. copy_struct snapshot_ApplicationSource ApplicationSource_DeepCopyInto. Qed.

#[local] Hint Resolve copies_ApplicationSource : copies.

Lemma copies_NamespaceMetadata : copies NamespaceMetadata_DeepCopyInto.
Proof. copy_struct snapshot_NamespaceMetadata NamespaceMetadata_DeepCopyInto. Qed.

#[local] Hint Resolve copies_NamespaceMetadata : copies.

Lemma copies_ApplicationSyncPolicy : copies ApplicationSyncPolicy_DeepCopyInto.
Proof. copy_struct snapshot_ApplicationSyncPolicy ApplicationSyncPolicy_DeepCopyInto. Qed.

#[local] Hint Resolve copies_ApplicationSyncPolicy : copies.

Lemma copies_ApplicationIgnoreDifference : copies ApplicationIgnoreDifference_DeepCopyInto.
Proof. copy_struct snapshot_ApplicationIgnoreDifference ApplicationIgnoreDifference_DeepCopyInto. Qed.

#[local] Hint Resolve copies_ApplicationIgnoreDifference : copies.

Lemma copies_ApplicationSpec : copies ApplicationSpec_DeepCopyInto.
Proof. copy_struct snapshot_ApplicationSpec ApplicationSpec_DeepCopyInto. Qed.

#[local] Hint Resolve copies_ApplicationSpec : copies.

Lemma copies_ApplicationStatus : copies ApplicationStatus_DeepCopyInto.
Proof. copy_struct snapshot_ApplicationStatus ApplicationStatus_DeepCopyInto. Qed.

#[local] Hint Resolve copies_ApplicationStatus : copies.

Lemma copies_Application : copies Application_DeepCopyInto.
Proof. copy_struct snapshot_Application Application_DeepCopyInto. Qed.

#[local] Hint Resolve copies_Application : copies.

Lemma copies_ApplicationList : copies ApplicationList_DeepCopyInto.
Proof. copy_struct snapshot_ApplicationList ApplicationList_DeepCopyInto. Qed.

#[local] Hint Resolve copies_ApplicationList : copies.

(** An Argo CD application, or a list of them, shares nothing with its copy: the
    object the driver patches is not the one it read. *)
Theorem argo_application_isolated `{!Storable C (argoproj.Application Ref)} `{!Storable C (argoproj.ApplicationList Ref)} h l :
  (forall v, snapshot h (Some l : Ref (argoproj.Application Ref)) = Some (Some v) ->
    exists q h', Application_DeepCopyObject (Some l) h = Some (Some (Some q), h') /\
      independent h h' (Some l) (Some q : Ref (argoproj.Application Ref)) (Some v)) /\
  (forall v, snapshot h (Some l : Ref (argoproj.ApplicationList Ref)) = Some (Some v) ->
    exists q h', ApplicationList_DeepCopyObject (Some l) h = Some (Some (Some q), h') /\
      independent h h' (Some l) (Some q : Ref (argoproj.ApplicationList Ref)) (Some v)).
Proof.
  split; intros v Hv; apply object_independent; auto with copies.
Qed.

End facts.

(** ** Witnesses *)

Module witnesses.
Import DeepCopy.witnesses.

#[local] Existing Instance some_map_order.

Inductive cell :=
| CStrings (x : list string)
| CMap (x : gmap string string)
| CParameters (x : list argoproj.HelmParameter)
| CAutomation (x : argoproj.ApplicationSyncAutomation)
| CHealth (x : argoproj.ApplicationHealth)
| CSync (x : argoproj.ApplicationSync)
| CHelm (x : argoproj.ApplicationSourceHelm Ref)
| CMetadata (x : argoproj.NamespaceMetadata Ref)
| CDifferences (x : list (argoproj.ApplicationIgnoreDifference Ref))
| CApplication (x : argoproj.Application Ref)
| CApplications (x : list (argoproj.Application Ref))
| CApplicationList (x : argoproj.ApplicationList Ref).

#[export] Instance store_Strings : Storable cell (list string) :=
  {| to_cell := CStrings; of_cell x := match x with CStrings y => Some y | _ => None end; of_to_cell _ := eq_refl |}.
#[export] Instance store_Map : Storable cell (gmap string string) :=
  {| to_cell := CMap; of_cell x := match x with CMap y => Some y | _ => None end; of_to_cell _ := eq_refl |}.
#[export] Instance store_Parameters : Storable cell (list argoproj.HelmParameter) :=
  {| to_cell := CParameters; of_cell x := match x with CParameters y => Some y | _ => None end; of_to_cell _ := eq_refl |}.
#[export] Instance store_Automation : Storable cell argoproj.ApplicationSyncAutomation :=
  {| to_cell := CAutomation; of_cell x := match x with CAutomation y => Some y | _ => None end; of_to_cell _ := eq_refl |}.
#[export] Instance store_Health : Storable cell argoproj.ApplicationHealth :=
  {| to_cell := CHealth; of_cell x := match x with CHealth y => Some y | _ => None end; of_to_cell _ := eq_refl |}.
#[export] Instance store_Sync : Storable cell argoproj.ApplicationSync :=
  {| to_cell := CSync; of_cell x := match x with CSync y => Some y | _ => None end; of_to_cell _ := eq_refl |}.
#[export] Instance store_Helm : Storable cell (argoproj.ApplicationSourceHelm Ref) :=
  {| to_cell := CHelm; of_cell x := match x with CHelm y => Some y | _ => None end; of_to_cell _ := eq_refl |}.
#[export] Instance store_Metadata : Storable cell (argoproj.NamespaceMetadata Ref) :=
  {| to_cell := CMetadata; of_cell x := match x with CMetadata y => Some y | _ => None end; of_to_cell _ := eq_refl |}.
#[export] Instance store_Differences : Storable cell (list (argoproj.ApplicationIgnoreDifference Ref)) :=
  {| to_cell := CDifferences; of_cell x := match x with CDifferences y => Some y | _ => None end; of_to_cell _ := eq_refl |}.
#[export] Instance store_Application : Storable cell (argoproj.Application Ref) :=
  {| to_cell := CApplication; of_cell x := match x with CApplication y => Some y | _ => None end; of_to_cell _ := eq_refl |}.
#[export] Instance store_Applications : Storable cell (list (argoproj.Application Ref)) :=
  {| to_cell := CApplications; of_cell x := match x with CApplications y => Some y | _ => None end; of_to_cell _ := eq_refl |}.
#[export] Instance store_ApplicationList : Storable cell (argoproj.ApplicationList Ref) :=
  {| to_cell := CApplicationList; of_cell x := match x with CApplicationList y => Some y | _ => None end; of_to_cell _ := eq_refl |}.

(** A synced application. *)
Definition memory : heap cell :=
  list_to_map [
    (1%positive, CApplication {| argoproj.app_TypeMeta := {| Kind := "Application"; APIVersion := "v1alpha1" |};
       argoproj.app_ObjectMeta := {| meta_Name := "nginx"; meta_Labels := Some 2%positive |} : Meta Ref;
       argoproj.Spec := {| argoproj.Project := "default";
         argoproj.Source := {| argoproj.RepoURL := "https://charts.example.com"; argoproj.Chart := "nginx";
           argoproj.Path := ""; argoproj.TargetRevision := "1.2.3"; argoproj.Helm := Some 3%positive |};
         argoproj.Destination := {| argoproj.dest_Name := "in-cluster"; argoproj.dest_Namespace := "default" |};
         argoproj.SyncPolicy := {| argoproj.SyncOptions := nil; argoproj.Automated := Some 5%positive;
           argoproj.ManagedNamespaceMetadata := nil |};
         argoproj.IgnoreDifferences := nil |};
       argoproj.Status := {| argoproj.Health := nil; argoproj.Sync := Some 6%positive |} |});
    (2%positive, CMap {[ "app" := "nginx" ]});
    (3%positive, CHelm {| argoproj.ReleaseName := ""; argoproj.Values := ""; argoproj.Parameters := Some 4%positive |});
    (4%positive, CParameters [{| argoproj.param_Name := "replicas"; argoproj.param_Value := "2" |}]);
    (5%positive, CAutomation {| argoproj.SelfHeal := true; argoproj.Prune := true |});
    (6%positive, CSync {| argoproj.sync_Status := "Synced" |})].

Definition application_at (l : loc) : Ref (argoproj.Application Ref) := Some l.

(** Turning self-healing off in the copy leaves the original alone. *)
Lemma argo_application_isolated_witness :
  exists v q h', copies.Application_DeepCopyObject (application_at 1) memory = Some (Some (application_at q), h') /\
    snapshot memory (application_at 1) = Some (Some v) /\
    forall l c, memory !! l = None -> snapshot (<[ l := c ]> h') (application_at 1) = Some (Some v).
Proof.
  destruct (snapshot memory (application_at 1)) as [[v|]|] eqn:Hv; [|by vm_compute in Hv..].
  destruct (proj1 (argo_application_isolated memory 1) v Hv) as (q & h' & Hq & _ & _ & _ & Hi).
  exists v, q, h'. split_and!; [exact Hq|reflexivity|]. intros l c Hl. apply Hi. intros l' Hl'.
  rewrite lookup_insert_ne; [done|]. intros ->. rewrite Hl in Hl'. by destruct Hl'.
Defined.

End witnesses.
