(* ===== verification/Labels.v ===== *)
(** * Labels: the vocabulary of labels and annotations

    Models pkg/constants/constants.go, with what Conditions already has of it:
    the keys resources are labelled and annotated with, the values of the kind
    label and the priorities of labels.  The keys must be what the Kubernetes
    API accepts, which is stated here as its documentation has it. *)

From S2P Require Import Prelude GoStrings Kubernetes Conditions.
From Stdlib Require Import Ascii.

Module labels.
Export Conditions.constants.

Definition DeveloperVersion : string := "0.0.0".

Definition PrincipalPrefix : string := "principal.".

Definition CreatorPrincipalAnnotation : string := PrincipalPrefix +:+ CreatorAnnotation.

Definition ModifierPrincipalAnnotation : string := PrincipalPrefix +:+ ModifierAnnotation.

Definition KindLabel : string := "unikorn-cloud.org/kind".

Definition KindLabelValueOrganization : string := "organization".
Definition KindLabelValueProject : string := "project".
Definition KindLabelValueClusterManager : string := "clustermanager".
Definition KindLabelValueKubernetesCluster : string := "kubernetescluster".
Definition KindLabelValueVirtualKubernetesCluster : string := "virtualkubernetescluster".
Definition KindLabelValueComputeCluster : string := "baremetalcluster".
Definition KindLabelValueApplicationSet : string := "applicationset".

Definition OrganizationPrincipalLabel : string := PrincipalPrefix +:+ OrganizationLabel.

Definition ProjectPrincipalLabel : string := PrincipalPrefix +:+ ProjectLabel.

Definition UserLabel : string := "unikorn-cloud.org/user".
Definition KubernetesClusterLabel : string := "unikorn-cloud.org/kubernetescluster".
Definition ComputeClusterLabel : string := "unikorn-cloud.org/computecluster".
Definition ApplicationSetLabel : string := "unikorn-cloud.org/applicationset".
Definition NetworkLabel : string := "unikorn-cloud.org/network-id".
Definition ConfigurationHashAnnotation : string := "unikorn-cloud.org/config-hash".
Definition IdentityAnnotation : string := "unikorn-cloud.org/identity-id".
Definition PhysicalNetworkAnnotation : string := "unikorn-cloud.org/physical-network-id".
Definition AllocationAnnotation : string := "unikorn-cloud.org/allocation-id".
Definition ReferencedResourceKindLabel : string := "unikorn-cloud.org/resource-kind".
Definition ReferencedResourceIDLabel : string := "unikorn-cloud.org/resource-id".
Definition UndefinedName : string := "undefined".

Definition LabelPriorities : list string := [KubernetesClusterLabel; ProjectLabel; OrganizationLabel].

End labels.

Import labels.

(** ** What Kubernetes accepts *)

Definition is_lower_alnum (c : ascii) : bool :=
  let n := N_of_ascii c in ((97 <=? n) && (n <=? 122) || (48 <=? n) && (n <=? 57))%N.

Definition is_alnum (c : ascii) : bool :=
  let n := N_of_ascii c in is_lower_alnum c || ((65 <=? n) && (n <=? 90))%N.

(** Begins and ends with [edge], has [inner] in between. *)
Definition framed (edge inner : ascii -> bool) (s : list ascii) : bool :=
  match s with
  | [] => false
  | c :: _ => edge c && edge (List.last s c) && forallb (fun c => edge c || inner c) s
  end.

(** The parts of a string around every [sep]. *)
Fixpoint parts (sep : ascii) (s : list ascii) : list (list ascii) :=
  match s with
  | [] => [[]]
  | c :: s' =>
    if Ascii.eqb c sep then [] :: parts sep s'
    else match parts sep s' with [] => [[c]] | p :: ps => (c :: p) :: ps end
  end.

(** The name of a key, and a value that is not empty: at most 63 characters,
    alphanumeric at both ends, with dashes, underscores and dots between. *)
Definition valid_name (s : list ascii) : bool :=
  Nat.leb (length s) 63 && framed is_alnum (fun c => existsb (Ascii.eqb c) ["-"; "_"; "."]%char) s.

(** The prefix of a key: a DNS subdomain. *)
Definition valid_subdomain (s : list ascii) : bool :=
  Nat.leb (length s) 253 && forallb (framed is_lower_alnum (Ascii.eqb "-"%char)) (parts "."%char s).

(** "Valid label keys have two segments: an optional prefix and name,
    separated by a slash (/)." *)
Definition qualified_name (key : string) : bool :=
  match parts "/"%char (String.list_ascii_of_string key) with
  | [name] => valid_name name
  | [prefix; name] => valid_subdomain prefix && valid_name name
  | _ => false
  end.

(** "Valid label value: must be 63 characters or less (can be empty)..." *)
Definition valid_value (value : string) : bool :=
  let s := String.list_ascii_of_string value in
  bool_decide (s = []) || valid_name s.

(** ** The vocabulary *)

Definition label_keys : list string :=
  [NameLabel; KindLabel; OrganizationLabel; OrganizationPrincipalLabel; ProjectLabel; ProjectPrincipalLabel; UserLabel;
   KubernetesClusterLabel; ComputeClusterLabel; ApplicationLabel; ApplicationSetLabel; ApplicationIDLabel; NetworkLabel;
   ReferencedResourceKindLabel; ReferencedResourceIDLabel].

Definition annotation_keys : list string :=
  [DescriptionAnnotation; CreatorAnnotation; CreatorPrincipalAnnotation; ModifierAnnotation; ModifierPrincipalAnnotation;
   ModifiedTimestampAnnotation; ConfigurationHashAnnotation; IdentityAnnotation; PhysicalNetworkAnnotation;
   AllocationAnnotation].

Definition kinds : list string :=
  [KindLabelValueOrganization; KindLabelValueProject; KindLabelValueClusterManager; KindLabelValueKubernetesCluster;
   KindLabelValueVirtualKubernetesCluster; KindLabelValueComputeCluster; KindLabelValueApplicationSet].

Lemma NoDup_decided (l : list string) : bool_decide (NoDup l) = true -> NoDup l.
Proof. apply bool_decide_eq_true. Qed.

(** Every key is one the Kubernetes API accepts, no two of them are the same, so
    no label or annotation overwrites another; every kind is a valid label value
    and names one kind; and the labels that have priorities are among the labels,
    each with one priority. *)
Theorem vocabulary_valid :
  Forall (fun key => qualified_name key = true) (label_keys ++ annotation_keys) /\
  NoDup (label_keys ++ annotation_keys) /\
  Forall (fun kind => valid_value kind = true) (UndefinedName :: kinds) /\ NoDup kinds /\
  LabelPriorities ⊆ label_keys /\ NoDup LabelPriorities /\
  qualified_name Finalizer = true.
Proof.
  split_and!.
  - by repeat (constructor; [by vm_compute|]).
  - apply NoDup_decided. by vm_compute.
  - by repeat (constructor; [by vm_compute|]).
  - apply NoDup_decided. by vm_compute.
  - unfold LabelPriorities, label_keys. set_solver.
  - apply NoDup_decided. by vm_compute.
  - by vm_compute.
Qed.

(** A principal's key is told from the key it extends, and no key is extended
    to the same one as another. *)
Theorem principal_keys_distinct key key' :
  PrincipalPrefix +:+ key <> key /\ (PrincipalPrefix +:+ key = PrincipalPrefix +:+ key' -> key = key').
Proof.
  split; [|apply string_app_inj]. intros Heq. apply (f_equal String.length) in Heq.
  rewrite string_length_app in Heq. simpl in Heq. lia.
Qed.

(** Not every string that is said of a key is one. *)
Example rejected :
  (qualified_name "unikorn-cloud.org/", qualified_name "Unikorn/kind", qualified_name "a/b/c", qualified_name "-a") =
  (false, false, false, false).
Proof. reflexivity. Qed.
