(* ===== verification/ApiSchema.v ===== *)
(** * ApiSchema: the rest of the API's data types

    Models what of pkg/openapi/types.go Conversion and ServerErrors leave: the
    closed vocabularies of the API, the documents of protected resource
    discovery and of a service's version, and the metadata of static resources,
    with their JSON form.  The schema promises clients closed vocabularies; the
    theorems check that the controllers keep to them. *)

From coqutil Require Import Datatypes.RecordSetters.
Import TriangleBracketNotations.
From S2P Require Import Prelude Errors GoStrings Json Kubernetes Conditions Provisioning Conversion Manager.

Module apischema.

Definition Body : string := "body".
Definition Header : string := "header".
Definition Query : string := "query".

Definition HealthStatusReasonDegraded : string := "Degraded".
Definition HealthStatusReasonHealthy : string := "Healthy".
Definition HealthStatusReasonUnknown : string := "Unknown".

Definition ProvisioningStatusReasonDependencyFailed : string := "DependencyFailed".
Definition ProvisioningStatusReasonDependencyNotFound : string := "DependencyNotFound".
Definition ProvisioningStatusReasonDependencyNotReady : string := "DependencyNotReady".
Definition ProvisioningStatusReasonDeprovisioned : string := "Deprovisioned".
Definition ProvisioningStatusReasonDeprovisioning : string := "Deprovisioning".
Definition ProvisioningStatusReasonErrored : string := "Errored".
Definition ProvisioningStatusReasonProvisioned : string := "Provisioned".
Definition ProvisioningStatusReasonProvisioning : string := "Provisioning".

(** A nil slice is [None]. *)
Record OpenidProtectedResource := {
  AuthorizationServers : option (list string);
  BearerMethodsSupported : option (list string);
  Resource : string;
  ScopesSupported : option (list string);
}.

Record ServiceVersionRead := { sv_Name : string; sv_Version : string }.

(** The constraint on tags: a pointer to a slice of structs whose names are
    pointers to any value. *)
Record NoReservedTags := { nr_Tags : option (list (option json)) }.

Record StaticResourceMetadata := {
  st_CreatedBy : option string;
  st_CreationTime : Z;
  st_Description : option string;
  st_Id : string;
  st_ModifiedBy : option string;
  st_ModifiedTime : option Z;
  st_Name : string;
  st_Tags : option (list openapi.Tag);
}.

End apischema.

Import apischema.

(** *** As JSON documents *)

Definition strings_json (l : option (list string)) : json :=
  match l with None => JNull | Some l => JArray (map JString l) end.

Definition OpenidProtectedResource_json (r : OpenidProtectedResource) : json :=
  JObject [("authorization_servers", strings_json (AuthorizationServers r));
           ("bearer_methods_supported", strings_json (BearerMethodsSupported r));
           ("resource", JString (Resource r));
           ("scopes_supported", strings_json (ScopesSupported r))].

Definition decode_string (v : json) : string := match v with JString s => s | _ => "" end.

(** null leaves a slice nil; an array replaces it. *)
Definition set_strings {T : Type} (store : option (list string) -> T -> T) : setter T := fun v out =>
  match v with
  | JArray l => Some (store (Some (map decode_string l)) out)
  | JNull => Some (store None out)
  | _ => Some out
  end.

Definition zero_protected : OpenidProtectedResource :=
  {| AuthorizationServers := None; BearerMethodsSupported := None; Resource := ""; ScopesSupported := None |}.

Definition OpenidProtectedResource_unmarshal (v : json) : OpenidProtectedResource :=
  match v with
  | JObject obj => decode_fields
      [("authorization_servers", set_strings (fun l r => r <| AuthorizationServers := l |>));
       ("bearer_methods_supported", set_strings (fun l r => r <| BearerMethodsSupported := l |>));
       ("resource", set_string (fun s r => r <| Resource := s |>));
       ("scopes_supported", set_strings (fun l r => r <| ScopesSupported := l |>))] obj zero_protected
  | _ => zero_protected
  end.

Definition NoReservedTags_json (r : NoReservedTags) : json :=
  JObject (match nr_Tags r with
           | None => []
           | Some tags => [("tags", JArray (map (fun name =>
               JObject (match name with None => [] | Some v => [("name", v)] end)) tags))]
           end).

Definition ServiceVersionRead_json (v : ServiceVersionRead) : json :=
  JObject [("name", JString (sv_Name v)); ("version", JString (sv_Version v))].

Definition ServiceVersionRead_unmarshal (v : json) : ServiceVersionRead :=
  match v with
  | JObject obj => decode_fields
      [("name", set_string (fun s r => r <| sv_Name := s |>));
       ("version", set_string (fun s r => r <| sv_Version := s |>))] obj {| sv_Name := ""; sv_Version := "" |}
  | _ => {| sv_Name := ""; sv_Version := "" |}
  end.

Section static.
Context `{GoTime}.

Definition StaticResourceMetadata_json (m : StaticResourceMetadata) : option json :=
  creation ← MarshalTime (st_CreationTime m);
  modified ← match st_ModifiedTime m with None => Some None | Some t => Some <$> MarshalTime t end;
  Some (JObject (
    omitempty "createdBy" JString (st_CreatedBy m) ++
    [("creationTime", JString creation)] ++
    omitempty "description" JString (st_Description m) ++
    [("id", JString (st_Id m))] ++
    omitempty "modifiedBy" JString (st_ModifiedBy m) ++
    omitempty "modifiedTime" JString modified ++
    [("name", JString (st_Name m))] ++
    omitempty "tags" (fun l => JArray (map Tag_json l)) (st_Tags m))).

Definition set_static_time (store : Z -> StaticResourceMetadata -> StaticResourceMetadata) : setter StaticResourceMetadata := fun v out =>
  match v with
  | JString s => t ← UnmarshalTime s; Some (store t out)
  | JNull => Some out
  | _ => None
  end.

Definition StaticResourceMetadata_fields : list (string * setter StaticResourceMetadata) :=
  [("createdBy", set_string (fun s m => m <| st_CreatedBy := Some s |>));
   ("creationTime", set_static_time (fun t m => m <| st_CreationTime := t |>));
   ("description", set_string (fun s m => m <| st_Description := Some s |>));
   ("id", set_string (fun s m => m <| st_Id := s |>));
   ("modifiedBy", set_string (fun s m => m <| st_ModifiedBy := Some s |>));
   ("modifiedTime", set_static_time (fun t m => m <| st_ModifiedTime := Some t |>));
   ("name", set_string (fun s m => m <| st_Name := s |>));
   ("tags", fun v out => match v with JArray l => Some (out <| st_Tags := Some (map decode_tag l) |>) | _ => Some out end)].

Definition zero_static : StaticResourceMetadata :=
  {| st_CreatedBy := None; st_CreationTime := ZeroTime; st_Description := None; st_Id := ""; st_ModifiedBy := None;
     st_ModifiedTime := None; st_Name := ""; st_Tags := None |}.

Definition StaticResourceMetadata_unmarshal (v : json) : StaticResourceMetadata :=
  match v with JObject obj => decode_fields StaticResourceMetadata_fields obj zero_static | _ => zero_static end.

End static.

(** ** Theorems *)

Lemma decode_strings l : map decode_string (map JString l) = l.
Proof. induction l as [|s l IH]; simpl; [done|]. by rewrite IH. Qed.

Lemma set_strings_json {T} (store : option (list string) -> T -> T) l out :
  set_strings store (strings_json l) out = Some (store l out).
Proof. destruct l as [l|]; simpl; [by rewrite decode_strings|done]. Qed.

Section roundtrip.
Context `{GoTime}.

Lemma decode_static_time fields key (t : option Z) p obj out (upd : option Z -> StaticResourceMetadata -> StaticResourceMetadata) :
  field_of fields key = Some (set_static_time (fun t m => upd (Some t) m)) -> upd None out = out ->
  match t with None => Some None | Some t => Some <$> MarshalTime t end = Some p ->
  decode_fields fields (omitempty key JString p ++ obj) out = decode_fields fields obj (upd t out).
Proof.
  intros Hf Hn Hp. destruct t as [t|]; [|by simplify_eq/=; rewrite Hn].
  destruct (MarshalTime t) as [s|] eqn:Hs; simplify_eq/=. rewrite Hf. unfold set_static_time.
  by rewrite (Unmarshal_Marshal _ _ Hs).
Qed.

(** What a service serves is what a client decodes: protected resource
    discovery, telling a list that is absent from one that is empty, the
    version of a service, and the metadata of a static resource, which can be
    written whenever its times can. *)
Theorem api_documents_roundtrip (r : OpenidProtectedResource) (v : ServiceVersionRead) (m : StaticResourceMetadata) :
  OpenidProtectedResource_unmarshal (OpenidProtectedResource_json r) = r /\
  ServiceVersionRead_unmarshal (ServiceVersionRead_json v) = v /\
  (representable (st_CreationTime m) -> (forall t, st_ModifiedTime m = Some t -> representable t) ->
   exists doc, StaticResourceMetadata_json m = Some doc /\ StaticResourceMetadata_unmarshal doc = m).
Proof.
  split_and!; [|by destruct v|].
  - destruct r as [a b res s]. unfold OpenidProtectedResource_json, OpenidProtectedResource_unmarshal, zero_protected.
    erewrite (decode_key _ "authorization_servers"); [|reflexivity|apply set_strings_json].
    erewrite (decode_key _ "bearer_methods_supported"); [|reflexivity|apply set_strings_json].
    erewrite (decode_key _ "resource"); [|reflexivity..].
    erewrite (decode_key _ "scopes_supported"); [|reflexivity|apply set_strings_json]. reflexivity.
  - intros Hc Hm. unfold StaticResourceMetadata_json.
    destruct (Marshal_representable _ Hc) as [c Hcm]. rewrite Hcm. simpl.
    destruct (marshal_option _ Hm) as [mo Hmm]. rewrite Hmm. simpl. eexists. split; [done|].
    destruct m as [cb ct de i mb mt na ta]; simpl in *. unfold zero_static.
    erewrite (decode_omitempty _ _ _ cb _ _ _ (fun p m => m <| st_CreatedBy := p |>)); try reflexivity.
    erewrite (decode_key _ "creationTime"); [|reflexivity|simpl; rewrite (Unmarshal_Marshal _ _ Hcm); reflexivity].
    erewrite (decode_omitempty _ _ _ de _ _ _ (fun p m => m <| st_Description := p |>)); try reflexivity.
    erewrite (decode_key _ "id"); [|reflexivity..].
    erewrite (decode_omitempty _ _ _ mb _ _ _ (fun p m => m <| st_ModifiedBy := p |>)); try reflexivity.
    erewrite (decode_static_time _ _ mt mo _ _ (fun p m => m <| st_ModifiedTime := p |>)); [|reflexivity..|done].
    erewrite (decode_key _ "name"); [|reflexivity..].
    destruct ta as [ta|]; [|reflexivity]. simpl. by rewrite decode_tags.
Qed.

End roundtrip.

(** The reasons the API documents. *)
Definition ProvisioningStatusReasons : list string :=
  [ProvisioningStatusReasonDependencyFailed; ProvisioningStatusReasonDependencyNotFound;
   ProvisioningStatusReasonDependencyNotReady; ProvisioningStatusReasonDeprovisioned;
   ProvisioningStatusReasonDeprovisioning; ProvisioningStatusReasonErrored; ProvisioningStatusReasonProvisioned;
   ProvisioningStatusReasonProvisioning].

Definition HealthStatusReasons : list string :=
  [HealthStatusReasonDegraded; HealthStatusReasonHealthy; HealthStatusReasonUnknown].

(** The errors the constructors of provisioners make of a dependency. *)
Definition dependency_error {D : Type} `{Object D, Kubernetes.Scheme D} (o : D) (e : Error) : Prop :=
  e = provisioners.DependencyNotReady o \/ e = provisioners.DependencyFailed o \/ e = provisioners.DependencyNotFound o.

(** C38 The vocabulary of reasons is closed, as the API says: whatever the outcome of
    a provisioner, the reason the manager surfaces is one the API documents,
    unless the error is a typed one whose author gave it another; and the reasons
    of dependencies are documented ones. *)
Theorem surfaced_reason_documented {D : Type} `{Object D, Kubernetes.Scheme D} (o : D) err d s0 :
  lifecycleCondition err d = Some s0 ->
  (forall p, err ≫= errors_as_provisioning = Some p -> dependency_error o p) ->
  surface_reason (enrichCondition err s0) ∈ ProvisioningStatusReasons.
Proof.
  intros Hl Hp. unfold enrichCondition. destruct (err ≫= errors_as_provisioning) as [p|].
  - destruct (Hp p eq_refl) as [->|[->| ->]]; simpl; unfold ProvisioningStatusReasons; set_solver.
  - assert (surface_reason s0 ∈ [ConditionReasonProvisioned; ConditionReasonDeprovisioned; ConditionReasonProvisioning;
      ConditionReasonDeprovisioning; ConditionReasonErrored]) as Hs.
    { unfold lifecycleCondition in Hl. repeat case_match; simplify_eq/=; set_solver. }
    revert Hs. unfold ProvisioningStatusReasons. set_solver.
Qed.

(** ** Witnesses *)

Module witnesses.
Import sample.

(** A network that waits for one that is not ready. *)
Lemma surfaced_reason_documented_witness :
  surface_reason (enrichCondition (Some (provisioners.as_error (provisioners.DependencyNotReady (network [] None))))
    {| surface_status := ConditionFalse; surface_reason := ConditionReasonProvisioning; surface_message := "provisioning" |})
    ∈ ProvisioningStatusReasons.
Proof.
  apply (surfaced_reason_documented (network [] None)
    (Some (provisioners.as_error (provisioners.DependencyNotReady (network [] None)))) false); [reflexivity|].
  intros p Hp. left. simpl in Hp. by injection Hp as <-.
Defined.

#[local] Existing Instance Conversion.witnesses.one_instant.

(** A static resource that was never modified, made at the instant the clock knows. *)
Lemma api_documents_roundtrip_witness :
  let m := {| st_CreatedBy := None; st_CreationTime := Conversion.witnesses.noon; st_Description := None;
              st_Id := "m1.small"; st_ModifiedBy := None; st_ModifiedTime := None; st_Name := "small";
              st_Tags := Some [] |} in
  representable (st_CreationTime m) /\
  exists doc, StaticResourceMetadata_json m = Some doc /\ StaticResourceMetadata_unmarshal doc = m.
Proof.
  intros m. split; [reflexivity|].
  apply (api_documents_roundtrip {| AuthorizationServers := None; BearerMethodsSupported := Some [];
           Resource := "https://api"; ScopesSupported := None |} {| sv_Name := "core"; sv_Version := "1.0" |} m);
    [reflexivity|intros t Ht; discriminate Ht].
Defined.

End witnesses.
