(* ===== verification/DocsGenerate.v ===== *)
(** * DocsGenerate: the documentation generator

    Models hack/docs-generate/main.go: a configuration names variables, taken
    from YAML documents by JSON pointer, and templates to render with them.
    Files and templates are calls; YAML and JSON pointers are third-party
    functions the section takes.  A program ends with its exit status. *)

From S2P Require Import Prelude Errors GoStrings Json Effects.

Record YamlVariable := { yaml_File : string; yaml_Pointer : string }.

Record DocVariable := { var_Name : string; var_Yaml : option YamlVariable }.

Record File := { In : string; Out : string }.

Record Config := { config_Variables : list DocVariable; Files : list File }.

(** The calls: [T] is a parsed template, [H] an open file, [V] the document. *)
Inductive docE (T H V : Type) : Type -> Type :=
| ReadFile (path : string) : docE T H V (result string)
| ParseFiles (path : string) : docE T H V (result T)
| Create (path : string) : docE T H V (result H)
| WriteString (out : H) (s : string) : docE T H V (option error)
| Execute (template : T) (out : H) (variables : gmap string V) : docE T H V (option error)
| Close (out : H) : docE T H V unit
| Println (err : error) : docE T H V unit.

Arguments ReadFile {T H V} path.
Arguments ParseFiles {T H V} path.
Arguments Create {T H V} path.
Arguments WriteString {T H V} out s.
Arguments Execute {T H V} template out variables.
Arguments Close {T H V} out.
Arguments Println {T H V} err.

(** The line the generator starts every file with. *)
Definition banner : string := "<!-- THIS FILE IS AUTO-GENERATED. DO NOT EDIT -->" +:+ newline +:+ newline.

Section generator.
Context {T H V P : Type}
  (yaml_UnmarshalConfig : string -> result Config) (yaml_Unmarshal : string -> result V)
  (jsonpointer_New : string -> result P) (pointer_Get : P -> V -> result V).

Abbreviation M := (prog (docE T H V)).

Definition loadConfig : M (result Config) :=
  attempt (call (ReadFile "docs-generate.yaml")) (fun configRaw => mret (yaml_UnmarshalConfig configRaw)).

Fixpoint loadVariablesFrom (l : list DocVariable) (variables : gmap string V) : M (result (gmap string V)) :=
  match l with
  | [] => mret (Ok variables)
  | variable :: l' =>
    match var_Yaml variable with
    | None => loadVariablesFrom l' variables
    | Some y =>
      attempt (call (ReadFile (yaml_File y))) (fun data =>
      attempt (mret (yaml_Unmarshal data)) (fun document =>
      attempt (mret (jsonpointer_New (yaml_Pointer y))) (fun pointer =>
      attempt (mret (pointer_Get pointer document)) (fun value =>
      loadVariablesFrom l' (<[ var_Name variable := value ]> variables)))))
    end
  end.

Definition loadVariables (config : Config) : M (result (gmap string V)) := loadVariablesFrom (config_Variables config) ∅.

(** [defer out.Close()] *)
Definition deferred_close (out : H) (body : M (option error)) : M (option error) :=
  r ← body; _ ← call (Close out); mret r.

Definition renderFile (file : File) (variables : gmap string V) : M (option error) :=
  attempt_ (call (ParseFiles (In file))) (fun template =>
  attempt_ (call (Create (Out file))) (fun out =>
  deferred_close out (
    check (call (WriteString out banner)) (
    check (call (Execute template out variables)) (mret None))))).

(** fmt.Println(err); os.Exit(1) *)
Definition exit_with (err : error) : M Z := _ ← call (Println err : docE T H V unit); mret 1%Z.

Fixpoint renderFiles (l : list File) (variables : gmap string V) : M Z :=
  match l with
  | [] => mret 0%Z
  | file :: l' =>
    r ← renderFile file variables;
    match r with Some err => exit_with err | None => renderFiles l' variables end
  end.

Definition main : M Z :=
  c ← loadConfig;
  match c with
  | Err err => exit_with err
  | Ok config =>
    v ← loadVariables config;
    match v with
    | Err err => exit_with err
    | Ok variables => renderFiles (Files config) variables
    end
  end.

(** ** What it guarantees *)

(** The calls of rendering one file to the end. *)
Definition rendered (variables : gmap string V) (file : File) (t : trace (docE T H V)) : Prop :=
  exists template out,
    t = [Ev (ParseFiles (In file)) (Ok template); Ev (Create (Out file)) (Ok out);
         Ev (WriteString out banner) None; Ev (Execute template out variables) None; Ev (Close out) tt].

(** The calls of one that fails: a file that was created is closed, and nothing
    is executed into it before the banner is in. *)
Definition aborted (variables : gmap string V) (file : File) (err : error) (t : trace (docE T H V)) : Prop :=
  t = [Ev (ParseFiles (In file)) (Err err)] \/
  exists template,
    t = [Ev (ParseFiles (In file)) (Ok template); Ev (Create (Out file)) (Err err)] \/
    exists out,
      t = [Ev (ParseFiles (In file)) (Ok template); Ev (Create (Out file)) (Ok out);
           Ev (WriteString out banner) (Some err); Ev (Close out) tt] \/
      t = [Ev (ParseFiles (In file)) (Ok template); Ev (Create (Out file)) (Ok out);
           Ev (WriteString out banner) None; Ev (Execute template out variables) (Some err); Ev (Close out) tt].

Lemma renderFile_exec file variables t r :
  exec (renderFile file variables) t r ->
  match r with None => rendered variables file t | Some err => aborted variables file err t end.
Proof.
  unfold renderFile, deferred_close, rendered, aborted. intros Hx.
  exec_inv; repeat match goal with x : unit |- _ => destruct x end; naive_solver.
Qed.

Lemma exit_exec err t code : exec (exit_with err) t code -> t = [Ev (Println err) tt] /\ code = 1%Z.
Proof. unfold exit_with. intros Hx. exec_inv. by repeat match goal with x : unit |- _ => destruct x end. Qed.

Lemma renderFiles_exec l variables t code :
  exec (renderFiles l variables) t code ->
  (code = 0%Z /\ exists ts, t = concat ts /\ Forall2 (rendered variables) l ts) \/
  (code = 1%Z /\ exists l1 file l2 ts tf err, l = l1 ++ file :: l2 /\ Forall2 (rendered variables) l1 ts /\
    aborted variables file err tf /\ t = concat ts ++ tf ++ [Ev (Println err) tt]).
Proof.
  revert t. induction l as [|file l IH]; intros t Hx; cbn [renderFiles] in Hx.
  - apply exec_mret in Hx as [-> ->]. left. split; [done|]. exists []. by repeat constructor.
  - apply exec_bind in Hx as (t1 & t2 & r & -> & Hf%renderFile_exec & Hx). destruct r as [err|].
    + right. apply exit_exec in Hx as [-> ->].
      split; [done|]. exists [], file, l, [], t1, err. split_and!; [done|constructor|done|done].
    + apply IH in Hx as [(-> & ts & -> & Hts)|(-> & l1 & f & l2 & ts & tf & err & -> & Hts & Ha & ->)].
      * left. split; [done|]. exists (t1 :: ts). split; [done|by constructor].
      * right. split; [done|]. exists (file :: l1), f, l2, (t1 :: ts), tf, err.
        split_and!; [done|by constructor|done|]. by rewrite app_assoc.
Qed.

Lemma loadConfig_exec t r :
  exec loadConfig t r -> exists raw, t = [Ev (ReadFile "docs-generate.yaml") raw] /\
    r = match raw with Ok raw => yaml_UnmarshalConfig raw | Err err => Err err end.
Proof. unfold loadConfig. intros Hx. exec_inv; eauto. Qed.

(** Only the last value of a name is seen by the templates, and only names that
    have a source are. *)
Lemma loadVariables_dom l : forall variables t r,
  exec (loadVariablesFrom l variables) t (Ok r) ->
  forall name, is_Some (r !! name) <->
    is_Some (variables !! name) \/ exists variable, variable ∈ l /\ var_Name variable = name /\ is_Some (var_Yaml variable).
Proof.
  induction l as [|variable l IH]; intros variables t r Hx name; cbn [loadVariablesFrom] in Hx.
  - apply exec_mret in Hx as [_ ?]. simplify_eq. split; [by left|]. intros [?|(v & Hin & _)]; [done|].
    by apply elem_of_nil in Hin.
  - destruct (var_Yaml variable) as [y|] eqn:Hy.
    + repeat (apply exec_attempt in Hx as [(? & ? & _)|(? & ? & ? & -> & _ & Hx)]; [done|]).
      rewrite (IH _ _ _ Hx name). setoid_rewrite elem_of_cons.
      destruct (decide (var_Name variable = name)) as [<-|Hne].
      * rewrite lookup_insert_eq. split; [|by left; eexists]. intros _. right. exists variable. rewrite Hy. naive_solver.
      * rewrite lookup_insert_ne by done. split; [naive_solver|]. intros [?|(v & [->|Hin] & Hn & Hs)]; naive_solver.
    + rewrite (IH _ _ _ Hx name). setoid_rewrite elem_of_cons. split; [naive_solver|].
      intros [?|(v & [->|Hin] & Hn & Hs)]; [by left| |naive_solver]. rewrite Hy in Hs. by destruct Hs.
Qed.

(** C37 The generator exits with success exactly when it rendered every file of its
    configuration, in order, each with the banner first and with the variables
    of the configuration; otherwise the exit status is 1, the first error is the
    last thing printed, the files before it are complete, the one that failed is
    closed if it was created, and none after it is touched. *)
Theorem docs_generate_exact t code :
  exec main t code ->
  (code = 0%Z /\ exists config variables tc tv ts,
    exec loadConfig tc (Ok config) /\ exec (loadVariables config) tv (Ok variables) /\
    Forall2 (rendered variables) (Files config) ts /\ t = tc ++ tv ++ concat ts) \/
  (code = 1%Z /\ exists t' err, t = t' ++ [Ev (Println err) tt] /\
    (exec loadConfig t' (Err err) \/
     exists config tc tv, exec loadConfig tc (Ok config) /\
       (exec (loadVariables config) tv (Err err) /\ t' = tc ++ tv \/
        exists variables l1 file l2 ts tf, exec (loadVariables config) tv (Ok variables) /\
          Files config = l1 ++ file :: l2 /\ Forall2 (rendered variables) l1 ts /\
          aborted variables file err tf /\ t' = tc ++ tv ++ concat ts ++ tf))).
Proof.
  unfold main. intros Hx. apply exec_bind in Hx as (tc & t1 & [config|err] & -> & Hc & Hx).
  - apply exec_bind in Hx as (tv & t2 & [variables|err] & -> & Hv & Hx).
    + apply renderFiles_exec in Hx as [(-> & ts & -> & Hts)|(-> & l1 & f & l2 & ts & tf & err & Hl & Hts & Ha & ->)].
      * left. split; [done|]. by exists config, variables, tc, tv, ts.
      * right. split; [done|]. exists (tc ++ tv ++ concat ts ++ tf), err. rewrite <-!app_assoc. split; [done|].
        right. exists config, tc, tv. split; [done|]. right. by exists variables, l1, f, l2, ts, tf.
    + right. apply exit_exec in Hx as [-> ->]. split; [done|]. exists (tc ++ tv), err. rewrite <-app_assoc. split; [done|].
      right. exists config, tc, tv. split; [done|]. by left.
  - right. apply exit_exec in Hx as [-> ->]. split; [done|]. exists tc, err. split; [done|]. by left.
Qed.

End generator.

(** ** Witness: a template that does not parse, after one that was rendered *)

Module witnesses.

Definition config : Config :=
  {| config_Variables := [{| var_Name := "version"; var_Yaml := Some {| yaml_File := "chart.yaml"; yaml_Pointer := "/version" |} |}];
     Files := [{| In := "README.tmpl"; Out := "README.md" |}; {| In := "BROKEN.tmpl"; Out := "BROKEN.md" |}] |}.

Definition generate : prog (docE string string json) Z :=
  main (fun _ => Ok config) (fun raw => Ok (JString raw)) (fun p => Ok p) (fun (_ : string) document => Ok document).

Definition failing : trace (docE string string json) :=
  [Ev (ReadFile "docs-generate.yaml") (Ok "..."); Ev (ReadFile "chart.yaml") (Ok "1.2.3");
   Ev (ParseFiles "README.tmpl") (Ok "t"); Ev (Create "README.md") (Ok "fd3"); Ev (WriteString "fd3" banner) None;
   Ev (Execute "t" "fd3" {[ "version" := JString "1.2.3" ]}) None; Ev (Close "fd3") tt;
   Ev (ParseFiles "BROKEN.tmpl") (Err (Foreign "unexpected EOF"));
   Ev (Println (Foreign "unexpected EOF")) tt].

Lemma docs_generate_exact_witness :
  exec generate failing 1%Z /\ exists t' err, failing = t' ++ [Ev (Println err) tt].
Proof.
  assert (exec generate failing 1%Z) as Hx by solve_exec.
  split; [exact Hx|].
  destruct (docs_generate_exact _ _ _ _ _ _ Hx) as [[Hc _]|(_ & t' & err & Ht & _)]; [discriminate Hc|].
  exists t', err. exact Ht.
Defined.

End witnesses.
