(* ===== verification/OpenAPISchema.v ===== *)
(** * OpenAPISchema: how a service gets its own API schema

    Models the functions of pkg/openapi/schema.go over the embedded document,
    and NewSchema of pkg/openapi/helpers/helpers.go.  The embedded document, the
    decoders of the standard library and kin-openapi's loader are parameters;
    the loader is given the function it reads external references with. *)

From S2P Require Import Prelude Errors GoStrings.

Section schema.
Context {Spec : Type} (swaggerSpec : list string)
  (base64_DecodeString : string -> result string) (gzip_ReadAll : string -> result string)
  (path_Clean : string -> string)
  (LoadFromData : bool -> (string -> result string) -> string -> result Spec).

(** A gzip.Reader that cannot be made, and one that fails half way, answer the
    same error. *)
Definition decodeSpec : result string :=
  match base64_DecodeString (strings_Join "" swaggerSpec) with
  | Err err => Err (Wrapped err "error base64 decoding spec")
  | Ok zipped =>
    match gzip_ReadAll zipped with
    | Err err => Err (Wrapped err "error decompressing spec")
    | Ok data => Ok data
    end
  end.

(** What a package variable holds: the closure over one decoding. *)
Definition decodeSpecCached : unit -> result string := let data := decodeSpec in fun _ => data.

Definition rawSpec : unit -> result string := decodeSpecCached.

Definition PathToRawSpec (pathToFile : string) : gmap string (unit -> result string) :=
  if bool_decide (0 < String.length pathToFile) then {[ pathToFile := rawSpec ]} else ∅.

(** The loader's ReadFromURIFunc. *)
Definition ReadFromURI (resolvePath : gmap string (unit -> result string)) (url : string) : result string :=
  let pathToFile := path_Clean url in
  match resolvePath !! pathToFile with
  | None => Err (Foreign ("path not found: " +:+ pathToFile))
  | Some getSpec => getSpec tt
  end.

Definition GetSwagger : result Spec :=
  let resolvePath := PathToRawSpec "" in
  match rawSpec tt with
  | Err err => Err err
  | Ok specData => LoadFromData true (ReadFromURI resolvePath) specData
  end.

(** helpers.Schema, and what makes one. *)
Record Schema := { spec : Spec }.

Definition NewSchema (get : unit -> result Spec) : result Schema :=
  match get tt with
  | Err err => Err err
  | Ok s => Ok {| spec := s |}
  end.

(** A service's schema is self-contained: it is what the loader makes of the
    embedded document when every external reference fails to resolve, so no
    reference is ever read from anywhere else; and a document that does not
    decode makes no schema. *)
Theorem swagger_self_contained :
  (forall url, exists e, ReadFromURI (PathToRawSpec "") url = Err e) /\
  GetSwagger = match decodeSpec with
               | Err err => Err err
               | Ok data => LoadFromData true (fun url => Err (Foreign ("path not found: " +:+ path_Clean url))) data
               end /\
  (forall err, decodeSpec = Err err -> NewSchema (fun _ => GetSwagger) = Err err).
Proof.
  split_and!.
  - intros url. by eexists.
  - unfold GetSwagger, rawSpec, decodeSpecCached. destruct decodeSpec as [data|err]; done.
  - intros err Hd. unfold NewSchema, GetSwagger, rawSpec, decodeSpecCached. by rewrite Hd.
Qed.

(** A schema imported under a path is the embedded one, under that path only. *)
Theorem imported_schema path url :
  path <> "" ->
  ReadFromURI (PathToRawSpec path) url =
    if bool_decide (path_Clean url = path) then decodeSpec else Err (Foreign ("path not found: " +:+ path_Clean url)).
Proof.
  intros Hp. unfold ReadFromURI, PathToRawSpec. rewrite bool_decide_true by (destruct path; simpl; [done|lia]).
  case_bool_decide as Hc; [by rewrite Hc, lookup_singleton_eq|by rewrite lookup_singleton_ne].
Qed.

End schema.

(** ** Witness *)

Module witnesses.

Lemma imported_schema_witness :
  ReadFromURI (fun s => s)
    (PathToRawSpec [] (fun s => Ok s) (fun s => Ok s) "common.spec.yaml") "common.spec.yaml" = Ok "".
Proof. rewrite (imported_schema [] (fun s => Ok s) (fun s => Ok s) (fun s => s)); [reflexivity|discriminate]. Defined.

End witnesses.
