(* ===== verification/Ownership.v ===== *)
(** * Ownership: concurrent programs that work on separate parts of a state

    A logic for the programs of Concurrency, run in a world that is shared.  The
    world's state has parts, named by [K]; a program owns some of them and
    writes no other, and while it runs others may write whatever it does not
    own.  [triple N P p Q] says that [p], owning the parts [N] of a state that
    satisfies [P], can run to its end, and that however the world interferes
    with its run, [p] writes the parts [N] only and leaves [Q].  Members of a
    group that own disjoint parts can then be verified one by one. *)

From S2P Require Import Prelude Errors Effects Concurrency.

(** ** Interleavings that are there *)

Lemma thread_none {A} i (u : list (nat * A)) : (forall x, (i, x) ∉ u) -> thread i u = [].
Proof. intros Hn. apply list_nil_subseteq. intros x Hin%elem_of_thread. by apply Hn in Hin. Qed.

(** Sequences one after the other are an interleaving of them. *)
Lemma interleaves_seq {B} (ts : list (list B)) : exists u, interleaves ts u /\ u.*2 = concat ts.
Proof.
  induction ts as [|t ts (u & [Hlt Hth] & Hu)] using rev_ind.
  - exists []. split; [|done]. split; [by intros i x ?%elem_of_nil|]. by intros i t ?.
  - exists (u ++ (pair (length ts) <$> t)). split; [split|].
    + intros i x [Hin|Hin]%elem_of_app; rewrite length_app; [apply Hlt in Hin; simpl; lia|].
      apply list_elem_of_fmap in Hin as (y & ? & _); simplify_eq/=; lia.
    + intros i t' Ht. rewrite thread_app, thread_tag. apply lookup_app_Some in Ht as [Ht|[Hge Ht]].
      * rewrite decide_False by (apply lookup_lt_Some in Ht; lia). by rewrite app_nil_r, (Hth _ _ Ht).
      * apply list_lookup_singleton_Some in Ht as [Heq ->]. rewrite decide_True by lia.
        rewrite (thread_none _ u); [done|]. intros x Hin%Hlt. lia.
    + rewrite fmap_app, Hu, concat_app. simpl. rewrite app_nil_r. f_equal. rewrite <-list_fmap_compose. apply list_fmap_id.
Qed.

(** Wait always has something to return. *)
Lemma waits_some (rs : list (option error)) : exists r, waits rs r.
Proof.
  destruct (decide (Forall (fun x => x = None) rs)) as [Hn|Hn]; [by exists None|].
  apply not_Forall_Exists in Hn; [|apply _]. apply Exists_exists in Hn as ([e|] & Hin & Hne); [by exists (Some e)|by destruct Hne].
Qed.

Section ownership.
Context {E : Type -> Type} {S K : Type}.

(** What the world may do on a call: the state it leaves, and its answer. *)
Context (step : forall X, E X -> S -> S -> X -> Prop).

(** A state that makes sense, and a part of it that is left as it was. *)
Context (inv : S -> Prop) (keeps : K -> S -> S -> Prop).
Context `{Hkeeps : forall k, PreOrder (keeps k)}.

Implicit Types (N M : list K) (s : S) (t u : trace E).

(** What others may do to a program that owns [N], and what it may do itself. *)
Definition env N s s' : Prop := inv s' /\ forall k, k ∈ N -> keeps k s s'.
Definition own N s s' : Prop := inv s' /\ forall k, k ∉ N -> keeps k s s'.

(** A trace that plays out undisturbed, and one that others interfere with. *)
Fixpoint play s t s' : Prop :=
  match t with
  | [] => s' = s
  | Ev e x :: t' => exists s1, step _ e s s1 x /\ play s1 t' s'
  end.

Fixpoint disturbed N s t s' : Prop :=
  match t with
  | [] => env N s s'
  | Ev e x :: t' => exists s1 s2, env N s s1 /\ step _ e s1 s2 x /\ disturbed N s2 t' s'
  end.

(** The first call of a trace writes [N] only; at its end [Q] holds. *)
Definition next N t s (Q : S -> Prop) : Prop :=
  match t with
  | [] => Q s
  | Ev e x :: _ => forall s', step _ e s s' x -> own N s s'
  end.

Definition can_run {A} N (P : S -> Prop) (p : par E A) : Prop :=
  forall s s1, inv s -> P s -> env N s s1 -> exists t r s', pexec p t r /\ play s1 t s'.

Definition behaves {A} N (P : S -> Prop) (p : par E A) (Q : A -> S -> Prop) : Prop :=
  forall s t r t1 t2 s', inv s -> P s -> pexec p t r -> t = t1 ++ t2 -> disturbed N s t1 s' -> next N t2 s' (Q r).

Definition triple {A} N (P : S -> Prop) (p : par E A) (Q : A -> S -> Prop) : Prop :=
  can_run N P p /\ behaves N P p Q.

(** ** The world's moves *)

Lemma env_refl N s : inv s -> env N s s.
Proof. by split. Qed.

Lemma env_trans N s1 s2 s3 : env N s1 s2 -> env N s2 s3 -> env N s1 s3.
Proof. intros [_ H1] [Hi H2]. split; [done|]. intros k Hk. etrans; eauto. Qed.

Lemma env_subseteq N M s s' : N ⊆ M -> env M s s' -> env N s s'.
Proof. intros Hs [Hi He]. split; auto. Qed.

Lemma own_subseteq N M s s' : N ⊆ M -> own N s s' -> own M s s'.
Proof. intros Hs [Hi He]. split; [done|]. intros k Hk. apply He. set_solver. Qed.

Lemma own_env N M s s' : N ## M -> own N s s' -> env M s s'.
Proof. intros Hd [Hi He]. split; [done|]. intros k Hk. apply He. set_solver. Qed.

Lemma disturbed_env_l N s s1 t s' : env N s s1 -> disturbed N s1 t s' -> disturbed N s t s'.
Proof.
  destruct t as [|[X e x] t]; simpl; [apply env_trans|].
  intros H1 (s2 & s3 & H2 & Hs & Hd). exists s2, s3. split_and!; [by eapply env_trans|done..].
Qed.

Lemma disturbed_app N s t1 t2 s' :
  disturbed N s (t1 ++ t2) s' <-> exists s1, disturbed N s t1 s1 /\ disturbed N s1 t2 s'.
Proof.
  revert s. induction t1 as [|[X e x] t1 IH]; intros s; simpl.
  - split.
    + destruct t2 as [|[X e x] t2]; simpl.
      * intros [Hi He]. exists s'. split; [by split|by apply env_refl].
      * intros (s1 & s2 & H1 & Hs & Hd). exists s1. split; [done|].
        exists s1, s2. split_and!; [apply env_refl, H1|done..].
    + intros (s1 & H1 & Hd). by eapply disturbed_env_l.
  - split.
    + intros (s1 & s2 & H1 & Hs & (s3 & Hd1 & Hd2)%IH). eauto 10.
    + intros (s3 & (s1 & s2 & H1 & Hs & Hd1) & Hd2). exists s1, s2. split_and!; [done..|]. apply IH. eauto.
Qed.

Lemma disturbed_env_r N s t s1 s' : disturbed N s t s1 -> env N s1 s' -> disturbed N s t s'.
Proof. intros Hd He. rewrite <-(app_nil_r t). apply disturbed_app. eauto. Qed.

Lemma disturbed_snoc N s t X (e : E X) x s' :
  disturbed N s (t ++ [Ev e x]) s' <-> exists s1 s2, disturbed N s t s1 /\ step _ e s1 s2 x /\ env N s2 s'.
Proof.
  rewrite disturbed_app. split.
  - intros (s0 & Hd & s1 & s2 & He & Hs & H2). exists s1, s2. split_and!; [by eapply disturbed_env_r|done..].
  - intros (s1 & s2 & Hd & Hs & H2). exists s1. split; [done|]. exists s1, s2. split_and!; [|done..].
    apply env_refl. clear -Hd. revert s Hd. induction t as [|[X e x] t IH]; intros s; simpl; [by intros [? _]|].
    intros (? & ? & _ & _ & Hd). eauto.
Qed.

Lemma disturbed_inv N s t s' : disturbed N s t s' -> inv s'.
Proof.
  revert s. induction t as [|[X e x] t IH]; intros s; simpl; [by intros [? _]|].
  intros (? & ? & _ & _ & Hd). eauto.
Qed.

Lemma disturbed_subseteq N M s t s' : N ⊆ M -> disturbed M s t s' -> disturbed N s t s'.
Proof.
  intros Hs. revert s. induction t as [|[X e x] t IH]; intros s; simpl; [by apply env_subseteq|].
  intros (s1 & s2 & He & Hst & Hd). exists s1, s2. split_and!; [by eapply env_subseteq|done|auto].
Qed.

Lemma play_app s t1 t2 s' : play s (t1 ++ t2) s' <-> exists s1, play s t1 s1 /\ play s1 t2 s'.
Proof.
  revert s. induction t1 as [|[X e x] t1 IH]; intros s; simpl.
  - split; [eauto|by intros (s1 & -> & ?)].
  - setoid_rewrite IH. naive_solver.
Qed.

(** A program that behaves is on its way at every moment of its run: it has
    written nothing but what it owns. *)
Lemma behaves_keeps {A} N M P (p : par E A) Q s t r t1 t2 s' :
  behaves N P p Q -> inv s -> P s -> pexec p t r -> t = t1 ++ t2 -> disturbed (N ++ M) s t1 s' ->
  forall k, k ∈ M -> k ∉ N -> keeps k s s'.
Proof.
  intros Hb Hi Hp Hx. revert t2 s'. induction t1 as [|[X e x] t1 IH] using rev_ind; intros t2 s' -> Hd k Hk Hn.
  - apply Hd. set_solver.
  - apply disturbed_snoc in Hd as (s1 & s2 & Hd & Hs & He). rewrite <-app_assoc in *. simpl in *.
    assert (next N (Ev e x :: t2) s1 (Q r)) as Hnx.
    { eapply (Hb s); eauto. eapply disturbed_subseteq; [|done]. set_solver. }
    etrans; [by eapply IH|]. etrans; [by apply (Hnx _ Hs)|]. apply He. set_solver.
Qed.

(** Undisturbed, a program runs as it does in any world. *)
Lemma behaves_play {A} N P (p : par E A) Q s t r s' :
  behaves N P p Q -> inv s -> P s -> pexec p t r -> play s t s' ->
  (forall M, disturbed M s t s') /\ inv s' /\ Q r s'.
Proof.
  intros Hb Hi Hp Hx Hpl.
  assert (forall t2 t1 s1, t = t1 ++ t2 -> (forall M, disturbed M s t1 s1) -> play s1 t2 s' ->
    forall M, disturbed M s t s') as Hd.
  { induction t2 as [|[X e x] t2 IH]; intros t1 s1 Ht Hd Hpl2.
    - simpl in Hpl2. subst. by rewrite app_nil_r.
    - destruct Hpl2 as (s2 & Hs & Hpl2). apply (IH (t1 ++ [Ev e x]) s2); [by rewrite <-app_assoc| |done].
      intros M. apply disturbed_snoc. exists s1, s2. split_and!; [done..|]. apply env_refl.
      by apply (Hb s t r t1 (Ev e x :: t2) s1). }
  assert (forall M, disturbed M s t s') as Hd' by (apply (Hd t [] s); [done|intros M; by apply env_refl|done]).
  split_and!; [done|exact (disturbed_inv N _ _ _ (Hd' N))|].
  apply (Hb s t r t [] s'); auto. by rewrite app_nil_r.
Qed.

(** ** The rules *)

Lemma triple_consequence {A} N (P P' : S -> Prop) (p : par E A) (Q Q' : A -> S -> Prop) :
  triple N P' p Q' -> (forall s, inv s -> P s -> P' s) -> (forall r s, inv s -> Q' r s -> Q r s) -> triple N P p Q.
Proof.
  intros [Hc Hb] HP HQ. split; [intros s s1 Hi Hs He; eapply Hc; eauto|].
  intros s t r t1 t2 s' Hi Hs Hx Ht Hd. specialize (Hb s t r t1 t2 s' Hi (HP s Hi Hs) Hx Ht Hd).
  destruct t2 as [|[X e x] t2]; [|done]. apply HQ; [by eapply disturbed_inv|done].
Qed.

(** A triple is about what a program does, not how it is written. *)
Lemma triple_equiv {A} N P (p p' : par E A) Q :
  (forall t r, pexec p t r <-> pexec p' t r) -> triple N P p' Q -> triple N P p Q.
Proof.
  intros Heq [Hc Hb]. split; [intros s s1; setoid_rewrite Heq; apply Hc|].
  intros s t r t1 t2 s' Hi Hs. rewrite Heq. by apply Hb.
Qed.

(** A fact about each state is a premise. *)
Lemma triple_pure {A} N (P : S -> Prop) (p : par E A) Q :
  (forall s0, inv s0 -> P s0 -> triple N (fun s => s = s0) p Q) -> triple N P p Q.
Proof.
  intros Hp. split.
  - intros s s1 Hi Hs He. by apply (proj1 (Hp s Hi Hs) s s1).
  - intros s t r t1 t2 s' Hi Hs Hx. by apply (proj2 (Hp s Hi Hs) s t r t1 t2 s').
Qed.

Lemma triple_ret {A} N P (a : A) (Q : A -> S -> Prop) :
  (forall s s', inv s -> P s -> env N s s' -> Q a s') -> triple N P (PRet a) Q.
Proof.
  intros HQ. split.
  - intros s s1 _ _ _. by exists [], a, s1.
  - intros s t r t1 t2 s' Hi Hs [-> ->]%pexec_ret Ht Hd. symmetry in Ht. apply app_eq_nil in Ht as [-> ->]. by eapply HQ.
Qed.

Lemma triple_call {A X} N P (e : E X) (k : X -> par E A) (R : X -> S -> Prop) Q :
  (forall s s1, inv s -> P s -> env N s s1 ->
    (exists s2 x, step _ e s1 s2 x) /\ forall s2 x, step _ e s1 s2 x -> own N s1 s2 /\ R x s2) ->
  (forall x, triple N (R x) (k x) Q) -> triple N P (PCall e k) Q.
Proof.
  intros He Hk. split.
  - intros s s1 Hi Hs Hs1. destruct (He _ _ Hi Hs Hs1) as [(s2 & x & Hst) Hown].
    destruct (Hown _ _ Hst) as [[Hi2 Ho] HR]. destruct (proj1 (Hk x) s2 s2 Hi2 HR) as (t & r & s' & Hx & Hp);
      [by apply env_refl|]. exists (Ev e x :: t), r, s'. simpl. eauto 10.
  - intros s t r t1 t2 s' Hi Hs (x & t' & -> & Hx) Ht Hd. destruct t1 as [|ev t1]; simplify_eq/=.
    + intros s2 Hst. by eapply He.
    + destruct Hd as (s1 & s2 & Hs1 & Hst & Hd). destruct (He _ _ Hi Hs Hs1) as [_ Hown].
      destruct (Hown _ _ Hst) as [[Hi2 _] HR]. by eapply (proj2 (Hk x) s2).
Qed.

Lemma triple_bind {A B} N P (p : par E A) (k : A -> par E B) (R : A -> S -> Prop) Q :
  triple N P p R -> (forall a, triple N (R a) (k a) Q) -> triple N P (mbind k p) Q.
Proof.
  intros [Hc Hb] Hk. split.
  - intros s s1 Hi Hs He. destruct (Hc _ _ Hi Hs He) as (t1 & a & s2 & Hx & Hp).
    assert (exists s', disturbed N s t1 s' /\ s' = s2 /\ inv s2 /\ R a s2) as (s' & _ & -> & Hi2 & HR).
    { exists s2. assert (behaves N (env N s) p R) as Hb'.
      { intros s3 t r u1 u2 s' Hi3 He3 Hx3 Ht Hd. eapply (Hb s); eauto. by eapply disturbed_env_l. }
      destruct (behaves_play N _ p R s1 t1 a s2 Hb') as (Hd & Hi2 & HR); [by destruct He|done..|].
      split_and!; [by eapply disturbed_env_l|done..]. }
    destruct (proj1 (Hk a) s2 s2 Hi2 HR) as (t2 & r & s3 & Hx2 & Hp2); [by apply env_refl|].
    exists (t1 ++ t2), r, s3. rewrite pexec_bind, play_app. eauto 10.
  - intros s t r u1 u2 s' Hi Hs (t1 & t2 & a & -> & Hx1 & Hx2)%pexec_bind Ht Hd.
    apply app_eq_inv in Ht as [(k' & -> & Ht)|(k' & -> & Ht)].
    + destruct k' as [|[X e x] k'].
      * simpl in Ht. subst u2. rewrite app_nil_r in *.
        eapply (proj2 (Hk a) s' t2 r [] t2 s'); [by eapply disturbed_inv| |done|done|
          apply env_refl; by eapply disturbed_inv].
        eapply (Hb s u1 a u1 [] s'); eauto. by rewrite app_nil_r.
      * subst u2. exact (Hb s _ a u1 (Ev e x :: k') s' Hi Hs Hx1 eq_refl Hd).
    + subst t2. apply disturbed_app in Hd as (s1 & Hd1 & Hd2).
      eapply (proj2 (Hk a) s1); [by eapply disturbed_inv| |done|done|done].
      eapply (Hb s t1 a t1 [] s1); eauto. by rewrite app_nil_r.
Qed.

(** What a program does not own, and others leave alone, stays as it is. *)
Lemma triple_frame {A} N M P (p : par E A) Q (F : S -> Prop) :
  triple N P p Q -> M ## N ->
  (forall s s', inv s -> F s -> inv s' -> (forall k, k ∈ M -> keeps k s s') -> F s') ->
  triple (N ++ M) (fun s => P s /\ F s) p (fun r s => Q r s /\ F s).
Proof.
  intros [Hc Hb] Hd HF. split.
  - intros s s1 Hi [Hs _] He. eapply Hc; eauto. eapply env_subseteq; [|done]. set_solver.
  - intros s t r t1 t2 s' Hi [Hs Hf] Hx Ht Hdi.
    assert (disturbed N s t1 s') as Hdn by (eapply disturbed_subseteq; [|done]; set_solver).
    specialize (Hb s t r t1 t2 s' Hi Hs Hx Ht Hdn) as Hn. destruct t2 as [|[X e x] t2]; simpl in *.
    + split; [done|]. eapply (HF s); [done..|by eapply disturbed_inv|]. intros k Hk.
      eapply (behaves_keeps N M P p Q s t r t1 []); eauto.
    + intros s2 Hst. eapply own_subseteq; [|by apply Hn]. set_solver.
Qed.

(** A program may own more than it writes. *)
Lemma triple_subseteq {A} N M P (p : par E A) Q : N ⊆ M -> triple N P p Q -> triple M P p Q.
Proof.
  intros Hs [Hc Hb]. split.
  - intros s s1 Hi HP He. eapply Hc; eauto. by eapply env_subseteq.
  - intros s t r t1 t2 s' Hi HP Hx Ht Hd.
    assert (disturbed N s t1 s') as Hdn by (by eapply disturbed_subseteq).
    specialize (Hb s t r t1 t2 s' Hi HP Hx Ht Hdn). destruct t2 as [|[X e x] t2]; [done|].
    intros s2 Hst. eapply own_subseteq; [done|by apply Hb].
Qed.

(** ** Groups *)

Section group.
Context (N : list K) (P : S -> Prop) (ps : list (par E (option error))).
Context (Ns : nat -> list K) (Ps : nat -> S -> Prop) (Qs : nat -> option error -> S -> Prop).
Context (Hps : forall i p, ps !! i = Some p -> triple (Ns i) (Ps i) p (Qs i)).
Context (HN : forall i, i < length ps -> Ns i ⊆ N).
Context (Hdisj : forall i j, i < length ps -> j < length ps -> i <> j -> Ns i ## Ns j).
Context (HP : forall s i, inv s -> P s -> i < length ps -> Ps i s).

(** What one member does is interference for the others. *)
Lemma members_disturbed ts rs s w : forall v s',
  inv s -> P s -> Forall3 pexec ps ts rs -> interleaves ts (v ++ w) -> disturbed N s v.*2 s' ->
  forall i, i < length ps -> disturbed (Ns i) s (thread i v) s'.
Proof.
  intros v. revert w. induction v as [|[j [X e x]] v IH] using rev_ind; intros w s' Hi Hs Hf Hint Hd i Hlt.
  - simpl in *. eapply env_subseteq; [|done]. auto.
  - rewrite fmap_app in Hd. apply disturbed_snoc in Hd as (s1 & s2 & Hd & Hst & He).
    rewrite <-app_assoc in Hint.
    assert (j < length ps) as Hj.
    { rewrite (Forall3_length_lm _ _ _ _ Hf). eapply (proj1 Hint j). apply elem_of_app. right. by left. }
    destruct (lookup_lt_is_Some_2 ps j Hj) as [p Hp].
    destruct (Forall3_lookup_l _ _ _ _ _ _ Hf Hp) as (t & r & Ht & Hr & Hx).
    assert (t = thread j v ++ Ev e x :: thread j w) as ->.
    { rewrite <-(proj2 Hint j t Ht), thread_app. cbn [app]. by rewrite thread_cons_eq. }
    pose proof (IH _ s1 Hi Hs Hf Hint Hd) as Hth.
    assert (own (Ns j) s1 s2) as Hown.
    { exact (proj2 (Hps j p Hp) s _ r (thread j v) (Ev e x :: thread j w) s1 Hi (HP _ _ Hi Hs Hj) Hx eq_refl (Hth j Hj) s2 Hst). }
    assert (env (Ns i) s2 s') as Hei by (eapply env_subseteq; [|done]; auto).
    rewrite thread_app. destruct (decide (j = i)) as [->|Hne].
    + rewrite thread_cons_eq. apply disturbed_snoc. exists s1, s2. auto.
    + rewrite thread_cons_ne by done. rewrite app_nil_r. eapply disturbed_env_r; [by apply Hth|].
      eapply env_trans; [|done]. eapply own_env; [|done]. auto.
Qed.

Lemma members_run n : n <= length ps -> forall s s1, inv s -> P s -> env N s s1 ->
  exists ts rs s2, Forall3 pexec (take n ps) ts rs /\ play s1 (concat ts) s2 /\ inv s2 /\
    forall i, n <= i < length ps -> env (Ns i) s s2.
Proof.
  intros Hn s s1 Hi Hs He. induction n as [|n IH].
  - exists [], [], s1. split_and!; [constructor|done|by destruct He|].
    intros i [_ Hlt]. eapply env_subseteq; [|done]. auto.
  - destruct IH as (ts & rs & s2 & Hf & Hpl & Hi2 & Hrest); [lia|].
    destruct (lookup_lt_is_Some_2 ps n Hn) as [p Hp].
    assert (Ps n s) as HPn by (apply HP; [done..|lia]).
    destruct (proj1 (Hps n p Hp) s s2 Hi HPn) as (t & r & s3 & Hx & Hpl3); [apply Hrest; lia|].
    assert (behaves (Ns n) (env (Ns n) s) p (Qs n)) as Hb.
    { intros s4 t' r' u1 u2 s' Hi4 He4 Hx4 Ht Hd. eapply (proj2 (Hps n p Hp) s); eauto. by eapply disturbed_env_l. }
    assert (env (Ns n) s s2) as Hen by (apply Hrest; lia).
    destruct (behaves_play (Ns n) _ p _ s2 t r s3 Hb Hi2 Hen Hx Hpl3) as (Hd & Hi3 & _).
    exists (ts ++ [t]), (rs ++ [r]), s3. split_and!; [|rewrite concat_app; simpl; rewrite app_nil_r; apply play_app; eauto|done|].
    + rewrite (take_S_r _ _ _ Hp). apply Forall3_app; [done|]. by repeat constructor.
    + intros i Hlt. eapply env_trans; [apply Hrest; lia|]. split; [done|]. intros k Hk.
      assert (Ns n ## Ns i) as Hni by (apply Hdisj; lia).
      apply (behaves_keeps (Ns n) (Ns i) _ _ _ s2 t r t [] s3 Hb); auto; [by rewrite app_nil_r|set_solver].
Qed.

Lemma triple_errgroup :
  triple N P (errgroup ps) (fun r s => exists rs, length rs = length ps /\ waits rs r /\
    forall i a, rs !! i = Some a -> Qs i a s).
Proof.
  split.
  - intros s s1 Hi Hs He. destruct (members_run (length ps) (le_n _) s s1 Hi Hs He) as (ts & rs & s2 & Hf & Hpl & _).
    rewrite firstn_all in Hf. destruct (interleaves_seq ts) as (u & Hint & Hu).
    destruct (waits_some rs) as [r Hw]. exists (concat ts), r, s2. split; [|done].
    apply pexec_errgroup. exists ts, rs, u. auto.
  - intros s t r t1 t2 s' Hi Hs (ts & rs & u & -> & Hf & Hint & Hw)%pexec_errgroup Ht Hd.
    apply fmap_app_inv in Ht as (v & w & -> & -> & ->).
    pose proof (members_disturbed _ _ _ w v s' Hi Hs Hf Hint Hd) as Hth. destruct w as [|[j [X e x]] w].
    + exists rs. split_and!; [by rewrite <-(Forall3_length_lr _ _ _ _ Hf)|done|]. intros i a Ha.
      destruct (Forall3_lookup_r _ _ _ _ _ _ Hf Ha) as (p & t & Hp & Ht & Hx).
      assert (i < length ps) as Hlt by (by eapply lookup_lt_Some). rewrite app_nil_r in Hint.
      assert (t = thread i v) as -> by (by rewrite <-(proj2 Hint i t Ht)).
      apply (proj2 (Hps i p Hp) s _ a (thread i v) [] s' Hi (HP _ _ Hi Hs Hlt) Hx); [by rewrite app_nil_r|auto].
    + intros s2 Hst.
      assert (j < length ps) as Hj.
      { rewrite (Forall3_length_lm _ _ _ _ Hf). eapply (proj1 Hint j). apply elem_of_app. right. by left. }
      destruct (lookup_lt_is_Some_2 ps j Hj) as [p Hp].
      destruct (Forall3_lookup_l _ _ _ _ _ _ Hf Hp) as (t & r' & Ht & Hr & Hx).
      rewrite <-(proj2 Hint j t Ht), thread_app, thread_cons_eq in Hx. eapply own_subseteq; [by apply HN|].
      exact (proj2 (Hps j p Hp) s _ r' (thread j v) (Ev e x :: thread j w) s' Hi (HP _ _ Hi Hs Hj) Hx eq_refl (Hth j Hj) s2 Hst).
Qed.

End group.

End ownership.

(** ** Programs of a component, in a program with more calls *)

Section transport.
Context {F E : Type -> Type} `{Subeffect F E} {S K : Type}.
Context (stepF : forall X, F X -> S -> S -> X -> Prop) (stepE : forall X, E X -> S -> S -> X -> Prop).
Context (inv : S -> Prop) (keeps : K -> S -> S -> Prop).
Context (step_inject : forall X (f : F X) s s' x, stepE _ (inject f) s s' x <-> stepF _ f s s' x).

Lemma play_inject (t : trace F) : forall s s', play stepE s (map inject_event t) s' <-> play stepF s t s'.
Proof. induction t as [|[X f x] t IH]; intros s s'; simpl; [done|]. setoid_rewrite IH. by setoid_rewrite step_inject. Qed.

Lemma disturbed_inject N (t : trace F) : forall s s',
  disturbed stepE inv keeps N s (map inject_event t) s' <-> disturbed stepF inv keeps N s t s'.
Proof. induction t as [|[X f x] t IH]; intros s s'; simpl; [done|]. setoid_rewrite IH. by setoid_rewrite step_inject. Qed.

Lemma triple_embed {A} N P (p : par F A) Q :
  triple stepF inv keeps N P p Q -> triple stepE inv keeps N P (embed p) Q.
Proof.
  intros [Hc Hb]. split.
  - intros s s1 Hi Hs He. destruct (Hc s s1 Hi Hs He) as (t & r & s' & Hx & Hp).
    exists (map inject_event t), r, s'. rewrite pexec_embed, play_inject. eauto.
  - intros s t r t1 t2 s' Hi Hs (t0 & -> & Hx)%pexec_embed Ht Hd.
    apply map_eq_app in Ht as (u1 & u2 & -> & <- & <-). apply disturbed_inject in Hd.
    specialize (Hb s _ r u1 u2 s' Hi Hs Hx eq_refl Hd). destruct u2 as [|[X f x] u2]; simpl in *; [done|].
    intros s2 Hst. apply Hb. by apply step_inject.
Qed.

End transport.

Lemma pexec_lift_refl {E} {A} (p : prog E A) (t : trace E) r : pexec (lift (E := E) p) t r <-> exec p t r.
Proof.
  rewrite pexec_lift. split; [intros (t0 & -> & Hx); by rewrite inject_event_refl|].
  intros Hx. exists t. by rewrite inject_event_refl.
Qed.

(** Sequential programs compose when they are lifted, too. *)
Lemma pexec_lift_bind {E} {A B} (k : A -> prog E B) (p : prog E A) (t : trace E) r :
  pexec (lift (E := E) (mbind k p)) t r <-> pexec (mbind (fun a => lift (k a)) (lift p)) t r.
Proof. rewrite pexec_bind, pexec_lift_refl, exec_bind. by setoid_rewrite pexec_lift_refl. Qed.

Lemma pexec_pinterp_bind {E F A B} (h : forall X, E X -> par F X) (k : A -> prog E B) (p : prog E A) (t : trace F) r :
  pexec (pinterp h (mbind k p)) t r <-> pexec (mbind (fun a => pinterp h (k a)) (pinterp h p)) t r.
Proof.
  revert t. induction p as [a|X e k' IH]; intros t; [done|].
  change (pinterp h (mbind k (Call e k'))) with (mbind (fun x => pinterp h (mbind k (k' x))) (h _ e)).
  change (pinterp h (Call e k')) with (mbind (fun x => pinterp h (k' x)) (h _ e)).
  rewrite !pexec_bind. setoid_rewrite IH. setoid_rewrite pexec_bind. split.
  - intros (t1 & ? & x & -> & Hx & t2 & t3 & a & -> & H2 & H3). exists (t1 ++ t2), t3, a. rewrite <-app_assoc. eauto 15.
  - intros (? & t3 & a & -> & (t1 & t2 & x & -> & Hx & H2) & H3). exists t1, (t2 ++ t3), x. rewrite <-app_assoc. eauto 15.
Qed.

Arguments triple_consequence {E S K step inv keeps A N P} P' {p Q} Q' _ _ _.
Arguments triple_equiv {E S K step inv keeps A N P} p p' {Q} _ _.
Arguments triple_pure {E S K step inv keeps A N P p Q} _.
Arguments triple_ret {E S K step inv keeps A N P a Q} _.
Arguments triple_call {E S K step inv keeps _ A X N P e k} R {Q} _ _.
Arguments triple_bind {E S K step inv keeps _ A B N P p k} R {Q} _ _.
Arguments triple_frame {E S K step inv keeps _ A N} M {P p Q} F _ _ _.
Arguments triple_subseteq {E S K step inv keeps _ A} N {M P p Q} _ _.
Arguments triple_errgroup {E S K step inv keeps _ N P ps} Ns Ps Qs _ _ _ _.
