(* ===== verification/Convergence.v ===== *)
(** * Convergence: trees of provisioners reach their goals, step by step

    A leaf of a tree (Combinators) is told to bring something up or to tear it
    down.  Where it finds that done, it says so; where it does not, it starts it
    and yields, and the world finishes what was started before the tree is run
    again.  For a tree whose leaves work on things of their own, every run is
    then one that found everything done, or one that started something, whatever
    its groups interleave: nothing that was reached is lost.  This is proved in
    the logic of Ownership. *)

From S2P Require Import Prelude Errors Effects Provisioning Concurrency Combinators Ownership.

(** Run in order, stopping at the first error, as a program. *)
Fixpoint sequence {E : Type -> Type} (ps : list (par E (option error))) : par E (option error) :=
  match ps with [] => mret None | p :: ps' => pcheck p (sequence ps') end.

Lemma pexec_sequence {E} (ps : list (par E (option error))) : forall (t : trace E) r,
  pexec (sequence ps) t r <-> in_order ps t r.
Proof.
  induction ps as [|p ps IH]; intros t r; simpl.
  - split; [intros [-> ->]; constructor|intros H; by inversion H].
  - by apply pcheck_in_order.
Qed.

(** One direction of a provisioner: up, or down. *)
Definition direction {E : Type -> Type} {C : Type} (up : bool) (p : Provisioner E C) (ctx : C) : par E (option error) :=
  if up then Provision p ctx else Deprovision p ctx.

(** What is told to each leaf of a tree, conditions being what they are. *)
Fixpoint goals {E : Type -> Type} {C : Type} (decides : E bool -> bool) (up : bool) (T : tree E C) : list (string * bool) :=
  match T with
  | Leaf p => [(ProvisionerName p, up)]
  | Serial _ l | Concurrent _ l => concat (map (goals decides up) l)
  | Conditional _ c T' => goals decides (up && decides c) T'
  end.

Fixpoint conditions {E : Type -> Type} {C : Type} (T : tree E C) : list (E bool) :=
  match T with
  | Leaf _ => []
  | Serial _ l | Concurrent _ l => concat (map conditions l)
  | Conditional _ c T' => c :: conditions T'
  end.

Definition names {E : Type -> Type} {C : Type} (T : tree E C) : list string := map ProvisionerName (leaves T).

Section parts.
Context {E : Type -> Type} {C K : Type} (part : string -> K) (decides : E bool -> bool).

(** The parts the leaves of a tree work on. *)
Definition parts (T : tree E C) : list K := map part (names T).

Lemma parts_concat l : map part (map ProvisionerName (concat (map leaves l))) = concat (map parts l).
Proof. induction l as [|T l IH]; [done|]. simpl. by rewrite !map_app, IH. Qed.

Lemma goals_parts (T : tree E C) : forall up n b, (n, b) ∈ goals decides up T -> part n ∈ parts T.
Proof.
  induction T as [p|name l IH|name l IH|name c T IH] using tree_induction; intros up n b Hin; simpl in *.
  - apply list_elem_of_singleton in Hin. simplify_eq. unfold parts, names. simpl. set_solver.
  - unfold parts, names. simpl. rewrite parts_concat. apply elem_of_concat_map in Hin as (T & HT & Hin).
    apply elem_of_concat_map. exists T. split; [done|]. rewrite Forall_forall in IH. by eapply IH.
  - unfold parts, names. simpl. rewrite parts_concat. apply elem_of_concat_map in Hin as (T & HT & Hin).
    apply elem_of_concat_map. exists T. split; [done|]. rewrite Forall_forall in IH. by eapply IH.
  - by eapply IH.
Qed.

End parts.

Section convergence.
Context {E : Type -> Type} {S K C : Type}.
Context (step : forall X, E X -> S -> S -> X -> Prop) (inv : S -> Prop) (keeps : K -> S -> S -> Prop).
Context `{Hkeeps : forall k, PreOrder (keeps k)}.

(** The part a leaf works on, when what it is told to do is done, and how the
    world finishes what was started. *)
Context (part : string -> K) (met : string -> bool -> S -> Prop) (settle : S -> S).
Context (met_settle : forall n b s s', inv s -> inv s' -> keeps (part n) s s' -> met n b (settle s) -> met n b (settle s')).

Abbreviation triple := (Ownership.triple step inv keeps).
Abbreviation env := (Ownership.env inv keeps).
Abbreviation own := (Ownership.own inv keeps).

(** A state in which nothing is under way. *)
Definition calm (s : S) : Prop := inv s /\ forall n b, met n b s -> met n b (settle s).

(** A run from [s0] that ended in [s] with [r]: it lost nothing, and found all
    of [G] done, or brought something forward. *)
Definition progress (G : list (string * bool)) (s0 : S) (r : option error) (s : S) : Prop :=
  (forall n b, (n, b) ∈ G -> met n b s0 -> met n b (settle s)) /\
  ((r = None /\ forall n b, (n, b) ∈ G -> met n b s0) \/
   (r = Some provisioners.ErrYield /\ exists n b, (n, b) ∈ G /\ ~ met n b s0 /\ met n b (settle s))).

(** [p] advances [G], owning [N]. *)
Definition advances (N : list K) (G : list (string * bool)) (s0 : S) (p : par E (option error)) : Prop :=
  (forall n b, (n, b) ∈ G -> part n ∈ N) /\
  triple N (fun s => forall k, k ∈ N -> keeps k s0 s) p (progress G s0).

Lemma progress_stable (N : list K) G s0 r s s' :
  (forall n b, (n, b) ∈ G -> part n ∈ N) -> inv s -> inv s' -> (forall k, k ∈ N -> keeps k s s') ->
  progress G s0 r s -> progress G s0 r s'.
Proof.
  intros HN Hi Hi' Hk [Hm Hr]. assert (forall n b, (n, b) ∈ G -> met n b (settle s) -> met n b (settle s')) as Hs by eauto.
  split; [eauto|]. destruct Hr as [?|(-> & n & b & Hr)]; [by left|right]. naive_solver.
Qed.

Lemma advances_ret s0 : advances [] [] s0 (mret None).
Proof.
  split; [by intros n b ?%elem_of_nil|]. apply triple_ret. intros s s' _ _ _.
  split; [by intros n b ?%elem_of_nil|]. left. split; [done|]. by intros n b ?%elem_of_nil.
Qed.

Lemma advances_equiv N G s0 p p' :
  (forall t r, pexec p t r <-> pexec p' t r) -> advances N G s0 p' -> advances N G s0 p.
Proof. intros Heq [HN Ht]. split; [done|by eapply triple_equiv]. Qed.

(** What a run leaves alone stays done. *)
Lemma kept_met s0 s n b : calm s0 -> inv s -> keeps (part n) s0 s -> met n b s0 -> met n b (settle s).
Proof. intros [Hi Hc] Hi' Hk Hm. apply (met_settle n b s0 s); auto. Qed.

Lemma advances_check N1 N2 G1 G2 s0 p q :
  calm s0 -> N1 ## N2 -> advances N1 G1 s0 p -> advances N2 G2 s0 q -> advances (N1 ++ N2) (G1 ++ G2) s0 (pcheck p q).
Proof.
  intros Hc Hd [HN1 Hp] [HN2 Hq]. split; [intros n b; rewrite !elem_of_app; intros [?|?]; eauto|].
  apply (triple_bind (fun r s => progress G1 s0 r s /\ forall k, k ∈ N2 -> keeps k s0 s)).
  { eapply triple_consequence; [apply (triple_frame N2 (fun s => forall k, k ∈ N2 -> keeps k s0 s) Hp)| |]; [set_solver| | |done].
    - intros s s' _ HF _ Hk k Hin. etrans; eauto.
    - intros s Hi Hk. split; intros k Hin; apply Hk; set_solver. }
  intros [e|]; simpl.
  - apply triple_ret. intros s s' Hi [[Hm Hr] HF] He. eapply (progress_stable (N1 ++ N2)).
    + intros n b. rewrite !elem_of_app. intros [?|?]; eauto.
    + exact Hi.
    + by destruct He.
    + intros k Hk. by apply He.
    + destruct Hr as [[? _]|(-> & n & b & Hin & Hn & Hs)]; [done|]. split.
      * intros n' b' [Hin'|Hin']%elem_of_app Hm'; [by apply Hm|]. eapply kept_met; eauto.
      * right. split; [done|]. exists n, b. set_solver.
  - eapply triple_consequence; [eapply (triple_subseteq (N2 ++ N1)); [set_solver|]|..].
    + apply (triple_frame N1 (progress G1 s0 None) Hq); [done|].
      intros s s' Hi HF Hi' Hk. exact (progress_stable N1 G1 s0 None s s' HN1 Hi Hi' Hk HF).
    + intros s Hi [HF Hk]. auto.
    + intros r s Hi [[Hm2 Hr2] [Hm1 Hr1]]. destruct Hr1 as [[_ Hall1]|[? _]]; [|done]. split.
      * intros n b [?|?]%elem_of_app; eauto.
      * destruct Hr2 as [[-> Hall2]|(-> & n & b & Hin & Hn & Hs)]; [left|right]; (split; [done|]).
        -- intros n b [?|?]%elem_of_app; eauto.
        -- exists n, b. set_solver.
Qed.

Lemma advances_perm N N' G G' s0 p : N ≡ₚ N' -> G ≡ₚ G' -> advances N G s0 p -> advances N' G' s0 p.
Proof.
  intros HN HG [Hsub Ht]. split; [intros n b; rewrite <-HN, <-HG; apply Hsub|].
  eapply (triple_subseteq N); [intros k Hk; by rewrite <-HN|].
  eapply triple_consequence; [exact Ht|intros s _ Hk k Hin; apply Hk; by rewrite <-HN|].
  intros r s _. unfold progress. by setoid_rewrite HG.
Qed.

Section members.
Context {X : Type} (f : X -> par E (option error)) (N : X -> list K) (G : X -> list (string * bool)) (s0 : S).
Context (Hcalm : calm s0).

Lemma advances_sequence l :
  (forall x, x ∈ l -> advances (N x) (G x) s0 (f x)) -> NoDup (concat (map N l)) ->
  advances (concat (map N l)) (concat (map G l)) s0 (sequence (map f l)).
Proof.
  intros Ha Hn. induction l as [|x l IH]; [apply advances_ret|]. simpl in *.
  apply NoDup_app in Hn as (_ & Hd & Hn).
  apply advances_check; [done|intros k; apply Hd|apply Ha; by left|].
  apply IH; [intros y Hy; apply Ha; by right|done].
Qed.

Lemma members_disjoint l i j x y :
  NoDup (concat (map N l)) -> l !! i = Some x -> l !! j = Some y -> i <> j -> N x ## N y.
Proof.
  revert i j. induction l as [|z l IH]; intros i j Hn Hi Hj Hne; [done|].
  simpl in Hn. apply NoDup_app in Hn as (_ & Hd & Hn).
  assert (forall n w, l !! n = Some w -> N z ## N w) as Hz.
  { intros n w Hw k Hk Hk'. apply (Hd k Hk), elem_of_concat_map. exists w. split; [by eapply list_elem_of_lookup_2|done]. }
  destruct i as [|i], j as [|j]; simplify_eq/=; [by eapply Hz|intros k Hk Hk'; by eapply (Hz i)|]. by eapply (IH i j); [..|lia].
Qed.

Lemma advances_group l :
  (forall x, x ∈ l -> advances (N x) (G x) s0 (f x)) -> NoDup (concat (map N l)) ->
  advances (concat (map N l)) (concat (map G l)) s0 (errgroup (map f l)).
Proof.
  intros Ha Hn.
  assert (forall x, x ∈ l -> N x ⊆ concat (map N l)) as Hsub.
  { intros x Hx k Hk. apply elem_of_concat_map. eauto. }
  split.
  { intros n b (x & Hx & Hin)%elem_of_concat_map. apply (Hsub x Hx). by eapply (Ha x). }
  eapply triple_consequence; [apply (triple_errgroup (fun i => from_option N [] (l !! i))
    (fun i s => forall x, l !! i = Some x -> forall k, k ∈ N x -> keeps k s0 s)
    (fun i r s => forall x, l !! i = Some x -> progress (G x) s0 r s)
    (P := fun s => forall k, k ∈ concat (map N l) -> keeps k s0 s))| |].
  - intros i p Hi. apply list_lookup_fmap_Some in Hi as (x & -> & Hx). rewrite Hx. simpl.
    eapply triple_consequence; [apply (Ha x); by eapply list_elem_of_lookup_2|intros s _ Hk; exact (Hk x eq_refl)|].
    intros r s _ Hp y Hy. by simplify_eq.
  - intros i _. destruct (l !! i) eqn:Hi; simpl; [|set_solver]. apply Hsub. by eapply list_elem_of_lookup_2.
  - intros i j _ _ Hne. destruct (l !! i) eqn:Hi; [|by intros k ?%elem_of_nil].
    destruct (l !! j) eqn:Hj; [by eapply members_disjoint|by intros k _ ?%elem_of_nil].
  - intros s i _ Hk _ x Hx k Hin. apply Hk. apply (Hsub x); [by eapply list_elem_of_lookup_2|done].
  - done.
  - intros r s _ (rs & Hlen & Hw & Hq). rewrite length_map in Hlen. split.
    + intros n b (x & [i Hx]%list_elem_of_lookup & Hin)%elem_of_concat_map Hm.
      destruct (lookup_lt_is_Some_2 rs i) as [a Hra]; [rewrite Hlen; by eapply lookup_lt_Some|].
      by apply (Hq i a Hra x Hx).
    + destruct r as [e|]; simpl in Hw.
      * apply list_elem_of_lookup in Hw as [i Hi]. destruct (lookup_lt_is_Some_2 l i) as [x Hx];
          [rewrite <-Hlen; by eapply lookup_lt_Some|].
        destruct (Hq i _ Hi x Hx) as [_ [[? _]|(-> & n & b & Hin & Hr)]]; [done|right]. split; [done|].
        exists n, b. split; [|done]. apply elem_of_concat_map. exists x. split; [by eapply list_elem_of_lookup_2|done].
      * left. split; [done|]. intros n b (x & [i Hx]%list_elem_of_lookup & Hin)%elem_of_concat_map.
        destruct (lookup_lt_is_Some_2 rs i) as [a Hra]; [rewrite Hlen; by eapply lookup_lt_Some|].
        rewrite Forall_lookup in Hw. specialize (Hw i a Hra). subst a.
        destruct (Hq i None Hra x Hx) as [_ [[_ Hall]|[? _]]]; [by apply Hall|done].
Qed.

End members.

(** ** Trees *)

(** A leaf does what it is told, working on its own part. *)
Definition obedient (ctx : C) (p : Provisioner E C) (s0 : S) : Prop :=
  forall up, advances [part (ProvisionerName p)] [(ProvisionerName p, up)] s0 (direction up p ctx).

(** A condition that is asked writes nothing, and is answered as it is decided. *)
Definition decided (decides : E bool -> bool) (c : E bool) : Prop :=
  forall s, inv s -> (exists s' x, step _ c s s' x) /\ forall s' x, step _ c s s' x -> x = decides c /\ own [] s s'.

Lemma concat_reverse {X Y} (g : X -> list Y) l : concat (map g (reverse l)) ≡ₚ concat (map g l).
Proof.
  induction l as [|x l IH]; [done|]. rewrite reverse_cons, map_app, concat_app. simpl.
  by rewrite app_nil_r, IH, Permutation_app_comm.
Qed.

Lemma advances_condition decides c N G1 G2 s0 p q :
  decided decides c -> (forall n b, (n, b) ∈ G1 ++ G2 -> part n ∈ N) ->
  (decides c = true -> advances N G1 s0 p) -> (decides c = false -> advances N G2 s0 q) ->
  advances N (if decides c then G1 else G2) s0 (x ← pcall c; if negb x then q else p).
Proof.
  intros Hc HN Hp Hq. split; [intros n b Hin; apply (HN n b); destruct (decides c); set_solver|].
  apply (triple_call (fun x s => x = decides c /\ forall k, k ∈ N -> keeps k s0 s)).
  - intros s s1 Hi Hk [Hi1 He]. destruct (Hc s1 Hi1) as [Hex Hall]. split; [done|].
    intros s2 x Hst. destruct (Hall s2 x Hst) as (-> & Hi2 & Ho). split.
    + split; [done|]. intros k Hn. apply Ho. set_solver.
    + split; [done|]. intros k Hin. etrans; [by apply Hk|]. etrans; [by apply He|]. apply Ho. set_solver.
  - intros x. simpl. destruct (decide (x = decides c)) as [->|Hne].
    + eapply triple_consequence; [|intros s _ [_ Hk]; exact Hk|done].
      destruct (decides c); simpl; [by apply Hp|by apply Hq].
    + apply triple_pure. intros s _ [? _]. by destruct Hne.
Qed.

Context (decides : E bool -> bool) (ctx : C) (s0 : S) (Hcalm : calm s0).

Lemma NoDup_member (l : list (tree E C)) T :
  NoDup (concat (map (parts part) l)) -> T ∈ l -> NoDup (parts part T).
Proof.
  intros Hn (l1 & l2 & ->)%list_elem_of_split. rewrite map_app, concat_app in Hn. simpl in Hn.
  apply NoDup_app in Hn as (_ & _ & Hn). by apply NoDup_app in Hn as (Hn & _).
Qed.

(** What is asked of a tree. *)
Definition sound (T : tree E C) : Prop :=
  NoDup (parts part T) /\ (forall p, p ∈ leaves T -> obedient ctx p s0) /\ (forall c, c ∈ conditions T -> decided decides c).

Lemma sound_member l T name : sound (Serial name l) -> T ∈ l -> sound T.
Proof.
  intros (Hn & Hob & Hc) HT. unfold parts, names in Hn. simpl in Hn. rewrite parts_concat in Hn.
  split_and!; [by eapply NoDup_member|..]; intros x Hx; [apply Hob|apply Hc];
    simpl; apply elem_of_concat_map; eauto.
Qed.

(** A tree of obedient leaves makes progress, in either direction, whatever its
    groups interleave. *)
Lemma tree_advances (T : tree E C) :
  sound T -> forall up, advances (parts part T) (goals decides up T) s0 (direction up (denote T) ctx).
Proof.
  assert (forall name l, sound (Serial name l) ->
    Forall (fun T => sound T -> forall up, advances (parts part T) (goals decides up T) s0 (direction up (denote T) ctx)) l ->
    forall up T, T ∈ l -> advances (parts part T) (goals decides up T) s0 (direction up (denote T) ctx)) as Hl.
  { intros name l Hs IH up T' HT. rewrite Forall_forall in IH. apply IH; [done|by eapply sound_member]. }
  induction T as [p|name l IH|name l IH|name c T IH] using tree_induction; intros Hs up.
  - apply Hs. left.
  - specialize (Hl name l Hs IH). destruct Hs as (Hn & _). unfold parts, names in *. simpl in *. rewrite parts_concat in Hn |- *. destruct up.
    + eapply (advances_equiv _ _ _ _ (sequence (map (fun T => direction true (denote T) ctx) l))).
      { intros t r. rewrite pexec_sequence. simpl. rewrite serial_provision_spec. by rewrite <-list_fmap_compose. }
      apply (advances_sequence _ (parts part)); [done|apply Hl|done].
    + eapply (advances_equiv _ _ _ _ (sequence (map (fun T => direction false (denote T) ctx) (reverse l)))).
      { intros t r. rewrite pexec_sequence. simpl. rewrite serial_deprovision_spec.
        rewrite <-fmap_reverse. by rewrite <-list_fmap_compose. }
      eapply advances_perm; [apply concat_reverse..|].
      apply (advances_sequence _ (parts part)); [done|intros T HT; apply Hl; by rewrite elem_of_reverse in HT|].
      by rewrite concat_reverse.
  - specialize (Hl name l Hs IH). destruct Hs as (Hn & _). unfold parts, names in *. simpl in *. rewrite parts_concat in Hn |- *.
    eapply (advances_equiv _ _ _ _ (errgroup (map (fun T => direction up (denote T) ctx) l))).
    { intros t r. destruct up; simpl; unfold concurrent.Provision, concurrent.Deprovision; by rewrite map_map. }
    apply (advances_group _ (parts part)); [done|apply Hl|done].
  - assert (sound T) as HT by (destruct Hs as (Hn & Hob & Hc); split_and!; [done..|intros c' Hc'; apply Hc; by right]).
    destruct up; simpl; [|by apply (IH HT false)].
    eapply advances_perm; [done| |apply (advances_condition decides c _ (goals decides true T) (goals decides false T))].
    + by destruct (decides c).
    + apply Hs. left.
    + intros n b [Hin|Hin]%elem_of_app; exact (goals_parts part decides T _ n b Hin).
    + intros _. exact (IH HT true).
    + intros _. exact (IH HT false).
Qed.

End convergence.
