(* ===== verification/World.v ===== *)
(** * World: an environment in which a controller's provisioners work

    An API server that keeps a resource and the applications of Argo CD, getters
    and generators that answer, and an Argo CD that, between two reconciles,
    brings up what it was told to run and removes what it was told to delete.
    In it the driver of ArgoCD, and so a leaf of Stack, does what it is told
    (Convergence): it finds its application done, or starts it and yields,
    touching no other application.  Lifecycle runs a controller in it. *)

From S2P Require Import Prelude Errors Effects Kubernetes Conditions Provisioning ProvisioningLog References.
From S2P Require Import Manager Concurrency Combinators CD ArgoCD ArgoCDFacts Application Conversion Stack.
From S2P Require Import Ownership Convergence.

(** ** The world a controller runs in *)

(** The resource, as long as the API has it, and the objects of Argo CD. *)
Record world (O : Type) := { object : option O; server : apiserver }.

Arguments object {O} _.
Arguments server {O} _.

(** An application as the API creates it: under its prefix and a random suffix. *)
Definition created (a : argoprojv1.Application) (suffix : string) : argoprojv1.Application :=
  {| argoprojv1.GenerateName := argoprojv1.GenerateName a;
     argoprojv1.ObjectMeta :=
       let m := argoprojv1.ObjectMeta a in
       {| metav1.Name := argoprojv1.GenerateName a +:+ suffix; metav1.Namespace := metav1.Namespace m;
          metav1.Generation := metav1.Generation m; metav1.CreationTimestamp := metav1.CreationTimestamp m;
          metav1.DeletionTimestamp := metav1.DeletionTimestamp m; metav1.Labels := metav1.Labels m;
          metav1.Annotations := metav1.Annotations m; metav1.Finalizers := metav1.Finalizers m |};
     argoprojv1.Spec := argoprojv1.Spec a;
     argoprojv1.Status := {| argoprojv1.Health := None; argoprojv1.Sync := None |} |}.

Definition with_applications (l : list argoprojv1.Application) (s : apiserver) : apiserver :=
  {| applications := l; secrets := secrets s; generated := generated s |}.

(** The calls of the driver are answered as ArgoCD's server does, but for the
    names of new applications, which can be any that are free. *)
Definition argo_step {X : Type} (e : argoE X) (s s' : apiserver) : X -> Prop :=
  match e in argoE Y return Y -> Prop with
  | CreateApplication a => fun x =>
    exists suffix, app_name (created a suffix) ∉ map app_name (applications s) /\
      s' = with_applications (applications s ++ [created a suffix]) s /\ x = (created a suffix, None)
  | e' => fun x => serve _ e' s = (s', x)
  end.

(** What Argo CD makes of an application between two reconciles. *)
Definition finished (a : argoprojv1.Application) : option argoprojv1.Application :=
  match metav1.DeletionTimestamp (argoprojv1.ObjectMeta a) with
  | Some _ => None
  | None =>
    Some {| argoprojv1.GenerateName := argoprojv1.GenerateName a; argoprojv1.ObjectMeta := argoprojv1.ObjectMeta a;
            argoprojv1.Spec := argoprojv1.Spec a;
            argoprojv1.Status := {| argoprojv1.Health := Some argoprojv1.Healthy; argoprojv1.Sync := Some argoprojv1.Synced |} |}
  end.

Definition settle {O} (w : world O) : world O :=
  {| object := object w; server := with_applications (omap finished (applications (server w))) (server w) |}.

Section world.
Context `{Semver} {V O : Type} {F : Type -> Type} `{Object O}.

(** What the getter and the generator of an application answer, by the name of
    its leaf, and what other provisioners and conditions do. *)
Context (catalogue : string -> forall X, appE V X -> X -> Prop) (other : forall X, F X -> X -> Prop).

Definition provision_step (X : Type) (e : provisionE V F X) (w w' : world O) (x : X) : Prop :=
  match e with
  | AppCall leaf e' => w' = w /\ catalogue leaf X e' x
  | DriverCall e' => object w' = object w /\ argo_step e' (server w) (server w') x
  | OtherCall e' => w' = w /\ other X e' x
  end.

(** What the API keeps of an object that is updated. *)
Definition kept (o : O) : option O :=
  match GetDeletionTimestamp o, GetFinalizers o with
  | Some _, [] => None
  | _, _ => Some o
  end.

Definition manager_step {X : Type} (e : managerE O X) (w w' : world O) : X -> Prop :=
  match e in managerE _ Y return Y -> Prop with
  | GetObject => fun x =>
    w' = w /\ match object w with Some o => x = (o, None) | None => x.2 = Some notFound end
  | UpdateObject o => fun x =>
    match object w with
    | Some _ => w' = {| object := kept o; server := server w |} /\ x = (o, None)
    | None => w' = w /\ x = (o, Some notFound)
    end
  | UpdateStatus o => fun x =>
    match object w with
    | Some _ => w' = {| object := Some o; server := server w |} /\ x = (o, None)
    | None => w' = w /\ x = (o, Some notFound)
    end
  | EmitLog _ => fun _ => w' = w
  | Manager.Provision _ => fun _ => False
  | Manager.Deprovision _ => fun _ => False
  end.

Definition controller_step (X : Type) (e : controllerE O V F X) (w w' : world O) (x : X) : Prop :=
  match e with
  | ManagerCall e' => manager_step e' w w' x
  | ProvisionerCall e' => provision_step X e' w w' x
  end.

End world.

(** ** Parts of the world *)

Section parts.
Context {O : Type} `{MapOrder} (l : gmap string string).
Implicit Types (w : world O) (name : string).

(** The identifier of the application [name] of a resource whose labels are [l],
    and the applications the API has under it. *)
Definition identifier name : cd.ResourceIdentifier := application.resourceID name l.

Definition view name w : list argoprojv1.Application := matching (identifier name) (server w).

(** The object is a part, and the applications of each name. *)
Definition keeps (k : option string) w w' : Prop :=
  match k with None => object w = object w' | Some name => view name w = view name w' end.

#[export] Instance keeps_preorder k : PreOrder (keeps k).
Proof. destruct k as [n|]; split; unfold keeps; [done|intros ???; by etrans|done|intros ???; by etrans]. Qed.

(** Names are unique, and there is one application under an identifier at most. *)
Definition inv w : Prop :=
  NoDup (map app_name (applications (server w))) /\ forall name, length (view name w) <= 1.

(** An application is there, or it is not. *)
Definition present name (up : bool) w : Prop := length (view name w) = if up then 1 else 0.

#[export] Instance present_dec name up w : Decision (present name up w).
Proof. unfold present. apply _. Defined.

(** The resource's own labels leave the application's label to it. *)
Context (Hl : l !! constants.ApplicationLabel = None).

Lemma identifier_well_formed name : well_formed (identifier name).
Proof.
  split; [apply resourceID_NoDup|]. intros ([k v] & Hk & Hin)%list_elem_of_fmap. simpl in Hk. subst k.
  apply resourceID_labels in Hin. by rewrite Hl in Hin.
Qed.

Lemma labels_name name : argocd.applicationLabels (identifier name) !! constants.ApplicationLabel = Some name.
Proof.
  unfold argocd.applicationLabels. apply addLabels_lookup; [apply identifier_well_formed|]. right.
  split; [apply identifier_well_formed|]. by rewrite lookup_singleton_eq.
Qed.

(** An application is under one name. *)
Lemma selects_name name a :
  argocd.selects (argocd.applicationLabels (identifier name)) (argoprojv1.app_Labels a) = true ->
  argoprojv1.app_Labels a !! constants.ApplicationLabel = Some name.
Proof. intros Hs%selects_spec. by eapply lookup_weaken; [apply labels_name|]. Qed.

Lemma selects_other name name' a :
  argocd.selects (argocd.applicationLabels (identifier name)) (argoprojv1.app_Labels a) = true -> name' <> name ->
  argocd.selects (argocd.applicationLabels (identifier name')) (argoprojv1.app_Labels a) <> true.
Proof. intros H1%selects_name Hne H2%selects_name. congruence. Qed.

Lemma finished_labels a b : finished a = Some b -> argoprojv1.app_Labels b = argoprojv1.app_Labels a.
Proof. unfold finished. destruct (metav1.DeletionTimestamp _); intros; by simplify_eq. Qed.

Lemma finished_name a b : finished a = Some b -> app_name b = app_name a.
Proof. unfold finished. destruct (metav1.DeletionTimestamp _); intros; by simplify_eq. Qed.

Lemma view_settle name w : view name (settle w) = omap finished (view name w).
Proof.
  unfold view, matching, settle. simpl. induction (applications (server w)) as [|a apps IH]; [done|].
  csimpl. rewrite filter_cons. destruct (finished a) as [b|] eqn:Hf.
  - rewrite filter_cons, (finished_labels _ _ Hf), IH. destruct (decide _); csimpl; by rewrite ?Hf.
  - rewrite IH. destruct (decide _); csimpl; by rewrite ?Hf.
Qed.

Lemma omap_length {A B} (f : A -> option B) (k : list A) : length (omap f k) <= length k.
Proof. induction k as [|a k IH]; csimpl; [lia|]. destruct (f a); csimpl; lia. Qed.

Lemma inv_settle w : inv w -> inv (settle w).
Proof.
  intros [Hn Hv]. split.
  - unfold settle. simpl. induction (applications (server w)) as [|a apps IH]; [constructor|].
    csimpl. csimpl in Hn. apply NoDup_cons in Hn as [Ha Hn]. destruct (finished a) as [b|] eqn:Hf; [|by apply IH].
    csimpl. constructor; [|by apply IH]. rewrite (finished_name _ _ Hf). intros (c & Hc & Hin)%list_elem_of_fmap.
    apply list_elem_of_omap in Hin as (d & Hin & Hd). destruct Ha. rewrite Hc, (finished_name _ _ Hd). by apply list_elem_of_fmap_2.
  - intros name. rewrite view_settle. specialize (Hv name). pose proof (omap_length finished (view name w)). lia.
Qed.

Lemma present_settle name up w w' :
  inv w -> inv w' -> keeps (Some name) w w' -> present name up (settle w) -> present name up (settle w').
Proof. unfold present, keeps. intros _ _ Hk. by rewrite !view_settle, Hk. Qed.

Abbreviation own := (Ownership.own inv keeps).
Abbreviation selected name a := (argocd.selects (argocd.applicationLabels (identifier name)) (argoprojv1.app_Labels a) = true).

(** Writing over the one application of a name touches that name only. *)
Lemma own_replaced name w w' l1 a b l2 :
  inv w -> view name w = [a] -> applications (server w) = l1 ++ a :: l2 ->
  object w' = object w -> applications (server w') = l1 ++ b :: l2 ->
  app_name b = app_name a -> selected name b -> own [Some name] w w' /\ view name w' = [b].
Proof.
  intros [Hn Hv] Hview Hw Ho Hw' Hname Hb.
  assert (selected name a) as Ha.
  { assert (a ∈ view name w) as Hin by (rewrite Hview; by left). by apply list_elem_of_filter in Hin as [? _]. }
  assert (view name w' = [b]) as Hb'.
  { unfold view, matching in *. rewrite Hw' , Hw, !filter_app in *. rewrite filter_cons_True in Hview |- * by done.
    destruct (base.filter _ l1) as [|x k]; [|by destruct k]. simplify_eq/=. by rewrite Hview. }
  assert (forall m, m <> name -> view m w' = view m w) as Hother.
  { intros m Hm. unfold view, matching. rewrite Hw', Hw, !filter_app, !filter_cons_False; [done|by eapply selects_other..]. }
  split; [|done]. split; [split|].
  - rewrite Hw' . rewrite Hw in Hn. rewrite map_app in *. simpl in *. by rewrite Hname.
  - intros m. destruct (decide (m = name)) as [->|Hm]; [by rewrite Hb'|by rewrite Hother].
  - intros [m|] Hm; simpl; [|by rewrite Ho]. rewrite Hother; [done|]. intros ->. apply Hm. by left.
Qed.

(** Creating one does, too. *)
Lemma own_created name w w' b :
  inv w -> view name w = [] -> object w' = object w -> applications (server w') = applications (server w) ++ [b] ->
  app_name b ∉ map app_name (applications (server w)) -> selected name b ->
  own [Some name] w w' /\ view name w' = [b].
Proof.
  intros [Hn Hv] Hview Ho Hw' Hname Hb.
  assert (view name w' = [b]) as Hb'.
  { unfold view, matching in *. by rewrite Hw', filter_app, Hview, filter_cons_True. }
  assert (forall m, m <> name -> view m w' = view m w) as Hother.
  { intros m Hm. unfold view, matching. rewrite Hw', filter_app, filter_cons_False; [by rewrite app_nil_r|by eapply selects_other]. }
  split; [|done]. split; [split|].
  - rewrite Hw', map_app. apply NoDup_app. split_and!; [done|set_solver|apply NoDup_singleton].
  - intros m. destruct (decide (m = name)) as [->|Hm]; [by rewrite Hb'|by rewrite Hother].
  - intros [m|] Hm; simpl; [|by rewrite Ho]. rewrite Hother; [done|]. intros ->. apply Hm. by left.
Qed.

Lemma own_same N w : inv w -> own N w w.
Proof. by split. Qed.

(** The one application of a name, where the API has it. *)
Lemma view_split name w a :
  view name w = [a] -> selected name a /\ exists l1 l2, applications (server w) = l1 ++ a :: l2.
Proof. intros (Ha & l1 & l2 & Hw & _)%filter_singleton_split. eauto. Qed.

(** Deleting the one application of that name, which has finalizers. *)
Lemma delete_split time (l1 l2 : list argoprojv1.Application) b :
  NoDup (map app_name (l1 ++ b :: l2)) -> metav1.Finalizers (argoprojv1.ObjectMeta b) <> [] ->
  omap (fun d => if bool_decide (app_name d = app_name b)
    then match metav1.Finalizers (argoprojv1.ObjectMeta d) with [] => None | _ => Some (terminating time d) end
    else Some d) (l1 ++ b :: l2) = l1 ++ terminating time b :: l2.
Proof.
  intros Hn Hf. rewrite map_app in Hn. simpl in Hn. apply NoDup_app in Hn as (_ & Hd & [Hb _]%NoDup_cons).
  assert (forall k, app_name b ∉ map app_name k ->
    omap (fun d => if bool_decide (app_name d = app_name b)
      then match metav1.Finalizers (argoprojv1.ObjectMeta d) with [] => None | _ => Some (terminating time d) end
      else Some d) k = k) as Hid.
  { clear. induction k as [|a k IH]; [done|]. csimpl. rewrite not_elem_of_cons. intros [Ha Hk].
    rewrite bool_decide_false by done. by rewrite IH. }
  rewrite omap_app. csimpl. rewrite bool_decide_true by done. destruct (metav1.Finalizers _) eqn:He; [done|].
  rewrite !Hid; [done|done|]. intros Hin. apply (Hd _ Hin). by left.
Qed.

(** Writing over an application. *)
Lemma patch_write name a temp w :
  inv w -> view name w = [a] -> app_name temp = app_name a -> selected name temp ->
  (exists s x, argo_step (PatchApplication a temp) (server w) s x) /\
  forall w' x, object w' = object w -> argo_step (PatchApplication a temp) (server w) (server w') x ->
    own [Some name] w w' /\ x = (temp, None) /\ view name w' = [temp].
Proof.
  intros Hi Hv Hn Hs. destruct (view_split name w a Hv) as (_ & l1 & l2 & Hw). simpl.
  rewrite bool_decide_true by (rewrite Hw, map_app; set_solver). split; [eauto|].
  intros w' x Ho Hst. apply (f_equal (fun p => (applications p.1, p.2))) in Hst. simpl in Hst.
  rewrite Hw, patch_split in Hst by (rewrite <-Hw; apply Hi). injection Hst as Ha <-.
  destruct (own_replaced name w w' l1 a temp l2) as [Hown Hv']; auto.
Qed.

(** Deleting one that has a finalizer. *)
Lemma delete_write name (a b : argoprojv1.Application) w :
  inv w -> view name w = [b] -> app_name a = app_name b -> metav1.Finalizers (argoprojv1.ObjectMeta b) <> [] ->
  (exists s x, argo_step (DeleteApplication a) (server w) s x) /\
  forall w' x, object w' = object w -> argo_step (DeleteApplication a) (server w) (server w') x ->
    own [Some name] w w' /\ x = None /\ exists c, view name w' = [c] /\ metav1.DeletionTimestamp (argoprojv1.ObjectMeta c) <> None.
Proof.
  intros Hi Hv Hn Hf. destruct (view_split name w b Hv) as (Hb & l1 & l2 & Hw). simpl. rewrite Hn.
  rewrite bool_decide_true by (rewrite Hw, map_app; set_solver). split; [eauto|].
  intros w' x Ho Hst. apply (f_equal (fun p => (applications p.1, p.2))) in Hst. simpl in Hst.
  set (c := terminating (Z.of_nat (generated (server w))) b).
  rewrite Hw, delete_split in Hst; [|by rewrite <-Hw; apply Hi|done].
  injection Hst as Ha <-.
  destruct (own_replaced name w w' l1 b c l2) as [Hown Hv']; auto. split_and!; [done..|]. by exists c.
Qed.

End parts.

(** ** The driver, told what to do with the application of one leaf *)

Section driver.
Context `{Semver} {V O : Type} {F : Type -> Type} `{Object O} `{MapOrder}.
Context (catalogue : string -> forall X, appE V X -> X -> Prop) (other : forall X, F X -> X -> Prop).
Context (yaml_Marshal : V -> result string) (Hyaml : forall v, exists text, yaml_Marshal v = Ok text).
Context (l : gmap string string) (Hl : l !! constants.ApplicationLabel = None) (app_named : string -> string).

Abbreviation triple := (Ownership.triple (provision_step (O := O) catalogue other) (inv l) (keeps l)).
Abbreviation own := (Ownership.own (inv l) (keeps l)).
Abbreviation met := (fun n => present l (app_named n)).
Abbreviation progress := (Convergence.progress met settle).
Abbreviation driven d := (lift (F := provisionE V F) (translate (F := argoE) d)).

(** A leaf did what it was told in [w0]: the world will have it done, and it
    says so when it was done before. *)
Lemma progress_one n up (w0 w : world O) r :
  met n up (settle w) -> (met n up w0 /\ r = None \/ ~ met n up w0 /\ r = Some provisioners.ErrYield) ->
  progress [(n, up)] w0 r w.
Proof.
  intros Hm Hr. split; [by intros ? ? ?%list_elem_of_singleton ?; simplify_eq|].
  destruct Hr as [[Hf ->]|[Hf ->]]; [left|right]; (split; [done|]).
  - by intros ? ? ?%list_elem_of_singleton; simplify_eq.
  - exists n, up. split; [by left|done].
Qed.

Context (w0 : world O) (Hinv : inv l w0) (Hcalm : settle w0 = w0).

(** Where nothing is under way, an application is synced, healthy and staying. *)
Lemma calm_finished name a : view l name w0 = [a] -> finished a = Some a.
Proof.
  intros Hv. pose proof (view_settle l name w0) as Hs. rewrite Hcalm, Hv in Hs. simpl in Hs.
  destruct (finished a) as [b|]; by simplify_eq.
Qed.

Lemma finished_fixed a :
  finished a = Some a -> metav1.DeletionTimestamp (argoprojv1.ObjectMeta a) = None /\
    argoprojv1.Health (argoprojv1.Status a) = Some argoprojv1.Healthy /\ argoprojv1.Sync (argoprojv1.Status a) = Some argoprojv1.Synced.
Proof. unfold finished. destruct (metav1.DeletionTimestamp _); intros Hf; [done|]. injection Hf as <-. done. Qed.

Lemma view_cases name (w : world O) : inv l w -> view l name w = [] \/ exists a, view l name w = [a].
Proof. intros [_ Hv]. specialize (Hv name). destruct (view l name w) as [|a [|b k]]; simpl in *; [by left|eauto|lia]. Qed.

Lemma generate_total id app : exists required, argocd.generateApplication yaml_Marshal id app = Ok required.
Proof.
  unfold argocd.generateApplication. destruct (cd.Values app) as [v|]; [|eauto].
  destruct (Hyaml v) as [text ->]. eauto.
Qed.

(** Asking for the applications of a name. *)
Lemma triple_list {A} name (k : result (list argoprojv1.Application) -> par (provisionE V F) A) Q :
  (forall w : world O, inv l w -> view l name w = view l name w0 ->
    triple [Some name] (fun w' : world O => view l name w' = view l name w0) (k (Ok (view l name w0))) Q) ->
  triple [Some name] (fun w : world O => keeps l (Some name) w0 w)
    (PCall (DriverCall (ListApplications argocd.namespace (argocd.applicationLabels (identifier l name)))) k) Q.
Proof.
  intros Hk. apply (triple_call (fun x (w : world O) => inv l w /\ view l name w = view l name w0 /\ x = Ok (view l name w0))).
  - intros w w1 Hi Hw [Hi1 He]. assert (view l name w1 = view l name w0) as Hv.
    { rewrite Hw. symmetry. apply (He (Some name)). by left. }
    split.
    + exists w1, (Ok (view l name w1)). split; [done|]. simpl. by destruct w1.
    + intros w2 x [Ho Hs]. simpl in Hs. simplify_eq. assert (w2 = w1) as -> by (destruct w1, w2; simpl in *; congruence).
      split; [by apply own_same|]. split_and!; [done|done|]. by rewrite <-Hv.
  - intros x. apply triple_pure. intros w _ (Hi & Hv & ->).
    eapply triple_consequence; [by apply (Hk w)|by intros s _ ->|done].
Qed.

(** A write of the application of a name, and what is left of the program. *)
Lemma triple_write {A X} (name : string) (e : argoE X) (k : X -> par (provisionE V F) A) (P : world O -> Prop) (R : X -> world O -> Prop) Q :
  (forall w, inv l w -> P w -> (exists s x, argo_step e (server w) s x) /\
    forall w' x, object w' = object w -> argo_step e (server w) (server w') x -> own [Some name] w w' /\ R x w') ->
  (forall w w', P w -> keeps l (Some name) w w' -> P w') ->
  (forall x, triple [Some name] (R x) (k x) Q) ->
  triple [Some name] P (PCall (DriverCall e) k) Q.
Proof.
  intros He HP Hk. apply (triple_call R); [|done]. intros w w1 Hi Hw [Hi1 Hen].
  assert (P w1) as Hw1 by (apply (HP w); [done|apply Hen; by left]).
  destruct (He w1 Hi1 Hw1) as [(s & x & Hst) Hall]. split.
  - exists {| object := object w1; server := s |}, x. by split.
  - intros w2 x' [Ho Hs]. by apply Hall.
Qed.

(** The end of a leaf's program. *)
Lemma triple_done n up r (P : world O -> Prop) :
  (forall w w', P w -> keeps l (Some (app_named n)) w w' -> P w') ->
  (forall w, inv l w -> P w -> met n up (settle w)) ->
  (met n up w0 /\ r = None \/ ~ met n up w0 /\ r = Some provisioners.ErrYield) ->
  triple [Some (app_named n)] P (PRet r) (progress [(n, up)] w0).
Proof.
  intros HP Hm Hr. apply triple_ret. intros w w' Hi Hw [Hi' He]. apply progress_one; [|done].
  apply Hm; [done|]. apply (HP w); [done|apply He; by left].
Qed.

Lemma keeps_view name (k : list argoprojv1.Application) (w w' : world O) :
  view l name w = k -> keeps l (Some name) w w' -> view l name w' = k.
Proof. by intros <- ->. Qed.

Lemma present_view name up (k : list argoprojv1.Application) (w : world O) :
  view l name w = k -> present l name up w <-> length k = if up then 1 else 0.
Proof. unfold present. by intros ->. Qed.

Lemma generate_alive id app required :
  argocd.generateApplication yaml_Marshal id app = Ok required ->
  metav1.DeletionTimestamp (argoprojv1.ObjectMeta required) = None.
Proof.
  unfold argocd.generateApplication. destruct (cd.Values app) as [v|]; [destruct (yaml_Marshal v)|]; intros; by simplify_eq.
Qed.

Lemma finished_alive a : metav1.DeletionTimestamp (argoprojv1.ObjectMeta a) = None -> exists b, finished a = Some b.
Proof. unfold finished. intros ->. eauto. Qed.

Lemma string_drop_prefix s t : string_drop (String.length s) (s +:+ t) = t.
Proof. induction s as [|c s IH]; [by destruct t|exact IH]. Qed.

(** There is a free name under every prefix. *)
Lemma created_free a (apps : list argoprojv1.Application) : exists suffix, app_name (created a suffix) ∉ map app_name apps.
Proof.
  set (prefix := argoprojv1.GenerateName a). set (taken := map (fun b => string_drop (String.length prefix) (app_name b)) apps).
  exists (fresh taken). intros (b & Hb & Hin)%list_elem_of_In%in_map_iff. apply (infinite_is_fresh taken).
  apply list_elem_of_In, in_map_iff. exists b. split; [|done]. rewrite Hb. apply string_drop_prefix.
Qed.

(** A driver that found an application in order leaves one in order. *)
Lemma ready_done n app (b : argoprojv1.Application) (P : world O -> Prop) a :
  view l (app_named n) w0 = [a] -> argoprojv1.Status b = argoprojv1.Status a ->
  metav1.DeletionTimestamp (argoprojv1.ObjectMeta b) = None -> (forall w, P w -> view l (app_named n) w = [b]) ->
  (forall w w', P w -> keeps l (Some (app_named n)) w w' -> P w') ->
  triple [Some (app_named n)] P (PRet (argocd.readiness (V := V) app b)) (progress [(n, true)] w0).
Proof.
  intros Hv Hst Hd HP Hk. destruct (finished_fixed a (calm_finished _ _ Hv)) as (_ & Hh & Hs).
  assert (argocd.readiness app b = None) as ->.
  { unfold argocd.readiness. rewrite Hst, Hh, Hs. simpl. rewrite andb_false_r. done. }
  apply triple_done; [done| |].
  - intros w _ Hw. unfold present. rewrite view_settle, (HP _ Hw). destruct (finished_alive b Hd) as [c Hc]. csimpl. by rewrite Hc.
  - left. split; [|done]. by eapply present_view.
Qed.

(** Told to bring an application up, the driver finds it running, or creates it. *)
Lemma driver_up n app :
  triple [Some (app_named n)] (fun w => keeps l (Some (app_named n)) w0 w)
    (driven (argocd.CreateOrUpdateHelmApplication yaml_Marshal (identifier l (app_named n)) app))
    (progress [(n, true)] w0).
Proof.
  set (name := app_named n). destruct (generate_total (identifier l name) app) as [required Hg].
  pose proof (generate_labels _ _ _ _ Hg) as Hlab. pose proof (generate_alive _ _ _ Hg) as Halive.
  unfold argocd.CreateOrUpdateHelmApplication. rewrite Hg. cbn.
  apply (triple_list name). intros w Hi Hv.
  destruct (view_cases name w0 Hinv) as [H0v|[a H0v]]; rewrite H0v; cbn.
  - apply (triple_write name _ _ _ (fun x w => exists b, x = (b, None) /\ view l name w = [b] /\
      metav1.DeletionTimestamp (argoprojv1.ObjectMeta b) = None /\ argoprojv1.Sync (argoprojv1.Status b) = None)).
    + intros w1 Hi1 Hv1. split.
      * destruct (created_free required (applications (server w1))) as [suffix Hfree]. eexists _, _, suffix. eauto.
      * intros w2 x Ho (suffix & Hfree & Hw2 & ->).
        destruct (own_created l Hl name w1 w2 (created required suffix) Hi1 Hv1 Ho) as [Hown Hv2]; [by rewrite Hw2|done| |].
        -- unfold argoprojv1.app_Labels in *. simpl. rewrite Hlab. apply selects_refl.
        -- split; [done|]. by exists (created required suffix).
    + intros w1 w2 Hw1 Hk. by eapply keeps_view.
    + intros x. apply triple_pure. intros w1 _ (b & -> & Hb & Hd & Hs). cbn. unfold argocd.readiness. rewrite Hs. cbn.
      eapply triple_consequence; [apply (triple_done n true _ (fun w => view l name w = [b]))|by intros s _ ->|done].
      * intros w2 w3 Hw2 Hk. by eapply keeps_view.
      * intros w2 _ Hw2. unfold present. rewrite view_settle. fold name. rewrite Hw2. destruct (finished_alive b Hd) as [c Hc]. csimpl. by rewrite Hc.
      * right. split; [|done]. unfold present. fold name. by rewrite H0v.
  - apply (triple_write name _ _ _ (fun x w => x = (argocd.replaceSpec required a, None) /\ view l name w = [argocd.replaceSpec required a])).
    + intros w1 Hi1 Hv1. apply patch_write; [done..|by rewrite replaceSpec_name|].
      rewrite replaceSpec_labels, Hlab. apply selects_refl.
    + intros w1 w2 Hw1 Hk. by eapply keeps_view.
    + intros x. apply triple_pure. intros w1 _ [-> Hb]. cbn.
      eapply triple_consequence; [apply (ready_done n app _ (fun w => view l name w = [argocd.replaceSpec required a]) a)|by intros s _ ->|done];
        try done.
      * by destruct (finished_fixed a (calm_finished _ _ H0v)) as (Hd & _).
      * intros w2 w3 Hw2 Hk. by eapply keeps_view.
Qed.

(** Told to tear one down, it finds none, or has it deleted. *)
Lemma driver_down n :
  triple [Some (app_named n)] (fun w => keeps l (Some (app_named n)) w0 w)
    (driven (argocd.DeleteHelmApplication (identifier l (app_named n)) false)) (progress [(n, false)] w0).
Proof.
  set (name := app_named n). unfold argocd.DeleteHelmApplication. cbn.
  apply (triple_list name). intros w Hi Hv.
  destruct (view_cases name w0 Hinv) as [H0v|[a H0v]]; rewrite H0v; cbn.
  - apply triple_done.
    + intros w2 w3 Hw2 Hk. by eapply keeps_view.
    + intros w2 _ Hw2. unfold present. rewrite view_settle. fold name. by rewrite Hw2.
    + left. split; [|done]. unfold present. fold name. by rewrite H0v.
  - destruct (finished_fixed a (calm_finished _ _ H0v)) as (Hd & _). rewrite Hd. cbn.
    apply (triple_write name _ _ _ (fun x w => x = (argocd.finalize a, None) /\ view l name w = [argocd.finalize a])).
    + intros w1 Hi1 Hv1. destruct (view_split l name w1 a Hv1) as [Ha _]. by apply patch_write.
    + intros w1 w2 Hw1 Hk. by eapply keeps_view.
    + intros x. apply triple_pure. intros w1 _ [-> Hb]. cbn.
      eapply triple_consequence; [apply (triple_write name _ _ (fun w => view l name w = [argocd.finalize a])
        (fun x w => x = None /\ exists c, view l name w = [c] /\ metav1.DeletionTimestamp (argoprojv1.ObjectMeta c) <> None))|
        by intros s _ ->|done].
      * intros w2 Hi2 Hw2. by apply delete_write with (b := argocd.finalize a).
      * intros w2 w3 Hw2 Hk. by eapply keeps_view.
      * intros y. apply triple_pure. intros w2 _ (-> & c & Hc & Hdel). cbn.
        eapply triple_consequence; [apply (triple_done n false _ (fun w => view l name w = [c]))|by intros s _ ->|done].
        -- intros w3 w4 Hw3 Hk. by eapply keeps_view.
        -- intros w3 _ Hw3. unfold present. rewrite view_settle. fold name. rewrite Hw3. cbn. unfold finished.
           destruct (metav1.DeletionTimestamp (argoprojv1.ObjectMeta c)); [done|by destruct Hdel].
        -- right. split; [|done]. unfold present. fold name. by rewrite H0v.
Qed.

End driver.

(** ** Leaves *)

Section leaves.
Context `{Semver} {V Cl O : Type} {F : Type -> Type} `{ManagableResource O} `{MapOrder}.
Context (catalogue : string -> forall X, appE V X -> X -> Prop) (other : forall X, F X -> X -> Prop).
Context (yaml_Marshal : V -> result string) (Hyaml : forall v, exists text, yaml_Marshal v = Ok text).
Context (l : gmap string string) (Hl : l !! constants.ApplicationLabel = None) (app_named : string -> string).

Abbreviation triple := (Ownership.triple (provision_step (O := O) catalogue other) (inv l) (keeps l)).
Abbreviation met := (fun n => present l (app_named n)).
Abbreviation interpreted name m := (lift (interp (fun X => app_handler (F := F) yaml_Marshal name) m)).

(** The call is answered, and only like this. *)
Definition serves (n : string) {X} (e : appE V X) (R : X -> Prop) : Prop :=
  (exists x, catalogue n X e x) /\ forall x, catalogue n X e x -> R x.

(** The getter of a leaf names an application it has the version of, and its
    generator and its hooks work. *)
Record supplied (n : string) (p : application.Provisioner) : Prop := {
  supplied_application : serves n GetApplication (fun x => exists a version v,
    x = Ok (a, version) /\ application_name a = app_named n /\ unikornv1.GetVersion a version = Ok v /\ unikornv1.Repo v <> None);
  supplied_release : application.implements p application.isReleaseNamer = true -> serves n GetReleaseName (fun _ => True);
  supplied_parameters version : application.implements p application.isParamterizer = true ->
    serves n (GetParameters version) (fun x => exists m, x = Ok m);
  supplied_values version : application.implements p application.isValuesGenerator = true ->
    serves n (GetValues version) (fun x => exists v, x = Ok v);
  supplied_metadata version : application.implements p application.isNamespaceLabeler = true ->
    serves n (GetNamespaceMetadata version) (fun x => exists m, x = Ok m);
  supplied_fields version : application.implements p application.isCustomizer = true ->
    serves n (Customize version) (fun x => exists fields, x = Ok fields);
  supplied_post : application.implements p application.isPostProvisionHook = true -> serves n PostProvision (fun x => x = None);
  supplied_pre : application.implements p application.isPreDeprovisionHook = true -> serves n PreDeprovision (fun x => x = None);
}.

(** Not a call of the driver. *)
Definition asking {X} (e : appE V X) : bool :=
  match e with DriverCreateOrUpdate _ _ | DriverDelete _ _ => false | _ => true end.

(** A program that asks the getter and the generator only, and what it makes of
    their answers. *)
Fixpoint asks (n : string) {A} (m : prog (appE V) A) (R : A -> Prop) : Prop :=
  match m with
  | Ret a => R a
  | Call e k => asking e = true /\ (exists x, catalogue n _ e x) /\ forall x, catalogue n _ e x -> asks n (k x) R
  end.

Lemma asks_bind {A B} n (m : prog (appE V) A) (k : A -> prog (appE V) B) R1 R2 :
  asks n m R1 -> (forall a, R1 a -> asks n (k a) R2) -> asks n (mbind k m) R2.
Proof.
  intros Hm Hk. unfold mbind, prog_mbind. induction m as [a|X e k' IH]; simpl in *; [auto|].
  destruct Hm as (He & Hex & Hall). split_and!; auto.
Qed.

Lemma asks_call {A X} n (e : appE V X) (k : X -> prog (appE V) A) R1 R2 :
  asking e = true -> serves n e R1 -> (forall x, R1 x -> asks n (k x) R2) -> asks n (mbind k (call e)) R2.
Proof. intros He [Hex Hall] Hk. cbn. auto. Qed.

Lemma asks_ret {A} n (a : A) (R : A -> Prop) : R a -> asks n (mret a) R.
Proof. done. Qed.

Lemma handler_asking n {X} (e : appE V X) :
  asking e = true -> app_handler (F := F) yaml_Marshal n e = call (AppCall n e).
Proof. by destruct e. Qed.

(** What a leaf asks costs the world nothing. *)
Lemma triple_asks {A B} n (m : prog (appE V) A) (k : A -> prog (appE V) B) R N P Q :
  asks n m R -> (forall w w', P w -> inv l w -> env (inv l) (keeps l) N w w' -> P w') ->
  (forall a, R a -> triple N P (interpreted n (k a)) Q) -> triple N P (interpreted n (mbind k m)) Q.
Proof.
  intros Hm HP Hk. induction m as [a|X e k' IH]; [by apply Hk|]. destruct Hm as (He & Hex & Hall).
  change (mbind k (Call e k')) with (Call e (fun x => mbind k (k' x))). cbn [interp].
  rewrite handler_asking by done.
  apply (triple_call (fun x w => catalogue n _ e x /\ P w)).
  - intros w w1 Hi Hw Hen. pose proof (HP _ _ Hw Hi Hen) as Hw1. destruct Hen as [Hi1 _]. split.
    + destruct Hex as [x Hx]. exists w1, x. by split.
    + intros w2 x [-> Hx]. split; [by apply own_same|done].
  - intros x. apply triple_pure. intros w _ [Hx Hw].
    eapply triple_consequence; [apply (IH x (Hall x Hx))| |done]. by intros s _ ->.
Qed.

Section asked.
Context (n : string) (p : application.Provisioner) (Hsup : supplied n p).

Lemma initialize_asks :
  asks n (application.initialize (V := V)) (fun r => exists v, r = Ok (app_named n, v) /\ unikornv1.Repo v <> None).
Proof.
  unfold application.initialize, attempt. eapply asks_call; [done|apply (supplied_application n p Hsup)|].
  intros x (a & version & v & -> & Hname & Hv & Hr). rewrite Hv. apply asks_ret. exists v. by rewrite <-Hname.
Qed.

(** A hook that may be there. *)
Lemma asks_optional {A X} (b : bool) (e : appE V X) (k : X -> prog (appE V) A) (q : prog (appE V) A) R1 R2 :
  asking e = true -> (b = true -> serves n e R1) -> (forall x, R1 x -> asks n (k x) R2) -> asks n q R2 ->
  asks n (if b then mbind k (call e) else q) R2.
Proof. intros He Hs Hk Hq. destruct b; [|done]. by apply (asks_call n e k R1); auto. Qed.

Lemma asks_optional_call {X} (b : bool) (e : appE V X) (x0 : X) (R : X -> Prop) :
  asking e = true -> (b = true -> serves n e R) -> R x0 -> asks n (if b then call e else mret x0) R.
Proof. intros He Hs Hq. destruct b; [|done]. destruct (Hs eq_refl) as [Hex Hall]. cbn. auto. Qed.

Lemma generate_asks v (ctx : Context Cl O) c :
  unikornv1.Repo v <> None -> ClusterFromContext ctx = Ok c ->
  asks n (application.generateApplication p v ctx) (fun r => exists app, r = Ok app).
Proof.
  intros Hr Hc. unfold application.generateApplication.
  apply (asks_bind n _ _ (fun r => exists x, r = Ok x)).
  { eapply asks_optional; [done|exact (supplied_parameters n p Hsup _)|..]; [intros x [m ->]|]; apply asks_ret; eauto. }
  intros ? [parameters ->]. apply (asks_bind n _ _ (fun r => exists x, r = Ok x)).
  { eapply asks_optional_call; [done|exact (supplied_values n p Hsup _)|eauto]. }
  intros ? [values ->]. unfold application.getClusterID. rewrite Hc. destruct (unikornv1.Repo v) as [repo|]; [|done].
  apply (asks_bind n _ _ (fun _ => True)).
  { eapply asks_optional; [done|exact (supplied_release n p Hsup)|..]; [intros x _|]; by apply asks_ret. }
  intros release _. apply (asks_bind n _ _ (fun r => exists x, r = Ok x)).
  { eapply asks_optional_call; [done|exact (supplied_metadata n p Hsup _)|eauto]. }
  intros ? [[ls ans] ->]. apply (asks_bind n _ _ (fun r => exists x, r = Ok x)).
  { eapply asks_optional_call; [done|exact (supplied_fields n p Hsup _)|eauto]. }
  intros ? [fields ->]. apply asks_ret. eauto.
Qed.

End asked.

Abbreviation part := (fun n => Some (app_named n)).
Abbreviation progress := (Convergence.progress met settle).
Abbreviation obedient := (Convergence.obedient (provision_step catalogue other) (inv l) (keeps l) part met settle).

Section obedience.
Context (n : string) (p : application.Provisioner) (Hsup : supplied n p).
Context (w0 : world O) (Hinv : inv l w0) (Hcalm : settle w0 = w0).
Context (ctx : Context Cl O) (o : O) (c : ClusterContext Cl).
Context (Hkey : resourceKey ctx = Some o) (Ho : ResourceLabels o = Ok l) (Hcluster : ClusterFromContext ctx = Ok c).
Context (Hforeground : BackgroundDeletionFromContext ctx = false).

Lemma keeps_stable N (w w' : world O) :
  (forall k, k ∈ N -> keeps l k w0 w) -> inv l w -> env (inv l) (keeps l) N w w' -> forall k, k ∈ N -> keeps l k w0 w'.
Proof. intros Hw _ [_ He] k Hk. etrans; [by apply Hw|by apply He]. Qed.

Lemma progress_env up r (w w' : world O) :
  progress [(n, up)] w0 r w -> inv l w -> env (inv l) (keeps l) [part n] w w' -> progress [(n, up)] w0 r w'.
Proof.
  intros Hp Hi [Hi' He].
  apply (progress_stable (inv l) (keeps l) part met settle (fun n => present_settle l (app_named n)) [part n] _ w0 r w w'); auto.
  by intros ? ? ?%list_elem_of_singleton; simplify_eq; left.
Qed.

(** What a call of the driver brought forward stays so while the leaf's program ends. *)
Lemma triple_driver {A} (d : prog argoE A) (k : A -> prog (appE V) (option error)) N P (R : A -> world O -> Prop) Q :
  triple N P (lift (F := provisionE V F) (translate (F := argoE) d)) R -> (forall x, triple N (R x) (interpreted n (k x)) Q) ->
  triple N P (lift (mbind (fun x => interp (fun X => app_handler (F := F) yaml_Marshal n) (k x)) (translate d))) Q.
Proof. intros Hd Hk. eapply triple_equiv; [apply pexec_lift_bind|]. apply (triple_bind R); [exact Hd|exact Hk]. Qed.

Lemma triple_progress_ret up r : triple [part n] (progress [(n, up)] w0 r) (PRet r) (progress [(n, up)] w0).
Proof. apply triple_ret. intros w w' Hi Hw He. by eapply progress_env. Qed.

(** A hook whose answer is awaited. *)
Lemma triple_hook {A} (b : bool) (e : appE V (option error)) (k : option error -> prog (appE V) A) P Q :
  asking e = true -> (b = true -> serves n e (fun x => x = None)) ->
  (forall w w', P w -> inv l w -> env (inv l) (keeps l) [part n] w w' -> P w') ->
  triple [part n] P (interpreted n (k None)) Q ->
  triple [part n] P (interpreted n (mbind k (if b then call e else mret None))) Q.
Proof.
  intros He Hs HP Hk. apply (triple_asks n _ _ (fun x => x = None)); [|done|by intros ? ->].
  by eapply asks_optional_call.
Qed.

Lemma provision_obedient :
  triple [part n] (fun w => forall k, k ∈ [part n] -> keeps l k w0 w)
    (interpreted n (application.Provision p ctx)) (progress [(n, true)] w0).
Proof.
  unfold application.Provision, attempt_.
  apply (triple_asks n _ _ _ _ _ _ (initialize_asks n p Hsup)); [intros w w' Hw Hi He; exact (keeps_stable _ w w' Hw Hi He)|].
  intros ? (v & -> & Hrepo). unfold application.getResourceID. rewrite Hkey, Ho. cbn beta iota.
  change (mbind ?k (mret ?a)) with (k a). cbn beta iota.
  apply (triple_asks n _ _ _ _ _ _ (generate_asks n p Hsup v ctx c Hrepo Hcluster)); [intros w w' Hw Hi He; exact (keeps_stable _ w w' Hw Hi He)|].
  intros ? (app & ->). unfold check. change (mbind ?k (call ?e)) with (Call e k). cbn [interp app_handler].
  apply (triple_driver _ _ _ _ (progress [(n, true)] w0)).
  - eapply triple_consequence; [apply (driver_up catalogue other yaml_Marshal Hyaml l Hl app_named w0 Hinv Hcalm n app)| |done].
    intros w _ Hw. apply Hw. by left.
  - intros [err|]; [apply triple_progress_ret|].
    destruct (application.implements p application.isPostProvisionHook) eqn:Hb; [|apply triple_progress_ret].
    apply (triple_asks n (call PostProvision) Ret (fun x => x = None)).
    + destruct (supplied_post n p Hsup Hb) as [Hex Hall]. cbn. auto.
    + apply progress_env.
    + intros ? ->. apply triple_progress_ret.
Qed.

Lemma deprovision_obedient :
  triple [part n] (fun w => forall k, k ∈ [part n] -> keeps l k w0 w)
    (interpreted n (application.Deprovision p ctx)) (progress [(n, false)] w0).
Proof.
  unfold application.Deprovision, check.
  apply triple_hook; [done|apply (supplied_pre n p Hsup)|intros w w' Hw Hi He; exact (keeps_stable _ w w' Hw Hi He)|].
  unfold attempt_.
  apply (triple_asks n _ _ _ _ _ _ (initialize_asks n p Hsup)); [intros w w' Hw Hi He; exact (keeps_stable _ w w' Hw Hi He)|].
  intros ? (v & -> & Hrepo). unfold application.getResourceID. rewrite Hkey, Ho. cbn beta iota.
  change (mbind ?k (mret ?a)) with (k a). cbn beta iota.
  rewrite Hforeground.
  apply (triple_driver (argocd.DeleteHelmApplication (application.resourceID (app_named n) l) false) Ret _ _ (progress [(n, false)] w0)).
  - eapply triple_consequence; [apply (driver_down catalogue other l Hl app_named w0 Hinv Hcalm n)| |done].
    intros w _ Hw. apply Hw. by left.
  - intros r. apply triple_progress_ret.
Qed.

(** A leaf does what it is told. *)
Lemma leaf_obedient : obedient ctx (leaf yaml_Marshal n p) w0.
Proof.
  intros up. split; [by intros ? ? ?%list_elem_of_singleton; simplify_eq; left|].
  destruct up; [apply provision_obedient|apply deprovision_obedient].
Qed.

End obedience.

End leaves.
