(* ===== verification/Lifecycle.v ===== *)
(** * Lifecycle: what repeated reconciles of a resource come to

    Stack says what one reconcile may do, whatever its environment answers.
    This file runs a controller, reconcile after reconcile, in an environment
    that works (World).  Every reconcile brings some application forward or
    finds all of them done (Convergence), so a resource is provisioned, and a
    deleted one gone, after at most one reconcile more than there are
    applications. *)

From S2P Require Import Prelude Errors Effects Kubernetes Conditions Provisioning ProvisioningLog References.
From S2P Require Import Manager Concurrency Combinators CD ArgoCD ArgoCDFacts Application Conversion Stack.
From S2P Require Import Ownership Convergence World.

(** What identifies a resource is in its labels and its specification, neither
    of which taking a finalizer or writing a condition changes. *)
Class SteadyResource (O : Type) `{ManagableResource O} := {
  ResourceLabels_finalizers fs (o : O) : ResourceLabels (SetFinalizers fs o) = ResourceLabels o;
  ResourceLabels_condition now status reason message (o : O) :
    ResourceLabels (SetProvisioningCondition now status reason message o) = ResourceLabels o;
  Paused_finalizers fs (o : O) : Paused (SetFinalizers fs o) = Paused o;
  Paused_condition now status reason message (o : O) :
    Paused (SetProvisioningCondition now status reason message o) = Paused o;
}.

Section lifecycle.
Context `{Semver} {V Cl O : Type} {F : Type -> Type} `{SteadyResource O} `{Kubernetes.Scheme O} `{ControllerUtil}
  `{ApiErrors} `{MapOrder}.

(** The environment. *)
Context (catalogue : string -> forall X, appE V X -> X -> Prop) (other : forall X, F X -> X -> Prop).
Context (yaml_Marshal : V -> result string) (Hyaml : forall v, exists text, yaml_Marshal v = Ok text).
Context (l : gmap string string) (Hl : l !! constants.ApplicationLabel = None) (app_named : string -> string).
Context (decides : provisionE V F bool -> bool).

Abbreviation part := (fun n => Some (app_named n)).
Abbreviation met := (fun n => present l (app_named n)).
Abbreviation step := (controller_step (O := O) catalogue other).
Abbreviation triple := (Ownership.triple step (inv l) (keeps l)).
Abbreviation progress := (Convergence.progress met settle).

(** The controller: the root of its provisioners, and where it runs. *)
Context (T : tree (provisionE V F) (Context Cl O)) (namespace : string) (manager_client : Cl).

(** The applications of the tree go by different names, their getters and
    generators answer, and its conditions are settled. *)
Record workable : Prop := {
  workable_names : NoDup (map app_named (names T));
  workable_leaves q : q ∈ leaves T -> exists p, q = leaf yaml_Marshal (ProvisionerName q) p /\
    supplied catalogue app_named (ProvisionerName q) p;
  workable_conditions c : c ∈ conditions T ->
    decided (provision_step (O := O) catalogue other) (inv l) (keeps l) decides c;
}.

Context (Hwork : workable).

(** All the controller works on. *)
Abbreviation owned := (None :: parts part T).

(** What running the tree brings about. *)
Lemma tree_runs (up : bool) (w0 : world O) o :
  inv l w0 -> settle w0 = w0 -> ResourceLabels o = Ok l ->
  triple (parts part T) (fun w => forall k, k ∈ parts part T -> keeps l k w0 w)
    (embed (direction up (denote T) (reconcile_context namespace manager_client o)))
    (progress (goals decides up T) w0).
Proof.
  intros Hi Hc Ho. apply (triple_embed (provision_step catalogue other)); [done|].
  apply (tree_advances _ _ _ part met settle (fun n => present_settle l (app_named n)) decides _ w0);
    [by split; [|intros n b; rewrite Hc]|].
  split_and!; [unfold parts; rewrite <-map_map; apply NoDup_fmap_2; [apply _|apply Hwork]| |apply Hwork].
  intros q Hq. destruct (workable_leaves Hwork q Hq) as (p & -> & Hs).
  by eapply leaf_obedient.
Qed.

(** ** The manager's calls *)

Abbreviation handled m := (pinterp (fun X => manager_handler (denote T) namespace manager_client) m).
Abbreviation mtriple P m Q := (triple owned P (handled m) Q).

(** A fact about the applications of the tree. *)
Definition of_parts (X : world O -> Prop) : Prop :=
  forall w w', inv l w -> inv l w' -> X w -> (forall k, k ∈ parts part T -> keeps l k w w') -> X w'.

(** The API has [o], and of the applications [X] holds. *)
Definition has (o : option O) (X : world O -> Prop) (w : world O) : Prop := object w = o /\ X w.

Lemma mtriple_bind {A B} P (m : prog (managerE O) A) (k : A -> prog (managerE O) B) R Q :
  mtriple P m R -> (forall a, mtriple (R a) (k a) Q) -> mtriple P (mbind k m) Q.
Proof. intros Hm Hk. eapply triple_equiv; [apply pexec_pinterp_bind|]. apply (triple_bind R); [exact Hm|exact Hk]. Qed.

(** A program that answers [a], whatever it leaves. *)
Lemma mtriple_then {A B} P (m : prog (managerE O) A) (k : A -> prog (managerE O) B) a (R : world O -> Prop) Q :
  mtriple P m (fun x w => x = a /\ R w) -> mtriple R (k a) Q -> mtriple P (mbind k m) Q.
Proof.
  intros Hm Hk. eapply mtriple_bind; [exact Hm|]. intros x. simpl. apply triple_pure. intros w Hi [-> Hw].
  eapply triple_consequence; [exact Hk|by intros s _ ->|done].
Qed.

Lemma has_env o X w w' : of_parts X -> has o X w -> inv l w -> env (inv l) (keeps l) owned w w' -> has o X w'.
Proof.
  intros HX [Ho Hx] Hi [Hi' He]. split.
  - rewrite <-Ho. symmetry. apply (He None). by left.
  - apply (HX w); [done..|]. intros k Hk. apply He. by right.
Qed.

Lemma mtriple_ret {A} (a : A) o X (Q : A -> world O -> Prop) :
  of_parts X -> (forall w, has o X w -> Q a w) -> mtriple (has o X) (mret a) Q.
Proof. intros HX HQ. apply triple_ret. intros w w' Hi Hw He. by eapply HQ, has_env. Qed.

(** The parts of the applications depend on the API server only. *)
Lemma server_keeps (w w' : world O) : server w' = server w -> inv l w -> inv l w' /\ forall n, keeps l (Some n) w w'.
Proof. unfold inv, keeps, view. by intros ->. Qed.

(** A call of the manager's that the API answers: it may write the object. *)
Lemma mtriple_call {A B} (e : managerE O A) (k : A -> prog (managerE O) B) o o' X (R : A -> Prop) Q :
  of_parts X ->
  manager_handler (F := F) (V := V) (denote T) namespace manager_client e = pcall (ManagerCall e) ->
  (forall w, object w = o -> (exists w' x, manager_step e w w' x) /\
    forall w' x, manager_step e w w' x -> server w' = server w /\ object w' = o' /\ R x) ->
  (forall x, R x -> mtriple (has o' X) (k x) Q) -> mtriple (has o X) (Call e k) Q.
Proof.
  intros HX Hh Hst Hk. cbn [pinterp]. rewrite Hh.
  apply (triple_call (fun x w => R x /\ has o' X w)).
  - intros w w1 Hi Hw He. pose proof (has_env _ _ _ _ HX Hw Hi He) as [Ho HXw]. destruct He as [Hi1 _].
    destruct (Hst w1 Ho) as [Hex Hall]. split; [exact Hex|]. intros w2 x Hs2.
    destruct (Hall w2 x Hs2) as (Hserver & Ho2 & Hx). destruct (server_keeps w1 w2 Hserver Hi1) as [Hi2 Hk2].
    assert (forall k, k ∈ parts part T -> keeps l k w1 w2) as Hparts.
    { intros k0 (n & -> & _)%list_elem_of_fmap. apply Hk2. }
    split; [split; [done|]|].
    + intros [n|] Hn; [apply Hk2|]. exfalso. apply Hn. by left.
    + split; [done|]. split; [done|]. by apply (HX w1).
  - intros x. apply triple_pure. intros w _ [Hx Hw].
    eapply triple_consequence; [apply (Hk x Hx)|by intros s _ ->|done].
Qed.


Lemma mtriple_update (o o1 : O) {B} (k : O * option error -> prog (managerE O) B) X Q :
  of_parts X -> mtriple (has (kept o1) X) (k (o1, None)) Q ->
  mtriple (has (Some o) X) (Call (UpdateObject o1) k) Q.
Proof.
  intros HX Hk. apply (mtriple_call _ _ _ (kept o1) _ (fun x => x = (o1, None))); [done|done| |by intros ? ->].
  intros w Ho. simpl. rewrite Ho. split; [eauto|]. by intros w' x [-> ->].
Qed.

Lemma mtriple_status (o o1 : O) {B} (k : O * option error -> prog (managerE O) B) X Q :
  of_parts X -> mtriple (has (Some o1) X) (k (o1, None)) Q ->
  mtriple (has (Some o) X) (Call (UpdateStatus o1) k) Q.
Proof.
  intros HX Hk. apply (mtriple_call _ _ _ (Some o1) _ (fun x => x = (o1, None))); [done|done| |by intros ? ->].
  intros w Ho. simpl. rewrite Ho. split; [eauto|]. by intros w' x [-> ->].
Qed.

Lemma mtriple_log (o : option O) entry {B} (k : unit -> prog (managerE O) B) X Q :
  of_parts X -> mtriple (has o X) (k tt) Q -> mtriple (has o X) (Call (EmitLog entry) k) Q.
Proof.
  intros HX Hk. apply (mtriple_call _ _ _ o _ (fun _ => True)); [done|done| |by intros []].
  intros w Ho. simpl. split; [exists w, tt; done|]. by intros w' x ->.
Qed.

(** The condition a reconcile leaves, and nothing but it. *)
Definition conditioned now err d (o : O) : O :=
  match lifecycleCondition err d with
  | None => o
  | Some s0 =>
    let s := enrichCondition err s0 in
    SetProvisioningCondition now (surface_status s) (surface_reason s) (surface_message s) o
  end.

Lemma handle_condition now (o : O) err d X :
  of_parts X ->
  mtriple (has (Some o) X) (handleReconcileCondition now o err d)
    (fun r w => r = (conditioned now err d o, None) /\ has (Some (conditioned now err d o)) X w).
Proof.
  intros HX. unfold handleReconcileCondition, conditioned. destruct (lifecycleCondition err d) as [s0|].
  - apply (mtriple_status o); [done|]. cbn beta iota.
    destruct (conditionChanged _ _); [|by apply mtriple_ret].
    apply mtriple_log; [done|]. by apply mtriple_ret.
  - by apply mtriple_ret.
Qed.

Lemma progress_parts (up : bool) (w0 : world O) r : of_parts (progress (goals decides up T) w0 r).
Proof.
  intros w w' Hi Hi' Hp Hk.
  apply (progress_stable (inv l) (keeps l) part met settle (fun n => present_settle l (app_named n)) (parts part T) _ w0 r w w'); auto.
  intros n b. exact (goals_parts part decides T up n b).
Qed.

Lemma kept_parts (w0 : world O) : of_parts (fun w => forall k, k ∈ parts part T -> keeps l k w0 w).
Proof. intros w w' _ _ Hw Hk k Hin. etrans; [by apply Hw|by apply Hk]. Qed.

(** A run of the root, on the object the API has. *)
Lemma mtriple_root (up : bool) (w0 : world O) (o : O) :
  inv l w0 -> settle w0 = w0 -> ResourceLabels o = Ok l ->
  mtriple (has (Some o) (fun w => forall k, k ∈ parts part T -> keeps l k w0 w))
    (call (if up then Manager.Provision o else Manager.Deprovision o))
    (fun a w => a.1 = o /\ has (Some o) (progress (goals decides up T) w0 a.2) w).
Proof.
  intros Hi Hc Ho.
  assert (triple owned (has (Some o) (fun w => forall k, k ∈ parts part T -> keeps l k w0 w))
    (embed (direction up (denote T) (reconcile_context namespace manager_client o)))
    (fun r w => has (Some o) (progress (goals decides up T) w0 r) w)) as Ht.
  { eapply triple_consequence; [eapply (triple_subseteq (parts part T ++ [None])); [set_solver|]; 
      apply (triple_frame [None] (fun w => object w = Some o) (tree_runs up w0 o Hi Hc Ho))| |].
    - intros k Hk%list_elem_of_singleton (n & ? & _)%list_elem_of_fmap. by subst.
    - intros w w' _ Hw _ Hk. rewrite <-Hw. symmetry. apply (Hk None). by left.
    - by intros w _ [].
    - by intros r w _ []. }
  pose (R := fun (a : O * option error) w => a.1 = o /\ has (Some o) (progress (goals decides up T) w0 a.2) w).
  assert (forall a : O * option error, triple owned (R a) (PRet a) R) as Hr.
  { intros a. apply triple_ret. intros w w' Hiw [Ha Hw] He. split; [done|]. eapply has_env; [apply progress_parts|done..]. }
  assert (triple owned (has (Some o) (fun w => forall k, k ∈ parts part T -> keeps l k w0 w))
    (r ← embed (direction up (denote T) (reconcile_context namespace manager_client o)); mret (o, r)) R) as Hrun.
  { apply (triple_bind (fun r w => has (Some o) (progress (goals decides up T) w0 r) w)); [exact Ht|].
    intros r. eapply triple_consequence; [apply (Hr (o, r))| |done]. by intros w _. }
  destruct up; (apply (triple_bind R); [exact Hrun|exact Hr]).
Qed.

(** ** One reconcile *)

#[local] Existing Instance reader_self.

(** A resource to provision, and one to delete, that nothing else holds. *)
Definition alive (o : O) : Prop := GetDeletionTimestamp o = None /\ Paused o = false /\ ResourceLabels o = Ok l.

Definition dying (o : O) : Prop :=
  GetDeletionTimestamp o <> None /\ (forall f, f ∈ GetFinalizers o <-> f = constants.Finalizer) /\ ResourceLabels o = Ok l.

(** What a user reads of a resource. *)
Definition shown (o : O) : openapi.ResourceProvisioningStatus := (convertStatusCondition o).1.

Definition finished_result : Result * option error := (done_result, None).
Definition again_result : Result * option error := (yield_result, None).

Lemma alive_conditioned now err d o : alive o -> alive (conditioned now err d o).
Proof.
  unfold alive, conditioned. intros (Hd & Hp & Hlab). destruct (lifecycleCondition err d); [|done].
  unfold GetDeletionTimestamp. by rewrite SetProvisioningCondition_meta, Paused_condition, ResourceLabels_condition.
Qed.

Lemma alive_finalizers fs o : alive o -> alive (SetFinalizers fs o).
Proof.
  unfold alive. intros (Hd & Hp & Hlab). by rewrite GetDeletionTimestamp_set, Paused_finalizers, ResourceLabels_finalizers.
Qed.

Lemma dying_conditioned now err d o : dying o -> dying (conditioned now err d o).
Proof.
  unfold dying, conditioned. intros (Hd & Hf & Hlab). destruct (lifecycleCondition err d); [|done].
  unfold GetDeletionTimestamp, GetFinalizers. by rewrite SetProvisioningCondition_meta, ResourceLabels_condition.
Qed.

Lemma shown_provisioned now o :
  GetDeletionTimestamp o = None -> shown (conditioned now None false o) = openapi.ResourceProvisioningStatusProvisioned.
Proof.
  intros Hd. unfold shown, conditioned, convertStatusCondition, GetDeletionTimestamp. simpl.
  rewrite SetProvisioningCondition_meta. unfold GetDeletionTimestamp in Hd. rewrite Hd. simpl.
  destruct (GetAvailableCondition_set now ConditionTrue ConditionReasonProvisioned "provisioned" o) as (c & -> & _ & -> & _). done.
Qed.

Lemma kept_alive o : alive o -> kept o = Some o.
Proof. intros (Hd & _). unfold kept. by rewrite Hd. Qed.

(** What a reconcile of a resource comes to, [r] being what its tree answered. *)
Definition provisioned_to (w0 : world O) (res : Result * option error) (w : world O) : Prop :=
  exists r o', progress (goals decides true T) w0 r w /\ object w = Some o' /\ alive o' /\
    match r with
    | None => res = finished_result /\ shown o' = openapi.ResourceProvisioningStatusProvisioned
    | Some _ => res = again_result
    end.

Definition deprovisioned_to (w0 : world O) (res : Result * option error) (w : world O) : Prop :=
  exists r, progress (goals decides false T) w0 r w /\
    match r with
    | None => res = finished_result /\ object w = None
    | Some _ => res = again_result /\ exists o', object w = Some o' /\ dying o'
    end.

(** ... and of what the run of its tree is followed by. *)
Lemma mtriple_after_root (up : bool) w0 (o : O) (k : O * option error -> prog (managerE O) (Result * option error)) Q :
  inv l w0 -> settle w0 = w0 -> ResourceLabels o = Ok l ->
  (forall r, mtriple (has (Some o) (progress (goals decides up T) w0 r)) (k (o, r)) Q) ->
  mtriple (has (Some o) (fun w => forall k, k ∈ parts part T -> keeps l k w0 w))
    (mbind k (call (if up then Manager.Provision o else Manager.Deprovision o))) Q.
Proof.
  intros Hi Hc Ho Hk. eapply mtriple_bind; [by apply mtriple_root|]. intros [o1 r]. simpl.
  apply triple_pure. intros w _ [-> Hw]. eapply triple_consequence; [apply (Hk r)|by intros s _ ->|done].
Qed.

Lemma progress_error (up : bool) (w0 w : world O) e :
  progress (goals decides up T) w0 (Some e) w -> e = provisioners.ErrYield.
Proof. intros [_ [[? _]|[? _]]]; by simplify_eq. Qed.

Context (w0 : world O) (Hinv : inv l w0) (Hcalm : settle w0 = w0).

Abbreviation untouched := (fun w => forall k, k ∈ parts part T -> keeps l k w0 w).

Lemma normal_reconciled now o :
  alive o -> mtriple (has (Some o) untouched) (reconcileNormal now o) (provisioned_to w0).
Proof.
  intros Ha. unfold reconcileNormal. destruct (AddFinalizer _ _) as [fs ok] eqn:Hf.
  pose proof (alive_finalizers fs o Ha) as Hfs.
  apply (mtriple_then _ _ _ (SetFinalizers fs o, None) (has (Some (SetFinalizers fs o)) untouched)).
  { destruct ok.
    - apply (mtriple_update o (SetFinalizers fs o) Ret); [apply kept_parts|]. rewrite kept_alive by done.
      apply mtriple_ret; [apply kept_parts|done].
    - assert (SetFinalizers fs o = o) as ->.
      { pose proof (AddFinalizer_same (GetFinalizers o) constants.Finalizer) as Hs. rewrite Hf in Hs.
        simpl in Hs. by rewrite (Hs eq_refl), SetFinalizers_get. }
      apply mtriple_ret; [apply kept_parts|done]. }
  apply (mtriple_after_root true); [done..|apply Hfs|]. intros perr.
  eapply mtriple_then; [apply handle_condition, progress_parts|].
  apply mtriple_ret; [apply progress_parts|]. intros w3 [Ho3 Hp3].
  exists perr, (conditioned now perr false (SetFinalizers fs o)). split_and!; [done|done|by apply alive_conditioned|].
  destruct perr as [e|]; [by rewrite (progress_error _ _ _ _ Hp3)|]. split; [done|]. apply shown_provisioned, Hfs.
Qed.

Lemma dying_unreferenced o : dying o -> GetResourceReferences o = [] /\ metav1.FinalizerDeleteDependents ∉ GetFinalizers o.
Proof.
  intros (_ & Hf & _). split.
  - apply elem_of_nil_inv. intros r [Hr Hn]%elem_of_references. apply Hf in Hr as ->. apply Hn. by left.
  - by rewrite Hf.
Qed.

(** Taking the last finalizer off lets the API remove the object. *)
Lemma kept_released o : dying o ->
  RemoveFinalizer (GetFinalizers o) constants.Finalizer = ([], true) /\ kept (SetFinalizers [] o) = None.
Proof.
  intros (Hd & Hf & _).
  pose proof (RemoveFinalizer_updated (GetFinalizers o) constants.Finalizer) as Hu.
  pose proof (fun g => RemoveFinalizer_elem (GetFinalizers o) constants.Finalizer g) as He.
  destruct (RemoveFinalizer (GetFinalizers o) constants.Finalizer) as [fs ok]. simpl in *.
  assert (fs = []) as ->. { apply elem_of_nil_inv. intros g [Hne Hin]%He. by apply Hf in Hin. }
  split.
  - f_equal. apply Hu, Hf. done.
  - unfold kept. rewrite GetDeletionTimestamp_set, GetFinalizers_set. by destruct (GetDeletionTimestamp o).
Qed.

Lemma delete_reconciled now o :
  dying o -> mtriple (has (Some o) untouched) (reconcileDelete now o) (deprovisioned_to w0).
Proof.
  intros Hdying. destruct (dying_unreferenced o Hdying) as [Hr Hdep]. unfold reconcileDelete.
  rewrite Hr. cbn [length]. rewrite bool_decide_false by lia.
  destruct (ContainsFinalizer _ _) eqn:Hc; [by apply ContainsFinalizer_spec in Hc|].
  apply (mtriple_after_root false); [done..|apply Hdying|]. intros perr.
  eapply mtriple_then; [apply handle_condition, progress_parts|]. cbn beta iota.
  pose proof (dying_conditioned now perr true o Hdying) as Hdying2.
  set (o2 := conditioned now perr true o) in *. unfold finishDelete.
  destruct perr as [e|].
  - destruct (errors_is e provisioners_ErrYield) eqn:Hy; cbn [negb]; (apply mtriple_ret; [apply progress_parts|]);
      intros w [Ho Hp]; pose proof (progress_error _ _ _ _ Hp) as ->; [|done].
    exists (Some provisioners.ErrYield). split_and!; [done|done|eauto].
  - destruct (kept_released o2 Hdying2) as [-> Hk]. cbn beta iota.
    apply (mtriple_update o2 (SetFinalizers [] o2)); [apply progress_parts|]. rewrite Hk. cbn beta iota.
    apply mtriple_ret; [apply progress_parts|]. intros w [Ho Hp]. by exists None.
Qed.

Context (Hnotfound : IsNotFound notFound = true).

(** Reconcile, of what the API has. *)
Lemma reconciled now (o : O) :
  (alive o -> mtriple (has (Some o) untouched) (Reconcile DriverKindArgoCD now) (provisioned_to w0)) /\
  (dying o -> mtriple (has (Some o) untouched) (Reconcile DriverKindArgoCD now) (deprovisioned_to w0)) /\
  mtriple (has None untouched) (Reconcile DriverKindArgoCD now) (fun res w => res = finished_result /\ has None untouched w).
Proof.
  assert (forall B (k : O * option error -> prog (managerE O) B) Q,
    mtriple (has (Some o) untouched) (k (o, None)) Q -> mtriple (has (Some o) untouched) (Call GetObject k) Q) as Hget.
  { intros B k Q Hk. apply (mtriple_call _ _ _ (Some o) _ (fun x => x = (o, None))); [apply kept_parts|done| |by intros ? ->].
    intros w Ho. simpl. rewrite Ho. split; [eauto|]. by intros w' x [-> ->]. }
  split_and!.
  - intros Ha. apply Hget. cbn beta iota. destruct Ha as (Hd & Hp & Hlab). rewrite Hd, Hp. by apply normal_reconciled.
  - intros Hdy. apply Hget. cbn beta iota. pose proof Hdy as (Hd & Hf & _).
    destruct (GetDeletionTimestamp o) as [ts|]; [|done].
    rewrite bool_decide_false; [by apply delete_reconciled|].
    intros Hlen%length_zero_iff_nil. specialize (proj2 (Hf _) eq_refl). rewrite Hlen. by intros ?%elem_of_nil.
  - apply (mtriple_call _ _ _ None _ (fun x => x.2 = Some notFound)); [apply kept_parts|done| |].
    + intros w Ho. simpl. rewrite Ho. split; [exists w, (o, Some notFound); done|]. by intros w' x [-> ->].
    + intros [o1 e]. cbn. intros ->. rewrite Hnotfound. apply mtriple_ret; [apply kept_parts|done].
Qed.

End lifecycle.

(** ** Reconcile after reconcile *)

Section rounds.
Context `{Semver} {V Cl O : Type} {F : Type -> Type} `{SteadyResource O} `{Kubernetes.Scheme O} `{ControllerUtil}
  `{ApiErrors} `{MapOrder}.
Context (catalogue : string -> forall X, appE V X -> X -> Prop) (other : forall X, F X -> X -> Prop).
Context (yaml_Marshal : V -> result string) (Hyaml : forall v, exists text, yaml_Marshal v = Ok text).
Context (l : gmap string string) (Hl : l !! constants.ApplicationLabel = None) (app_named : string -> string).
Context (decides : provisionE V F bool -> bool).
Context (T : tree (provisionE V F) (Context Cl O)) (namespace : string) (manager_client : Cl).
Context (Hwork : workable (O := O) catalogue other yaml_Marshal l app_named decides T).
Context (Hnotfound : IsNotFound notFound = true).
Implicit Types (w : world O) (o : O).

(** A reconcile, in the world, and what Argo CD does before the next one. *)
Definition round (res : Result * option error) w w' : Prop :=
  exists now t w1, pexec (controller (denote T) namespace manager_client DriverKindArgoCD now) t res /\
    play (controller_step catalogue other) w t w1 /\ w' = settle w1.

Definition rounds (n : nat) w w' : Prop := nsteps (fun w1 w2 => exists res, round res w1 w2) n w w'.

(** An application that Argo CD runs as it was told to, and one it does not have. *)
Definition running name w : Prop :=
  exists a, view l name w = [a] /\ argoprojv1.Health (argoprojv1.Status a) = Some argoprojv1.Healthy /\
    argoprojv1.Sync (argoprojv1.Status a) = Some argoprojv1.Synced.

Definition absent name w : Prop := view l name w = [].

Abbreviation met := (fun n => present l (app_named n)).

(** How many applications are not yet as they should be. *)
Definition unmet (up : bool) w : nat :=
  length (base.filter (fun g => ~ met g.1 g.2 w) (goals decides up T)).

Lemma settle_settle w : settle (settle w) = settle w.
Proof.
  unfold settle. simpl. f_equal. unfold with_applications. simpl. f_equal.
  induction (applications (server w)) as [|a apps IH]; [done|]. csimpl.
  destruct (finished a) as [b|] eqn:Hf; [|done]. csimpl.
  assert (finished b = Some b) as ->; [|by rewrite IH].
  unfold finished in Hf. destruct (metav1.DeletionTimestamp _) eqn:Hd; [done|]. injection Hf as <-.
  unfold finished. simpl. by rewrite Hd.
Qed.

Lemma filter_length_le {A} (P Q : A -> Prop) `{forall x, Decision (P x), forall x, Decision (Q x)} (k : list A) :
  (forall x, x ∈ k -> P x -> Q x) -> length (base.filter P k) <= length (base.filter Q k).
Proof.
  intros Hpq. induction k as [|x k IH]; [done|]. rewrite !filter_cons.
  specialize (IH (fun y Hy => Hpq y (list_elem_of_further _ _ _ Hy))). pose proof (Hpq x (list_elem_of_here _ _)).
  destruct (decide (P x)), (decide (Q x)); simpl; try lia. tauto.
Qed.

Lemma filter_length_lt {A} (P Q : A -> Prop) `{forall x, Decision (P x), forall x, Decision (Q x)} (k : list A) y :
  (forall x, x ∈ k -> P x -> Q x) -> y ∈ k -> ~ P y -> Q y -> length (base.filter P k) < length (base.filter Q k).
Proof.
  intros Hpq (k1 & k2 & ->)%list_elem_of_split Hp Hq. rewrite !filter_app, !length_app, filter_cons_False, filter_cons_True by done.
  simpl. pose proof (filter_length_le P Q k1 ltac:(intros; apply Hpq; [set_solver|done])).
  pose proof (filter_length_le P Q k2 ltac:(intros; apply Hpq; [set_solver|done])). lia.
Qed.

(** A run that made progress leaves less to do, or has nothing to do. *)
Lemma progress_unmet up w w1 r :
  progress met settle (goals decides up T) w r w1 ->
  unmet up (settle w1) <= unmet up w /\
  match r with None => unmet up w = 0 | Some _ => unmet up (settle w1) < unmet up w end.
Proof.
  intros [Hm Hr]. assert (forall g, g ∈ goals decides up T -> ~ met g.1 g.2 (settle w1) -> ~ met g.1 g.2 w) as Hle.
  { intros [n b] Hg Hn Hw. apply Hn. by apply Hm. }
  split; [by apply filter_length_le|]. destruct Hr as [[-> Hall]|(-> & n & b & Hin & Hn & Hs)].
  - apply length_zero_iff_nil, elem_of_nil_inv. intros [n b] [Hn Hin]%list_elem_of_filter. apply Hn. by apply Hall.
  - apply (filter_length_lt _ _ _ (n, b)); [done|done|tauto|done].
Qed.

Lemma unmet_zero up w n b : unmet up w = 0 -> (n, b) ∈ goals decides up T -> met n b w.
Proof.
  intros Hz%length_zero_iff_nil Hin. destruct (decide (present l (app_named n) b w)) as [|Hn]; [done|].
  exfalso. apply (not_elem_of_nil (n, b)). rewrite <-Hz. by apply list_elem_of_filter.
Qed.

(** A reconcile of each kind of resource, where nothing is under way. *)
Abbreviation triple_from w P Q := (forall now, triple (controller_step catalogue other) (inv l) (keeps l)
  (None :: parts (fun n => Some (app_named n)) T) P (controller (denote T) namespace manager_client DriverKindArgoCD now) Q).

Lemma round_from w P Q :
  inv l w -> P w -> triple_from w P Q ->
  (exists res w', round res w w') /\
  forall res w', round res w w' -> exists w1, w' = settle w1 /\ inv l w1 /\ Q res w1.
Proof.
  intros Hi HP Ht. split.
  - destruct (proj1 (Ht 0%Z) w w Hi HP) as (t & res & w1 & Hx & Hp); [by apply env_refl; [apply _|]|].
    exists res, (settle w1), 0%Z, t, w1. done.
  - intros res w' (now & t & w1 & Hx & Hp & ->).
    destruct (behaves_play _ _ _ _ _ _ _ _ _ _ _ (proj2 (Ht now)) Hi HP Hx Hp) as (_ & Hi1 & HQ). eauto.
Qed.

Definition calm w : Prop := inv l w /\ settle w = w.

Lemma calm_settle w : inv l w -> calm (settle w).
Proof. intros Hi. split; [by apply inv_settle|apply settle_settle]. Qed.

Lemma round_alive w o :
  calm w -> object w = Some o -> alive l o ->
  (exists res w', round res w w') /\
  forall res w', round res w w' -> calm w' /\ exists o', object w' = Some o' /\ alive l o' /\
    (res = finished_result /\ shown o' = openapi.ResourceProvisioningStatusProvisioned /\ unmet true w = 0 /\ unmet true w' = 0 \/
     res = again_result /\ unmet true w' < unmet true w).
Proof.
  intros [Hi Hc] Ho Ha.
  destruct (round_from w _ _ Hi (conj Ho (fun k _ => reflexivity w)) (fun now => proj1 (reconciled catalogue other yaml_Marshal
    Hyaml l Hl app_named decides T namespace manager_client Hwork w Hi Hc Hnotfound now o) Ha)) as [Hex Hall].
  split; [done|]. intros res w' (w1 & -> & Hi1 & r & o' & Hp & Ho' & Ha' & Hr)%Hall.
  split; [by apply calm_settle|]. exists o'. split_and!; [done..|]. apply progress_unmet in Hp as [Hle Hlt].
  destruct r as [e|]; [by right|]. destruct Hr as [-> Hs]. left. split_and!; [done..|lia].
Qed.

Lemma round_dying w o :
  calm w -> object w = Some o -> dying l o ->
  (exists res w', round res w w') /\
  forall res w', round res w w' -> calm w' /\
    (res = finished_result /\ object w' = None /\ unmet false w' = 0 \/
     res = again_result /\ (exists o', object w' = Some o' /\ dying l o') /\ unmet false w' < unmet false w).
Proof.
  intros [Hi Hc] Ho Ha.
  destruct (round_from w _ _ Hi (conj Ho (fun k _ => reflexivity w)) (fun now => proj1 (proj2 (reconciled catalogue other yaml_Marshal
    Hyaml l Hl app_named decides T namespace manager_client Hwork w Hi Hc Hnotfound now o)) Ha)) as [Hex Hall].
  split; [done|]. intros res w' (w1 & -> & Hi1 & r & Hp & Hr)%Hall.
  split; [by apply calm_settle|]. apply progress_unmet in Hp as [Hle Hlt].
  destruct r as [e|]; [right; destruct Hr as [-> Hr]; eauto|]. destruct Hr as [-> Hs]. left. split_and!; [done..|lia].
Qed.

Lemma round_gone w o :
  calm w -> object w = None ->
  (exists res w', round res w w') /\
  forall res w', round res w w' -> calm w' /\ res = finished_result /\ object w' = None /\ unmet false w' <= unmet false w.
Proof.
  intros [Hi Hc] Ho.
  destruct (round_from w _ _ Hi (conj Ho (fun k _ => reflexivity w)) (fun now => proj2 (proj2 (reconciled catalogue other yaml_Marshal
    Hyaml l Hl app_named decides T namespace manager_client Hwork w Hi Hc Hnotfound now o)))) as [Hex Hall].
  split; [done|]. intros res w' (w1 & -> & Hi1 & -> & Ho1 & Hk)%Hall.
  split; [by apply calm_settle|]. split_and!; [done..|]. apply filter_length_le. intros [n b] Hin Hn Hm. apply Hn. simpl in *.
  apply (present_settle l _ _ w); [done..| |by rewrite Hc]. apply Hk. by eapply (goals_parts (fun n => Some (app_named n))).
Qed.

(** What a resource that is provisioned comes to: its applications are running,
    those of conditions that do not hold are absent, the API shows it as
    provisioned, and a reconcile asks for no other. *)
Definition converged w : Prop :=
  exists o, object w = Some o /\ shown o = openapi.ResourceProvisioningStatusProvisioned /\
    (forall n, (n, true) ∈ goals decides true T -> running (app_named n) w) /\
    (forall n, (n, false) ∈ goals decides true T -> absent (app_named n) w) /\
    forall res w', round res w w' -> res = finished_result.

Lemma calm_running w n : calm w -> met n true w -> running (app_named n) w.
Proof.
  intros [Hi Hc] Hm. unfold running. unfold present in Hm. destruct (view l (app_named n) w) as [|a [|b k]] eqn:Hv; try done.
  exists a. destruct (finished_fixed a (calm_finished l w Hc _ _ Hv)) as (_ & Hh & Hs). done.
Qed.

Lemma goals_length up : length (goals decides up T) = length (leaves T).
Proof.
  revert up. clear. induction T as [p|name k IH|name k IH|name c T' IH] using tree_induction; intros up; simpl; [done| | |auto].
  all: induction IH as [|T1 k1 HT1 _ IHk]; simpl; [done|]; by rewrite !length_app, HT1, IHk.
Qed.

Lemma unmet_bound up w : unmet up w <= length (leaves T).
Proof. rewrite <-(goals_length up). apply length_filter. Qed.

Lemma alive_converges n : forall w o, calm w -> object w = Some o -> alive l o ->
  (exists w', rounds n w w') /\ forall w', rounds n w w' -> unmet true w < n -> converged w'.
Proof.
  induction n as [|n IH]; intros w o Hc Ho Ha.
  { split; [exists w; constructor|lia]. }
  destruct (round_alive w o Hc Ho Ha) as [(res & w1 & Hr) Hall]. split.
  - destruct (Hall res w1 Hr) as (Hc1 & o1 & Ho1 & Ha1 & _). destruct (IH w1 o1 Hc1 Ho1 Ha1) as [(w' & Hw') _].
    exists w'. econstructor; eauto.
  - intros w' Hn Hlt. inversion Hn as [|? ? w2 ? [res2 Hr2] Hn2]; subst.
    destruct (Hall res2 w2 Hr2) as (Hc2 & o2 & Ho2 & Ha2 & Hcase).
    destruct n as [|n]; [|apply (IH w2 o2); [done..|]; destruct Hcase as [(_ & _ & _ & ?)|[_ ?]]; lia].
    inversion Hn2; subst. destruct Hcase as [(-> & Hs & Hz & Hz2)|[_ ?]]; [|lia].
    exists o2. split_and!; [done|done| | |].
    + intros m Hm. apply calm_running; [done|]. by eapply unmet_zero.
    + intros m Hm. by apply nil_length_inv, (unmet_zero true w' m false).
    + intros res3 w3 Hr3. destruct (round_alive w' o2 Hc2 Ho2 Ha2) as [_ Hall2].
      destruct (Hall2 res3 w3 Hr3) as (_ & o3 & _ & _ & [(-> & _)|[_ ?]]); [done|lia].
Qed.

(** What a deleted resource comes to: it is gone, and so are its applications. *)
Definition vanished w : Prop := object w = None /\ forall p, p ∈ leaves T -> absent (app_named (ProvisionerName p)) w.

Lemma goals_down p : p ∈ leaves T -> (ProvisionerName p, false) ∈ goals decides false T.
Proof.
  clear. induction T as [q|name k IH|name k IH|name c T' IH] using tree_induction; simpl.
  - intros ->%list_elem_of_singleton. by left.
  - intros (T1 & HT1 & Hp)%elem_of_concat_map. apply elem_of_concat_map. rewrite Forall_forall in IH. eauto.
  - intros (T1 & HT1 & Hp)%elem_of_concat_map. apply elem_of_concat_map. rewrite Forall_forall in IH. eauto.
  - done.
Qed.

Lemma dying_vanishes (o0 : O) n : forall w, calm w ->
  (object w = None /\ unmet false w = 0) \/ (exists o, object w = Some o /\ dying l o) ->
  (exists w', rounds n w w') /\ forall w', rounds n w w' -> (object w = None \/ unmet false w < n) -> vanished w'.
Proof.
  induction n as [|n IH]; intros w Hc Hw.
  { split; [exists w; constructor|]. intros w' Hn. inversion Hn; subst. intros [Ho|?]; [|lia].
    destruct Hw as [[_ Hz]|(o & Ho' & _)]; [|congruence]. split; [done|]. intros p Hp.
    apply nil_length_inv, (unmet_zero false w' _ false Hz). by apply goals_down. }
  assert ((exists res w', round res w w') /\ forall res w', round res w w' -> calm w' /\
    ((object w' = None /\ unmet false w' = 0) \/
     (exists o, object w = Some o) /\ (exists o', object w' = Some o' /\ dying l o') /\ unmet false w' < unmet false w)) as [(res & w1 & Hr) Hall].
  { destruct Hw as [[Ho Hz]|(o & Ho & Hd)].
    - destruct (round_gone w o0 Hc Ho) as [Hex Hall]. split; [done|]. intros res w' Hr.
      destruct (Hall res w' Hr) as (Hc' & _ & Ho' & Hle). split; [done|left]. split; [done|lia].
    - destruct (round_dying w o Hc Ho Hd) as [Hex Hall]. split; [done|]. intros res w' Hr.
      destruct (Hall res w' Hr) as (Hc' & [(_ & Ho' & Hz)|(_ & Ho' & Hlt)]); (split; [done|]); [by left|right; eauto]. }
  split.
  - destruct (Hall res w1 Hr) as (Hc1 & Hcase). destruct (IH w1 Hc1) as [(w' & Hw') _]; [tauto|].
    exists w'. econstructor; eauto.
  - intros w' Hn Hlt. inversion Hn as [|? ? w2 ? [res2 Hr2] Hn2]; subst.
    destruct (Hall res2 w2 Hr2) as (Hc2 & Hcase). apply (IH w2); [done|tauto|done|].
    destruct Hcase as [[? _]|([o Ho] & _ & Hlt2)]; [by left|right]. destruct Hlt as [?|?]; [congruence|lia].
Qed.

(** C3 Reconciling comes to an end: in an environment that works, whatever is
    there at first, a resource that is neither paused nor being deleted is
    provisioned after at most one reconcile more than its tree has applications,
    however the groups of the tree interleave: the applications it should have
    run, those it should not have are gone, the API shows it as provisioned, and
    a further reconcile asks for no other.  And there are such reconciles. *)
Theorem provisioning_converges w o n :
  inv l w -> object w = Some o -> alive l o -> length (leaves T) < n ->
  (exists w', rounds n (settle w) w') /\ forall w', rounds n (settle w) w' -> converged w'.
Proof.
  intros Hi Ho Ha Hn. destruct (alive_converges n (settle w) o) as [Hex Hall]; [by apply calm_settle|done|done|].
  split; [done|]. intros w' Hw'. apply Hall; [done|]. pose proof (unmet_bound true (settle w)). lia.
Qed.

(** C4 Deleting does, too: a resource being deleted that nothing else refers to is
    gone, its applications before it, after at most one reconcile more than
    there are applications. *)
Theorem deletion_converges w o n :
  inv l w -> object w = Some o -> dying l o -> length (leaves T) < n ->
  (exists w', rounds n (settle w) w') /\ forall w', rounds n (settle w) w' -> vanished w'.
Proof.
  intros Hi Ho Ha Hn. destruct (dying_vanishes o n (settle w)) as [Hex Hall]; [by apply calm_settle|right; eauto|].
  split; [done|]. intros w' Hw'. apply Hall; [done|]. right. pose proof (unmet_bound false (settle w)). lia.
Qed.

End rounds.

(** ** Witnesses: a cluster whose addons are installed together *)

Module witnesses.
Import sample Application.witnesses.

#[local] Existing Instance some_map_order.
#[local] Existing Instance plain_semver.
#[local] Existing Instance reader_self.

#[local] Instance steady : SteadyResource fake.ManagedResource.
Proof.
  split; intros; try done; simpl; unfold fake.ResourceLabels, GetLabels, SetFinalizers; simpl; done.
Defined.

(** Whether the cluster has GPUs. *)
Inductive flagE : Type -> Type :=
| HasGPU : flagE bool.

Definition no_gpu (X : Type) (e : flagE X) : X -> Prop := match e in flagE Y return Y -> Prop with HasGPU => fun x => x = false end.

Definition application_of (n : string) : unikornv1.HelmApplication :=
  {| unikornv1.app_ObjectMeta :=
       {| metav1.Name := "a-1"; metav1.Namespace := "unikorn"; metav1.Generation := 1; metav1.CreationTimestamp := 1;
          metav1.DeletionTimestamp := None; metav1.Labels := {[ constants.NameLabel := n ]}; metav1.Annotations := ∅;
          metav1.Finalizers := [] |};
     unikornv1.app_Versions := [nginx_version] |}.

Definition catalogue (n : string) (X : Type) (e : appE string X) : X -> Prop :=
  match e in appE _ Y return Y -> Prop with
  | GetApplication => fun x => x = Ok (application_of n, "1.2.3")
  | GetParameters _ => fun x => x = Ok {[ "host" := "h" ]}
  | PostProvision | PreDeprovision => fun x => x = None
  | _ => fun _ => False
  end.

Definition addon (n : string) : tree (provisionE string flagE) (Context unit fake.ManagedResource) :=
  Leaf (leaf (fun v => Ok v) n (application.WithGenerator Application.witnesses.hooks application.New)).

Definition cluster : tree (provisionE string flagE) (Context unit fake.ManagedResource) :=
  Serial "cluster" [addon "cni"; Concurrent "addons" [addon "csi"; Conditional "gpu" (OtherCall HasGPU) (addon "gpu-operator")]].

Definition cluster_labels : gmap string string := GetLabels (network [] None).

Lemma cluster_workable :
  workable (O := fake.ManagedResource) catalogue no_gpu (fun v => Ok v) cluster_labels id (fun _ => false) cluster.
Proof.
  split.
  - vm_compute. repeat (constructor; [by rewrite ?elem_of_cons, elem_of_nil; intuition discriminate|]). constructor.
  - assert (forall n, supplied catalogue id n (application.WithGenerator Application.witnesses.hooks application.New)) as Hs.
    { intros n. split; simpl; intros; try discriminate; (split; [eexists; reflexivity|]); simpl; intros ? ->; eauto 10. }
    intros q Hq. exists (application.WithGenerator Application.witnesses.hooks application.New).
    split; [|apply Hs]. repeat (apply elem_of_cons in Hq as [->|Hq]; [reflexivity|]). by apply elem_of_nil in Hq.
  - intros c [->|[]%elem_of_nil]%elem_of_cons w Hi. split; [by exists w, false|]. intros w' x [-> ->]. split; [done|by apply own_same].
Qed.

Definition before (o : fake.ManagedResource) : world fake.ManagedResource :=
  {| object := Some o; server := {| applications := []; secrets := []; ArgoCD.generated := 0 |} |}.

Lemma before_inv o : inv cluster_labels (before o).
Proof. split; [constructor|]. intros n. simpl. lia. Qed.

Lemma provisioning_converges_witness :
  exists w', rounds catalogue no_gpu cluster "default" tt 4 (settle (before (network [] None))) w' /\
    exists a, view cluster_labels "csi" w' = [a] /\ view cluster_labels "gpu-operator" w' = [].
Proof.
  assert (IsNotFound notFound = true) as Hnf by reflexivity.
  destruct (provisioning_converges catalogue no_gpu (fun v => Ok v) (fun v => ex_intro _ v eq_refl) cluster_labels eq_refl id
    (fun _ => false) cluster "default" tt cluster_workable Hnf (before (network [] None)) (network [] None) 4)
    as [[w' Hw'] Hall]; [apply before_inv|reflexivity|by split|vm_compute; lia|].
  exists w'. split; [exact Hw'|]. destruct (Hall w' Hw') as (o & _ & _ & Hr & Ha & _).
  destruct (Hr "csi") as (a & Hv & _); [right; left|]. exists a. split; [exact Hv|]. apply (Ha "gpu-operator"). right; right; left.
Defined.

Lemma deletion_converges_witness :
  exists w', rounds catalogue no_gpu cluster "default" tt 4 (settle (before (network [constants.Finalizer] (Some 9%Z)))) w' /\
    object w' = None.
Proof.
  assert (IsNotFound notFound = true) as Hnf by reflexivity.
  destruct (deletion_converges catalogue no_gpu (fun v => Ok v) (fun v => ex_intro _ v eq_refl) cluster_labels eq_refl id
    (fun _ => false) cluster "default" tt cluster_workable Hnf (before (network [constants.Finalizer] (Some 9%Z)))
    (network [constants.Finalizer] (Some 9%Z)) 4)
    as [[w' Hw'] Hall]; [apply before_inv|reflexivity| |vm_compute; lia|].
  - split; [discriminate|]. split; [|reflexivity]. intros f. apply list_elem_of_singleton.
  - exists w'. split; [exact Hw'|]. apply (Hall w' Hw').
Defined.

End witnesses.
