(* ===== verification/Flags.v ===== *)
(** * Flags: the command lines of controllers and servers

    Models the AddFlags methods of pkg/options/options.go (CoreOptions,
    ServerOptions), pkg/manager/options/options.go and pkg/client/http.go
    (HTTPOptions, HTTPClientOptions) against github.com/spf13/pflag as an
    interface, [Pflag]: a flag set binds names to fields of a struct of options.
    What pflag documents are the laws of [Defining]: defining a flag of a new name
    stores its default and adds the name.  Nothing is said of a name that is
    taken, for which pflag panics: [process_flags] shows that a controller with
    clients of distinct services, and a server, never define one twice, and what
    their options are before a command line is parsed. *)

From S2P Require Import Prelude Errors GoStrings CD Bootstrap HTTPClient.

(** A flag set whose flags are bound to parts of [T], and zap's binding of its
    options to flags; a part is given by how it is updated.  [None] is a panic. *)
Class Pflag (zap_Options T : Type) := {
  FlagSet : Type;
  Names : FlagSet -> list string;
  StringVar : (string -> T -> T) -> string -> string -> option (T * FlagSet) -> option (T * FlagSet);
  Float64Var : (float64 -> T -> T) -> string -> float64 -> option (T * FlagSet) -> option (T * FlagSet);
  DurationVar : (Z -> T -> T) -> string -> Z -> option (T * FlagSet) -> option (T * FlagSet);
  IntVar : (Z -> T -> T) -> string -> Z -> option (T * FlagSet) -> option (T * FlagSet);
  Var : (string -> T -> result T) -> string -> option (T * FlagSet) -> option (T * FlagSet);
  AddZapFlags : ((zap_Options -> zap_Options) -> T -> T) -> option (T * FlagSet) -> option (T * FlagSet);
}.

Arguments FlagSet zap_Options T {_}.

Section options.
Context {zap_Options : Type}.

(** options.CoreOptions, with the logging options Bootstrap leaves out. *)
Record CoreOptions := { core_options : Bootstrap.CoreOptions; Zap : zap_Options }.

Definition set_Namespace (s : string) (o : CoreOptions) : CoreOptions :=
  {| core_options := {| Bootstrap.Namespace := s; OTLPEndpoint := OTLPEndpoint (core_options o);
                        TraceSampingRatio := TraceSampingRatio (core_options o) |}; Zap := Zap o |}.

Definition set_OTLPEndpoint (s : string) (o : CoreOptions) : CoreOptions :=
  {| core_options := {| Bootstrap.Namespace := Bootstrap.Namespace (core_options o); OTLPEndpoint := s;
                        TraceSampingRatio := TraceSampingRatio (core_options o) |}; Zap := Zap o |}.

Definition set_TraceSampingRatio (r : float64) (o : CoreOptions) : CoreOptions :=
  {| core_options := {| Bootstrap.Namespace := Bootstrap.Namespace (core_options o); OTLPEndpoint := OTLPEndpoint (core_options o);
                        TraceSampingRatio := r |}; Zap := Zap o |}.

Definition over_Zap (f : zap_Options -> zap_Options) (o : CoreOptions) : CoreOptions :=
  {| core_options := core_options o; Zap := f (Zap o) |}.

(** CoreOptions.AddFlags, of the core options that are the part [over] of [T]. *)
Definition CoreOptions_AddFlags {T : Type} `{Pflag zap_Options T} (over : (CoreOptions -> CoreOptions) -> T -> T)
    (flags : option (T * FlagSet zap_Options T)) : option (T * FlagSet zap_Options T) :=
  let flags := StringVar (fun s => over (set_Namespace s)) "namespace" "" flags in
  let flags := StringVar (fun s => over (set_OTLPEndpoint s)) "otlp-endpoint" "" flags in
  let flags := Float64Var (fun r => over (set_TraceSampingRatio r)) "trace-sampling-ratio" (Finite (QArith_base.Qmake 0 1)) flags in
  AddZapFlags (fun f => over (over_Zap f)) flags.

(** manager/options.Options. *)
Record Options := { Options_core : CoreOptions; MaxConcurrentReconciles : Z; CDDriver : string }.

Definition over_core (f : CoreOptions -> CoreOptions) (o : Options) : Options :=
  {| Options_core := f (Options_core o); MaxConcurrentReconciles := MaxConcurrentReconciles o; CDDriver := CDDriver o |}.

Definition set_MaxConcurrentReconciles (n : Z) (o : Options) : Options :=
  {| Options_core := Options_core o; MaxConcurrentReconciles := n; CDDriver := CDDriver o |}.

Definition set_CDDriver (kind : string) (o : Options) : Options :=
  {| Options_core := Options_core o; MaxConcurrentReconciles := MaxConcurrentReconciles o; CDDriver := kind |}.

(** Options.AddFlags, of the options that are the part [over] of [T]; [numCPU] is
    runtime.NumCPU. *)
Definition Options_AddFlags {T : Type} `{Pflag zap_Options T} (numCPU : Z) (over : (Options -> Options) -> T -> T)
    (flags : option (T * FlagSet zap_Options T)) : option (T * FlagSet zap_Options T) :=
  let flags := '(o, l) ← flags; Some (over (set_CDDriver cd.DriverKindArgoCD) o, l) in
  let flags := CoreOptions_AddFlags (fun f => over (over_core f)) flags in
  let flags := IntVar (fun n => over (set_MaxConcurrentReconciles n)) "max-concurrency" numCPU flags in
  Var (fun text o =>
    match cd_flag.DriverKindFlag_Set text with Ok kind => Ok (over (set_CDDriver kind) o) | Err err => Err err end) "cd-driver" flags.

(** options.ServerOptions. *)
Record ServerOptions := {
  ListenAddress : string;
  ReadTimeout : Z;
  ReadHeaderTimeout : Z;
  WriteTimeout : Z;
  RequestTimeout : Z;
}.

Definition Second : Z := 1000000000.

Definition ServerOptions_AddFlags {T : Type} `{Pflag zap_Options T} (over : (ServerOptions -> ServerOptions) -> T -> T)
    (f : option (T * FlagSet zap_Options T)) : option (T * FlagSet zap_Options T) :=
  let f := StringVar (fun s => over (fun o => {| ListenAddress := s; ReadTimeout := ReadTimeout o;
    ReadHeaderTimeout := ReadHeaderTimeout o; WriteTimeout := WriteTimeout o; RequestTimeout := RequestTimeout o |}))
    "server-listen-address" ":6080" f in
  let f := DurationVar (fun d => over (fun o => {| ListenAddress := ListenAddress o; ReadTimeout := d;
    ReadHeaderTimeout := ReadHeaderTimeout o; WriteTimeout := WriteTimeout o; RequestTimeout := RequestTimeout o |}))
    "server-read-timeout" Second f in
  let f := DurationVar (fun d => over (fun o => {| ListenAddress := ListenAddress o; ReadTimeout := ReadTimeout o;
    ReadHeaderTimeout := d; WriteTimeout := WriteTimeout o; RequestTimeout := RequestTimeout o |}))
    "server-read-header-timeout" Second f in
  let f := DurationVar (fun d => over (fun o => {| ListenAddress := ListenAddress o; ReadTimeout := ReadTimeout o;
    ReadHeaderTimeout := ReadHeaderTimeout o; WriteTimeout := d; RequestTimeout := RequestTimeout o |}))
    "server-write-timeout" (10 * Second)%Z f in
  DurationVar (fun d => over (fun o => {| ListenAddress := ListenAddress o; ReadTimeout := ReadTimeout o;
    ReadHeaderTimeout := ReadHeaderTimeout o; WriteTimeout := WriteTimeout o; RequestTimeout := d |}))
    "server-request-timeout" (30 * Second)%Z f.

(** client.HTTPOptions, with the service its flags are named after. *)
Record HTTPOptions := { service : string; http : client.HTTPOptions }.

Definition NewHTTPOptions (service : string) : HTTPOptions :=
  {| service := service; http := {| client.ca_host := ""; client.ca_secretNamespace := ""; client.ca_secretName := "" |} |}.

Definition HTTPOptions_AddFlags {T : Type} `{Pflag zap_Options T} (service : string)
    (over : (client.HTTPOptions -> client.HTTPOptions) -> T -> T)
    (f : option (T * FlagSet zap_Options T)) : option (T * FlagSet zap_Options T) :=
  let f := StringVar (fun s => over (fun o => {| client.ca_host := s;
    client.ca_secretNamespace := client.ca_secretNamespace o; client.ca_secretName := client.ca_secretName o |})) (service +:+ "-host") "" f in
  let f := StringVar (fun s => over (fun o => {| client.ca_host := client.ca_host o;
    client.ca_secretNamespace := s; client.ca_secretName := client.ca_secretName o |})) (service +:+ "-ca-secret-namespace") "" f in
  StringVar (fun s => over (fun o => {| client.ca_host := client.ca_host o;
    client.ca_secretNamespace := client.ca_secretNamespace o; client.ca_secretName := s |})) (service +:+ "-ca-secret-name") "" f.

(** 24 hours. *)
Definition defaultClientCertificateReloadInterval : Z := 24 * 3600 * Second.

(** HTTPClientOptions.AddFlags: the names default to what the options hold when
    each flag is defined. *)
Definition HTTPClientOptions_AddFlags {T : Type} `{Pflag zap_Options T} (get : T -> client.HTTPClientOptions)
    (over : (client.HTTPClientOptions -> client.HTTPClientOptions) -> T -> T)
    (f : option (T * FlagSet zap_Options T)) : option (T * FlagSet zap_Options T) :=
  let f := '(o, l) ← f; StringVar (fun s => over (fun o => {| client.secretNamespace := s;
    client.secretName := client.secretName o; client.reloadInterval := client.reloadInterval o |}))
    "client-certificate-namespace" (client.secretNamespace (get o)) (Some (o, l)) in
  let f := '(o, l) ← f; StringVar (fun s => over (fun o => {| client.secretNamespace := client.secretNamespace o;
    client.secretName := s; client.reloadInterval := client.reloadInterval o |}))
    "client-certificate-name" (client.secretName (get o)) (Some (o, l)) in
  DurationVar (fun d => over (fun o => {| client.secretNamespace := client.secretNamespace o;
    client.secretName := client.secretName o; client.reloadInterval := d |}))
    "client-certificate-reload-interval" defaultClientCertificateReloadInterval f.

End options.

Arguments CoreOptions : clear implicits.
Arguments Options : clear implicits.

(** ** Defining flags *)

Section defining.
Context {zap_Options T : Type} `{Pflag zap_Options T}.
Implicit Types (add : option (T * FlagSet zap_Options T) -> option (T * FlagSet zap_Options T)) (names : list string).

(** Defining flags adds these names, when none of them is taken, and leaves the
    options as [f] does. *)
Definition defines add names (f : T -> T) : Prop :=
  forall o flags, (forall n, n ∈ names -> n ∉ Names flags) ->
    exists flags', add (Some (o, flags)) = Some (f o, flags') /\ Names flags' = Names flags ++ names.

Lemma defines_app add1 add2 names1 names2 f1 f2 :
  defines add1 names1 f1 -> defines add2 names2 f2 -> NoDup (names1 ++ names2) ->
  defines (fun s => add2 (add1 s)) (names1 ++ names2) (fun o => f2 (f1 o)).
Proof.
  intros H1 H2 (Hn1 & Hd & Hn2)%NoDup_app o flags Hfree.
  destruct (H1 o flags) as (flags1 & -> & Hf1); [intros n Hn; apply Hfree; set_solver|].
  destruct (H2 (f1 o) flags1) as (flags2 & -> & Hf2).
  { intros n Hn. rewrite Hf1, not_elem_of_app. split; [apply Hfree; set_solver|]. intros Hin. by apply (Hd n). }
  exists flags2. split; [done|]. by rewrite Hf2, Hf1, app_assoc.
Qed.

Lemma defines_nil : defines (fun s => s) [] (fun o => o).
Proof. intros o flags _. exists flags. by rewrite app_nil_r. Qed.

(** One more flag, or group of flags, after what is defined. *)
Lemma defines_then add add1 names names1 names' f f1 g :
  names' = names ++ names1 -> NoDup names' -> defines add names f -> defines add1 names1 f1 ->
  (forall o, g o = f1 (f o)) -> defines (fun s => add1 (add s)) names' g.
Proof.
  intros -> Hn Ha H1 Hg o flags Hfree. rewrite Hg.
  exact (defines_app add add1 names names1 f f1 Ha H1 Hn o flags Hfree).
Qed.

Lemma defines_ext add names f g : (forall o, f o = g o) -> defines add names f -> defines add names g.
Proof. intros Heq Ha o flags Hn. destruct (Ha o flags Hn) as (flags' & -> & Hf). exists flags'. by rewrite Heq. Qed.

(** The options change before the flags are defined. *)
Lemma defines_after add names f (g : T -> T) :
  defines add names f -> defines (fun s => add ('(o, l) ← s; Some (g o, l))) names (fun o => f (g o)).
Proof. intros Ha o flags Hn. exact (Ha (g o) flags Hn). Qed.

(** Several groups of flags, one after the other. *)
Lemma defines_concat {X} (add : X -> option (T * FlagSet zap_Options T) -> option (T * FlagSet zap_Options T))
    (names : X -> list string) (f : X -> T -> T) l :
  (forall x, x ∈ l -> defines (add x) (names x) (f x)) -> NoDup (concat (map names l)) ->
  defines (fun s => foldl (fun s x => add x s) s l) (concat (map names l)) (fun o => foldl (fun o x => f x o) o l).
Proof.
  induction l as [|x l IH]; intros Ha Hn; [apply defines_nil|]. simpl.
  apply (defines_app (add x) (fun s => foldl (fun s x => add x s) s l) _ _ (f x) (fun o => foldl (fun o x => f x o) o l)); [apply Ha; by left| |done].
  apply IH; [intros y Hy; apply Ha; by right|]. by apply NoDup_app in Hn as (_ & _ & Hn).
Qed.

End defining.

(** What pflag and zap document: a flag of a new name is added and its field set
    to the default (Var leaves it), and the names and initial values of zap's. *)
Class Defining (zap_Options T : Type) `{Pflag zap_Options T} := {
  zap_bound : zap_Options -> zap_Options;
  StringVar_defines field name value : defines (StringVar field name value) [name] (field value);
  Float64Var_defines field name value : defines (Float64Var field name value) [name] (field value);
  DurationVar_defines field name value : defines (DurationVar field name value) [name] (field value);
  IntVar_defines field name value : defines (IntVar field name value) [name] (field value);
  Var_defines set name : defines (Var set name) [name] (fun o => o);
  AddZapFlags_defines over :
    defines (AddZapFlags over) ["zap-devel"; "zap-encoder"; "zap-log-level"; "zap-stacktrace-level"; "zap-time-encoding"] (over zap_bound);
}.

Create HintDb flags discriminated.
#[export] Hint Resolve StringVar_defines Float64Var_defines DurationVar_defines IntVar_defines Var_defines defines_nil : flags.

(** Take the last flag of a group off, its names being different by computation. *)
Ltac defines_flag :=
  lazymatch goal with
  | |- defines _ ?names _ =>
    let names0 := eval cbn [removelast] in (removelast names) in
    eapply (defines_then _ _ names0); [reflexivity|try (apply (bool_decide_unpack _); reflexivity)| |eauto with flags|reflexivity]
  end.

(** The names of each group. *)
Definition zap_flags : list string := ["zap-devel"; "zap-encoder"; "zap-log-level"; "zap-stacktrace-level"; "zap-time-encoding"].
Definition core_flags : list string := ["namespace"; "otlp-endpoint"; "trace-sampling-ratio"] ++ zap_flags.
Definition controller_flags : list string := core_flags ++ ["max-concurrency"] ++ ["cd-driver"].
Definition server_flags : list string :=
  ["server-listen-address"; "server-read-timeout"; "server-read-header-timeout"; "server-write-timeout"; "server-request-timeout"].
Definition client_flags : list string :=
  ["client-certificate-namespace"; "client-certificate-name"; "client-certificate-reload-interval"].
Definition http_flags (service : string) : list string :=
  [service +:+ "-host"; service +:+ "-ca-secret-namespace"; service +:+ "-ca-secret-name"].

Definition fixed_flags : list string := controller_flags ++ server_flags ++ client_flags.

(** ** Names of different services are different *)

Definition http_suffixes : list string := ["-host"; "-ca-secret-namespace"; "-ca-secret-name"].

Lemma http_flags_spec service n : n ∈ http_flags service <-> exists x, x ∈ http_suffixes /\ n = service +:+ x.
Proof.
  unfold http_flags, http_suffixes. rewrite !elem_of_cons. split.
  - intros [->|[->|[->|[]%elem_of_nil]]]; eexists; (split; [|done]); rewrite !elem_of_cons; auto.
  - intros (x & Hx & ->). rewrite !elem_of_cons in Hx. set_solver.
Qed.

Lemma suffixes_distinct x y : x ∈ http_suffixes -> y ∈ http_suffixes -> HasSuffix x y \/ HasSuffix y x -> x = y.
Proof.
  assert (Forall (fun x => Forall (fun y => HasSuffix x y = true \/ HasSuffix y x = true -> x = y) http_suffixes) http_suffixes) as Hall
    by (apply (bool_decide_unpack _); reflexivity).
  intros Hx Hy. rewrite !Is_true_true. rewrite Forall_forall in Hall. specialize (Hall x Hx). rewrite Forall_forall in Hall. by apply Hall.
Qed.

(** A name of a service's is not that of another service's. *)
Lemma http_flags_services s1 s2 n : n ∈ http_flags s1 -> n ∈ http_flags s2 -> s1 = s2.
Proof.
  rewrite !http_flags_spec. intros (x & Hx & ->) (y & Hy & Heq).
  pose proof (suffixes_distinct x y Hx Hy (common_suffix _ _ _ _ Heq)) as <-.
  by apply string_append_inj_r in Heq.
Qed.

Lemma http_flags_NoDup service : NoDup (http_flags service).
Proof.
  assert (forall x y, x ∈ http_suffixes -> y ∈ http_suffixes -> service +:+ x = service +:+ y -> x = y) as Hinj.
  { intros x y Hx Hy Heq. by eapply suffixes_distinct, common_suffix. }
  change (http_flags service) with (map (fun x => service +:+ x) http_suffixes).
  assert (NoDup http_suffixes) as Hn by (apply (bool_decide_unpack _); reflexivity). revert Hn Hinj.
  generalize http_suffixes. intros l Hn. induction Hn as [|x l Hx Hn IH]; intros Hinj; [constructor|]. simpl. constructor.
  - intros (y & Heq & Hy)%list_elem_of_fmap. apply Hinj in Heq as ->; [done|by left|by right].
  - apply IH. intros y z Hy Hz. apply Hinj; by right.
Qed.

Lemma http_flags_fixed service n : n ∈ http_flags service -> n ∉ fixed_flags.
Proof.
  rewrite http_flags_spec. intros (x & Hx & ->) Hin.
  assert (HasSuffix (service +:+ x) x = true) as Hs by (apply HasSuffix_true; by exists service).
  revert Hs. revert Hin. generalize (service +:+ x). intros n. revert n. revert x Hx.
  assert (Forall (fun x => Forall (fun n => HasSuffix n x <> true) fixed_flags) http_suffixes) as Hall
    by (apply (bool_decide_unpack _); reflexivity).
  intros x Hx n Hn. rewrite !Forall_forall in Hall. pose proof (Hall x Hx) as Hall'. rewrite Forall_forall in Hall'. by apply Hall'.
Qed.

Lemma services_NoDup services : NoDup services -> NoDup (concat (map http_flags services)).
Proof.
  intros Hn. induction Hn as [|s l Hs Hn IH]; [constructor|].
  change (NoDup (http_flags s ++ concat (map http_flags l))). apply NoDup_app. split; [apply http_flags_NoDup|]. split; [|done].
  intros n Hin (s' & Hs' & Hin')%list_elem_of_In%in_concat. rewrite in_map_iff in Hs'. destruct Hs' as (s2 & <- & Hs2).
  apply list_elem_of_In in Hin', Hs2. by rewrite (http_flags_services s s2 n) in Hs by done.
Qed.

Lemma process_NoDup services : NoDup services -> NoDup ((controller_flags ++ concat (map http_flags services)) ++ client_flags).
Proof.
  intros Hn. assert (forall n, n ∈ concat (map http_flags services) -> n ∉ fixed_flags) as Hfixed.
  { intros n (s & Hs & Hin)%list_elem_of_In%in_concat. rewrite in_map_iff in Hs. destruct Hs as (s' & <- & _).
    apply list_elem_of_In in Hin. by apply (http_flags_fixed s'). }
  assert (NoDup (controller_flags ++ client_flags)) as (Hc & Hd & Hl)%NoDup_app by (apply (bool_decide_unpack _); reflexivity).
  unfold fixed_flags in Hfixed.
  apply NoDup_app. split; [apply NoDup_app; split; [done|split; [|by apply services_NoDup]]|split; [|done]].
  - intros n Hin Hin'. apply (Hfixed n Hin'). rewrite !elem_of_app. auto.
  - intros n [Hin|Hin]%elem_of_app; [by apply Hd|]. intros Hin'. apply (Hfixed n Hin). rewrite !elem_of_app. auto.
Qed.

(** ** What each group defines *)

Section groups.
Context {zap_Options T : Type} `{Defining zap_Options T}.

Lemma defines_core over :
  defines (CoreOptions_AddFlags over) core_flags (fun o =>
    over (over_Zap zap_bound) (over (set_TraceSampingRatio (Finite (QArith_base.Qmake 0 1)))
      (over (set_OTLPEndpoint "") (over (set_Namespace "") o)))).
Proof.
  unfold CoreOptions_AddFlags, core_flags. cbv zeta.
  eapply defines_then; [done|apply (bool_decide_unpack _); reflexivity| |apply AddZapFlags_defines|reflexivity].
  do 3 defines_flag. apply defines_nil.
Qed.

Lemma defines_controller numCPU over :
  defines (Options_AddFlags numCPU over) controller_flags (fun o =>
    over (set_MaxConcurrentReconciles numCPU)
      (over (over_core (over_Zap zap_bound)) (over (over_core (set_TraceSampingRatio (Finite (QArith_base.Qmake 0 1))))
        (over (over_core (set_OTLPEndpoint "")) (over (over_core (set_Namespace "")) (over (set_CDDriver cd.DriverKindArgoCD) o)))))).
Proof.
  unfold Options_AddFlags, controller_flags. cbv zeta. rewrite app_assoc.
  eapply defines_then; [done|apply (bool_decide_unpack _); reflexivity| |apply Var_defines|reflexivity].
  eapply defines_then; [done|apply (bool_decide_unpack _); reflexivity| |apply IntVar_defines|reflexivity].
  eapply defines_ext; [|eapply (defines_after (CoreOptions_AddFlags (fun f => over (over_core f))) _ _ (over (set_CDDriver cd.DriverKindArgoCD))), defines_core].
  reflexivity.
Qed.

Lemma defines_server over :
  defines (ServerOptions_AddFlags over) server_flags (fun o =>
    over (fun o => {| ListenAddress := ListenAddress o; ReadTimeout := ReadTimeout o;
                      ReadHeaderTimeout := ReadHeaderTimeout o; WriteTimeout := WriteTimeout o; RequestTimeout := 30 * Second |})
    (over (fun o => {| ListenAddress := ListenAddress o; ReadTimeout := ReadTimeout o;
                       ReadHeaderTimeout := ReadHeaderTimeout o; WriteTimeout := 10 * Second; RequestTimeout := RequestTimeout o |})
    (over (fun o => {| ListenAddress := ListenAddress o; ReadTimeout := ReadTimeout o;
                       ReadHeaderTimeout := Second; WriteTimeout := WriteTimeout o; RequestTimeout := RequestTimeout o |})
    (over (fun o => {| ListenAddress := ListenAddress o; ReadTimeout := Second;
                       ReadHeaderTimeout := ReadHeaderTimeout o; WriteTimeout := WriteTimeout o; RequestTimeout := RequestTimeout o |})
    (over (fun o => {| ListenAddress := ":6080"; ReadTimeout := ReadTimeout o;
                       ReadHeaderTimeout := ReadHeaderTimeout o; WriteTimeout := WriteTimeout o; RequestTimeout := RequestTimeout o |}) o))))).
Proof. unfold ServerOptions_AddFlags, server_flags. cbv zeta. do 5 defines_flag. apply defines_nil. Qed.

(** The options of a client after its flags are defined. *)
Definition http_default (over : (client.HTTPOptions -> client.HTTPOptions) -> T -> T) (o : T) : T :=
  over (fun o => {| client.ca_host := client.ca_host o; client.ca_secretNamespace := client.ca_secretNamespace o; client.ca_secretName := "" |})
  (over (fun o => {| client.ca_host := client.ca_host o; client.ca_secretNamespace := ""; client.ca_secretName := client.ca_secretName o |})
  (over (fun o => {| client.ca_host := ""; client.ca_secretNamespace := client.ca_secretNamespace o; client.ca_secretName := client.ca_secretName o |}) o)).

Lemma defines_http service over : defines (HTTPOptions_AddFlags service over) (http_flags service) (http_default over).
Proof.
  pose proof (http_flags_NoDup service) as Hn. unfold HTTPOptions_AddFlags, http_flags in *. cbv zeta.
  eapply (defines_then _ _ [service +:+ "-host"; service +:+ "-ca-secret-namespace"]); [done|done| |eauto with flags|reflexivity].
  eapply (defines_then _ _ [service +:+ "-host"]); [done| | |eauto with flags|reflexivity].
  { change (NoDup ([service +:+ "-host"; service +:+ "-ca-secret-namespace"] ++ [service +:+ "-ca-secret-name"])) in Hn.
    by apply NoDup_app in Hn as [Hn _]. }
  eapply (defines_then _ _ []); [done|apply NoDup_singleton|apply defines_nil|eauto with flags|reflexivity].
Qed.

(** A flag whose default is what the options hold. *)
Lemma StringVar_reading (field : string -> T -> T) name (value : T -> string) :
  defines (fun s => '(o, l) ← s; StringVar field name (value o) (Some (o, l))) [name] (fun o => field (value o) o).
Proof. intros o flags Hn. exact (StringVar_defines field name (value o) o flags Hn). Qed.

Lemma defines_client get over :
  defines (HTTPClientOptions_AddFlags get over) client_flags (fun o =>
    over (fun o => {| client.secretNamespace := client.secretNamespace o; client.secretName := client.secretName o;
                      client.reloadInterval := defaultClientCertificateReloadInterval |})
    ((fun o => over (fun c => {| client.secretNamespace := client.secretNamespace c; client.secretName := client.secretName (get o);
                                 client.reloadInterval := client.reloadInterval c |}) o)
    (over (fun c => {| client.secretNamespace := client.secretNamespace (get o); client.secretName := client.secretName c;
                       client.reloadInterval := client.reloadInterval c |}) o))).
Proof.
  unfold HTTPClientOptions_AddFlags, client_flags. cbv zeta.
  eapply (defines_then _ (DurationVar _ _ _) ["client-certificate-namespace"; "client-certificate-name"]);
    [done|apply (bool_decide_unpack _); reflexivity| |apply DurationVar_defines|reflexivity].
  eapply (defines_then _ (fun s => '(o, l) ← s; StringVar _ _ (client.secretName (get o)) (Some (o, l))) ["client-certificate-namespace"]);
    [done|apply (bool_decide_unpack _); reflexivity| | |].
  - apply (StringVar_reading _ _ (fun o => client.secretNamespace (get o))).
  - apply (StringVar_reading _ _ (fun o => client.secretName (get o))).
  - reflexivity.
Qed.

End groups.

(** ** A process *)

(** The options of a controller, the services it talks to and its certificate. *)
Record Process (zap_Options : Type) := {
  controller : Options zap_Options;
  clients : list HTTPOptions;
  certificate : client.HTTPClientOptions;
}.

Arguments controller {_} _.
Arguments clients {_} _.
Arguments certificate {_} _.

Section process.
Context {zap_Options : Type}.
Implicit Types (p : Process zap_Options).

Definition over_controller (f : Options zap_Options -> Options zap_Options) p : Process zap_Options :=
  {| controller := f (controller p); clients := clients p; certificate := certificate p |}.

Definition over_client (i : nat) (f : client.HTTPOptions -> client.HTTPOptions) p : Process zap_Options :=
  {| controller := controller p; clients := alter (fun o => {| service := service o; http := f (http o) |}) i (clients p);
     certificate := certificate p |}.

Definition over_certificate (f : client.HTTPClientOptions -> client.HTTPClientOptions) p : Process zap_Options :=
  {| controller := controller p; clients := clients p; certificate := f (certificate p) |}.

Context `{Defining zap_Options (Process zap_Options)}.

(** The flags of the controller, of each of its clients and of its certificate,
    as manager.Run and the controller's own options add them. *)
Definition process_AddFlags (numCPU : Z) (services : list string)
    (flags : option (Process zap_Options * FlagSet zap_Options (Process zap_Options))) :=
  let flags := Options_AddFlags numCPU over_controller flags in
  let flags := foldl (fun flags x => HTTPOptions_AddFlags x.2 (over_client x.1) flags) flags (imap pair services) in
  HTTPClientOptions_AddFlags certificate over_certificate flags.

(** What a client's defaults leave of a client that has none set. *)
Lemma over_client_fresh i (f : client.HTTPOptions -> client.HTTPOptions) p services :
  clients p = map NewHTTPOptions services -> f (http (NewHTTPOptions "")) = http (NewHTTPOptions "") -> over_client i f p = p.
Proof.
  destruct p as [c l k]. unfold over_client. simpl. intros -> Hf. f_equal.
  apply list_eq. intros j. destruct (decide (i = j)) as [->|Hne]; [|by rewrite list_lookup_alter_ne].
  rewrite list_lookup_alter_eq, list_lookup_fmap. destruct (services !! j); simpl; [|done].
  simpl in Hf. by rewrite Hf.
Qed.

(** What a process has before a command line is parsed. *)
Definition process_defaults (numCPU : Z) p : Process zap_Options :=
  {| controller := {| Options_core := {|
         core_options := {| Bootstrap.Namespace := ""; OTLPEndpoint := ""; TraceSampingRatio := Finite (QArith_base.Qmake 0 1) |};
         Zap := zap_bound (Zap (Options_core (controller p))) |};
       MaxConcurrentReconciles := numCPU; CDDriver := cd.DriverKindArgoCD |};
     clients := clients p;
     certificate := {| client.secretNamespace := client.secretNamespace (certificate p);
                       client.secretName := client.secretName (certificate p);
                       client.reloadInterval := defaultClientCertificateReloadInterval |} |}.

Lemma defines_clients services :
  NoDup services ->
  exists f, defines (fun flags => foldl (fun flags x => HTTPOptions_AddFlags x.2 (over_client x.1) flags) flags (imap pair services))
    (concat (map http_flags services)) f /\
  (forall p, clients p = map NewHTTPOptions services -> f p = p).
Proof.
  intros Hn. set (l := imap pair services).
  assert (concat (map http_flags services) = concat (map (fun x => http_flags x.2) l)) as Hl.
  { f_equal. rewrite <-(map_map snd http_flags). f_equal. symmetry. unfold l. change (snd <$> imap pair services = services).
    rewrite fmap_imap, (imap_ext _ (const id)) by done. by rewrite imap_const, list_fmap_id. }
  eexists. split.
  - rewrite Hl. apply (defines_concat (fun x => HTTPOptions_AddFlags x.2 (over_client x.1)) (fun x => http_flags x.2)
      (fun x => http_default (over_client x.1))).
    + intros x _. apply defines_http.
    + rewrite <-Hl. by apply services_NoDup.
  - simpl. intros p Hp. clearbody l. clear Hl. induction l as [|[i s] l IH]; [done|]. simpl.
    unfold http_default at 2. rewrite !(over_client_fresh _ _ p services) by done. apply IH.
Qed.

(** The options and the flags of a controller with clients of these services. *)
Lemma process_defined numCPU services :
  NoDup services ->
  exists f, defines (process_AddFlags numCPU services) (controller_flags ++ concat (map http_flags services) ++ client_flags) f /\
    forall p, clients p = map NewHTTPOptions services -> f p = process_defaults numCPU p.
Proof.
  intros Hn. destruct (defines_clients services Hn) as (f & Hf & Hid).
  pose proof (process_NoDup services Hn) as Hall. pose proof Hall as (Hall1 & _)%NoDup_app.
  pose proof (defines_app _ _ _ _ _ f (defines_controller numCPU over_controller) Hf Hall1) as H1.
  pose proof (defines_app _ _ _ _ _ _ H1 (defines_client certificate over_certificate) Hall) as H2.
  eexists. split; [rewrite app_assoc; exact H2|].
  intros p Hp. simpl. by rewrite Hid.
Qed.

(** A controller with clients of distinct services adds its flags to an empty set
    without defining one twice, for which pflag would panic, whatever the services
    are called: no service's flag is another service's, the controller's or the
    certificate's.  The set then has those flags in order, and the options their
    defaults: no tracing, one reconcile for each processor, Argo CD, no endpoints,
    the certificate the controller was given and a check for a new one each day. *)
Theorem process_flags numCPU services p flags :
  NoDup services -> clients p = map NewHTTPOptions services -> Names flags = [] ->
  exists flags', process_AddFlags numCPU services (Some (p, flags)) = Some (process_defaults numCPU p, flags') /\
    Names flags' = controller_flags ++ concat (map http_flags services) ++ client_flags.
Proof.
  intros Hn Hp Hflags. destruct (process_defined numCPU services Hn) as (f & Hf & Hdef).
  destruct (Hf p flags) as (flags' & -> & Hnames); [by rewrite Hflags; intros n _ ?%not_elem_of_nil|].
  exists flags'. rewrite Hdef, Hnames, Hflags by done. done.
Qed.

End process.

(** ** Witnesses *)

Module witnesses.

(** A flag set that holds the names defined. *)
Definition define {T} (name : string) (f : T -> T) (s : option (T * list string)) : option (T * list string) :=
  '(o, l) ← s; if decide (name ∈ l) then None else Some (f o, l ++ [name]).

#[export] Instance names_only T : Pflag unit T := {|
  FlagSet := list string;
  Names l := l;
  StringVar field name value := define name (field value);
  Float64Var field name value := define name (field value);
  DurationVar field name value := define name (field value);
  IntVar field name value := define name (field value);
  Var set name := define name (fun o => o);
  AddZapFlags over s :=
    define "zap-time-encoding" (fun o => o) (define "zap-stacktrace-level" (fun o => o) (define "zap-log-level" (fun o => o)
      (define "zap-encoder" (fun o => o) (define "zap-devel" (over (fun z => z)) s))));
|}.

Lemma define_defines {T} name (f : T -> T) : defines (define name f) [name] f.
Proof.
  intros o l Hn. exists (l ++ [name]). simpl. rewrite decide_False; [done|]. apply (Hn name). by left.
Qed.

#[export] Instance names_only_defining T : Defining unit T.
Proof.
  refine {| zap_bound := fun z => z |}; intros; try apply define_defines.
  intros o l Hn. eexists. split; [|reflexivity]. simpl. unfold define. simpl.
  repeat (rewrite decide_False; [simpl|rewrite ?not_elem_of_app; repeat split; first [by apply (bool_decide_unpack _)|apply (Hn _), (bool_decide_unpack _); reflexivity]]).
  by rewrite <-!app_assoc.
Defined.

(** Two services, one of them called as the flags of the other end. *)
Lemma process_flags_witness :
  exists flags', process_AddFlags 8 ["identity"; "identity-ca-secret"]
    (Some ({| controller := {| Options_core := {| core_options := {| Bootstrap.Namespace := "x"; OTLPEndpoint := "y"; TraceSampingRatio := NaN |};
                                                  Zap := tt |}; MaxConcurrentReconciles := 0; CDDriver := "" |};
              clients := map NewHTTPOptions ["identity"; "identity-ca-secret"]; 
              certificate := {| client.secretNamespace := "system"; client.secretName := "client-cert"; client.reloadInterval := 0 |} |}, [])) =
    Some ({| controller := {| Options_core := {| core_options := {| Bootstrap.Namespace := ""; OTLPEndpoint := "";
                                                  TraceSampingRatio := Finite (QArith_base.Qmake 0 1) |}; Zap := tt |};
                              MaxConcurrentReconciles := 8; CDDriver := "argocd" |};
             clients := map NewHTTPOptions ["identity"; "identity-ca-secret"];
             certificate := {| client.secretNamespace := "system"; client.secretName := "client-cert"; client.reloadInterval := 86400000000000 |} |}, flags') /\
    Names flags' = controller_flags ++ ["identity-host"; "identity-ca-secret-namespace"; "identity-ca-secret-name";
      "identity-ca-secret-host"; "identity-ca-secret-ca-secret-namespace"; "identity-ca-secret-ca-secret-name"] ++ client_flags.
Proof.
  edestruct (process_flags 8 ["identity"; "identity-ca-secret"]) as (flags' & Heq & Hn).
  4: { exists flags'. split; [exact Heq|exact Hn]. }
  - apply (bool_decide_unpack _). reflexivity.
  - reflexivity.
  - reflexivity.
Defined.

End witnesses.
