(* ===== verification/Contexts.v ===== *)
(** * Contexts: values under keys of unexported types

    Models the values the packages put in a context.Context, as Go keeps them: a
    chain of pairs, the latest first, whose keys are values of an unexported type
    of each package (pkg/client/context.go, pkg/cd/context.go,
    pkg/manager/context.go, pkg/provisioners/application/context.go,
    pkg/provisioners/remotecluster/context.go).  Almost all keys are zero; what
    tells them apart is their type.  The record of CD.v that the provisioners read
    is what a chain refines: [contexts_refine]. *)

From S2P Require Import Prelude Errors CD.

Module context.

(** A key, as an interface value: its dynamic type and its value. *)
Record key := { key_type : string; key_value : Z }.

#[export] Instance key_eq_dec : EqDecision key.
Proof. solve_decision. Defined.

Section context.
Context {any : Type}.

Inductive Context := Background | WithValue (parent : Context) (k : key) (val : any).

(** Context.Value; nil is [None]. *)
Fixpoint Value (ctx : Context) (k : key) : option any :=
  match ctx with
  | Background => None
  | WithValue parent k' val => if decide (k = k') then Some val else Value parent k
  end.

End context.

Arguments Context : clear implicits.

End context.

Section contexts.
Context {Cl O Driver Manager : Type}.

(** The dynamic types of the values. *)
Inductive any : Type :=
| AnyClient (client : Cl)
| AnyClusterContext (remote : ClusterContext Cl)
| AnyString (s : string)
| AnyDriver (driver : Driver)
| AnyManager (manager : Manager)
| AnyResource (resource : O)
| AnyBool (b : bool).

Implicit Types ctx : context.Context any.

(** pkg/client: the keys are numbered from zero. *)
Definition client_key (iota : Z) : context.key := {| context.key_type := "client.key"; context.key_value := iota |}.
Definition client_provisionerClientKey : context.key := client_key 0.
Definition client_clusterKey : context.key := client_key 1.
Definition client_namespaceKey : context.key := client_key 2.

Definition client_NewContext ctx (client : Cl) : context.Context any :=
  context.WithValue ctx client_provisionerClientKey (AnyClient client).

Definition client_FromContext ctx : result Cl :=
  match context.Value ctx client_provisionerClientKey with
  | Some (AnyClient client) => Ok client
  | _ => Err (Sentinel ErrInvalidContext)
  end.

Definition client_NewContextWithCluster ctx (remote : ClusterContext Cl) : context.Context any :=
  context.WithValue ctx client_clusterKey (AnyClusterContext remote).

Definition client_ClusterFromContext ctx : result (ClusterContext Cl) :=
  match context.Value ctx client_clusterKey with
  | Some (AnyClusterContext remote) => Ok remote
  | _ => Err (Sentinel ErrInvalidContext)
  end.

Definition client_NewContextWithNamespace ctx (namespace : string) : context.Context any :=
  context.WithValue ctx client_namespaceKey (AnyString namespace).

Definition client_NamespaceFromContext ctx : result string :=
  match context.Value ctx client_namespaceKey with
  | Some (AnyString namespace) => Ok namespace
  | _ => Err (Sentinel ErrInvalidContext)
  end.

(** pkg/cd; a failed type assertion panics, [None]. *)
Definition cd_driverKey : context.key := {| context.key_type := "cd.key"; context.key_value := 0 |}.

Definition cd_NewContext ctx (driver : Driver) : context.Context any :=
  context.WithValue ctx cd_driverKey (AnyDriver driver).

Definition cd_FromContext ctx : option Driver :=
  match context.Value ctx cd_driverKey with Some (AnyDriver driver) => Some driver | _ => None end.

(** pkg/manager. *)
Definition manager_contextkey : context.key := {| context.key_type := "manager.contextkeyType"; context.key_value := 0 |}.

Definition manager_NewContext ctx (manager : Manager) : context.Context any :=
  context.WithValue ctx manager_contextkey (AnyManager manager).

Definition manager_FromContext ctx : option Manager :=
  match context.Value ctx manager_contextkey with Some (AnyManager manager) => Some manager | _ => None end.

(** pkg/provisioners/application. *)
Definition application_resourceKey : context.key := {| context.key_type := "application.key"; context.key_value := 0 |}.

Definition application_NewContext ctx (resource : O) : context.Context any :=
  context.WithValue ctx application_resourceKey (AnyResource resource).

Definition application_FromContext ctx : option O :=
  match context.Value ctx application_resourceKey with Some (AnyResource resource) => Some resource | _ => None end.

(** pkg/provisioners/remotecluster. *)
Definition remotecluster_backgroundDeletionKey : context.key := {| context.key_type := "remotecluster.key"; context.key_value := 0 |}.

Definition remotecluster_NewContextWithBackgroundDeletion ctx (backgroundDeletion : bool) : context.Context any :=
  context.WithValue ctx remotecluster_backgroundDeletionKey (AnyBool backgroundDeletion).

Definition remotecluster_BackgroundDeletionFromContext ctx : bool :=
  match context.Value ctx remotecluster_backgroundDeletionKey with Some (AnyBool backgroundDeletion) => backgroundDeletion | _ => false end.

(** ** The record of values *)

(** What code hands down a context. *)
Inductive handed : Type :=
| HandClient (client : Cl)
| HandCluster (remote : ClusterContext Cl)
| HandNamespace (namespace : string)
| HandDriver (driver : Driver)
| HandManager (manager : Manager)
| HandResource (resource : O)
| HandBackgroundDeletion (b : bool).

Definition hand (h : handed) ctx : context.Context any :=
  match h with
  | HandClient x => client_NewContext ctx x
  | HandCluster x => client_NewContextWithCluster ctx x
  | HandNamespace x => client_NewContextWithNamespace ctx x
  | HandDriver x => cd_NewContext ctx x
  | HandManager x => manager_NewContext ctx x
  | HandResource x => application_NewContext ctx x
  | HandBackgroundDeletion x => remotecluster_NewContextWithBackgroundDeletion ctx x
  end.

(** The same on the record, with the driver and the manager beside it. *)
Record values := { record : CD.Context Cl O; driver : option Driver; manager : option Manager }.

Definition record_hand (h : handed) (v : values) : values :=
  let on f := {| record := f (record v); driver := driver v; manager := manager v |} in
  match h with
  | HandClient x => on (fun r => NewContext r x)
  | HandCluster x => on (fun r => NewContextWithCluster r x)
  | HandNamespace x => on (fun r => NewContextWithNamespace r x)
  | HandResource x => on (fun r => NewContextWithResource r x)
  | HandBackgroundDeletion x => on (fun r => NewContextWithBackgroundDeletion r x)
  | HandDriver x => {| record := record v; driver := Some x; manager := manager v |}
  | HandManager x => {| record := record v; driver := driver v; manager := Some x |}
  end.

(** A chain and the values it holds: every reading agrees. *)
Record represents ctx (v : values) : Prop := {
  reads_client : client_FromContext ctx = FromContext (record v);
  reads_cluster : client_ClusterFromContext ctx = ClusterFromContext (record v);
  reads_namespace : client_NamespaceFromContext ctx = NamespaceFromContext (record v);
  reads_resource : application_FromContext ctx = resourceKey (record v);
  reads_deletion : remotecluster_BackgroundDeletionFromContext ctx = BackgroundDeletionFromContext (record v);
  reads_driver : cd_FromContext ctx = driver v;
  reads_manager : manager_FromContext ctx = manager v;
}.

(** A context that anything was handed down in, in any order and any number of
    times, reads as the record after the same: the latest client, cluster,
    namespace, resource, deletion policy, driver and manager, or that there is
    none.  No package's value hides another's, although their keys are equal
    numbers. *)
Theorem contexts_refine (hs : list handed) :
  represents (foldl (fun ctx h => hand h ctx) context.Background hs)
    (foldl (fun v h => record_hand h v) {| record := CD.Background; driver := None; manager := None |} hs).
Proof.
  induction hs as [|h hs IH] using rev_ind; [by split|]. rewrite !foldl_app. simpl.
  destruct IH. destruct h; split; assumption || reflexivity.
Qed.

End contexts.

Arguments any : clear implicits.
