(* ===== verification/TestSupport.v ===== *)
(** * TestSupport: what else the API tests share

    Models SetupViper (pkg/testing/config/loader.go) over the calls of
    github.com/spf13/viper, the providers of contract tests
    (pkg/testing/contract/pact.go) over those of pact-go, and the names of test
    resources (pkg/testing/util/naming.go) over the random strings of
    k8s.io/apimachinery. *)

From S2P Require Import Prelude Errors GoStrings Effects.

(** ** Configuration *)

Module viper.

(** The calls on an instance [H] of viper; [V] is the type of a default. *)
Inductive viperE (H V : Type) : Type -> Type :=
| New : viperE H V H
| SetConfigName (v : H) (name : string) : viperE H V unit
| SetConfigType (v : H) (type : string) : viperE H V unit
| AddConfigPath (v : H) (path : string) : viperE H V unit
| SetDefault (v : H) (key : string) (value : V) : viperE H V unit
| ReadInConfig (v : H) : viperE H V (option error)
| AutomaticEnv (v : H) : viperE H V unit.

Arguments New {H V}.
Arguments SetConfigName {H V} v name.
Arguments SetConfigType {H V} v type.
Arguments AddConfigPath {H V} v path.
Arguments SetDefault {H V} v key value.
Arguments ReadInConfig {H V} v.
Arguments AutomaticEnv {H V} v.

End viper.

Section setup.
Context {H V : Type} `{MapOrder} (as_ConfigFileNotFoundError : error -> bool).
Import viper.

(** A call for each element. *)
Fixpoint each {X} (f : X -> viperE H V unit) (l : list X) : prog (viperE H V) unit :=
  match l with
  | [] => mret tt
  | x :: l' => _ ← call (f x); each f l'
  end.

(** SetupViper; [as_ConfigFileNotFoundError] is errors.As for that type of
    viper's. *)
Definition SetupViper (configName : string) (configPaths : list string) (defaults : gmap string V) :
    prog (viperE H V) (result H) :=
  v ← call New;
  _ ← call (SetConfigName v configName);
  _ ← call (SetConfigType v "env");
  _ ← each (AddConfigPath v) configPaths;
  _ ← each (fun '(key, value) => SetDefault v key value) (map_range defaults);
  err ← call (ReadInConfig v);
  match err with
  | Some err =>
    if negb (as_ConfigFileNotFoundError err) then mret (Err (Wrapped err "error reading config file"))
    else _ ← call (AutomaticEnv v); mret (Ok v)
  | None => _ ← call (AutomaticEnv v); mret (Ok v)
  end.

Lemma exec_each {X} (f : X -> viperE H V unit) l t u :
  exec (each f l) t u <-> t = map (fun x => Ev (f x) tt) l.
Proof.
  revert t. destruct u. induction l as [|x l IH]; intros t; cbn [each map].
  - rewrite exec_mret. tauto.
  - rewrite exec_bind. split.
    + intros (t1 & t2 & [] & -> & ->%exec_call & ->%IH). done.
    + intros ->. exists [Ev (f x) tt], (map (fun x => Ev (f x) tt) l), tt. split; [done|]. rewrite exec_call, IH. done.
Qed.

(** Setting up looks in every path for the named file of variables, knows every
    default before the file is read, and reads the environment last, so that it
    takes precedence.  It fails exactly when the file is there and cannot be read:
    a file that is missing is no error. *)
Theorem setup_viper_exact configName configPaths defaults t r :
  exec (SetupViper configName configPaths defaults) t r <->
  exists v err,
    let failed := match err with Some err => negb (as_ConfigFileNotFoundError err) | None => false end in
    t = [Ev New v; Ev (SetConfigName v configName) tt; Ev (SetConfigType v "env") tt] ++
        map (fun path => Ev (AddConfigPath v path) tt) configPaths ++
        map (fun kv => Ev (SetDefault v kv.1 kv.2) tt) (map_range defaults) ++
        [Ev (ReadInConfig v) err] ++ (if failed then [] else [Ev (AutomaticEnv v) tt]) /\
    r = match err with
        | Some err => if failed then Err (Wrapped err "error reading config file") else Ok v
        | None => Ok v
        end.
Proof.
  assert (forall v : H, map (fun x => Ev ((fun '(key, value) => SetDefault v key value) x) tt) (map_range defaults) =
    map (fun kv => Ev (SetDefault v kv.1 kv.2) tt) (map_range defaults)) as Hd.
  { intros v. apply map_ext. by intros [k x]. }
  unfold SetupViper. split.
  - intros Hx. apply exec_bind in Hx as (t1 & t2 & v & -> & ->%exec_call & Hx).
    apply exec_bind in Hx as (t3 & t4 & [] & -> & ->%exec_call & Hx).
    apply exec_bind in Hx as (t5 & t6 & [] & -> & ->%exec_call & Hx).
    apply exec_bind in Hx as (t7 & t8 & u & -> & ->%exec_each & Hx).
    apply exec_bind in Hx as (t9 & t10 & u2 & -> & ->%exec_each & Hx).
    apply exec_bind in Hx as (t11 & t12 & err & -> & ->%exec_call & Hx).
    rewrite Hd. exists v, err. cbv zeta. destruct err as [err|]; [destruct (as_ConfigFileNotFoundError err)|]; simpl in *; exec_inv; repeat match goal with u : unit |- _ => destruct u end; done.
  - intros (v & err & -> & ->). rewrite <-Hd.
    repeat (apply exec_bind; eexists [_], _, _; split; [reflexivity|split; [by apply exec_call|]]).
    apply exec_bind. eexists _, _, tt. split; [reflexivity|]. split; [by apply exec_each|].
    apply exec_bind. eexists _, _, tt. split; [reflexivity|]. split; [by apply exec_each|].
    apply exec_bind. eexists [_], _, _. split; [reflexivity|]. split; [by apply exec_call|].
    destruct err as [err|]; [destruct (as_ConfigFileNotFoundError err)|]; simpl; by repeat eexists.
Qed.

End setup.

(** ** Contracts *)

Module contract.

Record PactConfig := { Consumer : string; Provider : string; PactDir : string }.

(** The calls of pact-go; [P2] and [P4] are its providers. *)
Inductive pactE (P2 P4 : Type) : Type -> Type :=
| SetLogLevel (level : string) : pactE P2 P4 (option error)
| NewV2Pact (config : PactConfig) : pactE P2 P4 (result P2)
| consumer_NewV4Pact (config : PactConfig) : pactE P2 P4 (result P4).

Arguments SetLogLevel {P2 P4} level.
Arguments NewV2Pact {P2 P4} config.
Arguments consumer_NewV4Pact {P2 P4} config.

Section contract.
Context {P2 P4 : Type}.

Definition NewPact (config : PactConfig) : prog (pactE P2 P4) (result P2) :=
  err ← call (SetLogLevel "ERROR");
  match err with
  | Some err => mret (Err (Wrapped err "setting pact log level"))
  | None =>
    r ← call (NewV2Pact {| Consumer := Consumer config; Provider := Provider config; PactDir := PactDir config |});
    match r with
    | Err err => mret (Err (Wrapped err "creating pact provider"))
    | Ok pact => mret (Ok pact)
    end
  end.

Definition NewV4Pact (config : PactConfig) : prog (pactE P2 P4) (result P4) :=
  err ← call (SetLogLevel "ERROR");
  match err with
  | Some err => mret (Err (Wrapped err "setting pact log level"))
  | None =>
    r ← call (consumer_NewV4Pact {| Consumer := Consumer config; Provider := Provider config; PactDir := PactDir config |});
    match r with
    | Err err => mret (Err (Wrapped err "creating pact provider"))
    | Ok pact => mret (Ok pact)
    end
  end.

(** A provider is made of the configuration given, after the log is quiet, or
    the error of the call that failed is answered, and nothing is tried after
    it. *)
Theorem new_pact_exact config t r :
  exec (NewPact config) t r <->
  (exists err, t = [Ev (SetLogLevel "ERROR") (Some err)] /\ r = Err (Wrapped err "setting pact log level")) \/
  (exists a, t = [Ev (SetLogLevel "ERROR") None; Ev (NewV2Pact config) a] /\
    r = match a with Ok pact => Ok pact | Err err => Err (Wrapped err "creating pact provider") end).
Proof.
  destruct config as [c p d]. unfold NewPact. simpl. split.
  - intros Hx. exec_inv; eauto 10.
  - intros [(err & -> & ->)|(a & -> & ->)]; hnf; do 2 eexists; (split; [reflexivity|]); [done|].
    do 2 eexists. split; [reflexivity|]. by destruct a.
Qed.

End contract.
End contract.

(** ** Names *)

(** The random strings of k8s.io/apimachinery. *)
Inductive randE : Type -> Type := rand_String (n : nat) : randE string.

Definition GenerateRandomName (prefix : string) : prog randE string :=
  randomStr ← call (rand_String 8);
  mret (prefix +:+ "-" +:+ randomStr).

Definition GenerateTestID : prog randE string := GenerateRandomName "test".

(** A name is its prefix and the string drawn, and two runs answer the same name
    only when they drew the same string. *)
Theorem random_names_injective prefix t1 t2 n :
  exec (GenerateRandomName prefix) t1 n -> exec (GenerateRandomName prefix) t2 n ->
  (exists s, t1 = [Ev (rand_String 8) s] /\ n = prefix +:+ "-" +:+ s) /\ t1 = t2.
Proof.
  assert (forall t m, exec (GenerateRandomName prefix) t m ->
    exists s, t = [Ev (rand_String 8) s] /\ m = prefix +:+ "-" +:+ s) as Hx.
  { unfold GenerateRandomName. intros t m Hx. exec_inv. eauto. }
  intros (s1 & -> & ->)%Hx (s2 & -> & Heq)%Hx. apply string_app_inj, (string_app_inj "-") in Heq as ->. eauto.
Qed.
